(* ===== verification/_CoqProject ===== *)
-Q . S2P
Prelude.v
Progress.v
Errno.v
CString.v
Diagnostics.v
PathMap.v
PathRace.v
Proc.v
Sockets.v
SocketRace.v
Epolls.v
StartupRace.v
EpollRace.v
EpollClosed.v
Threads.v
Pthread.v
Files.v
Unistd.v
Aio.v
AioRace.v
Poll.v
Uuid.v
Clock.v
Semaphore.v
Timed.v
Signal.v
Fnmatch.v
Stdio.v
Stdlib_c.v
Dirent.v
Mman.v
Sched.v
Strings_c.v
Digest.v
Ifaddrs.v
Netdb.v
Stat.v
Misc.v
SignalWorker.v
KillTool.v
Locks.v
Once.v
RaceProgress.v
Getopt.v
GetoptPermute.v
GetoptProofs.v
GetoptSpec.v
Queue.v
QueueProofs.v
QueueLoops.v
QueueDebug.v
UnitTests.v
