(* ===== verification/Prelude.v ===== *)
(** * WPDK: a verification library for the Windows Platform Development Kit

    WPDK (src/) gives programs written for Linux the POSIX interfaces they use,
    on top of the Windows API, Winsock and the C runtime.  Every function
    [wpdk_f] of src/src implements [f]; errors are reported through errno.  This
    library models those functions and proves what they promise.

    ** The parts and how they interact

    error.c converts Windows and Winsock error codes to errno and is used by
    every other part.  fcntl.c translates POSIX paths with a table of directory
    prefixes, which dirent.c, stat.c, stdio.c, stdlib.c and unistd.c use; it opens
    files and keeps byte-range locks.  Descriptors come in three disjoint ranges:
    those of the C runtime, sockets (socket.c, from 0x10000) and epoll instances
    (epoll.c, from 0x20000); unistd.c and uio.c dispatch on the range; poll.c,
    select.c and epoll.c look up the handles of sockets.  pthread.c keeps the
    table of joinable threads; semaphore.c and the timed waits use the clock of
    time.c; aio.c keeps the event ring of an asynchronous context.  signal.c keeps
    the table of actions the C runtime's handler consults; its worker thread
    receives the signals of other processes, which [kill] and the tool kill.c
    send through named events.  invalid.c, pthread.c and signal.c initialise
    themselves on first use.  fnmatch.c, getopt.c and queue.h are self-contained
    algorithms; the other files adapt one interface each.

    ** The files

    - Prelude (this file): machine integers with their wrap-around ([CInt]), the
      state monad of C functions with its triples and frame rules ([CMonad]),
      bounded search ([Scan]), counting ([Tally]), hint databases and tactics.
    - Errno: error.c; [wpdk_convert_to_posix] as the tables of its switch, and
      the interface [HasErrno] the other parts report errors through.
    - CString: NUL-terminated strings.  Diagnostics: log.c and fatal.c.
    - Progress: two classes of step systems and when their threads come to an end.
      RaceProgress: their instances, the races of the files below.
    - PathMap: the path map of fcntl.c ([wpdk_init_map], [wpdk_get_path],
      [wpdk_copy_path]).  PathRace: threads interleaving in its construction.
    - Proc: [proc], the static variables of the descriptor layer and errno, and
      the class [Winsock] of the calls it makes, with [WinsockLaws].
    - Sockets: every function of socket.c.  SocketRace: threads interleaving on
      its table.  StartupRace: threads interleaving in [wpdk_socket_startup].
    - Epolls: every function of epoll.c.  EpollRace: threads that create and close
      instances, with the memory they use.  EpollClosed: closing a watched socket.
    - Threads: the table of threads of pthread.c, its heap and the interleavings
      of its locked functions.  Pthread: the rest of pthread.c.  Locks: threads
      interleaving on its mutexes and spin locks.  Once: the initialisation on
      first use of invalid.c, pthread.c and signal.c, under all interleavings.
    - Files: [wpdk_open], [wpdk_fcntl], the locks of fcntl.c, flock and lockf.
      Unistd: unistd.c and uio.c.  Stat: stat.c and the modes of sys/stat.h.
      Dirent: dirent.c.  Stdio: stdio.c.  Mman: mman.c.
    - Aio: aio.c and libaio.h.  AioRace: threads that submit to one context.  Poll: poll.c and select.c.
    - Uuid: uuid.c.  Clock: time.c and resource.c.  Semaphore: semaphore.c.  Timed: the
      waits of pthread.c and semaphore.c until an absolute time, with the conversion.
    - Signal: signal.c.  SignalWorker: its worker and the events between
      processes.  KillTool: tools/kill/kill.c.
    - Fnmatch: fnmatch.c, with the relation that says what a pattern means.
    - Getopt: getopt.c.  GetoptPermute: its rotation of the argument vector.
      GetoptProofs: its invariant.  GetoptSpec: the grammar of short options.
    - Queue: the macros of sys/queue.h over an explicit memory.  QueueProofs: the
      sequences they implement.  QueueLoops: the loops that continue, and the
      consistency checks.  QueueDebug: the build that overwrites removed links.
    - UnitTests: assertions of src/test/unit evaluated on the model.
    - Stdlib_c: stdlib.c.  Strings_c: string.c and strings.c.  Sched: the CPU
      sets of sched.h.  Digest: md5.c.  Ifaddrs: ifaddrs.c and ioctl.c.  Netdb:
      netdb.c.  Misc: termios.c, pwd.c, regex.c, wait.c, syslog.c and inet.c.

    ** How the code is modelled

    A C function is a Rocq function with its name.  A function with effects is
    in the monad [C S]: it takes the state and returns its result with the new
    state, every branch and early return included.  The state is the record of
    the static variables the source keeps, with errno and a type [W] for Windows.
    Calls into Windows and the C runtime are fields of a class over [W]
    ([Winsock], [FileApi], [StatApi], [DirApi], [StdioApi], [TempApi], [MapApi],
    [ThreadApi], [SysApi], [AioApi], [Select], [ClockApi], [SemApi], [IfApi],
    [ProcessApi], [Cryptdll], [UuidRuntime]) or, where one result is all that
    matters, an argument.  What a theorem needs of them is a class of laws (the
    classes named [...Laws]) or a hypothesis stating documented behaviour; each
    such theorem has a witness that runs it on a concrete instance.  Integers are
    [Z] with the conversions of the source written out; pointers that may be NULL
    are options; a read outside an array, a use of a freed object or a double
    free is an explicit outcome, and theorems say when it cannot happen.
    [wpdk_set_invalid_handler], the first call of many functions, concerns only
    the handler modelled in Once and is left out elsewhere; so are warnings and
    [WPDK_UNIMPLEMENTED] (Diagnostics), which does nothing in a normal build.

    ** What the theorems show

    - Concurrency: no interleaving of socket creation and closing shares or
      double-closes a handle, and none is lost but those closesocket refuses to
      close (SocketRace); the socket layer is started exactly once, with one table
      (StartupRace); epoll instances are neither leaked nor freed twice, and their
      creation stores to an allocated instance unless a close comes before it has
      returned (EpollRace); requests in flight are counted exactly, whatever becomes
      of them (AioRace); a thread that looks up a path finds the complete map, that of
      [wpdk_init_map] (PathRace); no interleaving of thread creation, start, exit, join
      and detach uses freed memory or leaks an object, unless thread 0 is detached
      while a thread is being created, and join returns the result (Threads); at most one
      thread holds a lock, and a lock call waits exactly while another does (Locks); a
      thread that returns from an initialisation finds it complete, also through
      the flag (Once); the answers of gai_strerror are the messages of their codes and
      stay what they were (Netdb).
    - Progress: the lock-free calls end after a bounded number of their own
      accesses, whatever other threads do; those that wait for a lock, for an
      initialisation or repeat an exchange end when the threads run in turns
      (RaceProgress).
    - Tables: every sequence of socket calls keeps the table invariant, the lowest
      free descriptor is used, closing affects one descriptor (Sockets); epoll_ctl
      refines a finite map and epoll_wait reports exactly ready sockets while its
      rotating index is in the array (Epolls); poll asks select for exactly what its entries
      ask for and reports exactly what it found (Poll); descriptors partition into
      their kinds and close is isolated (Unistd).
    - Algorithms against a specification: the matcher decides the meaning of
      patterns and always ends (Fnmatch); the option parser delivers a derivation
      of its grammar (when it does not permute), permutes stably, stays inside the vector and says where it
      ended, for option letters other than the byte 0xFF (Getopt files);
      every series of queue macros implements the series on sequences, and the
      loops visit what they should, also while removing (Queue files).
    - Refinement: semaphores are counters (Semaphore), the aio ring is a queue
      and a vectored request settles once (Aio), fd_set, sigset and cpu_set_t
      are sets (Poll, Signal, Sched), digest contexts are streams of their own data, with
      pieces cut to their length modulo 4 GiB (Digest).
    - Signals: handlers are called as their flags ask (Signal); signals sent by
      other processes reach the handler once, up to one that exits the process
      (SignalWorker); what the kill tool does to a process (KillTool).
    - Functional behaviour and bounds: longest-prefix path translation, root files and
      mappings that never apply included, and its termination (PathMap), lock ranges
      (Files), what writev writes, in order and without gaps, and termination of usleep
      (Unistd), lines read, for a delimiter other than NUL, are the lines of the input (Stdio), directory listings and rewinding (Dirent), mapping and unmapping
      (Mman), interface lists and their memory (Ifaddrs), clocks and time-outs
      (Clock), timed waits, which end no earlier than a millisecond and the clock's resolution
      before their time (Timed), round trips of attributes, names and uuids (Pthread, Uuid), modes
      (Stat), totality of the error conversion (Errno).
    - Where the code departs from what it means to do, a theorem says how:
      [get_path_root_dangling], [epoll_wait_out_of_bounds], [lock_range_overflows],
      the overflow branch of [task_done_queue], [sigterm_never_escalates],
      [sigkill_exit_status], [detach_zero_frees], [create_crashes], [letter_ff], the refused handles of
      [socket_race_safe], [mode_bits], [ring_loses_event], [warnings_written],
      [closed_socket_watched], [delay_rounds_down].

    ** Bounds and fuel

    The path lookup recurses at most once through the root remapping; its fuel is
    the bound [get_path_terminates] proves sufficient.  The scan of the path map
    variable consumes text in every round, so its length is enough.  The spin loop
    of usleep runs on a clock that advances; [usleep_waits] proves that some number
    of rounds ends it.  Searches run over the fixed table sizes of the source.
    The loops over linked queues have more rounds than there are nodes ([rounds]),
    and the theorems show that they end with a result.  The matcher recurses once
    for each star, at most as often as the pattern has characters; [fnmatch_total]
    proves the fuel enough.  The parser and the reading of lines consume input in
    every round, which their theorems use.  The adapters are asked for at most as
    often as the source does; the signal worker has two signals, so three rounds
    bring it back to waiting, or to the exit of its process; the kill tool waits 250 rounds, as in the source.  The
    other loops are structural.  The compare-and-exchange loops are one round where a
    component runs alone; the races have the interleaved form, and RaceProgress the
    bounds on their rounds.

    ** What is not modelled

    Blocking and scheduling inside Windows, and the computations of Windows and
    the C runtime themselves (the digest, the parsing of addresses and numbers);
    the contents of caller buffers that the code only passes on; the parts of
    headers that only declare or rename; the tracing of queue.h, which is compiled
    out and records source lines; memory models weaker than sequential consistency;
    the tests and the build scripts. *)

From Stdlib Require Export ZArith Lia Bool List.
From stdpp Require Export base numbers list option strings gmap.

#[export] Set Default Goal Selector "!".

(** ** Machine integers

    A [w]-bit C integer is a [Z]; the conversions below are the C ones.  On
    Win64 [int], [long] and [DWORD] have 32 bits, [long long], [size_t],
    [off_t] and [time_t] have 64. *)
Module Export CInt.
Local Open Scope Z_scope.

(** Conversion to an unsigned integer type of [w] bits. *)
Definition uwrap (w z : Z) : Z := z mod 2 ^ w.

(** Conversion to a two's-complement signed integer type of [w] bits. *)
Definition swrap (w z : Z) : Z := (z + 2 ^ (w - 1)) mod 2 ^ w - 2 ^ (w - 1).

Definition in_u (w z : Z) : Prop := 0 <= z < 2 ^ w.
Definition in_s (w z : Z) : Prop := - 2 ^ (w - 1) <= z < 2 ^ (w - 1).

Abbreviation u8 := (uwrap 8).
Abbreviation u16 := (uwrap 16).
Abbreviation u32 := (uwrap 32).
Abbreviation u64 := (uwrap 64).
Abbreviation s16 := (swrap 16).
Abbreviation s32 := (swrap 32).
Abbreviation s64 := (swrap 64).

Definition INT_MAX : Z := 2 ^ 31 - 1.
Definition UINT_MAX : Z := 2 ^ 32 - 1.
Definition LONG_MAX : Z := 2 ^ 31 - 1.
Definition ULONG_MAX : Z := 2 ^ 32 - 1.
Definition INT64_MAX : Z := 2 ^ 63 - 1.
Definition SSIZE_MAX : Z := 2 ^ 63 - 1.

Lemma pow2_pos w : 0 <= w -> 0 < 2 ^ w.
Proof. intros. apply Z.pow_pos_nonneg; lia. Qed.

Lemma uwrap_range w z : 0 <= w -> in_u w (uwrap w z).
Proof. intros. apply Z.mod_pos_bound, pow2_pos; lia. Qed.

Lemma uwrap_id w z : in_u w z -> uwrap w z = z.
Proof. apply Z.mod_small. Qed.

Lemma pow2_half w : 0 < w -> 2 ^ w = 2 * 2 ^ (w - 1).
Proof. intros. rewrite <- Z.pow_succ_r by lia. f_equal. lia. Qed.

Lemma swrap_range w z : 0 < w -> in_s w (swrap w z).
Proof.
  intros Hw. unfold in_s, swrap.
  pose proof (Z.mod_pos_bound (z + 2 ^ (w - 1)) (2 ^ w) (pow2_pos w ltac:(lia))).
  pose proof (pow2_half w Hw). lia.
Qed.

Lemma swrap_id w z : 0 < w -> in_s w z -> swrap w z = z.
Proof.
  intros Hw [H1 H2]. unfold swrap. pose proof (pow2_half w Hw).
  rewrite Z.mod_small; lia.
Qed.

(** Two's-complement conversion only ever moves by a multiple of [2 ^ w]. *)
Lemma swrap_mod w z : 0 < w -> swrap w z mod 2 ^ w = z mod 2 ^ w.
Proof.
  intros Hw. unfold swrap. rewrite Zminus_mod_idemp_l. f_equal. lia.
Qed.

(** The C test [a & (1 << k)]. *)
Lemma land_pow2_eqb a k : 0 <= k -> (Z.land a (2 ^ k) =? 0) = negb (Z.testbit a k).
Proof.
  intros Hk. apply eq_true_iff_eq. rewrite Z.eqb_eq, negb_true_iff. split.
  - intros H. apply (f_equal (fun z => Z.testbit z k)) in H.
    by rewrite Z.land_spec, Z.pow2_bits_true, andb_true_r, Z.bits_0 in H.
  - intros H. apply Z.bits_inj'. intros n Hn. rewrite Z.land_spec, Z.bits_0.
    rewrite Z.pow2_bits_eqb by done. destruct (Z.eqb_spec k n) as [<-|]; [by rewrite H|].
    by rewrite andb_false_r.
Qed.
End CInt.

(** ** Stateful C functions

    A C function over a state [S] that returns [A]: explicit state passing,
    with a small monadic notation in its own scope. *)
Module Export CMonad.
Definition C (S A : Type) : Type := S -> A * S.

Definition ret {S A} (a : A) : C S A := fun s => (a, s).
Definition bind {S A B} (m : C S A) (k : A -> C S B) : C S B :=
  fun s => let '(a, s') := m s in k a s'.
Definition get {S} : C S S := fun s => (s, s).
Definition modify {S} (f : S -> S) : C S unit := fun s => (tt, f s).
Definition gets {S A} (f : S -> A) : C S A := fun s => (f s, s).

Declare Scope c_scope.
Delimit Scope c_scope with c.
Notation "'let*' x := m 'in' k" := (bind m (fun x => k))
  (at level 10, x name, m at level 100, k at level 200) : c_scope.
Notation "'let*' ' p := m 'in' k" := (bind m (fun x => match x with p => k end))
  (at level 10, p strict pattern, m at level 100, k at level 200) : c_scope.
Notation "m ;; k" := (bind m (fun _ => k))
  (at level 100, k at level 200, right associativity) : c_scope.

Lemma bind_run {S A B} (m : C S A) (k : A -> C S B) s :
  bind m k s = k (fst (m s)) (snd (m s)).
Proof. unfold bind. destruct (m s); reflexivity. Qed.

(** Partial correctness of a computation: every C function modelled here is
    total, so this is also total correctness. *)
Definition triple {S A} (Pre : S -> Prop) (m : C S A) (Post : A -> S -> Prop) : Prop :=
  forall s, Pre s -> Post (fst (m s)) (snd (m s)).

Lemma triple_bind {S A B} (Pre : S -> Prop) (m : C S A) (k : A -> C S B) Mid Post :
  triple Pre m Mid -> (forall a, triple (Mid a) (k a) Post) -> triple Pre (bind m k) Post.
Proof. intros Hm Hk s Hs. rewrite bind_run. apply Hk, Hm, Hs. Qed.

Lemma triple_ret {S A} (a : A) (Pre : S -> Prop) (Post : A -> S -> Prop) :
  (forall s, Pre s -> Post a s) -> triple Pre (ret a) Post.
Proof. intros H s. apply H. Qed.

Lemma triple_consequence {S A} (Pre Pre' : S -> Prop) (m : C S A) (Post Post' : A -> S -> Prop) :
  triple Pre' m Post' -> (forall s, Pre s -> Pre' s) ->
  (forall a s, Post' a s -> Post a s) -> triple Pre m Post.
Proof. intros Hm Hpre Hpost s Hs. apply Hpost, Hm, Hpre, Hs. Qed.

(** A property of the state that a computation keeps. *)
Definition keeps {S A} (I : S -> Prop) (m : C S A) : Prop :=
  forall s, I s -> I (snd (m s)).

Lemma keeps_bind {S A B} (I : S -> Prop) (m : C S A) (k : A -> C S B) :
  keeps I m -> (forall a, keeps I (k a)) -> keeps I (bind m k).
Proof. intros Hm Hk s Hs. rewrite bind_run. apply Hk, Hm, Hs. Qed.

Lemma keeps_ret {S A} (I : S -> Prop) (a : A) : keeps I (@ret S A a).
Proof. intros s Hs. exact Hs. Qed.

Lemma keeps_gets {S A} (I : S -> Prop) (f : S -> A) : keeps I (gets f).
Proof. intros s Hs. exact Hs. Qed.

(** A computation that leaves an observation of the state unchanged. *)
Definition preserves {S A V} (obs : S -> V) (m : C S A) : Prop :=
  forall s, obs (snd (m s)) = obs s.

Lemma preserves_bind {S A B V} (obs : S -> V) (m : C S A) (k : A -> C S B) :
  preserves obs m -> (forall a, preserves obs (k a)) -> preserves obs (bind m k).
Proof. intros Hm Hk s. rewrite bind_run, Hk. apply Hm. Qed.

Lemma preserves_ret {S A V} (obs : S -> V) (a : A) : preserves obs (@ret S A a).
Proof. intros s. reflexivity. Qed.
End CMonad.

(** ** Scanning loops

    [scan P n] is the value of [i] after
    [for (i = 0; i < n; i++) if (P i) break;]. *)
Module Export Scan.
Fixpoint scan_from (P : nat -> bool) (i fuel : nat) : nat :=
  match fuel with
  | O => i
  | S fuel => if P i then i else scan_from P (S i) fuel
  end.

Definition scan (P : nat -> bool) (n : nat) : nat := scan_from P 0 n.

Lemma scan_from_bounds P i n : i <= scan_from P i n <= i + n.
Proof.
  revert i; induction n as [|n IH]; intros i; simpl; [lia|].
  destruct (P i); [lia|]. specialize (IH (S i)). lia.
Qed.

Lemma scan_from_found P i n :
  scan_from P i n < i + n -> P (scan_from P i n) = true.
Proof.
  revert i; induction n as [|n IH]; intros i; simpl; [lia|].
  destruct (P i) eqn:E; [done|]. intros H. apply IH. lia.
Qed.

Lemma scan_from_before P i n j :
  i <= j < scan_from P i n -> P j = false.
Proof.
  revert i; induction n as [|n IH]; intros i; simpl; [lia|].
  destruct (P i) eqn:E; [lia|]. intros [Hj Hn].
  destruct (decide (i = j)) as [->|]; [done|]. apply (IH (S i)). lia.
Qed.

Lemma scan_le P n : scan P n <= n.
Proof. pose proof (scan_from_bounds P 0 n). unfold scan. lia. Qed.

Lemma scan_found P n : scan P n < n -> P (scan P n) = true.
Proof. apply scan_from_found. Qed.

Lemma scan_before P n j : j < scan P n -> P j = false.
Proof. intros. apply (scan_from_before P 0 n). unfold scan in *. lia. Qed.

Lemma scan_complete P n j : j < n -> P j = true -> scan P n <= j.
Proof.
  intros Hj HP. destruct (decide (scan P n <= j)) as [|Hgt]; [done|].
  rewrite (scan_before P n j) in HP by lia. done.
Qed.

Lemma scan_none P n : scan P n = n <-> forall j, j < n -> P j = false.
Proof.
  split.
  - intros E j Hj. apply (scan_before P n). lia.
  - intros H. destruct (decide (scan P n = n)) as [|Hne]; [done|].
    pose proof (scan_le P n). pose proof (scan_found P n ltac:(lia)) as HP.
    rewrite H in HP by lia. done.
Qed.

Lemma scan_ext P Q n : (forall j, j < n -> P j = Q j) -> scan P n = scan Q n.
Proof.
  unfold scan. intros H.
  assert (forall k i, i + k <= n -> scan_from P i k = scan_from Q i k) as Haux.
  { induction k as [|k IH]; intros i Hi; simpl; [done|].
    rewrite H by lia. destruct (Q i); [done|]. apply IH. lia. }
  apply Haux. lia.
Qed.
End Scan.

(** ** Shared automation *)

Create HintDb wpdk.
Create HintDb wpdk_unfold.
Create Rewrite HintDb wpdk_rw.
#[export] Hint Resolve preserves_bind preserves_ret keeps_ret keeps_gets : wpdk.
#[export] Hint Unfold bind ret get gets modify : wpdk_unfold.

(** Case analysis on every boolean comparison of the context, as propositions. *)
Ltac bool_prop :=
  repeat match goal with
  | H : (_ && _) = true |- _ => apply andb_true_iff in H; destruct H
  | H : (_ && _) = false |- _ => apply andb_false_iff in H
  | H : (_ || _) = true |- _ => apply orb_true_iff in H
  | H : (_ || _) = false |- _ => apply orb_false_iff in H; destruct H
  | H : negb _ = true |- _ => apply negb_true_iff in H
  | H : negb _ = false |- _ => apply negb_false_iff in H
  | H : (_ =? _)%Z = true |- _ => apply Z.eqb_eq in H
  | H : (_ =? _)%Z = false |- _ => apply Z.eqb_neq in H
  | H : (_ <? _)%Z = true |- _ => apply Z.ltb_lt in H
  | H : (_ <? _)%Z = false |- _ => apply Z.ltb_ge in H
  | H : (_ <=? _)%Z = true |- _ => apply Z.leb_le in H
  | H : (_ <=? _)%Z = false |- _ => apply Z.leb_gt in H
  | H : (_ =? _)%nat = true |- _ => apply Nat.eqb_eq in H
  | H : (_ =? _)%nat = false |- _ => apply Nat.eqb_neq in H
  | H : (_ <? _)%nat = true |- _ => apply Nat.ltb_lt in H
  | H : (_ <? _)%nat = false |- _ => apply Nat.ltb_ge in H
  | H : (_ <=? _)%nat = true |- _ => apply Nat.leb_le in H
  | H : (_ <=? _)%nat = false |- _ => apply Nat.leb_gt in H
  end.

(** Split the next conditional or match of the goal. *)
Ltac split_if :=
  match goal with
  | |- context [if ?b then _ else _] =>
      match type of b with
      | bool => let E := fresh "E" in destruct b eqn:E
      | _ => destruct b
      end
  | |- context [match ?x with Some _ => _ | None => _ end] =>
      let E := fresh "E" in destruct x eqn:E
  end.

Ltac split_if_in H :=
  match type of H with
  | context [if ?b then _ else _] =>
      match type of b with
      | bool => let E := fresh "E" in destruct b eqn:E
      | _ => destruct b
      end
  | context [match ?x with Some _ => _ | None => _ end] =>
      let E := fresh "E" in destruct x eqn:E
  end.

(** Decompose a computation into the primitives that keep the invariant. *)
Ltac keep :=
  repeat first
    [ solve [eauto with wpdk]
    | apply keeps_bind; [|intros ?]
    | match goal with |- keeps _ (if ?b then _ else _) => destruct b end
    | match goal with |- keeps _ (match ?x with _ => _ end) => destruct x end ].

(** ** Counting in a list of threads

    The sum of [f] over a list; replacing one element changes it by the difference. *)
Module Export Tally.
Definition tally {A} (f : A -> nat) (l : list A) : nat := foldr (fun x n => (f x + n)%nat) 0%nat l.

Lemma tally_insert {A} (f : A -> nat) (l : list A) k x y : l !! k = Some x -> (tally f (<[k := y]> l) + f x = tally f l + f y)%nat.
Proof.
  revert k. induction l as [|z l IH]; intros [|k] E; [done|done|injection E as ->; cbn; lia|].
  specialize (IH k E). change (tally f (<[S k := y]> (z :: l))) with (f z + tally f (<[k := y]> l))%nat.
  change (tally f (z :: l)) with (f z + tally f l)%nat. lia.
Qed.
End Tally.
