(* ===== verification/Progress.v ===== *)
(** * Progress: when calls that interleave come to an end

    Two classes of step systems, and what they guarantee.  In a [WaitFree] system a thread
    has a number of its own steps left that no other thread raises: it ends after that many,
    whatever the others do.  In a [FairSystem] a thread can have to wait, but the work left
    falls with every step that is not a wait, and while there is work some thread does not
    wait: the work ends when all threads run again and again. *)

From S2P Require Import Prelude.

Module Export Progress.

(** ** Threads that never wait *)

Class WaitFree (S T I : Type) := {
  wf_step : S -> T -> I -> S;
  wf_inv : S -> Prop;
  steps_left : S -> T -> nat;
  wf_inv_step : forall s t i, wf_inv s -> wf_inv (wf_step s t i);
  left_own : forall s t i, wf_inv s -> steps_left s t <> 0 -> steps_left (wf_step s t i) t < steps_left s t;
  left_done : forall s t i, wf_inv s -> steps_left s t = 0 -> steps_left (wf_step s t i) t = 0;
  left_other : forall s t u i, wf_inv s -> u <> t -> steps_left (wf_step s u i) t <= steps_left s t
}.

Section WaitFree.
Context {S T I : Type} `{!WaitFree S T I} `{!EqDecision T}.

Definition wf_run (s : S) (sched : list (T * I)) : S := foldl (fun s x => wf_step s (fst x) (snd x)) s sched.
(** How often a thread runs. *)
Definition turns (t : T) (sched : list (T * I)) : nat := length (filter (fun x => fst x = t) sched).

Lemma turns_cons t x sched : turns t (x :: sched) = (if decide (fst x = t) then 1 else 0) + turns t sched.
Proof. unfold turns. rewrite filter_cons. by destruct (decide (fst x = t)). Qed.

(** A thread that has run as often as it had steps left has ended, whatever the others did. *)
Lemma wait_free_ends s sched t : wf_inv s -> steps_left s t <= turns t sched -> steps_left (wf_run s sched) t = 0.
Proof.
  revert s. induction sched as [|[u i] sched IH]; intros s Hs; [cbn; lia|]. rewrite turns_cons. cbn [fst snd]. intros Hn.
  change (wf_run s ((u, i) :: sched)) with (wf_run (wf_step s u i) sched). apply IH; [by apply wf_inv_step|].
  destruct (decide (u = t)) as [->|Hne]; [|pose proof (left_other s t u i Hs Hne); lia].
  destruct (decide (steps_left s t = 0)) as [E|E]; [by rewrite left_done; [lia| |]|]. pose proof (left_own s t i Hs E). lia.
Qed.
End WaitFree.

(** ** Threads that can wait for each other *)

(** The sum of what the threads have left falls when that of one of them falls and no other rises. *)
Lemma tally_cons {T} (f : T -> nat) t ts : tally f (t :: ts) = f t + tally f ts.
Proof. reflexivity. Qed.
Lemma tally_ext_le {T} (f g : T -> nat) (ts : list T) : (forall u, f u <= g u) -> tally f ts <= tally g ts.
Proof. intros H. induction ts as [|u ts IH]; [done|]. rewrite !tally_cons. specialize (H u). lia. Qed.
Lemma tally_ext_lt {T} (f g : T -> nat) (ts : list T) t : (forall u, f u <= g u) -> t ∈ ts -> f t < g t -> tally f ts < tally g ts.
Proof.
  intros H Ht Hlt. induction ts as [|u ts IH]; [set_solver|]. rewrite !tally_cons. apply elem_of_cons in Ht as [->|Ht].
  - pose proof (tally_ext_le f g ts H). lia.
  - specialize (IH Ht). specialize (H u). lia.
Qed.
Lemma tally_pos {T} (f : T -> nat) (ts : list T) : tally f ts <> 0 -> exists t, t ∈ ts /\ f t <> 0.
Proof.
  induction ts as [|u ts IH]; [done|]. rewrite tally_cons. intros H. destruct (decide (f u = 0)) as [E|E].
  - destruct IH as (t & Ht & Hf); [lia|]. exists t. split; [set_solver|done].
  - exists u. split; [set_solver|done].
Qed.
Lemma tally_zero {T} (f : T -> nat) (ts : list T) t : tally f ts = 0 -> t ∈ ts -> f t = 0.
Proof. induction ts as [|u ts IH]; [set_solver|]. rewrite tally_cons. intros H [->|Ht]%elem_of_cons; [lia|]. apply IH; [lia|done]. Qed.
Lemma tally_replicate {T} (f : T -> nat) n x : tally f (replicate n x) = n * f x.
Proof. induction n as [|n IH]; [done|]. cbn [replicate]. rewrite tally_cons, IH. lia. Qed.
Lemma tally_const {T} (n : nat) (ts : list T) : tally (fun _ => n) ts = length ts * n.
Proof. induction ts as [|u ts IH]; [done|]. rewrite tally_cons, IH. cbn [length]. lia. Qed.

(** [ts] are the threads that run. *)
Class FairSystem (S T : Type) (ts : list T) := {
  fs_step : S -> T -> S;
  fs_inv : S -> Prop;
  work : S -> nat;
  fs_inv_step : forall s t, fs_inv s -> t ∈ ts -> fs_inv (fs_step s t);
  work_step : forall s t, fs_inv s -> t ∈ ts -> fs_step s t = s \/ work (fs_step s t) < work s;
  some_moves : forall s, fs_inv s -> work s <> 0 -> exists t, t ∈ ts /\ work (fs_step s t) < work s
}.

Section Fair.
Context {S T : Type} {ts : list T} `{FS : !FairSystem S T ts}.

Definition fs_run (s : S) (sched : list T) : S := foldl fs_step s sched.
(** A round: every thread runs at least once. *)
Definition round (r : list T) : Prop := (forall t, t ∈ r -> t ∈ ts) /\ (forall t, t ∈ ts -> t ∈ r).

Lemma fs_run_inv s r : fs_inv s -> (forall t, t ∈ r -> t ∈ ts) -> fs_inv (fs_run s r).
Proof.
  revert s. induction r as [|t r IH]; intros s Hs Hr; [done|]. apply IH; [|set_solver]. apply fs_inv_step; [done|set_solver].
Qed.

(** Either every thread waits, or the work falls. *)
Lemma run_works s r : fs_inv s -> (forall t, t ∈ r -> t ∈ ts) ->
  (forall t, t ∈ r -> fs_step s t = s) /\ fs_run s r = s \/ work (fs_run s r) < work s.
Proof.
  revert s. induction r as [|t r IH]; intros s Hs Hr; [left; set_solver|]. cbn [fs_run foldl]. fold (fs_run (fs_step s t) r).
  assert (t ∈ ts) as Ht by set_solver. destruct (work_step s t Hs Ht) as [E|Hlt].
  - rewrite E. destruct (IH s Hs) as [[H1 H2]|Hlt]; [set_solver| |by right]. left. split; [|done]. intros u [->|Hu]%elem_of_cons; auto.
  - right. destruct (IH (fs_step s t)) as [[_ ->]|Hlt']; [by apply fs_inv_step|set_solver|done|lia].
Qed.

Lemma round_works s r : fs_inv s -> round r -> work s <> 0 -> work (fs_run s r) < work s.
Proof.
  intros Hs [Hr1 Hr2] Hw. destruct (run_works s r Hs Hr1) as [[Hall _]|?]; [|done].
  destruct (some_moves s Hs Hw) as (t & Ht & Hlt). rewrite (Hall t (Hr2 t Ht)) in Hlt. lia.
Qed.

(** As many rounds as there is work leave none. *)
Lemma fair_ends s rounds : fs_inv s -> Forall round rounds -> work s <= length rounds -> work (fs_run s (concat rounds)) = 0.
Proof.
  revert s. induction rounds as [|r rounds IH]; intros s Hs Hr; [cbn; lia|]. apply Forall_cons in Hr as [Hr Hrs]. cbn [concat length]. intros Hw.
  unfold fs_run. rewrite foldl_app. apply IH; [apply fs_run_inv; [done|apply Hr]|done|].
  destruct (decide (work s = 0)) as [E|E]; [|pose proof (round_works s r Hs Hr E); unfold fs_run in *; lia].
  destruct (run_works s r Hs (proj1 Hr)) as [[_ R]|?]; [|lia]. unfold fs_run in R. rewrite R. lia.
Qed.
End Fair.
End Progress.
