(* ===== verification/Errno.v ===== *)
(** * Errno: error codes and their conversion (src/src/error.c)

    The UCRT errno constants, the ones src/inc/errno.h adds, the Windows and
    Winsock error codes the library names, [wpdk_convert_to_posix] as the
    tables of its switch, and the functions that report an error through
    errno.  Clients see errno through the interface [HasErrno]. *)

From S2P Require Import Prelude.
Local Open Scope Z_scope.

Module Export Errno.

(** ** errno values of the UCRT (documented constants of the platform) *)
Definition EPERM : Z := 1.
Definition ENOENT : Z := 2.
Definition ESRCH : Z := 3.
Definition EINTR : Z := 4.
Definition EIO : Z := 5.
Definition ENXIO : Z := 6.
Definition ENOEXEC : Z := 8.
Definition EBADF : Z := 9.
Definition ECHILD : Z := 10.
Definition EAGAIN : Z := 11.
Definition ENOMEM : Z := 12.
Definition EACCES : Z := 13.
Definition EFAULT : Z := 14.
Definition EBUSY : Z := 16.
Definition EEXIST : Z := 17.
Definition EXDEV : Z := 18.
Definition ENODEV : Z := 19.
Definition EINVAL : Z := 22.
Definition ENFILE : Z := 23.
Definition EMFILE : Z := 24.
Definition ENOTTY : Z := 25.
Definition ENOSPC : Z := 28.
Definition EPIPE : Z := 32.
Definition ERANGE : Z := 34.
Definition ENAMETOOLONG : Z := 38.
Definition ENOLCK : Z := 39.
Definition ENOSYS : Z := 40.
Definition ENOTEMPTY : Z := 41.
Definition EADDRINUSE : Z := 100.
Definition EADDRNOTAVAIL : Z := 101.
Definition EAFNOSUPPORT : Z := 102.
Definition EALREADY : Z := 103.
Definition ECANCELED : Z := 105.
Definition ECONNABORTED : Z := 106.
Definition ECONNREFUSED : Z := 107.
Definition ECONNRESET : Z := 108.
Definition EDESTADDRREQ : Z := 109.
Definition EHOSTUNREACH : Z := 110.
Definition EINPROGRESS : Z := 112.
Definition EISCONN : Z := 113.
Definition ELOOP : Z := 114.
Definition EMSGSIZE : Z := 115.
Definition ENETDOWN : Z := 116.
Definition ENETRESET : Z := 117.
Definition ENETUNREACH : Z := 118.
Definition ENOBUFS : Z := 119.
Definition ENODATA : Z := 120.
Definition ENOPROTOOPT : Z := 123.
Definition ENOTCONN : Z := 126.
Definition ENOTSOCK : Z := 128.
Definition ENOTSUP : Z := 129.
Definition EOWNERDEAD : Z := 133.
Definition EPROTONOSUPPORT : Z := 135.
Definition EPROTOTYPE : Z := 136.
Definition ETIMEDOUT : Z := 138.
Definition EWOULDBLOCK : Z := 140.

(** ** errno values added by src/inc/errno.h *)
Definition ESHUTDOWN : Z := 200.
Definition EHOSTDOWN : Z := 202.
Definition EUSERS : Z := 203.
Definition EDQUOT : Z := 204.
Definition ESTALE : Z := 205.
Definition EREMOTE : Z := 206.
Definition EPROCLIM : Z := 207.
Definition ETOOMANYREFS : Z := 10059.

(** ** Windows error codes (documented values of the platform SDK; the source
    itself defines the ones it guards with [#ifndef]) *)
Definition ERROR_SUCCESS : Z := 0.
Definition ERROR_ACCESS_DENIED : Z := 5.
Definition ERROR_ADAP_HDW_ERR : Z := 57.
Definition ERROR_ALERTED : Z := 739.
Definition ERROR_ALREADY_EXISTS : Z := 183.
Definition ERROR_ARENA_TRASHED : Z := 7.
Definition ERROR_BAD_ARGUMENTS : Z := 160.
Definition ERROR_BAD_COMMAND : Z := 22.
Definition ERROR_BAD_DEVICE : Z := 1200.
Definition ERROR_BAD_DEVICE_PATH : Z := 330.
Definition ERROR_BAD_DRIVER_LEVEL : Z := 119.
Definition ERROR_BAD_ENVIRONMENT : Z := 10.
Definition ERROR_BAD_EXE_FORMAT : Z := 193.
Definition ERROR_BAD_FORMAT : Z := 11.
Definition ERROR_BAD_LENGTH : Z := 24.
Definition ERROR_BAD_NETPATH : Z := 53.
Definition ERROR_BAD_NET_NAME : Z := 67.
Definition ERROR_BAD_NET_RESP : Z := 58.
Definition ERROR_BAD_PATHNAME : Z := 161.
Definition ERROR_BAD_UNIT : Z := 20.
Definition ERROR_BROKEN_PIPE : Z := 109.
Definition ERROR_BUFFER_OVERFLOW : Z := 111.
Definition ERROR_BUS_RESET : Z := 1111.
Definition ERROR_BUSY : Z := 170.
Definition ERROR_CALL_NOT_IMPLEMENTED : Z := 120.
Definition ERROR_CAN_NOT_COMPLETE : Z := 1003.
Definition ERROR_CANCELLED : Z := 1223.
Definition ERROR_CANNOT_MAKE : Z := 82.
Definition ERROR_CANT_TERMINATE_SELF : Z := 555.
Definition ERROR_CANT_WAIT : Z := 554.
Definition ERROR_COMMITMENT_LIMIT : Z := 1455.
Definition ERROR_CONNECTION_ABORTED : Z := 1236.
Definition ERROR_CONNECTION_ACTIVE : Z := 1230.
Definition ERROR_CONNECTION_REFUSED : Z := 1225.
Definition ERROR_CRC : Z := 23.
Definition ERROR_CURRENT_DIRECTORY : Z := 16.
Definition ERROR_DATA_CHECKSUM_ERROR : Z := 323.
Definition ERROR_DELETE_PENDING : Z := 303.
Definition ERROR_DEV_NOT_EXIST : Z := 55.
Definition ERROR_DEVICE_ALREADY_ATTACHED : Z := 548.
Definition ERROR_DEVICE_NO_RESOURCES : Z := 322.
Definition ERROR_DEVICE_NOT_CONNECTED : Z := 1167.
Definition ERROR_DEVICE_UNREACHABLE : Z := 321.
Definition ERROR_DIR_NOT_EMPTY : Z := 145.
Definition ERROR_DIR_NOT_ROOT : Z := 144.
Definition ERROR_DIRECT_ACCESS_HANDLE : Z := 130.
Definition ERROR_DIRECTORY_NOT_SUPPORTED : Z := 336.
Definition ERROR_DISK_FULL : Z := 112.
Definition ERROR_DUP_NAME : Z := 52.
Definition ERROR_ELEVATION_REQUIRED : Z := 740.
Definition ERROR_ERRORS_ENCOUNTERED : Z := 774.
Definition ERROR_EXCL_SEM_ALREADY_OWNED : Z := 101.
Definition ERROR_FILE_EXISTS : Z := 80.
Definition ERROR_FILE_LEVEL_TRIM_NOT_SUPPORTED : Z := 326.
Definition ERROR_FILE_NOT_FOUND : Z := 2.
Definition ERROR_FILENAME_EXCED_RANGE : Z := 206.
Definition ERROR_GEN_FAILURE : Z := 31.
Definition ERROR_GRACEFUL_DISCONNECT : Z := 1226.
Definition ERROR_INCORRECT_SIZE : Z := 1462.
Definition ERROR_INVALID_ACCESS : Z := 12.
Definition ERROR_INVALID_BLOCK : Z := 9.
Definition ERROR_INVALID_FUNCTION : Z := 1.
Definition ERROR_INVALID_HANDLE : Z := 6.
Definition ERROR_INVALID_LOCK_RANGE : Z := 307.
Definition ERROR_INVALID_NAME : Z := 123.
Definition ERROR_INVALID_USER_BUFFER : Z := 1784.
Definition ERROR_HANDLE_DISK_FULL : Z := 39.
Definition ERROR_HANDLE_EOF : Z := 38.
Definition ERROR_HOST_DOWN : Z := 1256.
Definition ERROR_HOST_UNREACHABLE : Z := 1232.
Definition ERROR_INSUFFICIENT_BUFFER : Z := 122.
Definition ERROR_INTERNAL_ERROR : Z := 1359.
Definition ERROR_INVALID_ADDRESS : Z := 487.
Definition ERROR_INVALID_DATA : Z := 13.
Definition ERROR_INVALID_DRIVE : Z := 15.
Definition ERROR_INVALID_EXCEPTION_HANDLER : Z := 310.
Definition ERROR_INVALID_FIELD_IN_PARAMETER_LIST : Z := 328.
Definition ERROR_INVALID_FLAGS : Z := 1004.
Definition ERROR_INVALID_NETNAME : Z := 1214.
Definition ERROR_INVALID_PARAMETER : Z := 87.
Definition ERROR_IO_DEVICE : Z := 1117.
Definition ERROR_IO_INCOMPLETE : Z := 996.
Definition ERROR_IO_PENDING : Z := 997.
Definition ERROR_LOCK_FAILED : Z := 167.
Definition ERROR_LOCK_VIOLATION : Z := 33.
Definition ERROR_LOST_WRITEBEHIND_DATA : Z := 596.
Definition ERROR_MAX_THRDS_REACHED : Z := 164.
Definition ERROR_MEMORY_HARDWARE : Z := 779.
Definition ERROR_MORE_DATA : Z := 234.
Definition ERROR_MULTIPLE_FAULT_VIOLATION : Z := 640.
Definition ERROR_NEGATIVE_SEEK : Z := 131.
Definition ERROR_NETNAME_DELETED : Z := 64.
Definition ERROR_NETWORK_ACCESS_DENIED : Z := 65.
Definition ERROR_NETWORK_UNREACHABLE : Z := 1231.
Definition ERROR_NETWORK_BUSY : Z := 54.
Definition ERROR_NO_MORE_ITEMS : Z := 259.
Definition ERROR_NOACCESS : Z := 998.
Definition ERROR_NOINTERFACE : Z := 632.
Definition ERROR_NOT_CAPABLE : Z := 775.
Definition ERROR_NOT_ENOUGH_MEMORY : Z := 8.
Definition ERROR_NOT_ENOUGH_QUOTA : Z := 1816.
Definition ERROR_NOT_FOUND : Z := 1168.
Definition ERROR_NOT_LOCKED : Z := 158.
Definition ERROR_NOT_READY : Z := 21.
Definition ERROR_NOT_SAME_DEVICE : Z := 17.
Definition ERROR_NOT_SUPPORTED : Z := 50.
Definition ERROR_NO_MORE_FILES : Z := 18.
Definition ERROR_NO_MORE_USER_HANDLES : Z := 1158.
Definition ERROR_NO_NETWORK : Z := 1222.
Definition ERROR_NO_PROC_SLOTS : Z := 89.
Definition ERROR_NO_SYSTEM_RESOURCES : Z := 1450.
Definition ERROR_NONPAGED_SYSTEM_RESOURCES : Z := 1451.
Definition ERROR_NOT_DOS_DISK : Z := 26.
Definition ERROR_OBJECT_NAME_EXISTS : Z := 698.
Definition ERROR_OFFSET_ALIGNMENT_VIOLATION : Z := 327.
Definition ERROR_OPERATION_IN_PROGRESS : Z := 329.
Definition ERROR_OUT_OF_STRUCTURES : Z := 84.
Definition ERROR_PAGED_SYSTEM_RESOURCES : Z := 1452.
Definition ERROR_POSSIBLE_DEADLOCK : Z := 1131.
Definition ERROR_PAGEFILE_QUOTA : Z := 1454.
Definition ERROR_OPEN_FAILED : Z := 110.
Definition ERROR_OPERATION_ABORTED : Z := 995.
Definition ERROR_OUTOFMEMORY : Z := 14.
Definition ERROR_OUT_OF_PAPER : Z := 28.
Definition ERROR_PAGEFILE_QUOTA_EXCEEDED : Z := 567.
Definition ERROR_PATH_NOT_FOUND : Z := 3.
Definition ERROR_PIPE_NOT_CONNECTED : Z := 233.
Definition ERROR_PROTOCOL_UNREACHABLE : Z := 1233.
Definition ERROR_PORT_UNREACHABLE : Z := 1234.
Definition ERROR_READ_FAULT : Z := 30.
Definition ERROR_RECEIVE_EXPEDITED : Z := 708.
Definition ERROR_RECEIVE_PARTIAL : Z := 707.
Definition ERROR_RECEIVE_PARTIAL_EXPEDITED : Z := 709.
Definition ERROR_REM_NOT_LIST : Z := 51.
Definition ERROR_REPARSE : Z := 741.
Definition ERROR_REQ_NOT_ACCEP : Z := 71.
Definition ERROR_REQUEST_ABORTED : Z := 1235.
Definition ERROR_RETRY : Z := 1237.
Definition ERROR_SECTOR_NOT_FOUND : Z := 27.
Definition ERROR_SEEK : Z := 25.
Definition ERROR_SEEK_ON_DEVICE : Z := 132.
Definition ERROR_SEM_IS_SET : Z := 102.
Definition ERROR_SEM_NOT_FOUND : Z := 187.
Definition ERROR_SEM_OWNER_DIED : Z := 105.
Definition ERROR_SEM_TIMEOUT : Z := 121.
Definition ERROR_SEM_USER_LIMIT : Z := 106.
Definition ERROR_SHARING_BUFFER_EXCEEDED : Z := 36.
Definition ERROR_SHARING_VIOLATION : Z := 32.
Definition ERROR_TIMEOUT : Z := 1460.
Definition ERROR_TOO_MANY_DESCRIPTORS : Z := 331.
Definition ERROR_TOO_MANY_NAMES : Z := 68.
Definition ERROR_TOO_MANY_OPEN_FILES : Z := 4.
Definition ERROR_TOO_MANY_POSTS : Z := 298.
Definition ERROR_TOO_MANY_SEM_REQUESTS : Z := 103.
Definition ERROR_TOO_MANY_SEMAPHORES : Z := 100.
Definition ERROR_TOO_MANY_TCBS : Z := 155.
Definition ERROR_TOO_MANY_THREADS : Z := 565.
Definition ERROR_UNEXP_NET_ERR : Z := 59.
Definition ERROR_USER_MAPPED_FILE : Z := 1224.
Definition ERROR_WAIT_NO_CHILDREN : Z := 128.
Definition ERROR_WRITE_FAULT : Z := 29.
Definition ERROR_WRITE_PROTECT : Z := 19.
Definition ERROR_WRONG_DISK : Z := 34.
Definition ERROR_WORKING_SET_QUOTA : Z := 1453.
Definition WAIT_TIMEOUT : Z := 258.
Definition WSAEINTR : Z := 10004.
Definition WSAEBADF : Z := 10009.
Definition WSAEACCES : Z := 10013.
Definition WSAEFAULT : Z := 10014.
Definition WSAEINVAL : Z := 10022.
Definition WSAEMFILE : Z := 10024.
Definition WSAEWOULDBLOCK : Z := 10035.
Definition WSAEINPROGRESS : Z := 10036.
Definition WSAEALREADY : Z := 10037.
Definition WSAENOTSOCK : Z := 10038.
Definition WSAEDESTADDRREQ : Z := 10039.
Definition WSAEMSGSIZE : Z := 10040.
Definition WSAEPROTOTYPE : Z := 10041.
Definition WSAENOPROTOOPT : Z := 10042.
Definition WSAEPROTONOSUPPORT : Z := 10043.
Definition WSAESOCKTNOSUPPORT : Z := 10044.
Definition WSAEOPNOTSUPP : Z := 10045.
Definition WSAEPFNOSUPPORT : Z := 10046.
Definition WSAEAFNOSUPPORT : Z := 10047.
Definition WSAEADDRINUSE : Z := 10048.
Definition WSAEADDRNOTAVAIL : Z := 10049.
Definition WSAENETDOWN : Z := 10050.
Definition WSAENETUNREACH : Z := 10051.
Definition WSAENETRESET : Z := 10052.
Definition WSAECONNABORTED : Z := 10053.
Definition WSAECONNRESET : Z := 10054.
Definition WSAENOBUFS : Z := 10055.
Definition WSAEISCONN : Z := 10056.
Definition WSAENOTCONN : Z := 10057.
Definition WSAESHUTDOWN : Z := 10058.
Definition WSAETOOMANYREFS : Z := 10059.
Definition WSAETIMEDOUT : Z := 10060.
Definition WSAECONNREFUSED : Z := 10061.
Definition WSAELOOP : Z := 10062.
Definition WSAENAMETOOLONG : Z := 10063.
Definition WSAEHOSTDOWN : Z := 10064.
Definition WSAEHOSTUNREACH : Z := 10065.
Definition WSAENOTEMPTY : Z := 10066.
Definition WSAEPROCLIM : Z := 10067.
Definition WSAEUSERS : Z := 10068.
Definition WSAEDQUOT : Z := 10069.
Definition WSAESTALE : Z := 10070.
Definition WSAEREMOTE : Z := 10071.
Definition WSASYSNOTREADY : Z := 10091.
Definition WSAVERNOTSUPPORTED : Z := 10092.
Definition WSANOTINITIALISED : Z := 10093.
Definition WSAEDISCON : Z := 10101.
Definition WSAENOMORE : Z := 10102.
Definition WSAECANCELLED : Z := 10103.
Definition WSAEINVALIDPROCTABLE : Z := 10104.
Definition WSAEINVALIDPROVIDER : Z := 10105.
Definition WSAEPROVIDERFAILEDINIT : Z := 10106.
Definition WSASYSCALLFAILURE : Z := 10107.
Definition WSASERVICE_NOT_FOUND : Z := 10108.
Definition WSATYPE_NOT_FOUND : Z := 10109.
Definition WSA_E_NO_MORE : Z := 10110.
Definition WSA_E_CANCELLED : Z := 10111.
Definition WSAEREFUSED : Z := 10112.
Definition WSAHOST_NOT_FOUND : Z := 11001.
Definition WSATRY_AGAIN : Z := 11002.
Definition WSANO_RECOVERY : Z := 11003.
Definition WSANO_DATA : Z := 11004.
Definition WSA_SECURE_HOST_NOT_FOUND : Z := 11032.
Definition WSA_IPSEC_NAME_POLICY_ERROR : Z := 11033.
(** [WSA_NOT_ENOUGH_MEMORY] is [ERROR_NOT_ENOUGH_MEMORY]. *)
Definition WSA_NOT_ENOUGH_MEMORY : Z := ERROR_NOT_ENOUGH_MEMORY.
Definition INFINITE : Z := 2 ^ 32 - 1.
Definition WAIT_OBJECT_0 : Z := 0.
Definition WAIT_ABANDONED : Z := 128.
Definition WAIT_IO_COMPLETION : Z := 192.
Definition WAIT_FAILED : Z := 2 ^ 32 - 1.

(** ** The switch of [wpdk_convert_to_posix], a table per group of cases *)
Definition posix_cases_1 : list (Z * Z) := [
  (ERROR_SUCCESS, 0);
  (ERROR_ACCESS_DENIED, EACCES);
  (ERROR_ADAP_HDW_ERR, EIO);
  (ERROR_ALERTED, EINTR);
  (ERROR_ALREADY_EXISTS, EEXIST);
  (ERROR_ARENA_TRASHED, EFAULT);
  (ERROR_BAD_ARGUMENTS, EINVAL);
  (ERROR_BAD_COMMAND, EIO);
  (ERROR_BAD_DEVICE, ENXIO);
  (ERROR_BAD_DEVICE_PATH, EINVAL);
  (ERROR_BAD_DRIVER_LEVEL, ENOSYS);
  (ERROR_BAD_ENVIRONMENT, EFAULT);
  (ERROR_BAD_EXE_FORMAT, ENOEXEC);
  (ERROR_BAD_FORMAT, ENOEXEC);
  (ERROR_BAD_LENGTH, EIO);
  (ERROR_BAD_NETPATH, ENOENT);
  (ERROR_BAD_NET_NAME, ENOENT);
  (ERROR_BAD_NET_RESP, ENOTSUP);
  (ERROR_BAD_PATHNAME, ENOENT);
  (ERROR_BAD_UNIT, ENODEV);
  (ERROR_BROKEN_PIPE, EPIPE);
  (ERROR_BUFFER_OVERFLOW, ENAMETOOLONG);
  (ERROR_BUS_RESET, EIO);
  (ERROR_BUSY, EBUSY);
  (ERROR_CALL_NOT_IMPLEMENTED, ENOSYS);
  (ERROR_CAN_NOT_COMPLETE, EINVAL);
  (ERROR_CANCELLED, ECANCELED);
  (ERROR_CANNOT_MAKE, EPERM);
  (ERROR_CANT_TERMINATE_SELF, EPERM);
  (ERROR_CANT_WAIT, EWOULDBLOCK);
  (ERROR_COMMITMENT_LIMIT, ENOMEM);
  (ERROR_CONNECTION_ABORTED, ECONNABORTED);
  (ERROR_CONNECTION_ACTIVE, EISCONN);
  (ERROR_CONNECTION_REFUSED, ECONNREFUSED);
  (ERROR_CRC, EIO) ].

Definition posix_cases_2 : list (Z * Z) := [
  (ERROR_CURRENT_DIRECTORY, EPERM);
  (ERROR_DATA_CHECKSUM_ERROR, EIO);
  (ERROR_DELETE_PENDING, EBUSY);
  (ERROR_DEV_NOT_EXIST, ENOENT);
  (ERROR_DEVICE_ALREADY_ATTACHED, EBUSY);
  (ERROR_DEVICE_NO_RESOURCES, ENOMEM);
  (ERROR_DEVICE_NOT_CONNECTED, ENXIO);
  (ERROR_DEVICE_UNREACHABLE, ENXIO);
  (ERROR_DIR_NOT_EMPTY, ENOTEMPTY);
  (ERROR_DIR_NOT_ROOT, EINVAL);
  (ERROR_DIRECT_ACCESS_HANDLE, EIO);
  (ERROR_DIRECTORY_NOT_SUPPORTED, EPERM);
  (ERROR_DISK_FULL, ENOSPC);
  (ERROR_DUP_NAME, EADDRINUSE);
  (ERROR_ELEVATION_REQUIRED, EPERM);
  (ERROR_ERRORS_ENCOUNTERED, EINVAL);
  (ERROR_EXCL_SEM_ALREADY_OWNED, EBUSY);
  (ERROR_FILE_EXISTS, EEXIST);
  (ERROR_FILE_LEVEL_TRIM_NOT_SUPPORTED, ENOSYS);
  (ERROR_FILE_NOT_FOUND, ENOENT);
  (ERROR_FILENAME_EXCED_RANGE, ENAMETOOLONG);
  (ERROR_GEN_FAILURE, EIO);
  (ERROR_GRACEFUL_DISCONNECT, ESHUTDOWN);
  (ERROR_INCORRECT_SIZE, EINVAL);
  (ERROR_INVALID_ACCESS, EACCES);
  (ERROR_INVALID_BLOCK, EFAULT);
  (ERROR_INVALID_FUNCTION, EINVAL);
  (ERROR_INVALID_HANDLE, EBADF);
  (ERROR_INVALID_LOCK_RANGE, EINVAL);
  (ERROR_INVALID_NAME, ENOENT) ].

Definition posix_cases_3 : list (Z * Z) := [
  (ERROR_INVALID_USER_BUFFER, EINVAL);
  (ERROR_HANDLE_DISK_FULL, ENOSPC);
  (ERROR_HANDLE_EOF, ENODATA);
  (ERROR_HOST_DOWN, EHOSTUNREACH);
  (ERROR_HOST_UNREACHABLE, EHOSTUNREACH);
  (ERROR_INSUFFICIENT_BUFFER, EINVAL);
  (ERROR_INTERNAL_ERROR, EFAULT);
  (ERROR_INVALID_ADDRESS, EFAULT);
  (ERROR_INVALID_DATA, EINVAL);
  (ERROR_INVALID_DRIVE, ENODEV);
  (ERROR_INVALID_EXCEPTION_HANDLER, EFAULT);
  (ERROR_INVALID_FIELD_IN_PARAMETER_LIST, EINVAL);
  (ERROR_INVALID_FLAGS, EINVAL);
  (ERROR_INVALID_NETNAME, EADDRNOTAVAIL);
  (ERROR_INVALID_PARAMETER, EINVAL);
  (ERROR_IO_DEVICE, EIO);
  (ERROR_IO_INCOMPLETE, EINPROGRESS);
  (ERROR_IO_PENDING, EINPROGRESS);
  (ERROR_LOCK_FAILED, EBUSY);
  (ERROR_LOCK_VIOLATION, EACCES);
  (ERROR_LOST_WRITEBEHIND_DATA, EIO);
  (ERROR_MAX_THRDS_REACHED, ENOMEM);
  (ERROR_MEMORY_HARDWARE, EFAULT);
  (ERROR_MORE_DATA, EMSGSIZE);
  (ERROR_MULTIPLE_FAULT_VIOLATION, EFAULT);
  (ERROR_NEGATIVE_SEEK, EINVAL);
  (ERROR_NETNAME_DELETED, ECONNABORTED);
  (ERROR_NETWORK_ACCESS_DENIED, EACCES);
  (ERROR_NETWORK_UNREACHABLE, ENETUNREACH);
  (ERROR_NETWORK_BUSY, EAGAIN);
  (ERROR_NO_MORE_ITEMS, ENODATA);
  (ERROR_NOACCESS, EFAULT);
  (ERROR_NOINTERFACE, ENOSYS) ].

Definition posix_cases_4 : list (Z * Z) := [
  (ERROR_NOT_CAPABLE, ENOSYS);
  (ERROR_NOT_ENOUGH_MEMORY, ENOMEM);
  (ERROR_NOT_ENOUGH_QUOTA, ENOMEM);
  (ERROR_NOT_FOUND, ENOENT);
  (ERROR_NOT_LOCKED, EINVAL);
  (ERROR_NOT_READY, ENXIO);
  (ERROR_NOT_SAME_DEVICE, EXDEV);
  (ERROR_NOT_SUPPORTED, ENOTSUP);
  (ERROR_NO_MORE_FILES, ENFILE);
  (ERROR_NO_MORE_USER_HANDLES, ENOMEM);
  (ERROR_NO_NETWORK, ENETDOWN);
  (ERROR_NO_PROC_SLOTS, ENOMEM);
  (ERROR_NO_SYSTEM_RESOURCES, ENOMEM);
  (ERROR_NONPAGED_SYSTEM_RESOURCES, ENOMEM);
  (ERROR_NOT_DOS_DISK, ENODEV);
  (ERROR_OBJECT_NAME_EXISTS, EEXIST);
  (ERROR_OFFSET_ALIGNMENT_VIOLATION, EINVAL);
  (ERROR_OPERATION_IN_PROGRESS, EINPROGRESS);
  (ERROR_OUT_OF_STRUCTURES, ENOMEM);
  (ERROR_PAGED_SYSTEM_RESOURCES, EINVAL);
  (ERROR_POSSIBLE_DEADLOCK, EWOULDBLOCK);
  (ERROR_PAGEFILE_QUOTA, ENOMEM);
  (ERROR_OPEN_FAILED, ENOENT);
  (ERROR_OPERATION_ABORTED, ECANCELED);
  (ERROR_OUTOFMEMORY, ENOMEM);
  (ERROR_OUT_OF_PAPER, EIO);
  (ERROR_PAGEFILE_QUOTA_EXCEEDED, ENOMEM);
  (ERROR_PATH_NOT_FOUND, ENOENT);
  (ERROR_PIPE_NOT_CONNECTED, EPIPE);
  (ERROR_PROTOCOL_UNREACHABLE, ENETUNREACH);
  (ERROR_PORT_UNREACHABLE, ECONNRESET);
  (ERROR_READ_FAULT, EIO);
  (ERROR_RECEIVE_EXPEDITED, EMSGSIZE) ].

Definition posix_cases_5 : list (Z * Z) := [
  (ERROR_RECEIVE_PARTIAL, EMSGSIZE);
  (ERROR_RECEIVE_PARTIAL_EXPEDITED, EMSGSIZE);
  (ERROR_REM_NOT_LIST, ENETUNREACH);
  (ERROR_REPARSE, EAGAIN);
  (ERROR_REQ_NOT_ACCEP, EAGAIN);
  (ERROR_REQUEST_ABORTED, ECANCELED);
  (ERROR_RETRY, EAGAIN);
  (ERROR_SECTOR_NOT_FOUND, EINVAL);
  (ERROR_SEEK, EINVAL);
  (ERROR_SEEK_ON_DEVICE, EINVAL);
  (ERROR_SEM_IS_SET, EBUSY);
  (ERROR_SEM_NOT_FOUND, ENOENT);
  (ERROR_SEM_OWNER_DIED, EOWNERDEAD);
  (ERROR_SEM_TIMEOUT, ETIMEDOUT);
  (ERROR_SEM_USER_LIMIT, EAGAIN);
  (ERROR_SHARING_BUFFER_EXCEEDED, ENOLCK);
  (ERROR_SHARING_VIOLATION, EBUSY);
  (ERROR_TIMEOUT, ETIMEDOUT);
  (ERROR_TOO_MANY_DESCRIPTORS, ENOMEM);
  (ERROR_TOO_MANY_NAMES, ENOSPC);
  (ERROR_TOO_MANY_OPEN_FILES, EMFILE);
  (ERROR_TOO_MANY_POSTS, EINVAL);
  (ERROR_TOO_MANY_SEM_REQUESTS, EBUSY);
  (ERROR_TOO_MANY_SEMAPHORES, ENOMEM);
  (ERROR_TOO_MANY_TCBS, ENOMEM);
  (ERROR_TOO_MANY_THREADS, ENOMEM);
  (ERROR_UNEXP_NET_ERR, EIO);
  (ERROR_USER_MAPPED_FILE, EINVAL);
  (ERROR_WAIT_NO_CHILDREN, ECHILD);
  (ERROR_WRITE_FAULT, EIO);
  (ERROR_WRITE_PROTECT, EACCES);
  (ERROR_WRONG_DISK, EIO);
  (ERROR_WORKING_SET_QUOTA, ENOMEM);
  (WAIT_TIMEOUT, ETIMEDOUT) ].

Definition posix_cases_6 : list (Z * Z) := [
  (WSAEINTR, EINTR);
  (WSAEBADF, EBADF);
  (WSAEACCES, EACCES);
  (WSAEFAULT, EFAULT);
  (WSAEINVAL, EINVAL);
  (WSAEMFILE, EMFILE);
  (WSAEWOULDBLOCK, EWOULDBLOCK);
  (WSAEINPROGRESS, EINPROGRESS);
  (WSAEALREADY, EALREADY);
  (WSAENOTSOCK, ENOTSOCK);
  (WSAEDESTADDRREQ, EDESTADDRREQ);
  (WSAEMSGSIZE, EMSGSIZE);
  (WSAEPROTOTYPE, EPROTOTYPE);
  (WSAENOPROTOOPT, ENOPROTOOPT);
  (WSAEPROTONOSUPPORT, EPROTONOSUPPORT);
  (WSAESOCKTNOSUPPORT, EAFNOSUPPORT);
  (WSAEOPNOTSUPP, ENOTSUP);
  (WSAEPFNOSUPPORT, EPROTONOSUPPORT);
  (WSAEAFNOSUPPORT, EAFNOSUPPORT);
  (WSAEADDRINUSE, EADDRINUSE);
  (WSAEADDRNOTAVAIL, EADDRNOTAVAIL);
  (WSAENETDOWN, ENETDOWN);
  (WSAENETUNREACH, ENETUNREACH);
  (WSAENETRESET, ENETRESET);
  (WSAECONNABORTED, ECONNABORTED);
  (WSAECONNRESET, ECONNRESET);
  (WSAENOBUFS, ENOBUFS);
  (WSAEISCONN, EISCONN);
  (WSAENOTCONN, ENOTCONN);
  (WSAESHUTDOWN, ESHUTDOWN);
  (WSAETOOMANYREFS, ETOOMANYREFS);
  (WSAETIMEDOUT, ETIMEDOUT);
  (WSAECONNREFUSED, ECONNREFUSED);
  (WSAELOOP, ELOOP);
  (WSAENAMETOOLONG, ENAMETOOLONG);
  (WSAEHOSTDOWN, EHOSTDOWN);
  (WSAEHOSTUNREACH, EHOSTUNREACH) ].

Definition posix_cases_7 : list (Z * Z) := [
  (WSAENOTEMPTY, ENOTEMPTY);
  (WSAEPROCLIM, EPROCLIM);
  (WSAEUSERS, EUSERS);
  (WSAEDQUOT, EDQUOT);
  (WSAESTALE, ESTALE);
  (WSAEREMOTE, EREMOTE);
  (WSASYSNOTREADY, EAGAIN);
  (WSAVERNOTSUPPORTED, ENOSYS);
  (WSANOTINITIALISED, ENOSYS);
  (WSAEDISCON, ECONNRESET);
  (WSAENOMORE, ENOSYS);
  (WSAECANCELLED, ECANCELED);
  (WSAEINVALIDPROCTABLE, EINVAL);
  (WSAEINVALIDPROVIDER, EINVAL);
  (WSAEPROVIDERFAILEDINIT, ENOSYS);
  (WSASYSCALLFAILURE, ENOSYS);
  (WSASERVICE_NOT_FOUND, ENOSYS);
  (WSATYPE_NOT_FOUND, ENOSYS);
  (WSA_E_NO_MORE, EINVAL);
  (WSA_E_CANCELLED, ECANCELED);
  (WSAEREFUSED, EINVAL);
  (WSAHOST_NOT_FOUND, EHOSTDOWN);
  (WSATRY_AGAIN, EAGAIN);
  (WSANO_RECOVERY, ENOSYS);
  (WSANO_DATA, ENOSYS);
  (WSA_SECURE_HOST_NOT_FOUND, EHOSTDOWN);
  (WSA_IPSEC_NAME_POLICY_ERROR, ENOSYS) ].

Definition posix_cases : list (Z * Z) :=
  posix_cases_1 ++ posix_cases_2 ++ posix_cases_3 ++ posix_cases_4 ++ posix_cases_5 ++ posix_cases_6 ++ posix_cases_7.

(** A C [switch] whose labels are the first components. *)
Fixpoint switch (cases : list (Z * Z)) (v default : Z) : Z :=
  match cases with
  | [] => default
  | (label, r) :: cases => if v =? label then r else switch cases v default
  end.

Definition wpdk_convert_to_posix (err : Z) : Z := switch posix_cases err EINVAL.

(** ** errno as a component of a state *)

Class HasErrno (S : Type) := {
  errno : S -> Z;
  set_errno : Z -> S -> S;
  errno_set_errno : forall e s, errno (set_errno e s) = e
}.

(** Where a state exposes the thread's Windows error codes. *)
Class HasLastError (S : Type) := GetLastError : S -> Z.
Class HasWSALastError (S : Type) := {
  WSAGetLastError : S -> Z;
  WSASetLastError : Z -> S -> S
}.

Section Report.
Context {S : Type} `{!HasErrno S}.

(** [_set_errno(e)] *)
Definition set_errno_c (e : Z) : C S unit := modify (set_errno e).

Definition wpdk_windows_error (error : Z) : C S Z :=
  (set_errno_c (wpdk_convert_to_posix error) ;; ret (-1))%c.

Definition wpdk_posix_error (error : Z) : C S Z :=
  (set_errno_c error ;; ret (-1))%c.

Definition wpdk_last_error `{!HasLastError S} : C S Z :=
  (let* e := gets GetLastError in wpdk_windows_error (s32 e))%c.

Definition wpdk_last_wsa_error `{!HasWSALastError S} : C S Z :=
  (let* e := gets WSAGetLastError in wpdk_windows_error e)%c.

Definition wpdk_set_last_wsa_error `{!HasWSALastError S} (error : Z) : C S unit :=
  modify (WSASetLastError error).
End Report.

#[export] Hint Unfold set_errno_c wpdk_windows_error wpdk_posix_error
  wpdk_last_error wpdk_last_wsa_error wpdk_set_last_wsa_error : wpdk_unfold.

(** ** Facts about the switch *)

Lemma switch_in cases v d r :
  NoDup (map fst cases) -> (v, r) ∈ cases -> switch cases v d = r.
Proof.
  induction cases as [|[l x] cases IH]; simpl; [set_solver|].
  intros [Hn Hnd]%NoDup_cons [[= -> ->]|Hin]%elem_of_cons.
  - by rewrite Z.eqb_refl.
  - destruct (Z.eqb_spec v l) as [->|]; [|auto].
    destruct Hn. apply list_elem_of_In, in_map_iff.
    exists (l, r). split; [done|]. by apply list_elem_of_In.
Qed.

Lemma switch_notin cases v d :
  v ∉ map fst cases -> switch cases v d = d.
Proof.
  induction cases as [|[l x] cases IH]; simpl; [done|].
  intros [Hne Hin]%not_elem_of_cons. rewrite (proj2 (Z.eqb_neq v l)) by done. auto.
Qed.

(** The labels of the switch are pairwise distinct. *)
Lemma posix_cases_distinct : NoDup (map fst posix_cases).
Proof. apply (bool_decide_unpack _). vm_compute. exact I. Qed.

Lemma posix_cases_results :
  Forall (fun c => c.1 <> 0 -> 0 < c.2 < 2 ^ 31) posix_cases.
Proof. apply (bool_decide_unpack _). vm_compute. exact I. Qed.

Lemma convert_range err : err <> ERROR_SUCCESS -> 0 < wpdk_convert_to_posix err < 2 ^ 31.
Proof.
  intros Hne. unfold wpdk_convert_to_posix.
  destruct (decide (err ∈ map fst posix_cases)) as [Hin|Hout].
  - apply list_elem_of_In, in_map_iff in Hin as [[l r] [<- Hin]].
    apply list_elem_of_In in Hin. rewrite (switch_in _ _ _ r posix_cases_distinct Hin).
    apply (proj1 (Forall_forall _ _) posix_cases_results (l, r)); done.
  - rewrite switch_notin by done. unfold EINVAL. lia.
Qed.

(** The conversion of a Windows error code never turns a failure into
    success: the errno is 0 exactly for ERROR_SUCCESS, and otherwise it is a
    positive [int], so a caller that tests errno sees every error. *)
Theorem convert_zero_iff_success (err : Z) :
  (wpdk_convert_to_posix err = 0 <-> err = ERROR_SUCCESS) /\
  0 <= wpdk_convert_to_posix err < 2 ^ 31.
Proof.
  destruct (decide (err = ERROR_SUCCESS)) as [->|Hne].
  - vm_compute. repeat split; congruence.
  - pose proof (convert_range err Hne). lia.
Qed.

(** The switch is a function of its set of cases: each of its cases yields
    its own errno (so no case is shadowed by an earlier one) and every code
    that has no case yields EINVAL. *)
Theorem convert_by_cases (err : Z) :
  (forall e, (err, e) ∈ posix_cases -> wpdk_convert_to_posix err = e) /\
  (err ∉ map fst posix_cases -> wpdk_convert_to_posix err = EINVAL).
Proof.
  split.
  - intros e. apply switch_in, posix_cases_distinct.
  - apply switch_notin.
Qed.

(** Reporting a Windows error always yields -1, and errno is then the
    conversion of the code. *)
Lemma windows_error_spec {S} `{!HasErrno S} e (s : S) :
  wpdk_windows_error e s = (-1, set_errno (wpdk_convert_to_posix e) s).
Proof. reflexivity. Qed.

Lemma posix_error_spec {S} `{!HasErrno S} e (s : S) :
  wpdk_posix_error e s = (-1, set_errno e s).
Proof. reflexivity. Qed.

Lemma last_error_spec {S} `{!HasErrno S, !HasLastError S} (s : S) :
  wpdk_last_error s = (-1, set_errno (wpdk_convert_to_posix (s32 (GetLastError s))) s).
Proof. reflexivity. Qed.

Lemma last_wsa_error_spec {S} `{!HasErrno S, !HasWSALastError S} (s : S) :
  wpdk_last_wsa_error s = (-1, set_errno (wpdk_convert_to_posix (WSAGetLastError s)) s).
Proof. reflexivity. Qed.

#[export] Hint Rewrite @windows_error_spec @posix_error_spec @last_error_spec
  @last_wsa_error_spec @errno_set_errno : wpdk_rw.

End Errno.
