(* ===== verification/CString.v ===== *)
(** * CString: NUL-terminated strings and the C string functions the code calls

    A C string is the list of its characters before the terminator, so every
    list of characters here stands for a buffer that ends in NUL.  The
    functions are those of the C library (and its [_s] variants) that the
    modelled sources use, with their documented results. *)

From S2P Require Import Prelude.
From Stdlib Require Import Ascii.

Module Export CString.
Local Open Scope nat_scope.

Abbreviation cstr := (list ascii).

(** A string literal of the source. *)
Definition lit (s : string) : cstr := String.list_ascii_of_string s.

Definition NUL : ascii := Ascii.zero.
Definition slash : ascii := "/"%char.

Definition eqc (a b : ascii) : bool := Ascii.eqb a b.
Definition eqs (a b : cstr) : bool := bool_decide (a = b).

(** [*(p + i)] of a string: NUL at its end.  Reads past the terminator are not
    part of this function's contract; callers that could perform one say so. *)
Definition char_at (s : cstr) (i : nat) : ascii := nth i s NUL.

(** [strchr], as the index of the first occurrence. *)
Fixpoint strchr (s : cstr) (c : ascii) : option nat :=
  match s with
  | [] => None
  | x :: s => if eqc x c then Some 0 else S <$> strchr s c
  end.

(** [strrchr(s, c) == s]: the last occurrence is the first character. *)
Definition last_at_start (s : cstr) (c : ascii) : bool :=
  match s with
  | [] => false
  | x :: s => eqc x c && negb (bool_decide (c ∈ s))
  end.

(** [strncmp(a, b, n) == 0] *)
Fixpoint strncmp_eq (a b : cstr) (n : nat) {struct n} : bool :=
  match n, a, b with
  | O, _, _ => true
  | S _, [], [] => true
  | S n, x :: a, y :: b => eqc x y && strncmp_eq a b n
  | S _, _, _ => false
  end.

(** [strstr(s, w)], as the index of the first occurrence of [w]. *)
Fixpoint starts_with (s w : cstr) : bool :=
  match w, s with
  | [], _ => true
  | y :: w, x :: s => eqc x y && starts_with s w
  | _ :: _, [] => false
  end.

Fixpoint strstr (s w : cstr) : option nat :=
  if starts_with s w then Some 0
  else match s with
       | [] => None
       | _ :: s => S <$> strstr s w
       end.

(** [strcpy_s(buf, n, src)] succeeds when the terminator fits as well. *)
Definition strcpy_s_ok (n : nat) (src : cstr) : bool := length src <? n.
(** [strcat_s(buf, n, src)] on a buffer that holds [dst]. *)
Definition strcat_s_ok (n : nat) (dst src : cstr) : bool := length dst + length src <? n.

Definition tolower (c : ascii) : ascii :=
  let n := nat_of_ascii c in
  if (65 <=? n) && (n <=? 90) then ascii_of_nat (n + 32) else c.

(** ** Lemmas *)

Lemma eqc_spec a b : reflect (a = b) (eqc a b).
Proof. apply Ascii.eqb_spec. Qed.

Lemma strncmp_eq_prefix a b n :
  n <= length b -> strncmp_eq a b n = true <-> take n b `prefix_of` a.
Proof.
  revert a b. induction n as [|n IH]; intros a b Hn; simpl.
  { split; [intros _; apply prefix_nil|done]. }
  destruct b as [|y b]; simpl in Hn; [lia|]. destruct a as [|x a]; simpl.
  { split; [done|]. intros [k Hk]. done. }
  destruct (eqc_spec x y) as [->|Hne]; simpl.
  - rewrite (IH a b) by lia. split.
    + intros H. by apply prefix_cons.
    + intros H. by apply prefix_cons_inv_2 in H.
  - split; [done|]. intros H. apply prefix_cons_inv_1 in H. congruence.
Qed.

Lemma strncmp_eq_full a b :
  strncmp_eq a b (length b) = true <-> b `prefix_of` a.
Proof. rewrite strncmp_eq_prefix by done. by rewrite take_ge. Qed.

Lemma strchr_None s c : strchr s c = None <-> c ∉ s.
Proof.
  induction s as [|x s IH]; simpl; [set_solver|].
  destruct (eqc_spec x c) as [->|Hne]; [set_solver|].
  destruct (strchr s c); simpl; set_solver.
Qed.

Lemma strchr_Some s c i :
  strchr s c = Some i -> i < length s /\ s !! i = Some c /\ c ∉ take i s.
Proof.
  revert i; induction s as [|x s IH]; intros i; simpl; [done|].
  destruct (eqc_spec x c) as [->|Hne].
  - intros [= <-]. simpl. split; [lia|]. split; [done|set_solver].
  - destruct (strchr s c) as [j|] eqn:E; simpl; [|done].
    intros [= <-]. destruct (IH j eq_refl) as (H1 & H2 & H3). simpl.
    split; [lia|]. split; [done|set_solver].
Qed.
End CString.
