(* ===== verification/Diagnostics.v ===== *)
(** * Diagnostics: warnings and fatal errors (src/src/log.c, src/src/fatal.c and their macros in wpdk/internal.h)

    The standard error stream is the text written to it.  A call returns or ends the program
    ([abort]); [CHECK_UNIMPLEMENTED] is whether the library is built with that macro. *)

From S2P Require Import Prelude CString.
From stdpp Require Import pretty.

Module Export Diagnostics.

(** What a call comes to, with the stream as it leaves it. *)
Inductive diagnosed := Returns (stderr : cstr) | Aborts (stderr : cstr).

(** [fprintf(stderr, "%s:%d: %s(): %s\n", file, line, function, text)] *)
Definition diagnostic (file : cstr) (line : Z) (function text : cstr) : cstr :=
  file ++ lit ":" ++ lit (pretty line) ++ lit ": " ++ function ++ lit "(): " ++ text ++ [Ascii.ascii_of_nat 10].

Definition wpdk_fatal (file : cstr) (line : Z) (function : cstr) (message : option cstr) (stderr : cstr) : diagnosed :=
  Aborts (stderr ++ diagnostic file line function (default (lit "fatal error") message)).

(** [WPDK_FATAL_ERROR(msg)] at a place in the source. *)
Definition WPDK_FATAL_ERROR (file : cstr) (line : Z) (function msg stderr : cstr) : diagnosed := wpdk_fatal file line function (Some msg) stderr.

Section Build.
Context (CHECK_UNIMPLEMENTED : bool).

(** [WPDK_UNIMPLEMENTED()] at a place in the source. *)
Definition WPDK_UNIMPLEMENTED (file : cstr) (line : Z) (function stderr : cstr) : diagnosed :=
  if CHECK_UNIMPLEMENTED then wpdk_fatal file line function (Some (lit "Unimplemented functionality")) stderr else Returns stderr.

(** [this_file] is [__FILE__] in log.c, where the call is in line 23; the arguments of the format are not used. *)
Definition wpdk_warning (this_file file : cstr) (line : Z) (function fmt : cstr) (arguments : list cstr) (stderr : cstr) : diagnosed :=
  match WPDK_UNIMPLEMENTED this_file 23 (lit "wpdk_warning") stderr with
  | Aborts e => Aborts e
  | Returns e => Returns (e ++ diagnostic file line function fmt)
  end.

(** Warnings one after the other: the program ends with the first that aborts. *)
Fixpoint warnings (this_file : cstr) (ws : list (cstr * Z * cstr * cstr * list cstr)) (stderr : cstr) : diagnosed :=
  match ws with
  | [] => Returns stderr
  | (file, line, function, fmt, arguments) :: ws =>
    match wpdk_warning this_file file line function fmt arguments stderr with
    | Aborts e => Aborts e
    | Returns e => warnings this_file ws e
    end
  end.
End Build.

Definition warning_text (w : cstr * Z * cstr * cstr * list cstr) : cstr :=
  let '(file, line, function, fmt, _) := w in diagnostic file line function fmt.

(** In a normal build warnings return and write one line each, the format as it stands: conversions are not replaced by the arguments. Built
    with CHECK_UNIMPLEMENTED the first warning ends the program, and what it says is not written. *)
Theorem warnings_written (chk : bool) (this_file : cstr) (ws : list (cstr * Z * cstr * cstr * list cstr)) (stderr : cstr) :
  warnings chk this_file ws stderr =
    if chk && negb (bool_decide (ws = []))
    then Aborts (stderr ++ diagnostic this_file 23 (lit "wpdk_warning") (lit "Unimplemented functionality"))
    else Returns (stderr ++ concat (map warning_text ws)).
Proof.
  destruct chk; [by destruct ws as [|[[[[f l] g] t] a] ws]; cbn; rewrite ?app_nil_r|]. cbn [andb].
  revert stderr. induction ws as [|[[[[f l] g] t] a] ws IH]; intros e; [by cbn; rewrite app_nil_r|].
  cbn [warnings wpdk_warning WPDK_UNIMPLEMENTED map concat warning_text]. by rewrite IH, <- app_assoc.
Qed.

(** The warning of [wpdk_signal_handler] for signal 99: the number does not appear. *)
Example warning_unformatted :
  warnings false (lit "log.c") [(lit "signal.c", 130%Z, lit "wpdk_signal_handler", lit "Invalid signal (%d)", [lit "99"])] [] =
    Returns (lit "signal.c:130: wpdk_signal_handler(): Invalid signal (%d)" ++ [Ascii.ascii_of_nat 10]).
Proof. vm_compute. reflexivity. Qed.
End Diagnostics.
