(* ===== verification/PathMap.v ===== *)
(** * PathMap: translation of POSIX paths (src/src/fcntl.c, the path map)

    The static table [map] of directory prefixes, its construction from the
    environment ([wpdk_init_map] and the functions it calls) and the lookup
    [wpdk_get_path] / [wpdk_copy_path] every path-taking function goes
    through.  The process environment, [_access] and the allocator are
    parameters. *)

From S2P Require Import Prelude CString.
From Stdlib Require Import Ascii Sorted.

Module Export PathMap.
Local Open Scope nat_scope.

(** [MAX_PATH] and [PATH_MAX] (src/inc/limits.h). *)
Definition MAX_PATH : nat := 260.
Definition PATH_MAX : nat := 260.
(** Number of entries of the array [map]. *)
Definition map_size : nat := 20.

Record mapping := Mapping { dir : cstr; dest : cstr; len : nat }.

#[export] Instance mapping_eq_dec : EqDecision mapping.
Proof. solve_decision. Defined.

(** What the code asks of its environment. *)
Record env := Env {
  getenv : string -> option cstr;
  access : cstr -> bool;               (** [_access(path, F_OK) != -1] *)
  current_directory : nat * cstr;      (** result and buffer of [GetCurrentDirectory] *)
  strdup_ok : cstr -> bool             (** [wpdk_strdup(s) != NULL] *)
}.

Section WithEnv.
Context (e : env).

Definition strdup (s : cstr) : option cstr := if strdup_ok e s then Some s else None.

(** [for (cp = from; (cp = strstr(cp, "//")) != NULL; ) memmove(cp, cp + 1, strlen(cp));] *)
Fixpoint squeeze (s : cstr) : cstr :=
  match s with
  | x :: s' =>
      match s' with
      | y :: _ => if eqc x slash && eqc y slash then squeeze s' else x :: squeeze s'
      | [] => [x]
      end
  | [] => []
  end.

(** The directory as it is stored: duplicated slashes removed, "/" emptied. *)
Definition stored_dir (d : cstr) : cstr :=
  let from := squeeze d in if eqs from (lit "/") then [] else from.

(** Insertion before the first shorter directory. *)
Definition insert_mapping (m : mapping) (map : list mapping) : list mapping :=
  let i := scan (fun i => match map !! i with
                          | Some x => length (dir x) <? length (dir m)
                          | None => false
                          end) (length map) in
  take i map ++ m :: drop i map.

Definition wpdk_add_mapping (d : cstr) (dst : option cstr) (prefix : bool)
    (map : list mapping) : list mapping :=
  match dst with
  | None => map
  | Some dst =>
      if map_size <=? length map then map
      else if existsb (fun x => eqs (dir x) d) map then map
      else
        let path :=
          if strcpy_s_ok MAX_PATH dst && (negb prefix || strcat_s_ok MAX_PATH dst d)
          then strdup (if prefix then dst ++ d else dst) else None in
        match path with
        | None => map
        | Some path =>
            if negb (access e path) then map
            else match strdup d with
                 | None => map
                 | Some from => insert_mapping (Mapping (stored_dir from) path (length d)) map
                 end
        end
  end.

(** [strncpy_s(buf, MAX_PATH, src, n)]: on overflow the buffer is emptied. *)
Definition strncpy_s (src : cstr) (n : nat) : cstr :=
  let s := take n src in if length s <? MAX_PATH then s else [].

(** The semicolon separated assignments of WPDKPATHMAP.  Each round consumes at
    least the '=' it found, so the length of the text is enough fuel. *)
Fixpoint add_pathmap_loop (fuel : nat) (cp : cstr) (map : list mapping) : list mapping :=
  match fuel with
  | O => map
  | S fuel =>
      match strchr cp "="%char with
      | None => map
      | Some i =>
          let d := strncpy_s cp i in
          let cp := drop (S i) cp in
          match strchr cp ";"%char with
          | Some j =>
              add_pathmap_loop fuel (drop (S j) cp)
                (wpdk_add_mapping d (Some (strncpy_s cp j)) false map)
          | None => wpdk_add_mapping d (Some (strncpy_s cp (length cp))) false map
          end
      end
  end.

Definition wpdk_add_pathmap (map : list mapping) : list mapping :=
  match getenv e "WPDKPATHMAP" with
  | None => map
  | Some cp => add_pathmap_loop (length cp) cp map
  end.

Definition wpdk_add_system_drive (prefix : cstr) (map : list mapping) : list mapping :=
  match getenv e "SystemDrive" with
  | None => map
  | Some cp =>
      let buf := prefix ++ slash :: (match cp with [] => [] | c :: _ => [tolower c] end) in
      wpdk_add_mapping buf (Some cp) false map
  end.

Definition wpdk_add_wsl_paths (map : list mapping) : bool * list mapping :=
  let '(rc, path) := current_directory e in
  if (rc =? 0) || (MAX_PATH <? rc) then (false, map)
  else if negb (strncmp_eq path (lit "\\wsl$\") 7) then (false, map)
  else match strchr (drop 7 path) "\"%char with
       | None => (false, map)
       | Some i =>
           let path := take (7 + i) path in
           let map := wpdk_add_mapping (lit "/home") (Some path) true map in
           (true, wpdk_add_system_drive (lit "/mnt") map)
       end.

Definition wpdk_add_msys_paths (d : option cstr) (map : list mapping) : list mapping :=
  match d with
  | None => map
  | Some d =>
      match strstr d (lit "msys") with
      | None => map
      | Some _ =>
          if negb (strcpy_s_ok MAX_PATH d) then map
          else
            let cut := match strstr d (lit "\tmp") with
                       | Some i => Some i
                       | None => strstr d (lit "/usr")
                       end in
            match cut with
            | None => map
            | Some i =>
                let path := Some (take i d) in
                let map := wpdk_add_mapping (lit "/tmp") path true map in
                let map := wpdk_add_mapping (lit "/var/tmp") path true map in
                let map := wpdk_add_mapping (lit "/home") path true map in
                wpdk_add_system_drive [] map
            end
      end
  end.

(** The static variables [map_init] and [map[0 .. map_count)]. *)
Record path_state := PathState { map_init : bool; map_tab : list mapping }.

Definition path_state0 : path_state := PathState false [].

Definition wpdk_init_map (st : path_state) : path_state :=
  if map_init st then st
  else
    let map := wpdk_add_pathmap (map_tab st) in
    let '(wsl, map) := wpdk_add_wsl_paths map in
    let map := if wsl then map
               else wpdk_add_msys_paths (getenv e "TMP")
                      (wpdk_add_msys_paths (getenv e "MSYSTEM_PREFIX") map) in
    let tmp := getenv e "TMP" in
    let map := wpdk_add_mapping (lit "/tmp") tmp false map in
    let map := wpdk_add_mapping (lit "/var/tmp") tmp false map in
    PathState true map.

(** The pointer [wpdk_get_path] returns: its argument, the caller's buffer, the
    array [buf] of [wpdk_remap_root_file] (whose lifetime has ended), or NULL. *)
Inductive path_result :=
  | SamePath (path : option cstr)
  | InBuffer (content : cstr)
  | DeadLocal (content : cstr)
  | NullPath.

(** The test of the lookup loop.  [path[map[i].len]] is read only after the
    first [len] characters agreed; for the entries [wf_mapping] describes it
    is within the string or its terminator. *)
Definition mapping_matches (path : cstr) (m : mapping) : bool :=
  strncmp_eq path (dir m) (len m) && eqc (char_at path (len m)) slash.

Definition lookup_mapping (map : list mapping) (path : cstr) : option mapping :=
  let i := scan (fun i => match map !! i with
                          | Some m => mapping_matches path m
                          | None => false
                          end) (length map) in
  map !! i.

(** The part of [wpdk_get_path] after the root-file test: the result and the
    caller's buffer of [n] bytes, which holds [buf] before. *)
Definition map_path (map : list mapping) (path buf : cstr) (n : nat) : path_result * cstr :=
  match lookup_mapping map path with
  | Some m =>
      let rest := drop (len m) path in
      if strcpy_s_ok n (dest m) && strcat_s_ok n (dest m) rest
      then (InBuffer (dest m ++ rest), dest m ++ rest)
      else (NullPath, [])
  | None => (SamePath (Some path), buf)
  end.

(** Files in / are remapped into /tmp.  [get_path] is the function it calls
    back; a result that is that call's own argument points to the local array. *)
Definition wpdk_remap_root_file
    (get_path : option cstr -> cstr -> nat -> path_state -> option (path_result * cstr * path_state))
    (path buf : cstr) (n : nat) (st : path_state) : option (path_result * cstr * path_state) :=
  if strcpy_s_ok MAX_PATH (lit "/tmp") && strcat_s_ok MAX_PATH (lit "/tmp") path
  then match get_path (Some (lit "/tmp" ++ path)) buf n st with
       | Some (SamePath _, buf, st) => Some (DeadLocal (lit "/tmp" ++ path), buf, st)
       | r => r
       end
  else Some (NullPath, buf, st).

(** A path whose only slash is its first character, and that is not "/". *)
Definition is_root_file (p : cstr) : bool :=
  last_at_start p slash && negb (eqc (char_at p 1) NUL).

(** [wpdk_get_path] and [wpdk_remap_root_file] call each other; [fuel] counts
    the activations of [wpdk_get_path].  Two are enough ([get_path_terminates]). *)
Fixpoint get_path_fuel (fuel : nat) (path : option cstr) (buf : cstr) (n : nat)
    (st : path_state) : option (path_result * cstr * path_state) :=
  match fuel with
  | O => None
  | S fuel =>
      match path with
      | None | Some [] => Some (SamePath path, buf, st)
      | Some p =>
          if PATH_MAX <=? length p then Some (NullPath, buf, st)
          else
            let st := if map_init st then st else wpdk_init_map st in
            if is_root_file p
            then wpdk_remap_root_file (get_path_fuel fuel) p buf n st
            else let '(r, buf) := map_path (map_tab st) p buf n in Some (r, buf, st)
      end
  end.

Definition wpdk_get_path (path : option cstr) (buf : cstr) (n : nat) (st : path_state)
    : path_result * cstr * path_state :=
  default (NullPath, buf, st) (get_path_fuel 2 path buf n st).

(** The pointer returned: [None] is NULL, [Some c] the buffer with contents [c]. *)
Definition wpdk_copy_path (buf : cstr) (n : nat) (path : option cstr) (st : path_state)
    : option cstr * path_state :=
  match wpdk_get_path path buf n st with
  | (SamePath (Some p), _, st) => (if strcpy_s_ok n p then Some p else None, st)
  | (_, buf, st) => (Some buf, st)
  end.
End WithEnv.

(** ** The table invariant *)

Definition longer_first (a b : mapping) : Prop := length (dir b) <= length (dir a).

(** What [wpdk_add_mapping] records of a directory: its stored form, but its own length. *)
Definition made (m : mapping) : Prop := exists d, dir m = stored_dir d /\ len m = length d.

Definition map_inv (map : list mapping) : Prop :=
  length map <= map_size /\ StronglySorted longer_first map /\ Forall made map.

(** An entry whose recorded length is that of the directory it stores. *)
Definition wf_mapping (m : mapping) : Prop := len m = length (dir m).

#[export] Instance wf_mapping_dec m : Decision (wf_mapping m).
Proof. unfold wf_mapping. apply _. Defined.

Lemma StronglySorted_take_drop {A} (R : A -> A -> Prop) (l : list A) i x :
  StronglySorted R l ->
  Forall (fun a => R a x) (take i l) -> Forall (fun b => R x b) (drop i l) ->
  StronglySorted R (take i l ++ x :: drop i l).
Proof.
  revert i. induction l as [|a l IH]; intros i Hs Ht Hd.
  { rewrite take_nil, drop_nil. repeat constructor. }
  apply StronglySorted_inv in Hs as Hs'. destruct Hs' as [Hs' Ha].
  destruct i as [|i]; simpl in *.
  - constructor; done.
  - apply Forall_cons in Ht as [Hax Ht]. constructor; [by apply IH|].
    apply Forall_app. split; [by apply Forall_take|].
    constructor; [done|]. by apply Forall_drop.
Qed.

Lemma insert_mapping_sorted m map :
  StronglySorted longer_first map -> StronglySorted longer_first (insert_mapping m map).
Proof.
  intros Hs. unfold insert_mapping.
  set (P := fun i => match map !! i with
                     | Some x => length (dir x) <? length (dir m) | None => false end).
  set (i := scan P (length map)).
  apply StronglySorted_take_drop; [done| |].
  - apply Forall_lookup. intros j x Hj. apply lookup_take_Some in Hj as [Hj Hlt].
    pose proof (scan_before P _ _ Hlt) as HP. unfold P in HP. rewrite Hj in HP.
    bool_prop. unfold longer_first. lia.
  - destruct (drop i map) as [|y l] eqn:Ed; [constructor|].
    assert (map !! i = Some y) as Hi.
    { rewrite <- (Nat.add_0_r i), <- lookup_drop, Ed. done. }
    assert (length (dir y) < length (dir m)) as Hy.
    { apply lookup_lt_Some in Hi as Hlt. pose proof (scan_found P _ Hlt) as HP.
      fold i in HP. cbv beta delta [P] in HP. rewrite Hi in HP. by bool_prop. }
    rewrite <- (take_drop i map), Ed in Hs.
    assert (StronglySorted longer_first (y :: l)) as Hsy.
    { clear -Hs. induction (take i map); [done|]. apply StronglySorted_inv in Hs as [? ?]. auto. }
    apply StronglySorted_inv in Hsy as [_ Hl].
    constructor; [unfold longer_first; lia|].
    eapply Forall_impl; [exact Hl|]. unfold longer_first. simpl. intros. lia.
Qed.

Lemma insert_mapping_length m map : length (insert_mapping m map) = S (length map).
Proof.
  unfold insert_mapping. rewrite length_app, length_take. simpl. rewrite length_drop.
  match goal with |- context [scan ?P ?n] => pose proof (scan_le P n) end. lia.
Qed.

Lemma elem_of_insert_mapping m x map : x ∈ insert_mapping m map <-> x = m \/ x ∈ map.
Proof.
  unfold insert_mapping. match goal with |- context [take ?i map] => generalize i end. intros i.
  rewrite elem_of_app, elem_of_cons. rewrite <- (take_drop i map) at 3.
  rewrite elem_of_app. tauto.
Qed.

Lemma insert_mapping_made d path map : Forall made map -> Forall made (insert_mapping (Mapping (stored_dir d) path (length d)) map).
Proof. rewrite !Forall_forall. intros H x [->|Hx]%elem_of_insert_mapping; [by exists d|by apply H]. Qed.

Lemma add_mapping_inv e d dst prefix map :
  map_inv map -> map_inv (wpdk_add_mapping e d dst prefix map).
Proof.
  intros (Hlen & Hs & Hm). unfold wpdk_add_mapping. destruct dst as [dst|]; [|done].
  destruct (map_size <=? length map) eqn:Efull; [done|].
  destruct (existsb _ _); [done|]. cbv zeta. destruct (if _ && _ then _ else _) as [path|]; [|done].
  destruct (negb (access e path)); [done|]. unfold strdup. destruct (strdup_ok e d); [|done]. bool_prop.
  split_and!; [rewrite insert_mapping_length; lia|by apply insert_mapping_sorted|by apply insert_mapping_made].
Qed.
#[export] Hint Resolve add_mapping_inv : wpdk.

Lemma add_pathmap_inv e map : map_inv map -> map_inv (wpdk_add_pathmap e map).
Proof.
  unfold wpdk_add_pathmap. destruct (getenv e _) as [cp|]; [|done].
  generalize (length cp). intros fuel. revert cp map.
  induction fuel as [|fuel IH]; intros cp map Hm; cbn [add_pathmap_loop]; [done|].
  repeat split_if; eauto with wpdk.
Qed.

Lemma add_system_drive_inv e p map : map_inv map -> map_inv (wpdk_add_system_drive e p map).
Proof. unfold wpdk_add_system_drive. split_if; eauto with wpdk. Qed.

Lemma add_wsl_paths_inv e map : map_inv map -> map_inv (wpdk_add_wsl_paths e map).2.
Proof.
  unfold wpdk_add_wsl_paths. destruct (current_directory e). intros.
  repeat split_if; cbn [snd]; auto using add_system_drive_inv with wpdk.
Qed.

Lemma add_msys_paths_inv e d map : map_inv map -> map_inv (wpdk_add_msys_paths e d map).
Proof.
  unfold wpdk_add_msys_paths. destruct d as [d|]; [|done]. intros.
  repeat split_if; auto using add_system_drive_inv with wpdk.
Qed.
#[export] Hint Resolve add_pathmap_inv add_system_drive_inv add_wsl_paths_inv
  add_msys_paths_inv : wpdk.

(** Whatever the environment holds, the path map built by [wpdk_init_map]
    never has more than the 20 entries of its static array, its entries are
    ordered by decreasing length of their directory, and each records the length of the directory it was given. *)
Theorem init_map_inv (e : env) (st : path_state) :
  map_inv (map_tab st) -> map_inv (map_tab (wpdk_init_map e st)).
Proof.
  intros H. unfold wpdk_init_map. destruct (map_init st); [done|].
  pose proof (add_wsl_paths_inv e (wpdk_add_pathmap e (map_tab st)) ltac:(eauto with wpdk)) as Hw.
  destruct (wpdk_add_wsl_paths e _) as [wsl map]. simpl in *.
  destruct wsl; eauto 8 with wpdk.
Qed.

(** A concrete environment: TMP is C:\Temp, every path exists. *)
Definition env_tmp : env := Env
  (fun v => if bool_decide (v = "TMP"%string) then Some (lit "C:\Temp") else None)
  (fun _ => true) (3, lit "C:\") (fun _ => true).

Lemma init_map_inv_witness :
  map_inv (map_tab path_state0) /\
  map_inv (map_tab (wpdk_init_map env_tmp path_state0)).
Proof.
  assert (map_inv (map_tab path_state0)) as H by (split_and!; [simpl; lia|constructor|constructor]).
  split; [exact H|]. apply (init_map_inv env_tmp path_state0 H).
Defined.

(** ** Lookup *)

(** [d] is a leading directory of [p]. *)
Definition dir_prefix (d p : cstr) : Prop := exists rest, p = d ++ slash :: rest.

Lemma mapping_matches_spec p m :
  wf_mapping m -> mapping_matches p m = true <-> dir_prefix (dir m) p.
Proof.
  unfold wf_mapping, mapping_matches, char_at. intros ->.
  rewrite andb_true_iff, strncmp_eq_full. split.
  - intros [[k ->] Hc]. rewrite app_nth2, Nat.sub_diag in Hc by lia.
    destruct k as [|x k]; simpl in Hc.
    + destruct (eqc_spec NUL slash); done.
    + destruct (eqc_spec x slash) as [->|]; [by exists k|done].
  - intros [rest ->]. split; [by eexists|].
    rewrite app_nth2, Nat.sub_diag by lia. simpl. by destruct (eqc_spec slash slash).
Qed.

Lemma lookup_mapping_Some map p m :
  lookup_mapping map p = Some m ->
  exists i, map !! i = Some m /\ mapping_matches p m = true /\
    forall j m', j < i -> map !! j = Some m' -> mapping_matches p m' = false.
Proof.
  unfold lookup_mapping. set (P := fun i => _). set (i := scan P (length map)). intros Hi.
  exists i. split; [done|]. apply lookup_lt_Some in Hi as Hlt.
  pose proof (scan_found P _ Hlt) as HP. fold i in HP. cbv beta delta [P] in HP.
  rewrite Hi in HP. split; [done|]. intros j m' Hj Hm'.
  pose proof (scan_before P _ _ Hj) as HQ. cbv beta delta [P] in HQ. by rewrite Hm' in HQ.
Qed.

Lemma lookup_mapping_None map p :
  lookup_mapping map p = None ->
  forall m, m ∈ map -> mapping_matches p m = false.
Proof.
  unfold lookup_mapping. set (P := fun i => _). intros Hi m Hm.
  apply list_elem_of_lookup in Hm as [j Hj].
  apply lookup_ge_None in Hi. pose proof (scan_le P (length map)).
  assert (scan P (length map) = length map) as E by lia.
  apply lookup_lt_Some in Hj as Hlt.
  pose proof (proj1 (scan_none P _) E j Hlt) as HP. cbv beta delta [P] in HP.
  by rewrite Hj in HP.
Qed.

Lemma sorted_lookup_le map i j a b :
  StronglySorted longer_first map -> i <= j ->
  map !! i = Some a -> map !! j = Some b -> length (dir b) <= length (dir a).
Proof.
  revert i j. induction map as [|x map IH]; intros i j Hs Hij Ha Hb; [done|].
  apply StronglySorted_inv in Hs as [Hs Hx]. destruct i as [|i]; simpl in Ha.
  - injection Ha as ->. destruct j as [|j]; simpl in Hb; [by injection Hb as ->|].
    by apply (proj1 (Forall_lookup _ _) Hx j).
  - destruct j as [|j]; [lia|]. simpl in Hb. apply (IH i j); auto; lia.
Qed.

(** ** Directories with duplicated slashes *)

Lemma squeeze_shorter d : length (squeeze d) <= length d.
Proof. induction d as [|x [|y d] IH]; cbn [squeeze length] in *; [done|done|]. destruct (_ && _); cbn [length] in *; lia. Qed.
Lemma squeeze_id d : length (squeeze d) = length d -> squeeze d = d.
Proof.
  induction d as [|x [|y d] IH]; cbn [squeeze length] in *; [done|done|]. pose proof (squeeze_shorter (y :: d)) as H.
  destruct (_ && _); cbn [length squeeze] in *; [lia|]. intros E. f_equal. apply IH. lia.
Qed.

(** The recorded length is that of the stored directory exactly when it has no duplicated slashes and is not "/". *)
Lemma made_live d path : wf_mapping (Mapping (stored_dir d) path (length d)) <-> squeeze d = d /\ d <> lit "/".
Proof.
  unfold wf_mapping, stored_dir. cbn [len dir]. pose proof (squeeze_shorter d) as Hs. destruct (eqs (squeeze d) (lit "/")) eqn:E.
  - unfold eqs in E. apply bool_decide_eq_true in E. rewrite E in Hs. cbn [length lit String.list_ascii_of_string] in *. split; [intros Hl; exfalso; lia|]. intros [Hd Hne]. congruence.
  - unfold eqs in E. apply bool_decide_eq_false in E. split; [|intros [-> _]; done].
    intros Hl. pose proof (squeeze_id d (eq_sym Hl)) as Hd. rewrite Hd in E. by split.
Qed.

Lemma made_short m : made m -> ~ wf_mapping m -> length (dir m) < len m.
Proof.
  intros (d & Hd & Hl) Hn. unfold wf_mapping in Hn. rewrite Hd, Hl in *. unfold stored_dir in *. pose proof (squeeze_shorter d).
  destruct (eqs (squeeze d) (lit "/")) eqn:E; [|lia]. destruct d; cbn [length] in *; [done|lia].
Qed.

Lemma strncmp_eq_long a b n : length b < n -> strncmp_eq a b n = true -> a = b.
Proof.
  revert a b. induction n as [|n IH]; intros a b Hn; [lia|]. destruct a as [|x a], b as [|y b]; cbn; try done. cbn in Hn.
  destruct (eqc_spec x y) as [->|]; [|done]. intros H. f_equal. apply IH; [lia|done].
Qed.

(** An entry of another length matches no path but its own stored directory, for which the character behind the string is read. *)
Lemma dead_no_match p m : made m -> ~ wf_mapping m -> p <> dir m -> mapping_matches p m = false.
Proof.
  intros Hm Hn Hp. unfold mapping_matches. destruct (strncmp_eq p (dir m) (len m)) eqn:E; [|done].
  by apply strncmp_eq_long in E; [|by apply made_short].
Qed.

(** The path is not the stored directory of an entry with another length. *)
Definition in_bounds (map : list mapping) (p : cstr) : Prop := forall m, m ∈ map -> dir m = p -> wf_mapping m.

(** Which entries match. *)
Lemma matches_iff map p m : Forall made map -> in_bounds map p -> m ∈ map ->
  mapping_matches p m = true <-> wf_mapping m /\ dir_prefix (dir m) p.
Proof.
  intros Hm Hb Hin. rewrite Forall_forall in Hm. destruct (decide (wf_mapping m)) as [Hw|Hw]; [rewrite mapping_matches_spec by done; tauto|].
  rewrite dead_no_match; [split; [done|tauto]|by apply Hm|done|]. intros ->. by apply Hw, Hb.
Qed.

(** The first match of a sorted table is the longest one. *)
Lemma lookup_mapping_longest map p m :
  map_inv map -> in_bounds map p -> lookup_mapping map p = Some m ->
  m ∈ map /\ wf_mapping m /\ dir_prefix (dir m) p /\
  forall m', m' ∈ map -> wf_mapping m' -> dir_prefix (dir m') p -> length (dir m') <= length (dir m).
Proof.
  intros (_ & Hs & Hmd) Hb Hl. destruct (lookup_mapping_Some _ _ _ Hl) as (i & Hi & Hm & Hfirst).
  assert (m ∈ map) as Hin by (apply list_elem_of_lookup; eauto). split; [done|].
  apply (matches_iff map) in Hm as [Hw Hp]; [|done..]. split; [done|]. split; [done|]. intros m' Hin' Hw' Hp'.
  apply list_elem_of_lookup in Hin' as Hj. destruct Hj as [j Hj].
  destruct (decide (i <= j)) as [Hij|Hij].
  - by apply (sorted_lookup_le map i j).
  - pose proof (proj2 (matches_iff map p m' Hmd Hb Hin') (conj Hw' Hp')) as H. by rewrite (Hfirst j m') in H by (done || lia).
Qed.

(** ** Files in the root directory *)

Lemma root_file_slash p : is_root_file p = true -> exists q, p = slash :: q /\ q <> [].
Proof.
  unfold is_root_file, last_at_start. destruct p as [|x p]; [done|]. intros H. bool_prop.
  destruct (eqc_spec x slash) as [->|]; [|done]. exists p. split; [done|].
  intros ->. done.
Qed.

Lemma remapped_not_root p : is_root_file p = true -> is_root_file (lit "/tmp" ++ p) = false.
Proof.
  intros (q & -> & _)%root_file_slash. unfold is_root_file, last_at_start.
  change (lit "/tmp" ++ slash :: q) with (slash :: lit "tmp" ++ slash :: q). cbn beta iota.
  rewrite (bool_decide_eq_true_2 (slash ∈ lit "tmp" ++ slash :: q)) by set_solver.
  by rewrite andb_false_r.
Qed.

Lemma get_path_fuel_plain e fuel p buf n st :
  is_root_file p = false ->
  get_path_fuel e (S fuel) (Some p) buf n st = get_path_fuel e 1 (Some p) buf n st.
Proof. intros H. cbn [get_path_fuel]. destruct p; [done|]. rewrite H. done. Qed.

(** The mutual recursion of [wpdk_get_path] and [wpdk_remap_root_file]
    terminates: two activations give a result for every path, buffer and state,
    and more fuel changes nothing. *)
Theorem get_path_terminates (e : env) (fuel : nat) (path : option cstr) (buf : cstr)
    (n : nat) (st : path_state) :
  get_path_fuel e (S (S fuel)) path buf n st = Some (wpdk_get_path e path buf n st).
Proof.
  assert (forall p st0, is_root_file p = true ->
    wpdk_remap_root_file (get_path_fuel e (S fuel)) p buf n st0 =
    wpdk_remap_root_file (get_path_fuel e 1) p buf n st0 /\
    is_Some (wpdk_remap_root_file (get_path_fuel e 1) p buf n st0)) as Hroot.
  { intros p st0 Hr. unfold wpdk_remap_root_file.
    rewrite get_path_fuel_plain by (by apply remapped_not_root). split; [done|].
    destruct (_ && _); [|by eexists]. cbn [get_path_fuel]. rewrite remapped_not_root by done.
    destruct (lit "/tmp" ++ p); [by eexists|].
    destruct (PATH_MAX <=? _); [by eexists|]. cbv zeta.
    destruct (map_path _ _ _ _) as [[] ?]; by eexists. }
  unfold wpdk_get_path. change (get_path_fuel e (S (S fuel)) path buf n st) with
    (match path with
     | None | Some [] => Some (SamePath path, buf, st)
     | Some p => if PATH_MAX <=? length p then Some (NullPath, buf, st) else
         let st := if map_init st then st else wpdk_init_map e st in
         if is_root_file p then wpdk_remap_root_file (get_path_fuel e (S fuel)) p buf n st
         else let '(r, buf) := map_path (map_tab st) p buf n in Some (r, buf, st) end).
  change (get_path_fuel e 2 path buf n st) with
    (match path with
     | None | Some [] => Some (SamePath path, buf, st)
     | Some p => if PATH_MAX <=? length p then Some (NullPath, buf, st) else
         let st := if map_init st then st else wpdk_init_map e st in
         if is_root_file p then wpdk_remap_root_file (get_path_fuel e 1) p buf n st
         else let '(r, buf) := map_path (map_tab st) p buf n in Some (r, buf, st) end).
  destruct path as [[|c p]|]; try done. destruct (PATH_MAX <=? _); [done|]. cbv zeta.
  destruct (is_root_file (c :: p)) eqn:Er.
  - destruct (Hroot _ (if map_init st then st else wpdk_init_map e st) Er) as [-> [x ->]]. done.
  - by destruct (map_path _ _ _ _).
Qed.

Lemma get_path_root_file e p buf n st :
  map_init st = true -> is_root_file p = true -> 4 + length p < PATH_MAX ->
  wpdk_get_path e (Some p) buf n st =
  match map_path (map_tab st) (lit "/tmp" ++ p) buf n with
  | (SamePath _, buf') => (DeadLocal (lit "/tmp" ++ p), buf', st)
  | (r, buf') => (r, buf', st)
  end.
Proof.
  intros Hi Hr Hlen. unfold wpdk_get_path. cbn [get_path_fuel].
  destruct p as [|c p]; [done|]. rewrite Hi, Hr.
  assert ((PATH_MAX <=? length (c :: p)) = false) as -> by (apply Nat.leb_gt; lia).
  unfold wpdk_remap_root_file.
  assert (strcpy_s_ok MAX_PATH (lit "/tmp") && strcat_s_ok MAX_PATH (lit "/tmp") (c :: p) = true)
    as -> by (unfold strcat_s_ok; rewrite andb_true_iff, Nat.ltb_lt; done).
  rewrite remapped_not_root by done. rewrite Hi.
  assert ((PATH_MAX <=? length (lit "/tmp" ++ c :: p)) = false) as ->
    by (apply Nat.leb_gt; rewrite length_app; done).
  cbn [lit String.list_ascii_of_string app].
  by destruct (map_path _ _ _ _) as [[] ?].
Qed.

(** ** What is looked up *)

(** The path looked up: files in the root directory are those of /tmp. *)
Definition effective (p : cstr) : cstr := if is_root_file p then lit "/tmp" ++ p else p.
(** The table the lookup uses. *)
Definition table (e : env) (st : path_state) : path_state := if map_init st then st else wpdk_init_map e st.

Lemma init_map_init e st : map_init (wpdk_init_map e st) = true.
Proof. unfold wpdk_init_map. destruct (map_init st) eqn:E; [done|]. by destruct (wpdk_add_wsl_paths e _). Qed.
Lemma table_init e st : map_init (table e st) = true.
Proof. unfold table. destruct (map_init st) eqn:E; [done|apply init_map_init]. Qed.

(** The result for an effective path that is short enough. *)
Lemma get_path_effective e p buf n st : p <> [] -> length (effective p) < PATH_MAX ->
  wpdk_get_path e (Some p) buf n st =
  match map_path (map_tab (table e st)) (effective p) buf n with
  | (SamePath _, buf') => (if is_root_file p then DeadLocal (effective p) else SamePath (Some p), buf', table e st)
  | (r, buf') => (r, buf', table e st)
  end.
Proof.
  intros Hne Hl. assert (length p < PATH_MAX) as Hlp by (unfold effective in Hl; destruct (is_root_file p); [rewrite length_app in Hl|]; lia).
  assert (wpdk_get_path e (Some p) buf n st = wpdk_get_path e (Some p) buf n (table e st)) as ->.
  { apply (inj Some). rewrite <- !(get_path_terminates e 0). cbn [get_path_fuel]. destruct p as [|c p]; [done|]. rewrite table_init.
    rewrite (proj2 (Nat.leb_gt _ _) Hlp). fold (table e st). done. }
  unfold effective in *. destruct (is_root_file p) eqn:Er.
  - rewrite get_path_root_file; [done|apply table_init|done|]. by rewrite length_app in Hl.
  - unfold wpdk_get_path. cbn [get_path_fuel]. destruct p as [|c p]; [done|]. rewrite table_init, Er, (proj2 (Nat.leb_gt _ _) Hl).
    unfold map_path. destruct (lookup_mapping _ _) as [m|]; [|done]. by destruct (_ && _).
Qed.

Lemma get_path_too_long e p buf n st : p <> [] -> PATH_MAX <= length (effective p) ->
  fst (fst (wpdk_get_path e (Some p) buf n st)) = NullPath.
Proof.
  intros Hne Hl. unfold wpdk_get_path. cbn [get_path_fuel]. destruct p as [|c p]; [done|]. unfold effective in Hl.
  destruct (Nat.leb_spec PATH_MAX (length (c :: p))) as [|Hs]; [done|]. cbv zeta. destruct (is_root_file (c :: p)) eqn:Er; [|lia].
  unfold wpdk_remap_root_file. assert (strcat_s_ok MAX_PATH (lit "/tmp") (c :: p) = false) as ->; [|by rewrite andb_false_r].
  unfold strcat_s_ok. apply Nat.ltb_ge. by rewrite length_app in Hl.
Qed.

(** C40: for every non-empty path, environment and table the code built or is about to build.  A file of
    the root directory stands for the file of that name in /tmp.  A path of PATH_MAX characters or more gives NULL.  Otherwise the
    entries that can apply are those whose directory was given without duplicated slashes and is not "/"; the path is translated by the longest of their
    directories that is a leading directory of it: that directory is replaced by its destination when the result fits the caller's buffer,
    NULL is returned when it does not; and a path under none of them is returned unchanged, except for a
    root file, for which the pointer is to an array whose lifetime has ended.  The path must not be the stored directory of one of the other entries, where
    the code reads behind the string. *)
Theorem get_path_longest_prefix (e : env) (st : path_state) (p buf : cstr) (n : nat) :
  map_inv (map_tab st) -> p <> [] -> in_bounds (map_tab (table e st)) (effective p) ->
  let '(r, _, st') := wpdk_get_path e (Some p) buf n st in
  let applies m := m ∈ map_tab st' /\ wf_mapping m /\ dir_prefix (dir m) (effective p) in
  if decide (PATH_MAX <= length (effective p)) then r = NullPath
  else
    map_init st' = true /\ map_inv (map_tab st') /\
    ((exists m, applies m /\ (forall m', applies m' -> length (dir m') <= length (dir m)) /\
       let out := dest m ++ drop (length (dir m)) (effective p) in
       r = if length out <? n then InBuffer out else NullPath) \/
     ((forall m, ~ applies m) /\ r = if is_root_file p then DeadLocal (effective p) else SamePath (Some p))).
Proof.
  intros Hinv Hne Hb. assert (map_inv (map_tab (table e st))) as Hinv' by (unfold table; destruct (map_init st); [done|by apply init_map_inv]).
  destruct (decide (PATH_MAX <= length (effective p))) as [Hl|Hl].
  { pose proof (get_path_too_long e p buf n st Hne Hl) as H. by destruct (wpdk_get_path _ _ _ _ _) as [[r b] st']. }
  rewrite get_path_effective by (done || lia). unfold map_path. destruct (lookup_mapping _ _) as [m|] eqn:El.
  - destruct (lookup_mapping_longest _ _ _ Hinv' Hb El) as (Hin & Hw & Hpre & Hmax). rewrite Hw.
    assert (strcpy_s_ok n (dest m) && strcat_s_ok n (dest m) (drop (length (dir m)) (effective p))
            = (length (dest m ++ drop (length (dir m)) (effective p)) <? n)) as ->.
    { unfold strcpy_s_ok, strcat_s_ok. rewrite length_app. apply eq_true_iff_eq. rewrite andb_true_iff, !Nat.ltb_lt. lia. }
    destruct (length _ <? n) eqn:E; (split; [apply table_init|]; split; [done|]; left; exists m; split; [done|]; split; [intros m' (? & ? & ?); by apply Hmax|by rewrite E]).
  - split; [apply table_init|]. split; [done|]. right. split; [|done]. intros m (Hin & Hw & Hpre). destruct Hinv' as (_ & _ & Hmd).
    pose proof (proj2 (matches_iff _ _ m Hmd Hb Hin) (conj Hw Hpre)) as H. by rewrite (lookup_mapping_None _ _ El m Hin) in H.
Qed.

(** TMP and a mapping whose directory has a duplicated slash. *)
Definition env_map : env := Env
  (fun v => if bool_decide (v = "TMP"%string) then Some (lit "C:\Temp")
            else if bool_decide (v = "WPDKPATHMAP"%string) then Some (lit "/a//b=D:\x;/tmp/a=E:\y") else None)
  (fun _ => true) (3, lit "C:\") (fun _ => true).

Lemma get_path_longest_prefix_witness :
  wpdk_get_path env_map (Some (lit "/tmp/a/b")) [] 260 path_state0
    = (InBuffer (lit "E:\y/b"), lit "E:\y/b", wpdk_init_map env_map path_state0) /\
  exists m, m ∈ map_tab (wpdk_init_map env_map path_state0) /\ wf_mapping m /\ dir_prefix (dir m) (lit "/tmp/a/b").
Proof.
  assert (wpdk_get_path env_map (Some (lit "/tmp/a/b")) [] 260 path_state0
    = (InBuffer (lit "E:\y/b"), lit "E:\y/b", wpdk_init_map env_map path_state0)) as E by (vm_compute; reflexivity).
  split; [exact E|].
  pose proof (get_path_longest_prefix env_map path_state0 (lit "/tmp/a/b") [] 260) as H. rewrite E in H. cbv zeta in H.
  rewrite decide_False in H by (vm_compute; lia). destruct H as (_ & _ & [(m & Hm & _)|[_ Hr]]); [| | |by exists m|by vm_compute in Hr].
  - split_and!; [simpl; lia|constructor|constructor].
  - discriminate.
  - intros m Hm Hd. vm_compute in Hm. repeat (apply elem_of_cons in Hm as [->|Hm]; [first [vm_compute; reflexivity|vm_compute in Hd; discriminate Hd]|]).
    destruct (not_elem_of_nil _ Hm).
Defined.

(** A file of the root directory is looked up as a file of /tmp; but
    when no entry maps that directory, the pointer returned is the local array
    of [wpdk_remap_root_file], whose lifetime has ended. *)
Theorem get_path_root_dangling (e : env) (st : path_state) (p buf : cstr) (n : nat) :
  map_init st = true -> is_root_file p = true -> 4 + length p < PATH_MAX ->
  Forall wf_mapping (map_tab st) ->
  (forall m, m ∈ map_tab st -> ~ dir_prefix (dir m) (lit "/tmp" ++ p)) ->
  wpdk_get_path e (Some p) buf n st = (DeadLocal (lit "/tmp" ++ p), buf, st).
Proof.
  intros Hi Hr Hlen Hwf Hno. rewrite get_path_root_file by done. unfold map_path.
  destruct (lookup_mapping _ _) as [m|] eqn:El; [|done].
  apply lookup_mapping_Some in El as (i & Him & Hm & _).
  assert (m ∈ map_tab st) as Hin by (apply list_elem_of_lookup; eauto).
  rewrite mapping_matches_spec in Hm by (rewrite Forall_forall in Hwf; auto).
  destruct (Hno m Hin Hm).
Qed.

Lemma get_path_root_dangling_witness :
  wpdk_get_path env_tmp (Some (lit "/hugepages")) [] 260 (PathState true [])
  = (DeadLocal (lit "/tmp/hugepages"), [], PathState true []).
Proof.
  apply (get_path_root_dangling env_tmp (PathState true []) (lit "/hugepages") [] 260);
    [reflexivity|reflexivity|vm_compute; lia|constructor|].
  intros m Hm. by apply not_elem_of_nil in Hm.
Defined.

(** [wpdk_copy_path] returns NULL only when the path is not remapped and
    does not fit the buffer: when [wpdk_get_path] fails (the mapped path does
    not fit, or the path is too long) it still returns the buffer, so the NULL
    tests of its callers do not see that failure. *)
Theorem copy_path_null_iff (e : env) (st : path_state) (buf : cstr) (n : nat) (path : option cstr) :
  (fst (wpdk_copy_path e buf n path st) = None <->
   exists p, fst (fst (wpdk_get_path e path buf n st)) = SamePath (Some p) /\ n <= length p) /\
  (fst (fst (wpdk_get_path e path buf n st)) = NullPath ->
   fst (wpdk_copy_path e buf n path st) <> None).
Proof.
  unfold wpdk_copy_path. destruct (wpdk_get_path e path buf n st) as [[r b] st']. simpl.
  unfold strcpy_s_ok. split; [|by intros ->].
  destruct r as [[p|]| | |]; simpl; try (split; [done|intros (q & ? & ?); done]).
  destruct (Nat.ltb_spec (length p) n); split; try done.
  - intros (q & [= <-] & ?). lia.
  - intros _. by exists p.
Qed.

(** An assignment for the directory "/" enters the table but never
    applies: it is stored as the empty string with length 1, which no
    non-empty path matches. *)
Theorem root_mapping_never_matches (dst p : cstr) :
  p <> [] -> mapping_matches p (Mapping (stored_dir (lit "/")) dst (length (lit "/"))) = false.
Proof. intros Hp. destruct p as [|c p]; [done|]. reflexivity. Qed.

Lemma root_mapping_never_matches_witness :
  mapping_matches (lit "/etc/passwd")
    (Mapping (stored_dir (lit "/")) (lit "C:\root") (length (lit "/"))) = false.
Proof. apply (root_mapping_never_matches (lit "C:\root") (lit "/etc/passwd")). discriminate. Defined.
End PathMap.
