(* ===== verification/PathRace.v ===== *)
(** * PathRace: threads that build the path map (src/src/fcntl.c)

    [wpdk_get_path] tests [map_init] without the lock and calls [wpdk_init_map], which takes
    the lock, tests again and builds the map; the lookup that follows reads the map without
    the lock.  Memory is sequentially consistent.  Threads run one access at a time, the construction statement by statement; a
    schedule is the list of the threads that run. *)

From S2P Require Import Prelude CString PathMap.

Module Export PathRace.
Local Open Scope Z_scope.

(** Where a thread is in [wpdk_get_path]: the statements of the construction it has left. *)
Inductive map_pc :=
  | TestInit                                            (* [if (!map_init)] *)
  | AcquireLock                                         (* AcquireSRWLockExclusive *)
  | TestAgain                                           (* [if (map_init)], with the lock *)
  | Building (rest : list (path_state -> path_state))
  | ReleaseLock
  | Lookup.                                             (* the loop over the map *)

(** [lock] is the thread that holds map_lock. *)
Record map_state := MapState { lock : option Z; paths : path_state; map_pcs : Z -> map_pc }.

Section Build.
Context (e : env).

Definition on_tab (f : list mapping -> list mapping) (st : path_state) : path_state := PathState (map_init st) (f (map_tab st)).
(** The statements of [wpdk_init_map] behind its second test. *)
Definition init_steps : list (path_state -> path_state) := [
  on_tab (wpdk_add_pathmap e);
  on_tab (fun map => let '(wsl, map) := wpdk_add_wsl_paths e map in
    if wsl then map else wpdk_add_msys_paths e (getenv e "TMP") (wpdk_add_msys_paths e (getenv e "MSYSTEM_PREFIX") map));
  on_tab (wpdk_add_mapping e (lit "/tmp") (getenv e "TMP") false);
  on_tab (wpdk_add_mapping e (lit "/var/tmp") (getenv e "TMP") false);
  fun st => PathState true (map_tab st)].

Definition set_map_pc (t : Z) (p : map_pc) (f : Z -> map_pc) : Z -> map_pc := fun u => if u =? t then p else f u.

(** A step of thread [t]; a thread that waits for the lock stays where it is. *)
Definition map_step (s : map_state) (t : Z) : map_state :=
  let '(MapState lk st pc) := s in
  match pc t with
  | TestInit => MapState lk st (set_map_pc t (if map_init st then Lookup else AcquireLock) pc)
  | AcquireLock => match lk with None => MapState (Some t) st (set_map_pc t TestAgain pc) | Some _ => s end
  | TestAgain => MapState lk st (set_map_pc t (if map_init st then ReleaseLock else Building init_steps) pc)
  | Building (f :: rest) => MapState lk (f st) (set_map_pc t (Building rest) pc)
  | Building [] => MapState lk st (set_map_pc t ReleaseLock pc)
  | ReleaseLock => MapState None st (set_map_pc t Lookup pc)
  | Lookup => s
  end.
Definition map_run (sched : list Z) : map_state := foldl map_step (MapState None path_state0 (fun _ => TestInit)) sched.

(** ** The invariant *)

Definition built (ran : list (path_state -> path_state)) : path_state := foldl (fun s f => f s) path_state0 ran.

(** The statements together are [wpdk_init_map]. *)
Lemma built_all : built init_steps = wpdk_init_map e path_state0.
Proof.
  unfold built, init_steps, wpdk_init_map. cbn [foldl on_tab map_tab map_init path_state0]. by destruct (wpdk_add_wsl_paths e _) as [wsl map].
Qed.
(** The flag is set by the last statement. *)
Lemma built_flag ran rest : init_steps = ran ++ rest -> map_init (built ran) = bool_decide (rest = []).
Proof.
  intros H. unfold init_steps in H.
  repeat match type of H with _ :: _ = ?ran ++ _ => destruct ran as [|? ran]; cbn [app] in H; [by subst rest|injection H as <- H] end.
  symmetry in H. by apply app_nil in H as [-> ->].
Qed.

(** Where thread [u] can be before the construction, during that of another, and after it. *)
Definition before_pc (lk : option Z) (u : Z) (p : map_pc) : Prop := p = TestInit \/ p = AcquireLock \/ (p = TestAgain /\ lk = Some u).
Definition during_pc (rest : list (path_state -> path_state)) (p : map_pc) : Prop := p = TestInit \/ p = AcquireLock \/ (p = Lookup /\ rest = []).
Definition after_pc (lk : option Z) (u : Z) (p : map_pc) : Prop :=
  p = TestInit \/ p = AcquireLock \/ p = Lookup \/ ((p = TestAgain \/ p = ReleaseLock) /\ lk = Some u).
Hint Unfold before_pc during_pc after_pc : core.

(** What holds of the variables: nothing was built, the holder of the lock is building, or all is built. *)
Inductive build_inv : map_state -> Prop :=
  | bi_before lk pc : (forall u, before_pc lk u (pc u)) -> build_inv (MapState lk path_state0 pc)
  | bi_during pc t ran rest : init_steps = ran ++ rest -> pc t = Building rest ->
      (forall u, u <> t -> during_pc rest (pc u)) -> build_inv (MapState (Some t) (built ran) pc)
  | bi_after lk pc : (forall u, after_pc lk u (pc u)) -> build_inv (MapState lk (built init_steps) pc).

Lemma set_map_pc_same t p f : set_map_pc t p f t = p.
Proof. unfold set_map_pc. by rewrite Z.eqb_refl. Qed.
Lemma set_map_pc_other t p f u : u <> t -> set_map_pc t p f u = f u.
Proof. intros. unfold set_map_pc. by rewrite (proj2 (Z.eqb_neq u t)). Qed.
(** The thread that moved, and the others. *)
Lemma set_map_pc_all (P : Z -> map_pc -> Prop) t p f : P t p -> (forall u, u <> t -> P u (f u)) -> forall u, P u (set_map_pc t p f u).
Proof. intros Hp Hf u. destruct (decide (u = t)) as [->|Hu]; [by rewrite set_map_pc_same|rewrite set_map_pc_other; auto]. Qed.

Lemma map_step_during t pc h ran rest : init_steps = ran ++ rest -> pc h = Building rest ->
  (forall u, u <> h -> during_pc rest (pc u)) -> build_inv (map_step (MapState (Some h) (built ran) pc) t).
Proof.
  intros Hc Hh H. cbn [map_step]. destruct (decide (t = h)) as [->|Hne].
  - rewrite Hh. destruct rest as [|f rest].
    + rewrite app_nil_r in Hc. rewrite <- Hc. apply bi_after. apply (set_map_pc_all (after_pc (Some h))); [auto 8|]. intros u Hu. destruct (H u Hu) as [?|[?|[? _]]]; auto.
    + assert (f (built ran) = built (ran ++ [f])) as -> by (unfold built; by rewrite foldl_app).
      apply (bi_during _ h (ran ++ [f]) rest); [by rewrite <- app_assoc|apply set_map_pc_same|]. intros u Hu. rewrite set_map_pc_other by done.
      destruct (H u Hu) as [?|[?|[_ ?]]]; auto; done.
  - assert (forall p, during_pc rest p -> build_inv (MapState (Some h) (built ran) (set_map_pc t p pc))) as Hset.
    { intros p Hp. apply (bi_during _ h ran rest Hc); [by rewrite set_map_pc_other|]. intros u Hu. unfold set_map_pc. destruct (u =? t); auto. }
    destruct (H t Hne) as [E|[E|[E Er]]]; rewrite E; [|by apply (bi_during _ h ran rest)|by apply (bi_during _ h ran rest)].
    apply Hset. rewrite (built_flag ran rest Hc). case_bool_decide; auto.
Qed.

Lemma map_step_after t lk pc : (forall u, after_pc lk u (pc u)) -> build_inv (map_step (MapState lk (built init_steps) pc) t).
Proof.
  intros H. cbn [map_step].
  assert (map_init (built init_steps) = true) as -> by (rewrite (built_flag init_steps []) by (by rewrite app_nil_r); done).
  destruct (H t) as [E|[E|[E|[[E|E] El]]]]; rewrite E; [| |by apply bi_after| |].
  - apply bi_after, (set_map_pc_all (after_pc lk)); [unfold after_pc; tauto|auto].
  - destruct lk as [h|]; [by apply bi_after|]. apply bi_after, (set_map_pc_all (after_pc (Some t))); [unfold after_pc; tauto|].
    intros u _. specialize (H u). unfold after_pc in *. naive_solver.
  - apply bi_after, (set_map_pc_all (after_pc lk)); [unfold after_pc; tauto|auto].
  - apply bi_after, (set_map_pc_all (after_pc None)); [unfold after_pc; tauto|].
    intros u Hu. specialize (H u). unfold after_pc in *. naive_solver.
Qed.

Lemma map_step_inv s t : build_inv s -> build_inv (map_step s t).
Proof.
  intros [lk pc H|pc h ran rest Hc Hh H|lk pc H].
  - cbn [map_step]. destruct (H t) as [E|[E|[E El]]]; rewrite E.
    + apply bi_before. apply (set_map_pc_all (before_pc lk)); [unfold before_pc; tauto|auto].
    + destruct lk as [h|]; [by apply bi_before|]. apply bi_before.
      apply (set_map_pc_all (before_pc (Some t))); [unfold before_pc; tauto|].
      intros u _. specialize (H u). unfold before_pc in *. naive_solver.
    + rewrite El. apply (bi_during _ t [] init_steps); [done|apply set_map_pc_same|]. intros u Hu. rewrite set_map_pc_other by done.
      destruct (H u) as [?|[?|[_ E']]]; auto. congruence.
  - by apply (map_step_during t pc h ran rest).
  - by apply map_step_after.
Qed.

Lemma map_run_inv sched : build_inv (map_run sched).
Proof.
  unfold map_run. assert (build_inv (MapState None path_state0 (fun _ => TestInit))) as I by (apply bi_before; auto). revert I.
  generalize (MapState None path_state0 (fun _ => TestInit)). induction sched as [|t sched IH]; intros s I; [done|]. by apply IH, map_step_inv.
Qed.

(** However threads interleave, one that looks up a path finds the complete map, that of
    [wpdk_init_map], and no thread changes it then or later; until the flag is set no thread looks up; and at most one
    thread holds the lock or builds. *)
Theorem path_map_built_once (sched more : list Z) (t : Z) :
  (map_pcs (map_run sched) t = Lookup ->
   paths (map_run sched) = wpdk_init_map e path_state0 /\ paths (map_run (sched ++ more)) = wpdk_init_map e path_state0) /\
  (map_init (paths (map_run sched)) = true -> paths (map_run sched) = wpdk_init_map e path_state0) /\
  (forall rest, map_pcs (map_run sched) t = Building rest -> lock (map_run sched) = Some t).
Proof.
  assert (forall sched, map_init (paths (map_run sched)) = true -> paths (map_run sched) = built init_steps) as Hflag.
  { intros sc. destruct (map_run_inv sc) as [lk pc H|pc h ran rest Hc Hh H|lk pc H]; cbn [paths]; [done| |done].
    rewrite (built_flag ran rest Hc). intros ->%bool_decide_eq_true. by rewrite Hc, app_nil_r. }
  assert (forall s more, build_inv s -> map_init (paths s) = true -> map_init (paths (foldl map_step s more)) = true) as Hstays.
  { intros s more'. revert s. induction more' as [|u more' IH]; intros s I Hs; [done|]. apply IH; [by apply map_step_inv|].
    destruct I as [lk pc H|pc h ran rest Hc Hh H|lk pc H]; [done| |].
    - cbn [paths] in Hs. rewrite (built_flag ran rest Hc) in Hs. apply bool_decide_eq_true in Hs as ->. cbn [map_step].
      destruct (decide (u = h)) as [->|Hu]; [rewrite Hh|destruct (H u Hu) as [E|[E|[E _]]]; rewrite E]; cbn [paths]; by rewrite (built_flag ran []).
    - cbn [paths] in Hs. cbn [map_step]. destruct (H u) as [E|[E|[E|[[E|E] _]]]]; rewrite E; [done|by destruct lk|done..]. }
  rewrite <- built_all. split_and!; [|apply Hflag|].
  - intros Ht. assert (map_init (paths (map_run sched)) = true) as Hi.
    { destruct (map_run_inv sched) as [lk pc H|pc h ran rest Hc Hh H|lk pc H]; cbn [paths map_pcs] in *.
      - destruct (H t) as [?|[?|[? _]]]; congruence.
      - rewrite (built_flag ran rest Hc). destruct (decide (t = h)) as [->|Hne]; [congruence|]. destruct (H t Hne) as [?|[?|[_ ->]]]; [congruence..|done].
      - by rewrite (built_flag init_steps []) by (by rewrite app_nil_r). }
    split; [by apply Hflag|]. apply Hflag. unfold map_run. rewrite foldl_app. apply Hstays; [apply map_run_inv|done].
  - intros rest. destruct (map_run_inv sched) as [lk pc H|pc h ran rest' Hc Hh H|lk pc H]; cbn [lock map_pcs]; intros Ht.
    + destruct (H t) as [?|[?|[? _]]]; congruence.
    + destruct (decide (t = h)) as [->|Hne]; [done|]. destruct (H t Hne) as [?|[?|[? _]]]; congruence.
    + destruct (H t) as [?|[?|[?|[[?|?] _]]]]; congruence.
Qed.
End Build.

(** Three threads: 2 waits for the lock while 1 builds, 3 reads the flag later and skips the construction. *)
Definition example_sched : list Z := [1; 2; 1; 2; 1; 1; 1; 2; 1; 1; 1; 1; 1; 3; 2; 2; 2].
Lemma path_map_built_once_witness :
  map_pcs (map_run env_tmp example_sched) 2 = Lookup /\
  paths (map_run env_tmp example_sched) = wpdk_init_map env_tmp path_state0 /\
  map_pcs (map_run env_tmp [1; 2; 1; 2; 1; 1; 1]) 2 = AcquireLock.
Proof.
  split_and!; [by vm_compute| |by vm_compute]. apply (path_map_built_once env_tmp example_sched [] 2). by vm_compute.
Defined.
End PathRace.
