(* ===== verification/Proc.v ===== *)
(** * Proc: the state the POSIX layer keeps and the system it runs on

    [proc W] holds the static variables of the sources the descriptor layer is
    made of (socket.c, epoll.c, the path map of fcntl.c) and the thread's
    errno, next to [W], the state of Windows: Winsock, the C runtime's file
    descriptors, the allocator, the memory of the caller.  The calls into
    Windows are the fields of the class [Winsock]; nothing is assumed of them
    but what a theorem names. *)

From S2P Require Import Prelude Errno CString PathMap.

Module Export Proc.
Local Open Scope Z_scope.

(** [INVALID_SOCKET], [SOCKET_ERROR] and the flags of the headers. *)
Definition INVALID_SOCKET : Z := 2 ^ 64 - 1.
Definition SOCKET_ERROR : Z := -1.
Definition O_NONBLOCK : Z := 4.
Definition SOCK_NONBLOCK : Z := 4096.
Definition AF_UNIX : Z := 1.
Definition SO_REUSEADDR : Z := 4.
Definition SO_RCVLOWAT : Z := 4100.
Definition IOV_MAX : Z := 1024.
Definition FD_SETSIZE : nat := 64.

(** [struct socket_fd] (the lock is not data). *)
Record socket_fd := SocketFd { sd_socket : Z; sd_domain : Z; sd_flags : Z }.

(** [struct epoll_event]; [data] is the 64-bit union. *)
Record epoll_event := EpollEvent { events : Z; data : Z }.

(** [struct epoll], with the address it was allocated at; both arrays have [FD_SETSIZE] elements. *)
Record epoll := Epoll {
  ep_addr : Z; ep_flags : Z; ep_start : Z; ep_maxcount : Z;
  ep_socket : list Z; ep_event : list epoll_event
}.

(** [struct iovec] and [WSABUF]; buffers are addresses. *)
Record iovec := Iovec { iov_base : Z; iov_len : Z }.
Record wsabuf := Wsabuf { wb_buf : Z; wb_len : Z }.

(** What [bind] and [connect] read of an address: its family and, for
    [AF_UNIX], the path; [sa_rest] stands for the other bytes. *)
Record sockaddr := Sockaddr { sa_family : Z; sun_path : cstr; sa_rest : Z }.

#[export] Instance socket_fd_eq_dec : EqDecision socket_fd.
Proof. solve_decision. Defined.
#[export] Instance epoll_event_eq_dec : EqDecision epoll_event.
Proof. solve_decision. Defined.
#[export] Instance epoll_eq_dec : EqDecision epoll.
Proof. solve_decision. Defined.
#[export] Instance iovec_eq_dec : EqDecision iovec.
Proof. solve_decision. Defined.

(** The static variables, errno and the world.  [None] is a NULL pointer. *)
Record proc (W : Type) := Proc {
  pr_errno : Z;
  pr_ready : Z;                            (** [wpdk_socket_ready] *)
  pr_fds : option (list socket_fd);        (** what [wpdk_socket_fds] points to *)
  pr_addr : Z;                             (** its address *)
  pr_epolls : option (list (option epoll)); (** [wpdk_epoll_fds] *)
  pr_paths : path_state;
  world : W
}.
Arguments Proc {W}.
Arguments pr_errno {W}. Arguments pr_ready {W}. Arguments pr_fds {W}. Arguments pr_addr {W}.
Arguments pr_epolls {W}. Arguments pr_paths {W}. Arguments world {W}.

Definition proc0 {W} (w : W) : proc W := Proc 0 0 None 0 None path_state0 w.

(** [GetLastError()] of the running thread. *)
Class WinError (W : Type) := w_GetLastError : W -> Z.

(** The calls into Winsock and the allocator. *)
Class Winsock (W : Type) := {
  w_WSAGetLastError : W -> Z;
  w_WSASetLastError : Z -> W -> W;
  WSAStartup : C W Z;
  WSACleanup : C W Z;
  w_socket : Z -> Z -> Z -> C W Z;
  closesocket : Z -> C W Z;
  ioctlsocket_FIONBIO : Z -> Z -> C W Z;
  w_accept : Z -> Z -> Z -> C W Z;
  w_bind : Z -> sockaddr -> Z -> C W Z;
  w_connect : Z -> sockaddr -> Z -> C W Z;
  w_getpeername : Z -> Z -> Z -> C W Z;
  w_getsockname : Z -> Z -> Z -> C W Z;
  w_getsockopt : Z -> Z -> Z -> Z -> Z -> C W Z;
  w_setsockopt : Z -> Z -> Z -> Z -> Z -> C W Z;
  w_listen : Z -> Z -> C W Z;
  w_shutdown : Z -> Z -> C W Z;
  w_recv : Z -> Z -> Z -> Z -> C W Z;
  w_recvfrom : Z -> Z -> Z -> Z -> Z -> Z -> C W Z;
  w_send : Z -> Z -> Z -> Z -> C W Z;
  w_sendto : Z -> Z -> Z -> Z -> Z -> Z -> C W Z;
  (** result, number of bytes, flags *)
  WSARecv : Z -> list wsabuf -> Z -> Z -> C W (Z * Z * Z);
  WSASend : Z -> list wsabuf -> Z -> Z -> C W (Z * Z);
  (** [select] on read and exception sets with a zero timeout: the result and
      the two sets as it leaves them *)
  w_select : Z -> list Z -> list Z -> C W (Z * list Z * list Z);
  w_calloc : Z -> Z -> C W (option Z);
  w_free : Z -> C W unit;
  (** what the path map asks of the process *)
  w_env : W -> env
}.

(** What the documentation of Winsock says of handles: the map holds the open
    sockets with their non-blocking mode.  [socket] and [accept] return a handle
    that is not open, [closesocket] closes when it succeeds, [FIONBIO] sets the
    mode of the one socket, and no other call changes either. *)
Class WinsockLaws (W : Type) `{!Winsock W} := {
  w_handles : W -> gmap Z bool;
  handles_wsaerror : forall e w, w_handles (w_WSASetLastError e w) = w_handles w;
  handles_socket : forall d t pr w, let '(s, w') := w_socket d t pr w in
    (s = INVALID_SOCKET /\ w_handles w' = w_handles w) \/
    (s <> INVALID_SOCKET /\ w_handles w !! s = None /\
     exists b, w_handles w' = <[s := b]> (w_handles w));
  handles_accept : forall l a n w, let '(s, w') := w_accept l a n w in
    (s = INVALID_SOCKET /\ w_handles w' = w_handles w) \/
    (s <> INVALID_SOCKET /\ w_handles w !! s = None /\
     exists b, w_handles w' = <[s := b]> (w_handles w));
  handles_close : forall s w, let '(rc, w') := closesocket s w in
    w_handles w' = if rc =? SOCKET_ERROR then w_handles w else delete s (w_handles w);
  handles_fionbio : forall s mode w, w_handles w !! s <> None ->
    let '(rc, w') := ioctlsocket_FIONBIO s mode w in
    w_handles w' = if rc =? SOCKET_ERROR then w_handles w
                   else <[s := negb (mode =? 0)]> (w_handles w);
  handles_startup : preserves w_handles WSAStartup;
  handles_bind : forall s a n, preserves w_handles (w_bind s a n);
  handles_connect : forall s a n, preserves w_handles (w_connect s a n);
  handles_getpeername : forall s a n, preserves w_handles (w_getpeername s a n);
  handles_getsockname : forall s a n, preserves w_handles (w_getsockname s a n);
  handles_getsockopt : forall s l o v n, preserves w_handles (w_getsockopt s l o v n);
  handles_setsockopt : forall s l o v n, preserves w_handles (w_setsockopt s l o v n);
  handles_listen : forall s n, preserves w_handles (w_listen s n);
  handles_shutdown : forall s n, preserves w_handles (w_shutdown s n);
  handles_recv : forall s b n f, preserves w_handles (w_recv s b n f);
  handles_recvfrom : forall s b n f a l, preserves w_handles (w_recvfrom s b n f a l);
  handles_send : forall s b n f, preserves w_handles (w_send s b n f);
  handles_sendto : forall s b n f a l, preserves w_handles (w_sendto s b n f a l);
  handles_WSARecv : forall s b n f, preserves w_handles (WSARecv s b n f);
  handles_WSASend : forall s b n f, preserves w_handles (WSASend s b n f);
  handles_select : forall n r x, preserves w_handles (w_select n r x);
  handles_calloc : forall n z, preserves w_handles (w_calloc n z);
  handles_free : forall a, preserves w_handles (w_free a)
}.
#[export] Hint Resolve handles_startup handles_bind handles_connect handles_getpeername
  handles_getsockname handles_getsockopt handles_setsockopt handles_listen
  handles_shutdown handles_recv handles_recvfrom handles_send handles_sendto
  handles_WSARecv handles_WSASend handles_select handles_calloc handles_free : wpdk.

Section Lift.
Context {W : Type}.

(** A call into Windows leaves the static variables and errno alone. *)
Definition lift {A} (m : C W A) : C (proc W) A :=
  fun p => let '(a, w) := m (world p) in
    (a, Proc (pr_errno p) (pr_ready p) (pr_fds p) (pr_addr p) (pr_epolls p) (pr_paths p) w).

Definition set_ready (r : Z) (p : proc W) : proc W :=
  Proc (pr_errno p) r (pr_fds p) (pr_addr p) (pr_epolls p) (pr_paths p) (world p).
Definition set_fds (f : option (list socket_fd)) (p : proc W) : proc W :=
  Proc (pr_errno p) (pr_ready p) f (pr_addr p) (pr_epolls p) (pr_paths p) (world p).
Definition set_addr (a : Z) (p : proc W) : proc W :=
  Proc (pr_errno p) (pr_ready p) (pr_fds p) a (pr_epolls p) (pr_paths p) (world p).
Definition set_epolls (e : option (list (option epoll))) (p : proc W) : proc W :=
  Proc (pr_errno p) (pr_ready p) (pr_fds p) (pr_addr p) e (pr_paths p) (world p).
Definition set_paths (m : path_state) (p : proc W) : proc W :=
  Proc (pr_errno p) (pr_ready p) (pr_fds p) (pr_addr p) (pr_epolls p) m (world p).

#[export] Instance proc_errno : HasErrno (proc W).
Proof.
  refine {| errno := pr_errno;
            set_errno := fun e p =>
              Proc e (pr_ready p) (pr_fds p) (pr_addr p) (pr_epolls p) (pr_paths p) (world p) |}.
  reflexivity.
Defined.

#[export] Instance proc_wsa `{!Winsock W} : HasWSALastError (proc W) := {
  WSAGetLastError p := w_WSAGetLastError (world p);
  WSASetLastError e p := Proc (pr_errno p) (pr_ready p) (pr_fds p) (pr_addr p) (pr_epolls p)
                           (pr_paths p) (w_WSASetLastError e (world p))
}.

#[export] Instance proc_last_error `{!WinError W} : HasLastError (proc W) :=
  fun p => w_GetLastError (world p).

Lemma lift_run {A} (m : C W A) (p : proc W) :
  lift m p = (fst (m (world p)),
    Proc (pr_errno p) (pr_ready p) (pr_fds p) (pr_addr p) (pr_epolls p) (pr_paths p)
      (snd (m (world p)))).
Proof. unfold lift. by destruct (m (world p)). Qed.

(** What an errno report keeps: everything but errno. *)
Lemma set_errno_proj e (p : proc W) :
  pr_ready (set_errno e p) = pr_ready p /\ pr_fds (set_errno e p) = pr_fds p /\
  pr_epolls (set_errno e p) = pr_epolls p /\ pr_paths (set_errno e p) = pr_paths p /\
  world (set_errno e p) = world p /\ pr_errno (set_errno e p) = e.
Proof. by destruct p. Qed.
End Lift.

#[export] Hint Unfold lift set_ready set_fds set_addr set_epolls set_paths : wpdk_unfold.

(** Execute a function of the layer symbolically: unfold the monad and split
    the calls into Windows and the conditionals. *)
Ltac run_c :=
  repeat (autounfold with wpdk_unfold; cbn beta iota zeta delta [
    errno set_errno proc_errno WSAGetLastError WSASetLastError proc_wsa fst snd
    pr_errno pr_ready pr_fds pr_addr pr_epolls pr_paths world]).
End Proc.
