(* ===== verification/Sockets.v ===== *)
(** * Sockets: the socket descriptor table (src/src/socket.c)

    Every function of socket.c over the table [wpdk_socket_fds].  Winsock is
    the class [Winsock]; the compare-and-exchange on a slot is atomic and, in a
    sequential run, succeeds whenever the slot was read as expected (its racing
    form is in SocketRace.v). *)

From S2P Require Import Prelude Errno CString PathMap Proc.

Module Export Sockets.
Local Open Scope Z_scope.

Definition maxsockets : nat := 512.
Definition socketbase : Z := 0x10000.
Definition F_GETFL : Z := 3.
Definition F_SETFL : Z := 4.
(** [sizeof(struct sockaddr_un)] and [sizeof(un.sun_path)]. *)
Definition sizeof_un : Z := 110.
Definition sizeof_sun_path : nat := 108.

Definition wpdk_is_socket (fd : Z) : bool :=
  (socketbase <=? fd) && (fd <? socketbase + Z.of_nat maxsockets).

(** Index of a descriptor in the table. *)
Definition slot (fd : Z) : nat := Z.to_nat (fd - socketbase).

Definition free_fd : socket_fd := SocketFd INVALID_SOCKET 0 0.

(** A slot of the table as the C code reads it. *)
Definition fd_at (fds : list socket_fd) (i : nat) : socket_fd := nth i fds free_fd.

Section Ops.
Context {W : Type} `{!Winsock W}.
Local Open Scope c_scope.
Local Abbreviation P := (C (proc W)).

Definition get_fds : P (list socket_fd) := gets (fun p => default [] (pr_fds p)).
Definition put_fd (i : nat) (f : socket_fd) : P unit :=
  modify (fun p => set_fds ((fun l => <[i := f]> l) <$> pr_fds p) p).

Definition wpdk_socket_startup : P Z :=
  let* fds := lift (w_calloc (Z.of_nat maxsockets) 24) in
  match fds with
  | None => wpdk_set_last_wsa_error WSA_NOT_ENOUGH_MEMORY ;; ret 0
  | Some ptr =>
      let* wsaerr := lift WSAStartup in
      if wsaerr =? 0 then
        let* cur := gets pr_fds in
        match cur with
        | None => modify (set_fds (Some (replicate maxsockets free_fd))) ;; modify (set_addr ptr)
        | Some _ => lift (w_free ptr)
        end ;;
        let* ready := gets pr_ready in
        (if ready =? 0 then modify (set_ready 1)
         else let* _ := lift WSACleanup in ret tt) ;;
        ret 1
      else lift (w_free ptr) ;; wpdk_set_last_wsa_error wsaerr ;; ret 0
  end.

Definition wpdk_socket_cleanup : P Z :=
  let* rc := lift WSACleanup in
  if rc =? SOCKET_ERROR then wpdk_last_wsa_error
  else
    let* addr := gets pr_addr in
    lift (w_free addr) ;;
    modify (set_fds None) ;; modify (set_ready 0) ;; ret 0.

(** The first free slot, [maxsockets] when there is none. *)
Definition first_free (fds : list socket_fd) : nat :=
  scan (fun i => sd_socket (fd_at fds i) =? INVALID_SOCKET) maxsockets.

Definition wpdk_allocate_socket (s domain flags : Z) : P Z :=
  let nb := if Z.land flags O_NONBLOCK =? 0 then 0 else 1 in
  let* rc := lift (ioctlsocket_FIONBIO s nb) in
  if rc =? SOCKET_ERROR then
    let* _ := wpdk_last_wsa_error in
    let* _ := lift (closesocket s) in
    ret (-1)
  else
    let* fds := get_fds in
    let i := first_free fds in
    if (i <? maxsockets)%nat then
      put_fd i (SocketFd s domain flags) ;; ret (socketbase + Z.of_nat i)
    else
      let* _ := lift (closesocket s) in
      wpdk_posix_error EMFILE.

Definition wpdk_get_socket (fd : Z) : P Z :=
  let* fds := gets pr_fds in
  let s := match fds with
           | Some fds => if wpdk_is_socket fd then sd_socket (fd_at fds (slot fd))
                         else INVALID_SOCKET
           | None => INVALID_SOCKET
           end in
  if s =? INVALID_SOCKET then set_errno_c EBADF ;; ret s else ret s.

(** [type & ~SOCK_NONBLOCK] *)
Definition wpdk_socket (domain type protocol : Z) : P Z :=
  let open :=
    let* s := lift (w_socket domain (Z.ldiff type SOCK_NONBLOCK) protocol) in
    if s =? INVALID_SOCKET then wpdk_last_wsa_error
    else
      let flags := if Z.land type SOCK_NONBLOCK =? 0 then 0 else O_NONBLOCK in
      wpdk_allocate_socket s domain flags in
  let* ready := gets pr_ready in
  if ready =? 0 then
    let* ok := wpdk_socket_startup in
    if ok =? 0 then wpdk_last_wsa_error else open
  else open.

Definition wpdk_close_socket (socket : Z) : P Z :=
  let* s := wpdk_get_socket socket in
  if s =? INVALID_SOCKET then wpdk_posix_error EBADF
  else
    let* fds := get_fds in
    let cur := fd_at fds (slot socket) in
    if sd_socket cur =? s then
      put_fd (slot socket) (SocketFd INVALID_SOCKET (sd_domain cur) (sd_flags cur)) ;;
      let* rc := lift (closesocket s) in
      if rc =? SOCKET_ERROR then wpdk_last_wsa_error else ret 0
    else wpdk_posix_error EBADF.

Definition wpdk_accept (socket address address_len : Z) : P Z :=
  let* s := wpdk_get_socket socket in
  if s =? INVALID_SOCKET then wpdk_posix_error EBADF
  else
    let* fds := get_fds in
    let domain := sd_domain (fd_at fds (slot socket)) in
    let flags := sd_flags (fd_at fds (slot socket)) in
    let* s := lift (w_accept s address address_len) in
    if s =? INVALID_SOCKET then wpdk_last_wsa_error
    else wpdk_allocate_socket s domain flags.

Definition wpdk_accept4 (socket address address_len sflags : Z) : P Z :=
  let* s := wpdk_get_socket socket in
  if s =? INVALID_SOCKET then wpdk_posix_error EBADF
  else
    let* fds := get_fds in
    let domain := sd_domain (fd_at fds (slot socket)) in
    let* s := lift (w_accept s address address_len) in
    if s =? INVALID_SOCKET then wpdk_last_wsa_error
    else
      let flags := if Z.land sflags SOCK_NONBLOCK =? 0 then 0 else O_NONBLOCK in
      wpdk_allocate_socket s domain flags.

(** The address handed to Winsock: an AF_UNIX path is translated.  [None] is an
    EINVAL; the bytes of [un] after the path are those of the local variable. *)
Definition translate_address (address : sockaddr) (address_len : Z)
    : P (option (sockaddr * Z)) :=
  if sa_family address =? AF_UNIX then
    if sizeof_un <? address_len then ret None
    else
      let* p := get in
      let '(path, paths) := wpdk_copy_path (w_env (world p)) [] sizeof_sun_path
                              (Some (sun_path address)) (pr_paths p) in
      modify (set_paths paths) ;;
      match path with
      | None => ret None
      | Some path => ret (Some (Sockaddr (sa_family address) path 0, sizeof_un))
      end
  else ret (Some (address, address_len)).

Definition wpdk_bind (socket : Z) (address : sockaddr) (address_len : Z) : P Z :=
  let* s := wpdk_get_socket socket in
  if s =? INVALID_SOCKET then wpdk_posix_error EBADF
  else
    let* a := translate_address address address_len in
    match a with
    | None => wpdk_posix_error EINVAL
    | Some (addr, len) =>
        let* rc := lift (w_bind s addr len) in
        if rc =? SOCKET_ERROR then wpdk_last_wsa_error else ret 0
    end.

Definition wpdk_connect (socket : Z) (address : sockaddr) (address_len : Z) : P Z :=
  let* s := wpdk_get_socket socket in
  if s =? INVALID_SOCKET then wpdk_posix_error EBADF
  else
    let* a := translate_address address address_len in
    match a with
    | None => wpdk_posix_error EINVAL
    | Some (addr, len) =>
        let* rc := lift (w_connect s addr len) in
        if rc =? SOCKET_ERROR then
          let* err := gets WSAGetLastError in
          if err =? WSAEWOULDBLOCK then ret 0 else wpdk_last_wsa_error
        else ret 0
    end.

(** The functions that translate the descriptor, call Winsock and report. *)
Definition with_socket (socket : Z) (call : Z -> P Z) : P Z :=
  let* s := wpdk_get_socket socket in
  if s =? INVALID_SOCKET then wpdk_posix_error EBADF else call s.

(** [if (rc == SOCKET_ERROR) return wpdk_last_wsa_error(); return v;] *)
Definition report (rc v : Z) : P Z :=
  if rc =? SOCKET_ERROR then wpdk_last_wsa_error else ret v.

Definition wpdk_getpeername (socket address address_len : Z) : P Z :=
  with_socket socket (fun s =>
    let* rc := lift (w_getpeername s address address_len) in report rc 0).

Definition wpdk_getsockname (socket address address_len : Z) : P Z :=
  with_socket socket (fun s =>
    let* rc := lift (w_getsockname s address address_len) in report rc 0).

Definition wpdk_getsockopt (socket level option_name option_value option_len : Z) : P Z :=
  with_socket socket (fun s =>
    let* rc := lift (w_getsockopt s level option_name option_value option_len) in report rc 0).

Definition wpdk_listen (socket backlog : Z) : P Z :=
  with_socket socket (fun s => let* rc := lift (w_listen s backlog) in report rc 0).

Definition wpdk_recv (socket buffer length flags : Z) : P Z :=
  with_socket socket (fun s =>
    if INT_MAX <? length then wpdk_posix_error EINVAL
    else let* rc := lift (w_recv s buffer length flags) in report rc rc).

Definition wpdk_recvfrom (socket buffer length flags address address_len : Z) : P Z :=
  with_socket socket (fun s =>
    if INT_MAX <? length then wpdk_posix_error EINVAL
    else let* rc := lift (w_recvfrom s buffer length flags address address_len) in report rc rc).

Definition wpdk_send (socket buffer length flags : Z) : P Z :=
  with_socket socket (fun s =>
    if INT_MAX <? length then wpdk_posix_error EINVAL
    else let* rc := lift (w_send s buffer length flags) in report rc rc).

Definition wpdk_sendto (socket message length flags dest_addr dest_len : Z) : P Z :=
  with_socket socket (fun s =>
    if INT_MAX <? length then wpdk_posix_error EINVAL
    else let* rc := lift (w_sendto s message length flags dest_addr dest_len) in report rc rc).

(** Where [wpdk_get_wsabuf] puts the buffers: the caller's array or the heap. *)
Inductive bufmem := CallerBuf | HeapBuf (ptr : Z).

(** The loop over the vector; [length] is the running total. *)
Fixpoint fill_wsabuf (iov : list iovec) (length : Z) : option (list wsabuf) :=
  match iov with
  | [] => Some []
  | v :: iov =>
      if (ULONG_MAX <? iov_len v) || (SSIZE_MAX - length <? iov_len v) then None
      else
        b ← fill_wsabuf iov (length + iov_len v);
        Some (Wsabuf (iov_base v) (u32 (iov_len v)) :: b)
  end.

Definition free_buf (m : bufmem) : P unit :=
  match m with CallerBuf => ret tt | HeapBuf ptr => lift (w_free ptr) end.

(** [iov] is the array the caller passes ([None] for NULL), of at least
    [iovlen] elements. *)
Definition wpdk_get_wsabuf (count : Z) (iov : option (list iovec)) (iovlen : Z)
    : P (option (bufmem * list wsabuf)) :=
  match iov with
  | None => wpdk_posix_error EINVAL ;; ret None
  | Some iov =>
      if (iovlen <? 0) || (IOV_MAX <? iovlen) then wpdk_posix_error EINVAL ;; ret None
      else
        let* mem := if count <? iovlen
                    then let* ptr := lift (w_calloc iovlen 16) in
                         ret (HeapBuf <$> ptr)
                    else ret (Some CallerBuf) in
        match mem with
        | None => wpdk_posix_error ENOMEM ;; ret None
        | Some mem =>
            match fill_wsabuf (take (Z.to_nat iovlen) iov) 0 with
            | None => wpdk_posix_error EINVAL ;; free_buf mem ;; ret None
            | Some bufs => ret (Some (mem, bufs))
            end
        end
  end.

Definition wpdk_socket_readv (fildes : Z) (iov : option (list iovec)) (iovcnt : Z) : P Z :=
  with_socket fildes (fun s =>
    let* b := wpdk_get_wsabuf 10 iov iovcnt in
    match b with
    | None => ret (-1)
    | Some (mem, bufs) =>
        let* '(rc, nbytes, _) := lift (WSARecv s bufs iovcnt 0) in
        free_buf mem ;; report rc nbytes
    end).

Definition wpdk_socket_read (fildes buf nbyte : Z) : P Z :=
  wpdk_socket_readv fildes (Some [Iovec buf nbyte]) 1.

Definition wpdk_socket_writev (fildes : Z) (iov : option (list iovec)) (iovcnt : Z) : P Z :=
  with_socket fildes (fun s =>
    let* b := wpdk_get_wsabuf 10 iov iovcnt in
    match b with
    | None => ret (-1)
    | Some (mem, bufs) =>
        let* '(rc, nbytes) := lift (WSASend s bufs iovcnt 0) in
        free_buf mem ;; report rc nbytes
    end).

Definition wpdk_socket_write (fildes buf nbyte : Z) : P Z :=
  wpdk_socket_writev fildes (Some [Iovec buf nbyte]) 1.

(** [struct msghdr]; the control buffer is its address and length. *)
Record msghdr := Msghdr {
  msg_name : Z; msg_namelen : Z; msg_iov : option (list iovec); msg_iovlen : Z;
  msg_control : Z; msg_controllen : Z; msg_flags : Z
}.

(** The result and the message as [wpdk_recvmsg] leaves it. *)
Definition wpdk_recvmsg (socket : Z) (message : msghdr) (flags : Z) : P (Z * msghdr) :=
  let fail (m : P Z) := let* rc := m in ret (rc, message) in
  let* s := wpdk_get_socket socket in
  if s =? INVALID_SOCKET then fail (wpdk_posix_error EBADF)
  else
    let* b := wpdk_get_wsabuf 10 (msg_iov message) (msg_iovlen message) in
    match b with
    | None => ret (-1, message)
    | Some (mem, bufs) =>
        let* '(rc, nbytes, dwFlags) :=
          lift (WSARecv s bufs (msg_iovlen message) (u32 (msg_flags message))) in
        free_buf mem ;;
        if rc =? SOCKET_ERROR then fail wpdk_last_wsa_error
        else ret (nbytes,
                  Msghdr (msg_name message) (msg_namelen message) (msg_iov message)
                    (msg_iovlen message) (msg_control message)
                    (msg_controllen message) (s32 dwFlags))
    end.

Definition wpdk_sendmsg (socket : Z) (message : msghdr) (flags : Z) : P Z :=
  with_socket socket (fun s =>
    let* b := wpdk_get_wsabuf 10 (msg_iov message) (msg_iovlen message) in
    match b with
    | None => ret (-1)
    | Some (mem, bufs) =>
        let* '(rc, nbytes) :=
          lift (WSASend s bufs (msg_iovlen message) (u32 (msg_flags message))) in
        free_buf mem ;; report rc nbytes
    end).

Definition wpdk_setsockopt (socket level option_name option_value option_len : Z) : P Z :=
  with_socket socket (fun s =>
    let* fds := get_fds in
    if (option_name =? SO_REUSEADDR) && (sd_domain (fd_at fds (slot socket)) =? AF_UNIX)
    then ret 0
    else if option_name =? SO_RCVLOWAT then ret 0
    else let* rc := lift (w_setsockopt s level option_name option_value option_len) in
         report rc 0).

(** [shutdown] is called with the descriptor, not with the Winsock handle. *)
Definition wpdk_shutdown (socket how : Z) : P Z :=
  with_socket socket (fun _ =>
    let* rc := lift (w_shutdown (u64 socket) how) in report rc 0).

Definition wpdk_sockatmark (s : Z) : P Z := wpdk_posix_error ENOSYS.

Definition wpdk_socketpair (domain type protocol socket_vector : Z) : P Z :=
  wpdk_posix_error ENOSYS.

Definition wpdk_socket_fcntl (fildes cmd arg : Z) : P Z :=
  let* s := wpdk_get_socket fildes in
  if s =? INVALID_SOCKET then wpdk_posix_error EBADF
  else
    let* fds := get_fds in
    let pfd := fd_at fds (slot fildes) in
    if cmd =? F_GETFL then ret (sd_flags pfd)
    else if cmd =? F_SETFL then
      let mode := if Z.land arg O_NONBLOCK =? 0 then 0 else 1 in
      let* rc := lift (ioctlsocket_FIONBIO s mode) in
      if rc =? SOCKET_ERROR then wpdk_last_wsa_error
      else
        put_fd (slot fildes) (SocketFd (sd_socket pfd) (sd_domain pfd)
          (if mode =? 0 then Z.ldiff (sd_flags pfd) O_NONBLOCK
           else Z.lor (sd_flags pfd) O_NONBLOCK)) ;;
        ret 0
    else wpdk_posix_error EINVAL.
End Ops.

(** ** The table invariant *)

(** The table has its [maxsockets] slots; a handle in it is open in Winsock, in
    the blocking mode its flags record; and it is in one slot only. *)
Record fds_ok (h : gmap Z bool) (l : list socket_fd) : Prop := {
  fds_len : length l = maxsockets;
  fds_open : forall i f, l !! i = Some f -> sd_socket f <> INVALID_SOCKET ->
    h !! sd_socket f = Some (Z.testbit (sd_flags f) 2);
  fds_inj : forall i j f g, l !! i = Some f -> l !! j = Some g ->
    sd_socket f = sd_socket g -> sd_socket f <> INVALID_SOCKET -> i = j
}.

Lemma fds_ok_empty h : fds_ok h (replicate maxsockets free_fd).
Proof.
  split; [apply length_replicate| |].
  - intros i f [-> _]%lookup_replicate_1 H. destruct H. done.
  - intros i j f g [-> _]%lookup_replicate_1 _ _ H. destruct H. done.
Qed.

(** [s] is in no slot of the table. *)
Definition absent (s : Z) (l : list socket_fd) : Prop :=
  forall i f, l !! i = Some f -> sd_socket f <> INVALID_SOCKET -> sd_socket f <> s.

Lemma fds_ok_absent h l s : fds_ok h l -> h !! s = None -> absent s l.
Proof. intros [_ Ho _] Hs i f Hf Hne <-. by rewrite (Ho i f Hf Hne) in Hs. Qed.

(** Opening or changing the mode of a handle the table does not hold. *)
Lemma fds_ok_open h l s b : fds_ok h l -> absent s l -> fds_ok (<[s := b]> h) l.
Proof.
  intros [Hl Ho Hi] Hs. split; [done| |done].
  intros i f Hf Hne. rewrite lookup_insert_ne; [by apply (Ho i)|].
  intros E. by destruct (Hs i f Hf Hne).
Qed.

(** Closing a handle the table does not hold leaves it correct. *)
Lemma fds_ok_close h l s : fds_ok h l -> absent s l -> fds_ok (delete s h) l.
Proof.
  intros [Hl Ho Hi] Hs. split; [done| |done].
  intros i f Hf Hne. rewrite lookup_delete_ne; [by apply (Ho i)|].
  intros E. by destruct (Hs i f Hf Hne).
Qed.

(** Storing a handle that is open and in no other slot. *)
Lemma fds_ok_store h l i s d fl :
  fds_ok h l -> h !! s = Some (Z.testbit fl 2) ->
  (forall j f, j <> i -> l !! j = Some f -> sd_socket f <> INVALID_SOCKET -> sd_socket f <> s) ->
  fds_ok h (<[i := SocketFd s d fl]> l).
Proof.
  intros [Hl Ho Hi] Hs Hfresh. split; [by rewrite length_insert| |].
  - intros j f [(<- & <- & _)|[Hne Hf]]%list_lookup_insert_Some; [done|by apply (Ho j)].
  - intros j k f g [(<- & <- & _)|[Hj Hf]]%list_lookup_insert_Some
      [(<- & <- & _)|[Hk Hg]]%list_lookup_insert_Some; simpl; intros E Hne; [done| | |].
    + exfalso. apply (Hfresh k g); [done|done|congruence|done].
    + exfalso. by apply (Hfresh j f).
    + by apply (Hi j k f g).
Qed.

(** Emptying a slot. *)
Lemma fds_ok_clear h l i d fl :
  fds_ok h l -> fds_ok h (<[i := SocketFd INVALID_SOCKET d fl]> l).
Proof.
  intros [Hl Ho Hi]. split; [by rewrite length_insert| |].
  - intros j f [(<- & <- & _)|[Hne Hf]]%list_lookup_insert_Some; [done|by apply (Ho j)].
  - intros j k f g [(<- & <- & _)|[Hj Hf]]%list_lookup_insert_Some
      [(<- & <- & _)|[Hk Hg]]%list_lookup_insert_Some; simpl; intros E Hne; try done.
    by apply (Hi j k f g).
Qed.

Lemma slot_lt fd : wpdk_is_socket fd = true -> (slot fd < maxsockets)%nat.
Proof. unfold wpdk_is_socket, slot. intros H. bool_prop. unfold socketbase in *. lia. Qed.

Lemma fd_at_lookup l i : (i < length l)%nat -> l !! i = Some (fd_at l i).
Proof.
  intros H. unfold fd_at. rewrite nth_lookup.
  by destruct (lookup_lt_is_Some_2 l i H) as [x ->].
Qed.

Section Inv.
Context {W : Type} `{!Winsock W, !WinsockLaws W}.
Local Abbreviation P := (C (proc W)).

Definition sock_inv (p : proc W) : Prop :=
  (pr_ready p <> 0 -> pr_fds p <> None) /\
  forall l, pr_fds p = Some l -> fds_ok (w_handles (world p)) l.

(** A handle that was just created: open, and in no slot yet. *)
Definition owned (s : Z) (p : proc W) : Prop :=
  s <> INVALID_SOCKET /\ w_handles (world p) !! s <> None /\
  (exists l, pr_fds p = Some l /\ absent s l) /\ sock_inv p.

Lemma sock_inv_same p q :
  pr_ready q = pr_ready p -> pr_fds q = pr_fds p ->
  w_handles (world q) = w_handles (world p) -> sock_inv p -> sock_inv q.
Proof. unfold sock_inv. intros -> -> ->. done. Qed.

Lemma keeps_lift {A} (m : C W A) : preserves w_handles m -> keeps sock_inv (lift m).
Proof. intros Hm p. rewrite lift_run. apply sock_inv_same; [done|done|apply Hm]. Qed.

Lemma keeps_posix_error e : keeps sock_inv (wpdk_posix_error e : P Z).
Proof. intros p. by apply sock_inv_same. Qed.

Lemma keeps_last_wsa_error : keeps sock_inv (wpdk_last_wsa_error : P Z).
Proof. intros p. by apply sock_inv_same. Qed.

Lemma keeps_set_last_wsa_error e : keeps sock_inv (wpdk_set_last_wsa_error e : P unit).
Proof. intros p. apply sock_inv_same; [done|done|apply handles_wsaerror]. Qed.

Lemma keeps_set_errno e : keeps sock_inv (set_errno_c e : P unit).
Proof. intros p. by apply sock_inv_same. Qed.

Lemma keeps_set_paths m : keeps sock_inv (modify (set_paths m) : P unit).
Proof. intros p. by apply sock_inv_same. Qed.

Lemma keeps_set_addr a : keeps sock_inv (modify (set_addr a) : P unit).
Proof. intros p. by apply sock_inv_same. Qed.

Lemma keeps_get : keeps sock_inv (get : P (proc W)).
Proof. intros p Hp. exact Hp. Qed.

Lemma keeps_get_fds : keeps sock_inv (get_fds : P _).
Proof. apply keeps_gets. Qed.
#[local] Hint Resolve keeps_lift keeps_posix_error keeps_last_wsa_error keeps_set_errno
  keeps_set_last_wsa_error keeps_set_paths keeps_set_addr keeps_get keeps_get_fds : wpdk.

Lemma keeps_get_socket fd : keeps sock_inv (wpdk_get_socket fd : P Z).
Proof. unfold wpdk_get_socket. keep. Qed.
#[local] Hint Resolve keeps_get_socket : wpdk.

Lemma keeps_free_buf m : keeps sock_inv (free_buf m : P unit).
Proof. unfold free_buf. keep. Qed.
#[local] Hint Resolve keeps_free_buf : wpdk.

Lemma keeps_report rc v : keeps sock_inv (report rc v : P Z).
Proof. unfold report. keep. Qed.
#[local] Hint Resolve keeps_report : wpdk.

Lemma keeps_get_wsabuf c iov n : keeps sock_inv (wpdk_get_wsabuf c iov n : P _).
Proof. unfold wpdk_get_wsabuf. keep. Qed.

Lemma keeps_translate_address a n : keeps sock_inv (translate_address a n : P _).
Proof. unfold translate_address. keep. Qed.
#[local] Hint Resolve keeps_get_wsabuf keeps_translate_address : wpdk.

Lemma keeps_socket_readv fd iov n : keeps sock_inv (wpdk_socket_readv fd iov n : P Z).
Proof. unfold wpdk_socket_readv, with_socket. keep. Qed.

Lemma keeps_socket_writev fd iov n : keeps sock_inv (wpdk_socket_writev fd iov n : P Z).
Proof. unfold wpdk_socket_writev, with_socket. keep. Qed.

Lemma keeps_recvmsg fd m fl : keeps sock_inv (wpdk_recvmsg fd m fl : P _).
Proof. unfold wpdk_recvmsg. keep. Qed.
#[local] Hint Resolve keeps_socket_readv keeps_socket_writev keeps_recvmsg : wpdk.

Lemma get_socket_run fd (p : proc W) :
  let '(s, q) := wpdk_get_socket fd p in
  (s = INVALID_SOCKET /\ q = set_errno EBADF p) \/
  (s <> INVALID_SOCKET /\ q = p /\ wpdk_is_socket fd = true /\
   exists l, pr_fds p = Some l /\ sd_socket (fd_at l (slot fd)) = s).
Proof.
  unfold wpdk_get_socket, bind, gets, ret, set_errno_c, modify. destruct (pr_fds p) as [l|] eqn:E.
  - destruct (wpdk_is_socket fd).
    + destruct (Z.eqb_spec (sd_socket (fd_at l (slot fd))) INVALID_SOCKET); [by left|].
      right. split_and!; try done. by exists l.
    + rewrite Z.eqb_refl. by left.
  - rewrite Z.eqb_refl. by left.
Qed.

(** The pieces of a state after a call into Windows. *)
Definition with_world (p : proc W) (w : W) : proc W :=
  Proc (pr_errno p) (pr_ready p) (pr_fds p) (pr_addr p) (pr_epolls p) (pr_paths p) w.

Lemma first_free_spec l :
  length l = maxsockets -> (first_free l < maxsockets)%nat ->
  sd_socket (fd_at l (first_free l)) = INVALID_SOCKET /\
  forall j, (j < first_free l)%nat -> sd_socket (fd_at l j) <> INVALID_SOCKET.
Proof.
  unfold first_free. intros Hl Hlt. split.
  - apply (scan_found _ _) in Hlt. cbv beta in Hlt. by bool_prop.
  - intros j Hj. apply scan_before in Hj. cbv beta in Hj. by bool_prop.
Qed.

(** After the handle's own mode was set, the rest of the allocation. *)
Lemma close_absent_inv s (p : proc W) :
  sock_inv p -> (forall l, pr_fds p = Some l -> absent s l) ->
  sock_inv (with_world p (snd (closesocket s (world p)))).
Proof.
  intros [Hr Hf] Ha. split; [done|]. simpl. intros l Hl.
  pose proof (handles_close s (world p)) as Hc. destruct (closesocket s (world p)) as [rc w].
  simpl. rewrite Hc. destruct (rc =? SOCKET_ERROR); [by apply Hf|].
  apply fds_ok_close; auto.
Qed.

(** What an allocation does to the table: the lowest free slot, or nothing. *)
Definition allocates (s domain flags : Z) (p : proc W) (r : Z) (q : proc W) : Prop :=
  (exists l, pr_fds p = Some l /\ (first_free l < maxsockets)%nat /\
     r = socketbase + Z.of_nat (first_free l) /\
     pr_fds q = Some (<[first_free l := SocketFd s domain flags]> l)) \/
  (r = -1 /\ pr_fds q = pr_fds p).

Lemma allocate_socket_spec s domain flags (p : proc W) :
  owned s p ->
  let '(r, q) := wpdk_allocate_socket s domain flags p in
  sock_inv q /\ allocates s domain flags p r q.
Proof.
  intros (Hs & Hh & (l & El & Ha) & Hr & Hf). unfold wpdk_allocate_socket.
  change O_NONBLOCK with (2 ^ 2). rewrite land_pow2_eqb by lia.
  set (nb := if negb _ then _ else _). rewrite bind_run, lift_run. cbn [fst snd].
  pose proof (handles_fionbio s nb (world p) Hh) as Hio.
  destruct (ioctlsocket_FIONBIO s nb (world p)) as [rc w]. cbn [fst snd].
  change (Proc _ _ _ _ _ _ w) with (with_world p w).
  destruct (rc =? SOCKET_ERROR).
  - rewrite bind_run. autorewrite with wpdk_rw. cbn [fst snd].
    rewrite bind_run, lift_run. split; [|by right]. apply close_absent_inv.
    + split; [done|]. simpl. by rewrite Hio.
    + simpl. intros l'. rewrite El. by intros [= <-].
  - replace (negb (nb =? 0)) with (Z.testbit flags 2) in Hio
      by (unfold nb; by destruct (Z.testbit flags 2)).
    assert (fds_ok (w_handles w) l) as Hok by (rewrite Hio; apply fds_ok_open; auto).
    rewrite bind_run. cbn [get_fds gets fst snd with_world pr_fds]. rewrite El. change (default [] (Some l)) with l.
    destruct (first_free l <? maxsockets)%nat eqn:E; bool_prop.
    + rewrite bind_run. cbv beta iota delta [put_fd modify ret fst snd].
      split; [|left; exists l; simpl; by rewrite El]. split; [simpl; by rewrite El|]. simpl.
      rewrite El. intros ? [= <-]. destruct (first_free_spec l (fds_len _ _ Hok) E) as [Hi _].
      apply fds_ok_store; [done|by rewrite Hio, lookup_insert_eq|].
      intros j f _ Hf'. by apply (Ha j).
    + rewrite bind_run, lift_run. autorewrite with wpdk_rw. split; [|by right]. 
      eapply (sock_inv_same (with_world (with_world p w) (snd (closesocket s w)))); try done.
      apply (close_absent_inv s (with_world p w)).
      * split; [done|]. simpl. rewrite El. by intros ? [= <-].
      * simpl. rewrite El. by intros ? [= <-].
Qed.

Lemma startup_spec (p : proc W) :
  sock_inv p -> pr_ready p = 0 ->
  let '(ok, q) := wpdk_socket_startup p in
  sock_inv q /\ (ok <> 0 -> pr_fds q <> None).
Proof.
  intros Hp Hr. unfold wpdk_socket_startup. rewrite bind_run, lift_run. cbn [fst snd].
  pose proof (keeps_lift _ (handles_calloc (Z.of_nat maxsockets) 24) p Hp) as H1.
  rewrite lift_run in H1. destruct (w_calloc _ _ (world p)) as [ptr w1]. cbn [fst snd] in *.
  change (Proc _ _ _ _ _ _ w1) with (with_world p w1) in *.
  destruct ptr as [ptr|]; [|by split; [apply (keeps_set_last_wsa_error _ _ H1)|]].
  rewrite bind_run, lift_run. cbn [fst snd].
  pose proof (keeps_lift _ handles_startup _ H1) as H2.
  rewrite lift_run in H2. destruct (WSAStartup _) as [wsaerr w2]. cbn [fst snd] in *.
  change (Proc _ _ _ _ _ _ w2) with (with_world p w2) in *.
  destruct (wsaerr =? 0).
  - destruct p as [e r fds ad eps pt w0]. cbn [pr_ready] in Hr. subst r.
    destruct fds as [l|].
    + unfold bind, gets, modify, set_ready, ret.
      cbn [with_world pr_fds pr_ready]. rewrite lift_run.
      cbn [pr_ready pr_errno pr_fds pr_addr pr_epolls pr_paths world]. change (0 =? 0) with true.
      cbn beta iota zeta. split; [|done]. split; [done|].
      cbn [pr_fds world]. rewrite handles_free. apply H2.
    + split; [|done]. split; [done|]. intros l' [= <-]. apply fds_ok_empty.
  - pose proof (keeps_lift _ (handles_free ptr) _ H2) as H3.
    unfold bind. rewrite lift_run in *. cbn [fst snd] in *.
    split; [|by intros []]. apply (keeps_set_last_wsa_error wsaerr _ H3).
Qed.

(** A handle Winsock just returned. *)
Lemma new_handle_owned s (p : proc W) w l b :
  sock_inv p -> pr_fds p = Some l -> s <> INVALID_SOCKET -> w_handles (world p) !! s = None ->
  w_handles w = <[s := b]> (w_handles (world p)) -> owned s (with_world p w).
Proof.
  intros [Hr Hf] Hl Hs Hn Hw. assert (absent s l) as Ha by eauto using fds_ok_absent.
  split_and!; [done| |by exists l|split; [done|]].
  - simpl. rewrite Hw, lookup_insert_eq. done.
  - simpl. intros l' Hl'. rewrite Hl in Hl'. injection Hl' as <-. rewrite Hw.
    apply fds_ok_open; auto.
Qed.

(** Creating a handle and giving it a descriptor, as [socket] and [accept] do. *)
Lemma create_spec (m : C W Z) domain flags (p : proc W) :
  (forall w, let '(s, w') := m w in
    (s = INVALID_SOCKET /\ w_handles w' = w_handles w) \/
    (s <> INVALID_SOCKET /\ w_handles w !! s = None /\
     exists b, w_handles w' = <[s := b]> (w_handles w))) ->
  sock_inv p -> pr_fds p <> None ->
  let '(r, q) := (let* s := lift m in
                  if s =? INVALID_SOCKET then wpdk_last_wsa_error
                  else wpdk_allocate_socket s domain flags)%c p in
  sock_inv q /\ (r = -1 /\ pr_fds q = pr_fds p \/
                 allocates (fst (m (world p))) domain flags p r q).
Proof.
  intros Hm Hp Hn. destruct (pr_fds p) as [l|] eqn:El; [|done].
  rewrite bind_run, lift_run. cbn [fst snd]. specialize (Hm (world p)).
  destruct (m (world p)) as [s w]. cbn [fst snd].
  change (Proc _ _ _ _ _ _ w) with (with_world p w).
  destruct Hm as [[-> Hw]|(Hs & Hnew & b & Hw)].
  - rewrite Z.eqb_refl. autorewrite with wpdk_rw. split; [|by left; simpl].
    by apply (sock_inv_same p).
  - rewrite (proj2 (Z.eqb_neq _ _) Hs).
    pose proof (allocate_socket_spec s domain flags (with_world p w)
      (new_handle_owned s p w l b Hp El Hs Hnew Hw)) as Ha.
    destruct (wpdk_allocate_socket _ _ _ _) as [r q]. destruct Ha as [? Ha].
    split; [done|]. right. unfold allocates in *. rewrite El. by rewrite <- El.
Qed.

Lemma keeps_socket d t pr : keeps sock_inv (wpdk_socket d t pr : P Z).
Proof.
  intros p Hp. unfold wpdk_socket. cbv zeta. rewrite bind_run. cbn [gets fst snd].
  set (create := bind (lift (w_socket _ _ _)) _).
  assert (forall q, sock_inv q -> pr_fds q <> None -> sock_inv (snd (create q))) as Hc.
  { intros q Hq Hn.
    pose proof (create_spec _ d (if Z.land t SOCK_NONBLOCK =? 0 then 0 else O_NONBLOCK) q
      (handles_socket d (Z.ldiff t SOCK_NONBLOCK) pr) Hq Hn) as H.
    unfold create. destruct (bind _ _ q). apply H. }
  destruct (Z.eqb_spec (pr_ready p) 0) as [Hr|Hr]; [|apply Hc; [done|by apply Hp]].
  rewrite bind_run. pose proof (startup_spec p Hp Hr) as Hs.
  destruct (wpdk_socket_startup p) as [ok q]. cbn [fst snd]. destruct Hs as [Hq Hn].
  destruct (Z.eqb_spec ok 0); [by apply keeps_last_wsa_error|auto].
Qed.

(** The branch of a function where the descriptor names a socket. *)
Lemma keeps_with_get socket (k : Z -> P Z) :
  (forall s l p, sock_inv p -> s <> INVALID_SOCKET -> wpdk_is_socket socket = true ->
     pr_fds p = Some l -> sd_socket (fd_at l (slot socket)) = s -> sock_inv (snd (k s p))) ->
  keeps sock_inv (let* s := wpdk_get_socket socket in
                  if s =? INVALID_SOCKET then wpdk_posix_error EBADF else k s)%c.
Proof.
  intros Hk p Hp. rewrite bind_run. pose proof (get_socket_run socket p) as Hg.
  destruct (wpdk_get_socket socket p) as [s q]. cbn [fst snd].
  destruct Hg as [[-> ->]|(Hs & -> & Hi & l & Hl & E)].
  - rewrite Z.eqb_refl. apply keeps_posix_error. by apply (sock_inv_same p).
  - rewrite (proj2 (Z.eqb_neq _ _) Hs). by apply (Hk s l).
Qed.

Lemma keeps_accept fd a n : keeps sock_inv (wpdk_accept fd a n : P Z).
Proof.
  apply keeps_with_get. intros s l p Hp Hs Hi Hl E. rewrite bind_run.
  cbn [get_fds gets fst snd]. rewrite Hl. change (default [] (Some l)) with l.
  pose proof (create_spec _ (sd_domain (fd_at l (slot fd))) (sd_flags (fd_at l (slot fd))) p
    (handles_accept s a n) Hp ltac:(by rewrite Hl)) as H.
  destruct (bind _ _ p). apply H.
Qed.

Lemma keeps_accept4 fd a n fl : keeps sock_inv (wpdk_accept4 fd a n fl : P Z).
Proof.
  apply keeps_with_get. intros s l p Hp Hs Hi Hl E. rewrite bind_run.
  cbn [get_fds gets fst snd]. rewrite Hl. change (default [] (Some l)) with l.
  pose proof (create_spec _ (sd_domain (fd_at l (slot fd)))
    (if Z.land fl SOCK_NONBLOCK =? 0 then 0 else O_NONBLOCK) p
    (handles_accept s a n) Hp ltac:(by rewrite Hl)) as H.
  cbv zeta. destruct (bind _ _ p). apply H.
Qed.

(** Clearing a slot leaves its handle in no slot. *)
Lemma clear_absent h l i f d fl :
  fds_ok h l -> l !! i = Some f -> sd_socket f <> INVALID_SOCKET ->
  absent (sd_socket f) (<[i := SocketFd INVALID_SOCKET d fl]> l).
Proof.
  intros Hok Hf Hne j g [(<- & <- & _)|[Hj Hg]]%list_lookup_insert_Some Hg' E; [done|].
  destruct Hj. symmetry. by apply (fds_inj _ _ Hok j i g f).
Qed.

Lemma keeps_close_socket fd : keeps sock_inv (wpdk_close_socket fd : P Z).
Proof.
  apply keeps_with_get. intros s l p [Hr Hf] Hs Hi Hl E. rewrite bind_run.
  cbn [get_fds gets fst snd]. rewrite Hl. change (default [] (Some l)) with l.
  rewrite E, Z.eqb_refl. pose proof (Hf l Hl) as Hok.
  pose proof (fd_at_lookup l (slot fd)
    ltac:(rewrite (fds_len _ _ Hok); by apply slot_lt)) as Hat.
  rewrite bind_run. cbn [put_fd modify fst snd]. unfold set_fds. rewrite Hl. cbn [fmap option_fmap option_map].
  set (q := Proc _ _ _ _ _ _ _). rewrite bind_run, lift_run. cbn [fst snd].
  assert (sock_inv (with_world q (snd (closesocket s (world q))))) as Hq.
  { apply close_absent_inv.
    - split; [done|]. intros l' [= <-]. by apply fds_ok_clear.
    - intros l' [= <-]. subst s. by apply (clear_absent (w_handles (world p))). }
  destruct (_ =? SOCKET_ERROR); [by apply keeps_last_wsa_error|done].
Qed.

Lemma testbit_set_nonblock fl (m : bool) :
  Z.testbit (if m then Z.ldiff fl O_NONBLOCK else Z.lor fl O_NONBLOCK) 2 = negb m.
Proof.
  destruct m.
  - rewrite Z.ldiff_spec. change (Z.testbit O_NONBLOCK 2) with true. apply andb_false_r.
  - rewrite Z.lor_spec. change (Z.testbit O_NONBLOCK 2) with true. apply orb_true_r.
Qed.

Lemma keeps_socket_fcntl fd cmd arg : keeps sock_inv (wpdk_socket_fcntl fd cmd arg : P Z).
Proof.
  apply keeps_with_get. intros s l p [Hr Hf] Hs Hi Hl E. rewrite bind_run.
  cbn [get_fds gets fst snd]. rewrite Hl. change (default [] (Some l)) with l.
  destruct (cmd =? F_GETFL); [done|].
  destruct (cmd =? F_SETFL); [|by apply keeps_posix_error].
  pose proof (Hf l Hl) as Hok.
  pose proof (fd_at_lookup l (slot fd)
    ltac:(rewrite (fds_len _ _ Hok); by apply slot_lt)) as Hat.
  set (pfd := fd_at l (slot fd)) in *. set (mode := if Z.land arg O_NONBLOCK =? 0 then 0 else 1).
  assert (w_handles (world p) !! s = Some (Z.testbit (sd_flags pfd) 2)) as Hopen
    by (rewrite <- E; apply (fds_open _ _ Hok (slot fd)); [done|by rewrite E]).
  pose proof (handles_fionbio s mode (world p) ltac:(by rewrite Hopen)) as Hio.
  rewrite bind_run, lift_run. cbn [fst snd].
  destruct (ioctlsocket_FIONBIO s mode (world p)) as [rc w]. cbn [fst snd].
  destruct (rc =? SOCKET_ERROR).
  - apply keeps_last_wsa_error. by apply (sock_inv_same p).
  - pose proof (testbit_set_nonblock (sd_flags pfd) (mode =? 0)) as Hfl. revert Hfl.
    generalize (if mode =? 0 then Z.ldiff (sd_flags pfd) O_NONBLOCK
                else Z.lor (sd_flags pfd) O_NONBLOCK). intros fl Hfl.
    rewrite bind_run. split; [simpl; by rewrite Hl|]. simpl. rewrite Hl. intros l' [= <-].
    rewrite Hio. destruct Hok as [Hlen Ho Hinj]. split; [by rewrite length_insert| |].
    + intros j f [(<- & <- & _)|[Hne Hg]]%list_lookup_insert_Some Hne'; simpl.
      * by rewrite E, lookup_insert_eq, <- Hfl.
      * rewrite lookup_insert_ne; [by apply (Ho j)|]. intros Heq.
        destruct Hne. apply (Hinj _ _ pfd f Hat Hg); congruence.
    + intros j k f g [(<- & <- & _)|[Hj Hg]]%list_lookup_insert_Some
        [(<- & <- & _)|[Hk Hg']]%list_lookup_insert_Some; simpl; intros E' Hne; [done|..];
        by eapply Hinj; eauto.
Qed.

(** ** Sequences of calls *)

(** The calls of socket.c that take a descriptor or create one. *)
Inductive sock_call :=
  | CSocket (d t pr : Z) | CClose (fd : Z) | CAccept (fd a n : Z) | CAccept4 (fd a n fl : Z)
  | CBind (fd : Z) (a : sockaddr) (n : Z) | CConnect (fd : Z) (a : sockaddr) (n : Z)
  | CGetpeername (fd a n : Z) | CGetsockname (fd a n : Z)
  | CGetsockopt (fd l o v n : Z) | CSetsockopt (fd l o v n : Z)
  | CListen (fd n : Z) | CShutdown (fd how : Z)
  | CRecv (fd b n fl : Z) | CRecvfrom (fd b n fl a l : Z)
  | CSend (fd b n fl : Z) | CSendto (fd b n fl a l : Z)
  | CReadv (fd : Z) (iov : option (list iovec)) (n : Z)
  | CWritev (fd : Z) (iov : option (list iovec)) (n : Z)
  | CRecvmsg (fd : Z) (m : msghdr) (fl : Z) | CSendmsg (fd : Z) (m : msghdr) (fl : Z)
  | CFcntl (fd cmd arg : Z).

Definition run_call (c : sock_call) : P Z :=
  match c with
  | CSocket d t pr => wpdk_socket d t pr
  | CClose fd => wpdk_close_socket fd
  | CAccept fd a n => wpdk_accept fd a n
  | CAccept4 fd a n fl => wpdk_accept4 fd a n fl
  | CBind fd a n => wpdk_bind fd a n
  | CConnect fd a n => wpdk_connect fd a n
  | CGetpeername fd a n => wpdk_getpeername fd a n
  | CGetsockname fd a n => wpdk_getsockname fd a n
  | CGetsockopt fd l o v n => wpdk_getsockopt fd l o v n
  | CSetsockopt fd l o v n => wpdk_setsockopt fd l o v n
  | CListen fd n => wpdk_listen fd n
  | CShutdown fd how => wpdk_shutdown fd how
  | CRecv fd b n fl => wpdk_recv fd b n fl
  | CRecvfrom fd b n fl a l => wpdk_recvfrom fd b n fl a l
  | CSend fd b n fl => wpdk_send fd b n fl
  | CSendto fd b n fl a l => wpdk_sendto fd b n fl a l
  | CReadv fd iov n => wpdk_socket_readv fd iov n
  | CWritev fd iov n => wpdk_socket_writev fd iov n
  | CRecvmsg fd m fl => (let* r := wpdk_recvmsg fd m fl in ret (fst r))%c
  | CSendmsg fd m fl => wpdk_sendmsg fd m fl
  | CFcntl fd cmd arg => wpdk_socket_fcntl fd cmd arg
  end.

Definition run_calls (cs : list sock_call) (p : proc W) : proc W :=
  fold_left (fun p c => snd (run_call c p)) cs p.

#[local] Hint Resolve keeps_socket keeps_accept keeps_accept4 keeps_close_socket
  keeps_socket_fcntl : wpdk.

Lemma keeps_run_call c : keeps sock_inv (run_call c).
Proof.
  destruct c; cbn [run_call]; try solve [eauto with wpdk];
    unfold wpdk_bind, wpdk_connect, wpdk_getpeername, wpdk_getsockname, wpdk_getsockopt,
      wpdk_setsockopt, wpdk_listen, wpdk_shutdown, wpdk_recv, wpdk_recvfrom, wpdk_send,
      wpdk_sendto, wpdk_sendmsg, with_socket; keep.
Qed.

Lemma run_calls_inv cs (p : proc W) : sock_inv p -> sock_inv (run_calls cs p).
Proof.
  revert p. induction cs as [|c cs IH]; intros p Hp; [done|]. apply IH, keeps_run_call, Hp.
Qed.

(** C9: whatever sequence of socket calls a program makes, on whatever
    arguments, the descriptor table stays correct: every handle in it is open
    in Winsock and in the blocking mode its flags record (so F_GETFL tells the
    truth), and no two descriptors share a handle. *)
Theorem socket_calls_inv (cs : list sock_call) (w : W) :
  sock_inv (run_calls cs (proc0 w)).
Proof.
  apply run_calls_inv. split; [done|intros l [=]].
Qed.

(** ** Allocation and release *)

(** The handle a descriptor names, [INVALID_SOCKET] when it names none. *)
Definition handle_of (p : proc W) (fd : Z) : Z := fst (wpdk_get_socket fd p).

Lemma handle_of_eq p fd l :
  pr_fds p = Some l ->
  handle_of p fd = if wpdk_is_socket fd then sd_socket (fd_at l (slot fd)) else INVALID_SOCKET.
Proof.
  intros Hl. unfold handle_of, wpdk_get_socket, bind, gets. rewrite Hl.
  by destruct (_ =? INVALID_SOCKET).
Qed.

Lemma handle_of_same (p q : proc W) fd : pr_fds p = pr_fds q -> handle_of p fd = handle_of q fd.
Proof.
  intros E. unfold handle_of, wpdk_get_socket, bind, gets. rewrite E.
  by destruct (_ =? INVALID_SOCKET).
Qed.

Lemma fd_at_insert l i j f :
  (i < length l)%nat -> fd_at (<[i := f]> l) j = if decide (i = j) then f else fd_at l j.
Proof.
  intros Hi. unfold fd_at. rewrite !nth_lookup. destruct (decide (i = j)) as [<-|].
  - by rewrite list_lookup_insert_eq.
  - by rewrite list_lookup_insert_ne.
Qed.

Lemma slot_of_nat i : (i < maxsockets)%nat ->
  wpdk_is_socket (socketbase + Z.of_nat i) = true /\ slot (socketbase + Z.of_nat i) = i.
Proof.
  unfold wpdk_is_socket, slot. intros Hi. split; [|lia].
  apply andb_true_iff. rewrite Z.leb_le, Z.ltb_lt. lia.
Qed.

Lemma slot_inj fd fd' :
  wpdk_is_socket fd = true -> wpdk_is_socket fd' = true -> slot fd = slot fd' -> fd = fd'.
Proof. unfold wpdk_is_socket, slot. intros. bool_prop. lia. Qed.

(** C10: [wpdk_allocate_socket] gives a new handle the lowest free descriptor:
    afterwards that descriptor names the handle, before it named nothing, all
    smaller ones were in use, and every other descriptor names what it did.
    When it fails no descriptor changes. *)
Theorem allocate_socket_lowest (p : proc W) (s domain flags : Z) :
  owned s p ->
  let '(r, q) := wpdk_allocate_socket s domain flags p in
  (r = -1 /\ forall fd, handle_of q fd = handle_of p fd) \/
  (wpdk_is_socket r = true /\ handle_of q r = s /\ handle_of p r = INVALID_SOCKET /\
   (forall fd, wpdk_is_socket fd = true -> fd < r -> handle_of p fd <> INVALID_SOCKET) /\
   (forall fd, fd <> r -> handle_of q fd = handle_of p fd)).
Proof.
  intros Ho. pose proof (allocate_socket_spec s domain flags p Ho) as H.
  destruct Ho as (_ & _ & (l & Hl & _) & _ & Hf).
  pose proof (fds_len _ _ (Hf l Hl)) as Hlen.
  destruct (wpdk_allocate_socket s domain flags p) as [r q].
  destruct H as [_ [(l' & Hl' & Hlt & -> & Hq)|[-> Hq]]].
  - right. rewrite Hl in Hl'. injection Hl' as <-.
    destruct (first_free_spec l Hlen Hlt) as [Hfree Hused].
    destruct (slot_of_nat _ Hlt) as [Hi Hs]. split; [done|].
    rewrite (handle_of_eq q _ _ Hq), (handle_of_eq p _ _ Hl), Hi, Hs.
    rewrite fd_at_insert, decide_True by (lia || done). split_and!; [done|done|..].
    + intros fd Hfd Hlt'. rewrite (handle_of_eq p _ _ Hl), Hfd. apply Hused.
      apply slot_lt in Hfd as Hfd'. unfold slot in *. unfold wpdk_is_socket in Hfd.
      bool_prop. lia.
    + intros fd Hne. rewrite (handle_of_eq q _ _ Hq), (handle_of_eq p _ _ Hl).
      destruct (wpdk_is_socket fd) eqn:E; [|done].
      rewrite fd_at_insert, decide_False; [done| |lia].
      intros E'. destruct Hne. apply slot_inj; [done|done|by rewrite Hs].
  - left. split; [done|]. intros fd. by rewrite (handle_of_eq q _ l), (handle_of_eq p _ l) by congruence.
Qed.

(** Closing a descriptor that names a handle clears its slot, whatever
    [closesocket] answers. *)
Lemma close_socket_fds (p : proc W) fd l :
  pr_fds p = Some l -> handle_of p fd <> INVALID_SOCKET ->
  wpdk_is_socket fd = true /\
  exists f, pr_fds (snd (wpdk_close_socket fd p)) = Some (<[slot fd := f]> l) /\
    sd_socket f = INVALID_SOCKET.
Proof.
  intros Hl Hne. pose proof (get_socket_run fd p) as Hg. unfold handle_of in Hne.
  destruct (wpdk_get_socket fd p) as [s p'] eqn:Eg. cbn [fst] in Hne.
  destruct Hg as [[-> _]|(Hs & -> & Hi & l' & Hl' & E)]; [done|]. split; [done|].
  rewrite Hl in Hl'. injection Hl' as <-.
  unfold wpdk_close_socket. rewrite bind_run, Eg. cbn [fst snd].
  rewrite (proj2 (Z.eqb_neq _ _) Hs), bind_run. cbn [get_fds gets fst snd]. rewrite Hl.
  change (default [] (Some l)) with l. rewrite E, Z.eqb_refl.
  rewrite !bind_run, lift_run. cbn [put_fd modify fst snd].
  destruct (_ =? SOCKET_ERROR); simpl; rewrite Hl; by eexists.
Qed.

(** A slot that is overwritten changes the handle of its descriptor only. *)
Lemma handle_of_other (p q : proc W) (fd fd' : Z) l f :
  length l = maxsockets -> pr_fds p = Some l -> pr_fds q = Some (<[slot fd := f]> l) ->
  wpdk_is_socket fd = true -> fd' <> fd -> handle_of q fd' = handle_of p fd'.
Proof.
  intros Hlen Hl Hq Hi Hne. pose proof (slot_lt fd Hi).
  rewrite (handle_of_eq q _ _ Hq), (handle_of_eq p _ _ Hl).
  destruct (wpdk_is_socket fd') eqn:E'; [|done].
  rewrite fd_at_insert, decide_False; [done| |lia]. intros ?. destruct Hne. by apply slot_inj.
Qed.

(** Closing a descriptor that names a handle frees exactly that
    descriptor, before the handle is closed: it then names nothing (a second
    close fails with EBADF) and every other descriptor is unaffected. *)
Theorem close_socket_frees (p : proc W) (fd : Z) :
  sock_inv p -> handle_of p fd <> INVALID_SOCKET ->
  let q := snd (wpdk_close_socket fd p) in
  handle_of q fd = INVALID_SOCKET /\
  (forall fd', fd' <> fd -> handle_of q fd' = handle_of p fd') /\
  fst (wpdk_close_socket fd q) = -1 /\ errno (snd (wpdk_close_socket fd q)) = EBADF.
Proof.
  intros [Hr Hf] Hne.
  destruct (pr_fds p) as [l|] eqn:Hl; [|by unfold handle_of, wpdk_get_socket, bind, gets in Hne; rewrite Hl in Hne].
  pose proof (fds_len _ _ (Hf l eq_refl)) as Hlen.
  destruct (close_socket_fds p fd l Hl Hne) as (Hi & f & Hq & Hinv). pose proof (slot_lt fd Hi).
  cbv zeta. set (q := snd (wpdk_close_socket fd p)) in *.
  assert (handle_of q fd = INVALID_SOCKET) as Hz.
  { by rewrite (handle_of_eq q _ _ Hq), Hi, fd_at_insert, decide_True by (lia || done). }
  split_and!; [done|by intros fd' Hfd; apply (handle_of_other p q fd fd' l f)| |];
    unfold wpdk_close_socket; rewrite bind_run; fold (handle_of q fd); by rewrite Hz.
Qed.
End Inv.

(** ** A Winsock to run the model on: the open handles and their modes.  It
    gives out increasing handles. *)
Module SimpleWinsock.
Definition w : Type := gmap Z bool.

Definition ok {A} (a : A) : C w A := ret a.

Definition open_new : C w Z := fun h =>
  let s := fresh (dom h) in
  if s <? INVALID_SOCKET then (s, <[s := false]> h) else (INVALID_SOCKET, h).

Definition set_mode (s mode : Z) : C w Z := fun h : gmap Z bool =>
  match h !! s with
  | Some _ => (0, <[s := negb (mode =? 0)]> h)
  | None => (SOCKET_ERROR, h)
  end.

#[export] Instance simple : Winsock w := {|
  w_WSAGetLastError _ := 10035; w_WSASetLastError _ h := h;
  WSAStartup := ok 0; WSACleanup := ok 0;
  w_socket _ _ _ := open_new; closesocket s := fun h => (0, delete s h);
  ioctlsocket_FIONBIO := set_mode;
  w_accept _ _ _ := open_new;
  w_bind _ _ _ := ok 0; w_connect _ _ _ := ok 0;
  w_getpeername _ _ _ := ok 0; w_getsockname _ _ _ := ok 0;
  w_getsockopt _ _ _ _ _ := ok 0; w_setsockopt _ _ _ _ _ := ok 0;
  w_listen _ _ := ok 0; w_shutdown _ _ := ok 0;
  w_recv _ _ n _ := ok n; w_recvfrom _ _ n _ _ _ := ok n;
  w_send _ _ n _ := ok n; w_sendto _ _ n _ _ _ := ok n;
  WSARecv _ _ _ f := ok (0, 1, f); WSASend _ _ _ _ := ok (0, 1);
  w_select _ r x := ok (Z.of_nat (length (r ++ x)), r, x);
  w_calloc _ _ := ok (Some 8); w_free _ := ok tt;
  w_env _ := env_tmp
|}.

Lemma open_new_law h : let '(s, h') := open_new h in
  (s = INVALID_SOCKET /\ h' = h) \/
  (s <> INVALID_SOCKET /\ h !! s = None /\ exists b, h' = <[s := b]> h).
Proof.
  unfold open_new. set (s := fresh _).
  destruct (Z.ltb_spec s INVALID_SOCKET); [right|by left]. split_and!; [lia| |by exists false].
  apply not_elem_of_dom, is_fresh.
Qed.

#[export] Instance simple_laws : WinsockLaws w.
Proof.
  refine {| w_handles := fun h => h |}; try done.
  - intros. apply open_new_law.
  - intros. apply open_new_law.
  - intros s mode h Hs. cbn [ioctlsocket_FIONBIO simple]. unfold set_mode.
    destruct (h !! s); [reflexivity|congruence].
Defined.
End SimpleWinsock.

Section Witnesses.
Import SimpleWinsock.

(** Two sockets, one of them non-blocking: descriptors 0x10000 and 0x10001. *)
Definition two_sockets : proc w :=
  run_calls [CSocket 2 1 0; CSocket 2 (1 + SOCK_NONBLOCK) 0] (proc0 ∅).

Lemma two_sockets_inv : sock_inv two_sockets.
Proof.
  apply (run_calls_inv [CSocket 2 1 0; CSocket 2 (1 + SOCK_NONBLOCK) 0]).
  split; [done|intros l [=]].
Qed.

Lemma socket_calls_inv_witness :
  sock_inv (run_calls [CSocket 2 1 0; CFcntl 0x10000 4 4; CClose 0x10000] (proc0 (∅ : w))) /\
  fst (run_call (CFcntl 0x10001 3 0) two_sockets) = O_NONBLOCK.
Proof. split; [apply socket_calls_inv|vm_compute; reflexivity]. Defined.

Lemma close_socket_frees_witness :
  handle_of (snd (wpdk_close_socket 0x10000 two_sockets)) 0x10000 = INVALID_SOCKET /\
  handle_of (snd (wpdk_close_socket 0x10000 two_sockets)) 0x10001 = handle_of two_sockets 0x10001.
Proof.
  destruct (close_socket_frees two_sockets 0x10000 two_sockets_inv
    ltac:(vm_compute; discriminate)) as (H1 & H2 & _).
  split; [exact H1|apply H2; discriminate].
Defined.

(** A started layer with a handle, 5, that has no descriptor yet. *)
Definition one_handle : proc w :=
  Proc 0 1 (Some (replicate maxsockets free_fd)) 8 None path_state0 {[5 := false]}.

Lemma allocate_socket_lowest_witness :
  owned 5 one_handle /\
  fst (wpdk_allocate_socket 5 2 O_NONBLOCK one_handle) = 0x10000 /\
  handle_of (snd (wpdk_allocate_socket 5 2 O_NONBLOCK one_handle)) 0x10000 = 5.
Proof.
  assert (owned 5 one_handle) as Ho.
  { split; [discriminate|]. split; [vm_compute; discriminate|]. split.
    - eexists. split; [reflexivity|]. intros i f [-> _]%lookup_replicate_1 H. by destruct H.
    - split; [done|]. intros l [= <-]. apply fds_ok_empty. }
  split; [exact Ho|].
  pose proof (allocate_socket_lowest one_handle 5 2 O_NONBLOCK Ho) as H.
  assert (fst (wpdk_allocate_socket 5 2 O_NONBLOCK one_handle) = 0x10000) as E
    by (vm_compute; reflexivity).
  destruct (wpdk_allocate_socket 5 2 O_NONBLOCK one_handle) as [r q]. simpl in E. subst r.
  split; [reflexivity|]. by destruct H as [[? _]|(_ & H & _)].
Defined.
End Witnesses.
End Sockets.
