(* ===== verification/SocketRace.v ===== *)
(** * SocketRace: threads racing on the socket table (src/src/socket.c)

    The table is shared without a lock: [wpdk_allocate_socket] claims a slot by
    reading it and then exchanging INVALID_SOCKET for the handle, and
    [wpdk_close_socket] reads the handle and then exchanges it for
    INVALID_SOCKET.  Here every memory access and every Winsock call is a step
    of some thread, and the steps of the threads interleave freely. *)

From S2P Require Import Prelude Errno CString PathMap Proc Sockets.

Module Export SocketRace.

(** Where a thread is in [wpdk_allocate_socket] or [wpdk_close_socket]; [a] is the domain and
    the flags of the new descriptor. *)
Inductive pc :=
  | Idle                                  (** in neither function *)
  | Setting (s : Z) (a : Z * Z)           (** about to call [ioctlsocket(s, FIONBIO, &nb)] *)
  | Scanning (s : Z) (a : Z * Z) (i : nat)  (** about to read slot [i] for handle [s] *)
  | Swapping (s : Z) (a : Z * Z) (i : nat)  (** read slot [i] as free; about to exchange *)
  | StoreDomain (i : nat) (a : Z * Z)     (** claimed slot [i]; about to store the domain *)
  | StoreFlags (i : nat) (a : Z * Z)      (** about to store the flags *)
  | Closing (s : Z) (i : nat)             (** read [s] from slot [i]; about to exchange *)
  | Dropping (s : Z).                     (** about to call [closesocket(s)] *)

(** The slots, the handles open in Winsock, the handles that [closesocket] refused to close, and
    the threads. *)
Record shared := Shared {
  slots : nat -> Z; domains : nat -> Z; flags_of : nat -> Z;
  opened : gset Z; refused : gset Z; threads : nat -> pc
}.

Definition upd {A} (f : nat -> A) (i : nat) (x : A) : nat -> A :=
  fun j => if decide (i = j) then x else f j.

Lemma upd_eq {A} (f : nat -> A) i x : upd f i x i = x.
Proof. unfold upd. by rewrite decide_True. Qed.
Lemma upd_ne {A} (f : nat -> A) i j x : i <> j -> upd f i x j = f j.
Proof. unfold upd. intros. by rewrite decide_False. Qed.

(** One step of thread [t]. *)
Inductive step (t : nat) : shared -> shared -> Prop :=
  | step_create sl dm fl op rf th s a :   (* socket() or accept() returns a new handle *)
      th t = Idle -> s <> INVALID_SOCKET -> s ∉ op ->
      step t (Shared sl dm fl op rf th) (Shared sl dm fl ({[s]} ∪ op) rf (upd th t (Setting s a)))
  | step_set sl dm fl op rf th s a :      (* ioctlsocket succeeds *)
      th t = Setting s a ->
      step t (Shared sl dm fl op rf th) (Shared sl dm fl op rf (upd th t (Scanning s a 0)))
  | step_unset sl dm fl op rf th s a :    (* ioctlsocket fails: close the handle, -1 *)
      th t = Setting s a ->
      step t (Shared sl dm fl op rf th) (Shared sl dm fl op rf (upd th t (Dropping s)))
  | step_busy sl dm fl op rf th s a i :   (* the slot is in use *)
      th t = Scanning s a i -> (i < maxsockets)%nat -> sl i <> INVALID_SOCKET ->
      step t (Shared sl dm fl op rf th) (Shared sl dm fl op rf (upd th t (Scanning s a (S i))))
  | step_free sl dm fl op rf th s a i :   (* the slot is free: try to claim it *)
      th t = Scanning s a i -> (i < maxsockets)%nat -> sl i = INVALID_SOCKET ->
      step t (Shared sl dm fl op rf th) (Shared sl dm fl op rf (upd th t (Swapping s a i)))
  | step_claim sl dm fl op rf th s a i :  (* the exchange succeeds *)
      th t = Swapping s a i -> sl i = INVALID_SOCKET ->
      step t (Shared sl dm fl op rf th) (Shared (upd sl i s) dm fl op rf (upd th t (StoreDomain i a)))
  | step_lost sl dm fl op rf th s a i :   (* the exchange fails: go on with the next slot *)
      th t = Swapping s a i -> sl i <> INVALID_SOCKET ->
      step t (Shared sl dm fl op rf th) (Shared sl dm fl op rf (upd th t (Scanning s a (S i))))
  | step_domain sl dm fl op rf th i a :   (* .domain = domain *)
      th t = StoreDomain i a ->
      step t (Shared sl dm fl op rf th) (Shared sl (upd dm i (fst a)) fl op rf (upd th t (StoreFlags i a)))
  | step_flags sl dm fl op rf th i a :    (* .flags = flags; return socketbase + i *)
      th t = StoreFlags i a ->
      step t (Shared sl dm fl op rf th) (Shared sl dm (upd fl i (snd a)) op rf (upd th t Idle))
  | step_full sl dm fl op rf th s a :     (* no slot left: close the handle, EMFILE *)
      th t = Scanning s a maxsockets ->
      step t (Shared sl dm fl op rf th) (Shared sl dm fl op rf (upd th t (Dropping s)))
  | step_close sl dm fl op rf th s i :    (* wpdk_close_socket reads the handle *)
      th t = Idle -> (i < maxsockets)%nat -> sl i = s -> s <> INVALID_SOCKET ->
      step t (Shared sl dm fl op rf th) (Shared sl dm fl op rf (upd th t (Closing s i)))
  | step_release sl dm fl op rf th s i :  (* the exchange succeeds *)
      th t = Closing s i -> sl i = s ->
      step t (Shared sl dm fl op rf th) (Shared (upd sl i INVALID_SOCKET) dm fl op rf (upd th t (Dropping s)))
  | step_stale sl dm fl op rf th s i :    (* the exchange fails: EBADF *)
      th t = Closing s i -> sl i <> s ->
      step t (Shared sl dm fl op rf th) (Shared sl dm fl op rf (upd th t Idle))
  | step_drop sl dm fl op rf th s :       (* closesocket(s) succeeds *)
      th t = Dropping s ->
      step t (Shared sl dm fl op rf th) (Shared sl dm fl (op ∖ {[s]}) rf (upd th t Idle))
  | step_refuse sl dm fl op rf th s :     (* closesocket(s) fails: the handle stays open *)
      th t = Dropping s ->
      step t (Shared sl dm fl op rf th) (Shared sl dm fl op ({[s]} ∪ rf) (upd th t Idle)).

Definition init : shared :=
  Shared (fun _ => INVALID_SOCKET) (fun _ => 0%Z) (fun _ => 0%Z) ∅ ∅ (fun _ => Idle).

Inductive reachable : shared -> Prop :=
  | reach_init : reachable init
  | reach_step t a b : reachable a -> step t a b -> reachable b.

(** Who holds a handle: a slot of the table, a thread that must place or close it, or nobody
    since [closesocket] refused it. *)
Inductive place := Slot (i : nat) | Thread (t : nat) | Lost (s : Z).

#[export] Instance place_eq_dec : EqDecision place.
Proof. solve_decision. Defined.

Definition pc_holds (c : pc) : option Z :=
  match c with
  | Setting s _ | Scanning s _ _ | Swapping s _ _ | Dropping s => Some s
  | Idle | StoreDomain _ _ | StoreFlags _ _ | Closing _ _ => None
  end.

Definition held (st : shared) (pl : place) : option Z :=
  match pl with
  | Slot i => if decide (slots st i = INVALID_SOCKET) then None else Some (slots st i)
  | Thread t => pc_holds (threads st t)
  | Lost s => if decide (s ∈ refused st) then Some s else None
  end.

(** Every open handle has exactly one holder, and only open handles are held. *)
Record race_inv (st : shared) : Prop := {
  held_open : forall pl s, held st pl = Some s -> s ∈ opened st /\ s <> INVALID_SOCKET;
  open_held : forall s, s ∈ opened st -> exists pl, held st pl = Some s;
  held_once : forall pl pl' s, held st pl = Some s -> held st pl' = Some s -> pl = pl'
}.

(** A step moves at most one handle from place [a] to place [b]; every other
    place holds what it held. *)
Lemma move_inv st st' (a b : place) (s : Z) :
  race_inv st -> opened st' = opened st -> held st a = Some s -> held st' b = Some s ->
  (a <> b -> held st' a = None /\ held st b = None) ->
  (forall pl, pl <> a -> pl <> b -> held st' pl = held st pl) -> race_inv st'.
Proof.
  intros [Ho Hh H1] Eo Ha Hb Hab Hrest.
  assert (forall pl x, held st' pl = Some x ->
    exists pl', held st pl' = Some x /\ (pl' = pl /\ pl <> b /\ pl <> a \/ pl' = a /\ pl = b)) as Hback.
  { intros pl x Hx. destruct (decide (pl = b)) as [->|Hb'].
    - exists a. rewrite Hb in Hx. injection Hx as <-. auto.
    - destruct (decide (pl = a)) as [->|Ha'].
      + destruct (Hab Hb') as [Hn _]. congruence.
      + exists pl. rewrite <- Hrest by done. auto. }
  split.
  - intros pl x (pl' & Hx & _)%Hback. rewrite Eo. eauto.
  - intros x Hx. rewrite Eo in Hx. destruct (Hh x Hx) as [pl Hpl].
    destruct (decide (pl = a)) as [->|Ha']; [exists b; congruence|].
    exists pl. destruct (decide (pl = b)) as [->|Hb'].
    + destruct (Hab ltac:(congruence)). congruence.
    + by rewrite Hrest.
  - intros pl pl' x (q & Hq & Hqc)%Hback (q' & Hq' & Hqc')%Hback.
    assert (q = q') as -> by eauto.
    destruct Hqc as [(? & ? & ?)|[? ?]], Hqc' as [(? & ? & ?)|[? ?]]; congruence.
Qed.

(** A handle is created in the hands of a thread that held none. *)
Lemma create_inv st st' (b : place) (s : Z) :
  race_inv st -> s ∉ opened st -> s <> INVALID_SOCKET ->
  opened st' = {[s]} ∪ opened st -> held st b = None -> held st' b = Some s ->
  (forall pl, pl <> b -> held st' pl = held st pl) -> race_inv st'.
Proof.
  intros [Ho Hh H1] Hn Hs Eo Hb Hb' Hrest. split.
  - intros pl x Hx. rewrite Eo. destruct (decide (pl = b)) as [->|].
    + rewrite Hb' in Hx. injection Hx as <-. set_solver.
    + rewrite Hrest in Hx by done. apply Ho in Hx. set_solver.
  - intros x Hx. rewrite Eo in Hx. apply elem_of_union in Hx as [->%elem_of_singleton|Hx]; [eauto|].
    destruct (Hh x Hx) as [pl Hpl]. exists pl. rewrite Hrest; [done|]. congruence.
  - intros pl pl' x. destruct (decide (pl = b)) as [->|], (decide (pl' = b)) as [->|];
      rewrite ?Hb', ?(Hrest pl), ?(Hrest pl') by done; try done.
    + intros [= <-] Hx. apply Ho in Hx. set_solver.
    + intros Hx [= <-]. apply Ho in Hx. set_solver.
    + apply H1.
Qed.

(** A handle is closed by the thread that holds it. *)
Lemma drop_inv st st' (a : place) (s : Z) :
  race_inv st -> opened st' = opened st ∖ {[s]} -> held st a = Some s -> held st' a = None ->
  (forall pl, pl <> a -> held st' pl = held st pl) -> race_inv st'.
Proof.
  intros [Ho Hh H1] Eo Ha Ha' Hrest.
  assert (forall pl x, held st' pl = Some x -> held st pl = Some x /\ pl <> a) as Hback.
  { intros pl x Hx. destruct (decide (pl = a)) as [->|Hne]; [congruence|].
    by rewrite Hrest in Hx. }
  split.
  - intros pl x [Hx Hne]%Hback. destruct (Ho _ _ Hx) as [? ?]. split; [|done].
    rewrite Eo. apply elem_of_difference. split; [done|]. rewrite elem_of_singleton.
    intros ->. eauto.
  - intros x Hx. rewrite Eo in Hx. apply elem_of_difference in Hx as [Hx Hne].
    rewrite elem_of_singleton in Hne. destruct (Hh x Hx) as [pl Hpl]. exists pl.
    rewrite Hrest; [done|]. congruence.
  - intros pl pl' x [? _]%Hback [? _]%Hback. eauto.
Qed.

(** What a step of thread [t] leaves alone. *)
Lemma held_upd_thread sl dm fl op rf th sl' dm' fl' op' rf' t c pl :
  pl <> Thread t -> (forall i, pl = Slot i -> sl' i = sl i) ->
  (forall s, pl = Lost s -> s ∈ rf' <-> s ∈ rf) ->
  held (Shared sl' dm' fl' op' rf' (upd th t c)) pl = held (Shared sl dm fl op rf th) pl.
Proof.
  intros Hne Hsl Hrf. destruct pl as [i|t'|s]; simpl.
  - by rewrite (Hsl i eq_refl).
  - rewrite upd_ne; [done|]. congruence.
  - specialize (Hrf s eq_refl). repeat case_decide; tauto.
Qed.

Lemma held_slot st i s : slots st i = s -> s <> INVALID_SOCKET -> held st (Slot i) = Some s.
Proof. intros <- Hs. simpl. by rewrite decide_False. Qed.
Lemma held_free st i : slots st i = INVALID_SOCKET -> held st (Slot i) = None.
Proof. intros Hi. simpl. by rewrite decide_True. Qed.
Lemma held_refused st s : s ∈ refused st -> held st (Lost s) = Some s.
Proof. intros Hs. simpl. by rewrite decide_True. Qed.

(** A step that changes neither the handles nor what its thread holds. *)
Lemma stay_inv sl dm fl dm' fl' op rf th t c :
  race_inv (Shared sl dm fl op rf th) -> pc_holds c = pc_holds (th t) ->
  race_inv (Shared sl dm' fl' op rf (upd th t c)).
Proof.
  intros [Ho Hh H1] Hc.
  assert (forall pl, held (Shared sl dm' fl' op rf (upd th t c)) pl = held (Shared sl dm fl op rf th) pl) as E.
  { intros pl. destruct (decide (pl = Thread t)) as [->|]; [simpl; by rewrite upd_eq|].
    by apply held_upd_thread. }
  split; [intros pl x|intros x Hx|intros pl pl' x]; rewrite ?E; eauto.
  destruct (Hh x Hx) as [pl ?]. exists pl. by rewrite E.
Qed.

Lemma race_inv_init : race_inv init.
Proof.
  assert (forall pl, held init pl = None) as E by (intros [i|t|s]; [done..|by apply decide_False]).
  split.
  - intros pl s. by rewrite E.
  - set_solver.
  - intros pl pl' s. by rewrite E.
Qed.

(** A thread in [wpdk_close_socket] read a valid handle. *)
Definition closing_valid (st : shared) : Prop :=
  forall t s i, threads st t = Closing s i -> s <> INVALID_SOCKET.

Lemma closing_valid_step t a b : closing_valid a -> step t a b -> closing_valid b.
Proof.
  intros Hc Hs t' s' i'. destruct Hs; simpl; unfold upd;
    destruct (decide (t = t')) as [<-|]; try done; try (apply Hc).
  by intros [= <- <-].
Qed.

(** A refused handle was held by its thread, so nobody had it before. *)
Lemma not_refused st t s : race_inv st -> pc_holds (threads st t) = Some s -> held st (Lost s) = None.
Proof.
  intros I Hs. destruct (held st (Lost s)) as [x|] eqn:E; [|done]. exfalso.
  assert (x = s) as -> by (simpl in E; case_decide; congruence).
  by discriminate (held_once _ I (Thread t) (Lost s) s Hs E).
Qed.

Ltac elsewhere := intros pl; intros; apply held_upd_thread; [done|intros j ->; try done; apply upd_ne; congruence|intros z ->; set_solver].

Lemma race_inv_step t a b : closing_valid a -> race_inv a -> step t a b -> race_inv b.
Proof.
  intros Hcl Ha Hs. destruct Hs as
    [sl dm fl op rf th s a Ht Hs Hn|? ? ? ? ? ? ? ? Ht|? ? ? ? ? ? ? ? Ht|? ? ? ? ? ? ? ? ? Ht|? ? ? ? ? ? ? ? ? Ht
    |sl dm fl op rf th s a i Ht Hsl|? ? ? ? ? ? ? ? ? Ht|? ? ? ? ? ? ? ? Ht|? ? ? ? ? ? ? ? Ht|? ? ? ? ? ? ? ? Ht
    |? ? ? ? ? ? ? ? Ht|sl dm fl op rf th s i Ht Hsl|? ? ? ? ? ? ? ? Ht|sl dm fl op rf th s Ht|sl dm fl op rf th s Ht];
    try (eapply stay_inv; [done|by rewrite Ht]).
  - apply (create_inv (Shared sl dm fl op rf th) _ (Thread t) s); try done; simpl; rewrite ?Ht, ?upd_eq; try done. elsewhere.
  - assert (s <> INVALID_SOCKET) as Hs'.
    { apply (held_open _ Ha (Thread t) s). simpl. by rewrite Ht. }
    apply (move_inv (Shared sl dm fl op rf th) _ (Thread t) (Slot i) s); try done.
    + simpl. by rewrite Ht.
    + apply held_slot; [apply upd_eq|done].
    + intros _. split; [simpl; by rewrite upd_eq|by apply held_free].
    + elsewhere.
  - assert (s <> INVALID_SOCKET) as Hs' by (by apply (Hcl t s i)).
    apply (move_inv (Shared sl dm fl op rf th) _ (Slot i) (Thread t) s); try done.
    + by apply held_slot.
    + simpl. by rewrite upd_eq.
    + intros _. split; [apply held_free, upd_eq|simpl; by rewrite Ht].
    + elsewhere.
  - apply (drop_inv (Shared sl dm fl op rf th) _ (Thread t) s); try done; simpl; rewrite ?Ht, ?upd_eq; try done. elsewhere.
  - assert (pc_holds (th t) = Some s) as Hh by (by rewrite Ht).
    apply (move_inv (Shared sl dm fl op rf th) _ (Thread t) (Lost s) s); try done.
    + apply held_refused. simpl. set_solver.
    + intros _. split; [simpl; by rewrite upd_eq|by apply (not_refused _ t)].
    + intros pl Hp1 Hp2. apply held_upd_thread; [done..|]. intros z ->. set_solver.
Qed.

Lemma reachable_inv st : reachable st -> race_inv st /\ closing_valid st.
Proof.
  induction 1 as [|t a b _ [IH1 IH2] Hs].
  - split; [apply race_inv_init|done].
  - eauto using race_inv_step, closing_valid_step.
Qed.

(** C1: however threads interleave in the lock-free allocation and close of
    descriptors, also when ioctlsocket or closesocket fails, no two descriptors share a handle,
    every descriptor's handle is open, [closesocket] is only ever called on an open handle, by
    one thread, and when no descriptor names it any more; and every open handle is in the
    table or in the hands of a thread that will place or close it, except those that
    [closesocket] refused to close.  These stay open and nobody can reach them again: their slot
    was cleared before the call. *)
Theorem socket_race_safe (st : shared) :
  reachable st ->
  (forall i j, slots st i = slots st j -> slots st i <> INVALID_SOCKET -> i = j) /\
  (forall i, slots st i <> INVALID_SOCKET -> slots st i ∈ opened st) /\
  (forall t s, threads st t = Dropping s ->
     s ∈ opened st /\ (forall i, slots st i <> s) /\
     (forall t', threads st t' = Dropping s -> t' = t)) /\
  (forall s, s ∈ opened st ->
     (exists i, slots st i = s) \/ (exists t, pc_holds (threads st t) = Some s) \/ s ∈ refused st) /\
  (forall s, s ∈ refused st ->
     s ∈ opened st /\ (forall i, slots st i <> s) /\ (forall t, pc_holds (threads st t) <> Some s)).
Proof.
  intros [[Ho Hh H1] _]%reachable_inv.
  assert (forall i, slots st i <> INVALID_SOCKET -> held st (Slot i) = Some (slots st i)) as Hsl
    by (intros i Hi; by apply held_slot).
  assert (forall i s, s <> INVALID_SOCKET -> slots st i = s -> held st (Slot i) = Some s) as Hsl'
    by (intros i s ? <-; by apply Hsl).
  assert (forall t s, threads st t = Dropping s -> held st (Thread t) = Some s) as Hdr
    by (intros t s E; simpl; by rewrite E).
  split_and!.
  - intros i j E Hi. assert (Slot i = Slot j) as H; [|by injection H].
    apply (H1 _ _ (slots st i)); [by apply Hsl|]. rewrite E. apply Hsl. by rewrite <- E.
  - intros i Hi. by apply (Ho (Slot i)), Hsl.
  - intros t s Ht. pose proof (Ho _ _ (Hdr t s Ht)) as [Hopen Hne]. split_and!; [done| |].
    + intros i Hi. by discriminate (H1 (Slot i) (Thread t) s (Hsl' i s Hne Hi) (Hdr t s Ht)).
    + intros t' Ht'. assert (Thread t' = Thread t) as H; [|by injection H].
      apply (H1 _ _ s); by apply Hdr.
  - intros s [[i|t|x] H]%Hh; [|by right; left; exists t|].
    + left. exists i. simpl in H. destruct (decide _); [done|]. by injection H.
    + right; right. simpl in H. case_decide; [by simplify_eq|done].
  - intros s Hs%held_refused. pose proof (Ho _ _ Hs) as [Hopen Hne]. split_and!; [done| |].
    + intros i Hi. by discriminate (H1 (Slot i) (Lost s) s (Hsl' i s Hne Hi) Hs).
    + intros t Ht. by discriminate (H1 (Thread t) (Lost s) s Ht Hs).
Qed.

Ltac go t c := match goal with H : reachable _ |- _ => eapply (reach_step t) in H; [|apply c; done || (unfold maxsockets; lia) || set_solver] end.

(** Thread 1 opens handle 7, thread 2 opens handle 9; both read slot 0 as free, thread 2 claims it and
    thread 1 loses the exchange; then thread 2 closes its descriptor and closesocket fails. *)
Lemma socket_race_safe_witness :
  exists st, reachable st /\ slots st 0 = INVALID_SOCKET /\ threads st 1 = Scanning 7 (2, 0)%Z 1 /\ 9%Z ∈ refused st /\
    9%Z ∈ opened st /\ forall i, slots st i <> 9%Z.
Proof.
  assert (reachable init) as H0 by constructor.
  go 1 (step_create 1 (fun _ => INVALID_SOCKET) (fun _ => 0%Z) (fun _ => 0%Z) ∅ ∅ (fun _ => Idle) 7 (2, 0)%Z).
  go 1 step_set. go 1 step_free.
  eapply (reach_step 2) in H0; [|apply (step_create 2 _ _ _ _ _ _ 9 (2, 0)%Z); [done|done|set_solver]].
  go 2 step_set. go 2 step_free. go 2 step_claim. go 1 step_lost. go 2 step_domain. go 2 step_flags.
  eapply (reach_step 2) in H0; [|apply (step_close 2 _ _ _ _ _ _ 9 0); done || (unfold maxsockets; lia)].
  go 2 step_release. go 2 step_refuse.
  eexists. split; [exact H0|]. split; [reflexivity|]. split; [reflexivity|].
  assert (9%Z ∈ ({[9%Z]} ∪ ∅ : gset Z)) as H9 by set_solver. split; [exact H9|].
  destruct (proj2 (proj2 (proj2 (proj2 (socket_race_safe _ H0)))) 9%Z H9) as (H1 & H2 & _). by split.
Defined.
End SocketRace.
