(* ===== verification/Epolls.v ===== *)
(** * Epolls: the epoll emulation (src/src/epoll.c)

    The table of epoll instances and every function of epoll.c.  An instance
    keeps two parallel arrays of [FD_SETSIZE] slots; [wpdk_epoll_wait] builds
    the [fd_set]s of the registered sockets, calls [select] with a zero timeout
    and copies the events of the ready slots, starting at a rotating index.  A
    read outside the arrays is an explicit outcome, [WaitOutOfBounds]. *)

From S2P Require Import Prelude Errno CString PathMap Proc Sockets.

Module Export Epolls.
Local Open Scope Z_scope.

Definition maxepolls : nat := 512.
Definition epollbase : Z := 0x20000.
Definition EPOLL_CTL_ADD : Z := 1.
Definition EPOLL_CTL_DEL : Z := 2.
Definition EPOLLIN : Z := 1.
Definition EPOLLERR : Z := 4.

Definition no_event : epoll_event := EpollEvent 0 0.

(** [calloc] of a [struct epoll], its sockets then set to INVALID_SOCKET. *)
Definition new_epoll (addr : Z) : epoll :=
  Epoll addr 0 0 0 (replicate FD_SETSIZE INVALID_SOCKET) (replicate FD_SETSIZE no_event).

Definition wpdk_is_epoll (fd : Z) : bool :=
  (epollbase <=? fd) && (fd <? epollbase + Z.of_nat maxepolls).

Definition socket_at (ep : epoll) (i : nat) : Z := nth i (ep_socket ep) INVALID_SOCKET.
Definition event_at (ep : epoll) (i : nat) : epoll_event := nth i (ep_event ep) no_event.
Definition count (ep : epoll) : nat := Z.to_nat (ep_maxcount ep).

(** The index of a registered socket, [maxcount] when there is none. *)
Definition find_socket (ep : epoll) (s : Z) : nat :=
  scan (fun i => socket_at ep i =? s) (count ep).
(** The first free slot, [FD_SETSIZE] when there is none. *)
Definition find_free (ep : epoll) : nat :=
  scan (fun i => socket_at ep i =? INVALID_SOCKET) FD_SETSIZE.

(** The two cases of [wpdk_epoll_ctl] on the instance: the error, or the
    instance as it is afterwards. *)
Definition ctl_add (ep : epoll) (s : Z) (event : option epoll_event) : Z + epoll :=
  match event with
  | None => inl EINVAL
  | Some ev =>
      if (find_socket ep s <? count ep)%nat then inl EEXIST
      else
        let i := find_free ep in
        if (FD_SETSIZE <=? i)%nat then inl ENOSPC
        else
          let m := if ep_maxcount ep <=? Z.of_nat i then Z.of_nat i + 1 else ep_maxcount ep in
          inr (Epoll (ep_addr ep) (ep_flags ep) (ep_start ep) m
                 (<[i := s]> (ep_socket ep)) (<[i := ev]> (ep_event ep)))
  end.

Definition ctl_del (ep : epoll) (s : Z) : Z + epoll :=
  let i := find_socket ep s in
  if (count ep <=? i)%nat then inl ENOENT
  else
    let m := if Z.of_nat i =? ep_maxcount ep - 1 then ep_maxcount ep - 1 else ep_maxcount ep in
    inr (Epoll (ep_addr ep) (ep_flags ep) (ep_start ep) m
           (<[i := INVALID_SOCKET]> (ep_socket ep)) (ep_event ep)).

(** [FD_SET] of Winsock: append unless present, within [FD_SETSIZE]. *)
Definition FD_SET (s : Z) (set : list Z) : list Z :=
  if bool_decide (s ∈ set) then set
  else if (length set <? FD_SETSIZE)%nat then set ++ [s] else set.
Definition FD_ISSET (s : Z) (set : list Z) : bool := bool_decide (s ∈ set).

(** The loop that builds the sets of one event bit. *)
Fixpoint build_set (ep : epoll) (bit : Z) (i fuel : nat) (set : list Z) : list Z :=
  match fuel with
  | O => set
  | S fuel =>
      let set := if (socket_at ep i =? INVALID_SOCKET)
                    || (Z.land (events (event_at ep i)) bit =? 0)
                 then set else FD_SET (socket_at ep i) set in
      build_set ep bit (S i) fuel set
  end.

(** [worktodo]: some registered socket waits for EPOLLIN or EPOLLERR. *)
Definition worktodo (ep : epoll) : bool :=
  existsb (fun i => negb (socket_at ep i =? INVALID_SOCKET) &&
                    (negb (Z.land (events (event_at ep i)) EPOLLIN =? 0) ||
                     negb (Z.land (events (event_at ep i)) EPOLLERR =? 0)))
    (seq 0 (count ep)).

(** The event reported for slot [i], if it is registered and ready. *)
Definition ready_event (ep : epoll) (rds exs : list Z) (i : nat) : option epoll_event :=
  let s := socket_at ep i in
  if s =? INVALID_SOCKET then None
  else
    let rd := FD_ISSET s rds in
    let ex := FD_ISSET s exs in
    if rd || ex
    then Some (EpollEvent (Z.lor (if rd then EPOLLIN else 0) (if ex then EPOLLERR else 0))
                 (data (event_at ep i)))
    else None.

(** One collecting loop, [for (i = i0; i < limit && n < maxevents && n < rc; i++)]
    with [limit = i0 + fuel]; [None] is a read outside the array [socket]. *)
Fixpoint collect (ep : epoll) (rds exs : list Z) (maxevents rc : Z) (i fuel : nat)
    (out : list epoll_event) : option (list epoll_event) :=
  match fuel with
  | O => Some out
  | S fuel =>
      let n := Z.of_nat (length out) in
      if (n <? maxevents) && (n <? rc) then
        if (FD_SETSIZE <=? i)%nat then None
        else collect ep rds exs maxevents rc (S i) fuel
               (match ready_event ep rds exs i with Some e => out ++ [e] | None => out end)
      else Some out
  end.

(** Both loops: from [start] to [maxcount], then from 0 to [start]. *)
Definition collect_all (ep : epoll) (rds exs : list Z) (maxevents rc : Z)
    : option (list epoll_event) :=
  let start := Z.to_nat (ep_start ep) in
  if ep_start ep <? 0 then None else
  out ← collect ep rds exs maxevents rc start (count ep - start) [];
  collect ep rds exs maxevents rc 0 start out.

Definition set_start (z : Z) (ep : epoll) : epoll :=
  Epoll (ep_addr ep) (ep_flags ep) z (ep_maxcount ep) (ep_socket ep) (ep_event ep).
Definition set_ep_flags (z : Z) (ep : epoll) : epoll :=
  Epoll (ep_addr ep) z (ep_start ep) (ep_maxcount ep) (ep_socket ep) (ep_event ep).

(** The return value and the events written to the caller's array. *)
Inductive wait_result := WaitReturns (rc : Z) (out : list epoll_event) | WaitOutOfBounds.

Section Ops.
Context {W : Type} `{!Winsock W}.
Local Open Scope c_scope.
Local Abbreviation P := (C (proc W)).

Definition put_epoll (id : nat) (e : option epoll) : P unit :=
  modify (fun p => set_epolls ((fun l => <[id := e]> l) <$> pr_epolls p) p).

(** [None] is the -1 of the source. *)
Definition wpdk_get_epoll (fd : Z) : P (option (nat * epoll)) :=
  let* fds := gets pr_epolls in
  match fds with
  | Some fds =>
      if wpdk_is_epoll fd then
        let id := Z.to_nat (fd - epollbase) in
        ret (match fds !! id with Some (Some ep) => Some (id, ep) | _ => None end)
      else ret None
  | None => ret None
  end.

Definition first_null (fds : list (option epoll)) : nat :=
  scan (fun i => match fds !! i with Some (Some _) => false | _ => true end) maxepolls.

Definition wpdk_allocate_epoll : P Z :=
  let allocate :=
    let* ep := lift (w_calloc 1 1552) in
    match ep with
    | None => wpdk_posix_error ENOMEM
    | Some addr =>
        let* fds := gets (fun p => default [] (pr_epolls p)) in
        let i := first_null fds in
        if (i <? maxepolls)%nat
        then put_epoll i (Some (new_epoll addr)) ;; ret (epollbase + Z.of_nat i)
        else lift (w_free addr) ;; wpdk_posix_error EMFILE
    end in
  let* cur := gets pr_epolls in
  match cur with
  | Some _ => allocate
  | None =>
      let* fds := lift (w_calloc (Z.of_nat maxepolls) 8) in
      match fds with
      | None => wpdk_posix_error ENOMEM
      | Some _ => modify (set_epolls (Some (replicate maxepolls None))) ;; allocate
      end
  end.

Definition wpdk_epoll_create1 (flags : Z) : P Z :=
  let* id := wpdk_allocate_epoll in
  if id =? -1 then ret (-1)
  else
    let i := Z.to_nat (id - epollbase) in
    let* fds := gets (fun p => default [] (pr_epolls p)) in
    match fds !! i with
    | Some (Some ep) => put_epoll i (Some (set_ep_flags flags ep)) ;; ret id
    | _ => ret id
    end.

Definition wpdk_epoll_ctl (epfd op fd : Z) (event : option epoll_event) : P Z :=
  let* socket := wpdk_get_socket fd in
  let* id := wpdk_get_epoll epfd in
  match id with
  | None => wpdk_posix_error EBADF
  | Some (id, ep) =>
      if socket =? INVALID_SOCKET then wpdk_posix_error EBADF
      else
        let finish r :=
          match r with
          | inl err => wpdk_posix_error err
          | inr ep => put_epoll id (Some ep) ;; ret 0
          end in
        if op =? EPOLL_CTL_ADD then finish (ctl_add ep socket event)
        else if op =? EPOLL_CTL_DEL then finish (ctl_del ep socket)
        else wpdk_posix_error EINVAL
  end.

(** [has_events] is [events != NULL]. *)
Definition wpdk_epoll_wait (epfd : Z) (has_events : bool) (maxevents timeout : Z)
    : P wait_result :=
  let fail (m : P Z) := let* rc := m in ret (WaitReturns rc []) in
  let* id := wpdk_get_epoll epfd in
  match id with
  | None => fail (wpdk_posix_error EBADF)
  | Some (id, ep) =>
      if negb (timeout =? 0) || negb has_events || (maxevents <? 1)
      then fail (wpdk_posix_error EINVAL)
      else if negb (worktodo ep) then ret (WaitReturns 0 [])
      else
        let* '(rc, rds, exs) :=
          lift (w_select (ep_maxcount ep) (build_set ep EPOLLIN 0 (count ep) [])
                  (build_set ep EPOLLERR 0 (count ep) [])) in
        if rc =? SOCKET_ERROR then fail wpdk_last_wsa_error
        else
          match collect_all ep rds exs maxevents rc with
          | None => ret WaitOutOfBounds
          | Some out =>
              let n := Z.of_nat (length out) in
              (if n <? rc then put_epoll id (Some (set_start (s32 (ep_start ep + 1)) ep))
               else ret tt) ;;
              ret (WaitReturns n out)
          end
  end.

Definition wpdk_close_epoll (fd : Z) : P Z :=
  let* id := wpdk_get_epoll fd in
  match id with
  | None => wpdk_posix_error EBADF
  | Some (id, ep) => put_epoll id None ;; lift (w_free (ep_addr ep)) ;; ret 0
  end.
End Ops.

(** ** The instance invariant *)

(** The arrays have their sizes, the slots from [maxcount] on are free, and a
    socket is in one slot only. *)
Record ep_ok (ep : epoll) : Prop := {
  ep_len : length (ep_socket ep) = FD_SETSIZE;
  ep_elen : length (ep_event ep) = FD_SETSIZE;
  ep_count : 0 <= ep_maxcount ep <= Z.of_nat FD_SETSIZE;
  ep_free : forall i, (count ep <= i)%nat -> socket_at ep i = INVALID_SOCKET;
  ep_inj : forall i j, socket_at ep i = socket_at ep j -> socket_at ep i <> INVALID_SOCKET -> i = j
}.

Lemma nth_insert {A} (l : list A) (i j : nat) (x d : A) :
  (i < length l)%nat -> nth j (<[i := x]> l) d = if decide (i = j) then x else nth j l d.
Proof.
  intros Hi. rewrite !nth_lookup. destruct (decide (i = j)) as [<-|].
  - by rewrite list_lookup_insert_eq.
  - by rewrite list_lookup_insert_ne.
Qed.

Lemma nth_replicate' {A} n (x : A) i : nth i (replicate n x) x = x.
Proof. rewrite nth_lookup. destruct (_ !! i) eqn:E; [|done]. by apply lookup_replicate in E as [-> _]. Qed.

Lemma new_epoll_ok addr : ep_ok (new_epoll addr).
Proof.
  split; [apply length_replicate|apply length_replicate|simpl; lia| |].
  - intros i _. apply nth_replicate'.
  - intros i j _ H. destruct H. apply nth_replicate'.
Qed.

(** The instance as a finite map from sockets to events. *)
Definition lookup_ep (ep : epoll) (s : Z) : option epoll_event :=
  let i := find_socket ep s in
  if (i <? count ep)%nat then Some (event_at ep i) else None.

Lemma find_socket_eq ep s i :
  ep_ok ep -> s <> INVALID_SOCKET -> socket_at ep i = s -> find_socket ep s = i /\ (i < count ep)%nat.
Proof.
  intros Hok Hs Hi.
  assert (i < count ep)%nat as Hlt.
  { destruct (decide (i < count ep)%nat) as [|H]; [done|].
    rewrite (ep_free ep Hok i) in Hi by lia. congruence. }
  split; [|done].
  pose proof (scan_complete (fun i => socket_at ep i =? s) (count ep) i Hlt
    ltac:(by apply Z.eqb_eq)) as Hle.
  pose proof (scan_found (fun i => socket_at ep i =? s) (count ep)) as Hf.
  unfold find_socket. apply (ep_inj ep Hok).
  - rewrite Hi. apply Z.eqb_eq, Hf. lia.
  - rewrite (proj1 (Z.eqb_eq _ _) (Hf ltac:(lia))). done.
Qed.

Lemma lookup_ep_at ep i :
  ep_ok ep -> socket_at ep i <> INVALID_SOCKET -> lookup_ep ep (socket_at ep i) = Some (event_at ep i).
Proof.
  intros Hok Hi. destruct (find_socket_eq ep _ i Hok Hi eq_refl) as [E Hlt].
  unfold lookup_ep. rewrite E. by apply Nat.ltb_lt in Hlt as ->.
Qed.

Lemma lookup_ep_None ep s :
  ep_ok ep -> s <> INVALID_SOCKET ->
  lookup_ep ep s = None <-> forall i, socket_at ep i <> s.
Proof.
  intros Hok Hs. split.
  - intros Hn i <-. by rewrite lookup_ep_at in Hn.
  - intros Hn. unfold lookup_ep. destruct (Nat.ltb_spec (find_socket ep s) (count ep)) as [Hlt|]; [|done].
    destruct (Hn (find_socket ep s)). by apply scan_found, Z.eqb_eq in Hlt.
Qed.

(** Two instances related slot by slot have the same map. *)
Lemma lookup_ep_transport ep ep' s :
  ep_ok ep -> ep_ok ep' -> s <> INVALID_SOCKET ->
  (forall i, socket_at ep i = s <-> socket_at ep' i = s) ->
  (forall i, socket_at ep i = s -> event_at ep' i = event_at ep i) ->
  lookup_ep ep' s = lookup_ep ep s.
Proof.
  intros Hok Hok' Hs Hiff Hev. destruct (lookup_ep ep s) as [ev|] eqn:E.
  - unfold lookup_ep in E. set (i := find_socket ep s) in *.
    destruct (Nat.ltb_spec i (count ep)) as [Hlt|]; [|done]. injection E as <-.
    assert (socket_at ep i = s) as Hi by (by apply scan_found, Z.eqb_eq in Hlt).
    apply Hiff in Hi as Hi'. rewrite <- Hi' at 1. rewrite lookup_ep_at by (done || congruence).
    by rewrite Hev.
  - rewrite lookup_ep_None in E |- * by done. intros i Hi. apply Hiff in Hi. by destruct (E i).
Qed.

Lemma find_free_spec ep :
  (find_free ep < FD_SETSIZE)%nat -> socket_at ep (find_free ep) = INVALID_SOCKET.
Proof. intros H. by apply scan_found, Z.eqb_eq in H. Qed.

(** Storing a socket that is not registered in a free slot. *)
Lemma store_ok ep i s ev m :
  ep_ok ep -> (i < FD_SETSIZE)%nat -> socket_at ep i = INVALID_SOCKET ->
  (forall j, socket_at ep j <> s) ->
  ep_maxcount ep <= m <= Z.of_nat FD_SETSIZE -> Z.of_nat i < m ->
  ep_ok (Epoll (ep_addr ep) (ep_flags ep) (ep_start ep) m
           (<[i := s]> (ep_socket ep)) (<[i := ev]> (ep_event ep))).
Proof.
  intros Hok Hi Hfree Hnew Hm Him. pose proof (ep_len ep Hok) as Hl.
  split; cbn [ep_socket ep_event ep_maxcount]; rewrite ?length_insert; auto using ep_elen.
  - pose proof (ep_count ep Hok). lia.
  - unfold count, socket_at. cbn [ep_socket ep_maxcount]. intros j Hj.
    rewrite nth_insert, decide_False by lia. apply (ep_free ep Hok).
    pose proof (ep_count ep Hok). unfold count. lia.
  - unfold socket_at. cbn [ep_socket]. intros j k. rewrite !nth_insert by lia.
    destruct (decide (i = j)), (decide (i = k)); intros E Hne; try lia.
    + by destruct (Hnew k).
    + by destruct (Hnew j).
    + by apply (ep_inj ep Hok).
Qed.

(** EPOLL_CTL_ADD implements insertion into a map from sockets to events:
    it fails with EEXIST exactly on a registered socket, with ENOSPC only when
    all FD_SETSIZE slots are taken, and otherwise adds the one association and
    keeps the invariant of the instance. *)
Lemma ctl_add_spec (ep : epoll) (s : Z) (ev : epoll_event) :
  ep_ok ep -> s <> INVALID_SOCKET ->
  match ctl_add ep s (Some ev) with
  | inl e =>
      (e = EEXIST /\ lookup_ep ep s <> None) \/
      (e = ENOSPC /\ lookup_ep ep s = None /\
       forall i, (i < FD_SETSIZE)%nat -> socket_at ep i <> INVALID_SOCKET)
  | inr ep' =>
      lookup_ep ep s = None /\ ep_ok ep' /\ lookup_ep ep' s = Some ev /\
      forall s', s' <> s -> s' <> INVALID_SOCKET -> lookup_ep ep' s' = lookup_ep ep s'
  end.
Proof.
  intros Hok Hs. unfold ctl_add.
  destruct (find_socket ep s <? count ep)%nat eqn:Ef.
  { left. unfold lookup_ep. rewrite Ef. done. }
  assert (lookup_ep ep s = None) as Hnone by (unfold lookup_ep; by rewrite Ef).
  pose proof (proj1 (lookup_ep_None ep s Hok Hs) Hnone) as Hnew.
  destruct (FD_SETSIZE <=? find_free ep)%nat eqn:Efree; bool_prop.
  { right. split_and!; [done|done|]. intros i Hi E.
    pose proof (scan_complete (fun i => socket_at ep i =? INVALID_SOCKET) FD_SETSIZE i Hi
      ltac:(by apply Z.eqb_eq)). unfold find_free in Efree. lia. }
  pose proof (find_free_spec ep Efree) as Hfree. pose proof (ep_count ep Hok) as Hc.
  set (i := find_free ep) in *. set (m := if _ <=? _ then _ else _).
  set (ep' := Epoll _ _ _ _ _ _).
  assert (ep_ok ep') as Hok'.
  { apply store_ok; try done; unfold m; destruct (Z.leb_spec (ep_maxcount ep) (Z.of_nat i)); lia. }
  assert (forall j, socket_at ep' j = if decide (i = j) then s else socket_at ep j) as Hsock
    by (intros j; apply nth_insert; by rewrite (ep_len ep Hok)).
  assert (forall j, event_at ep' j = if decide (i = j) then ev else event_at ep j) as Hev
    by (intros j; apply nth_insert; by rewrite (ep_elen ep Hok)).
  split_and!; [done|done| |].
  - pose proof (Hsock i) as Hi. rewrite decide_True in Hi by done. rewrite <- Hi.
    rewrite lookup_ep_at, Hev, decide_True by (done || congruence). done.
  - intros s' Hne Hs'. apply lookup_ep_transport; try done.
    + intros j. rewrite Hsock. destruct (decide (i = j)) as [<-|]; [|done].
      split; congruence.
    + intros j Hj. rewrite Hev. destruct (decide (i = j)) as [<-|]; [congruence|done].
Qed.

(** EPOLL_CTL_DEL implements deletion from that map: ENOENT exactly on a
    socket that is not registered, otherwise the one association goes and the
    invariant is kept. *)
Lemma ctl_del_spec (ep : epoll) (s : Z) :
  ep_ok ep -> s <> INVALID_SOCKET ->
  match ctl_del ep s with
  | inl e => e = ENOENT /\ lookup_ep ep s = None
  | inr ep' =>
      lookup_ep ep s <> None /\ ep_ok ep' /\ lookup_ep ep' s = None /\
      forall s', s' <> s -> s' <> INVALID_SOCKET -> lookup_ep ep' s' = lookup_ep ep s'
  end.
Proof.
  intros Hok Hs. unfold ctl_del. destruct (count ep <=? find_socket ep s)%nat eqn:Ef; bool_prop.
  { split; [done|]. unfold lookup_ep. by apply Nat.ltb_ge in Ef as ->. }
  assert (socket_at ep (find_socket ep s) = s) as Hi by (by apply scan_found, Z.eqb_eq in Ef).
  pose proof (ep_count ep Hok) as Hc. pose proof (ep_len ep Hok) as Hl.
  set (i := find_socket ep s) in *. set (m := if _ =? _ then _ else _).
  set (ep' := Epoll _ _ _ _ _ _). unfold count in Ef.
  assert (forall j, socket_at ep' j = if decide (i = j) then INVALID_SOCKET else socket_at ep j)
    as Hsock by (intros j; apply nth_insert; lia).
  assert (ep_ok ep') as Hok'.
  { split; cbn [ep' ep_socket ep_event ep_maxcount]; rewrite ?length_insert; auto using ep_elen.
    - unfold m. destruct (Z.eqb_spec (Z.of_nat i) (ep_maxcount ep - 1)); lia.
    - intros j. unfold count. cbn [ep' ep_maxcount]. rewrite Hsock. unfold m.
      destruct (Z.eqb_spec (Z.of_nat i) (ep_maxcount ep - 1)), (decide (i = j)); [done| |done|];
        intros; apply (ep_free ep Hok); unfold count; lia.
    - intros j k. rewrite !Hsock. destruct (decide (i = j)), (decide (i = k)); try done.
      apply (ep_inj ep Hok). }
  split_and!; [|done| |].
  - rewrite <- Hi. rewrite lookup_ep_at by (done || congruence). done.
  - apply lookup_ep_None; [done|done|]. intros j. rewrite Hsock.
    destruct (decide (i = j)) as [|Hij]; [congruence|]. intros E. destruct Hij.
    apply (ep_inj ep Hok); congruence.
  - intros s' Hne Hs'. apply lookup_ep_transport; try done.
    intros j. rewrite Hsock. destruct (decide (i = j)) as [<-|]; [|done]. split; congruence.
Qed.

(** ** The calls *)

(** What a loop collects: the first events of the ready slots it visits. *)
Lemma collect_spec ep rds exs maxevents rc i fuel out :
  (i + fuel <= FD_SETSIZE)%nat -> (length out <= Z.to_nat (Z.min maxevents rc))%nat ->
  collect ep rds exs maxevents rc i fuel out =
  Some (out ++ take (Z.to_nat (Z.min maxevents rc) - length out)
                 (omap (ready_event ep rds exs) (seq i fuel))).
Proof.
  revert i out. induction fuel as [|fuel IH]; intros i out Hi Hout; cbn [collect].
  { cbn [seq omap list_omap]. by rewrite take_nil, app_nil_r. }
  destruct (_ && _) eqn:E; bool_prop.
  - destruct (FD_SETSIZE <=? i)%nat eqn:Ei; bool_prop; [lia|].
    cbn [seq]. rewrite IH; [|lia|].
    + cbn [omap list_omap]. destruct (ready_event ep rds exs i) as [e|]; [|done].
      rewrite <- app_assoc, length_app. cbn [length].
      replace (_ - length out)%nat with (S (Z.to_nat (Z.min maxevents rc) - (length out + 1))) by lia.
      done.
    + destruct (ready_event ep rds exs i); [rewrite length_app; cbn [length]|]; lia.
  - replace (_ - length out)%nat with 0%nat by lia. by rewrite take_0, app_nil_r.
Qed.

(** The order in which the slots are visited. *)
Definition visit (ep : epoll) : list nat :=
  let start := Z.to_nat (ep_start ep) in seq start (count ep - start) ++ seq 0 start.

Lemma take_take_app {A} n (l k : list A) :
  take n l ++ take (n - length (take n l)) k = take n (l ++ k).
Proof. rewrite take_app, length_take. f_equal. f_equal. lia. Qed.

Lemma collect_all_spec ep rds exs maxevents rc :
  ep_ok ep -> 0 <= ep_start ep <= Z.of_nat FD_SETSIZE -> 0 <= maxevents -> 0 <= rc ->
  collect_all ep rds exs maxevents rc =
  Some (take (Z.to_nat (Z.min maxevents rc)) (omap (ready_event ep rds exs) (visit ep))).
Proof.
  intros Hok Hs Hm Hrc. unfold collect_all. pose proof (ep_count ep Hok).
  rewrite (proj2 (Z.ltb_ge _ _)) by lia. cbv zeta.
  rewrite collect_spec by (unfold count; simpl; lia). rewrite Nat.sub_0_r. cbn [mbind option_bind].
  rewrite app_nil_l. rewrite collect_spec by (rewrite ?length_take; lia).
  by rewrite take_take_app, <- omap_app.
Qed.

Lemma NoDup_visit ep : NoDup (visit ep).
Proof.
  unfold visit. set (st := Z.to_nat (ep_start ep)). rewrite Permutation_app_comm, <- seq_app. apply NoDup_ListNoDup, seq_NoDup.
Qed.

(** The slots from [maxcount] on are not ready. *)
Lemma omap_free ep rds exs i n : ep_ok ep -> (count ep <= i)%nat -> omap (ready_event ep rds exs) (seq i n) = [].
Proof.
  intros Hok. revert i. induction n as [|n IH]; intros i Hi; [done|]. cbn [seq omap list_omap].
  unfold ready_event at 1. rewrite (ep_free ep Hok i Hi). cbn [Z.eqb]. rewrite Z.eqb_refl. apply IH. lia.
Qed.
Lemma omap_seq_from ep rds exs n : ep_ok ep -> (count ep <= n)%nat ->
  omap (ready_event ep rds exs) (seq 0 n) = omap (ready_event ep rds exs) (seq 0 (count ep)).
Proof.
  intros Hok Hn. replace n with (count ep + (n - count ep))%nat by lia. rewrite seq_app, omap_app, (omap_free ep rds exs (0 + count ep)) by (done || lia).
  by rewrite app_nil_r.
Qed.
Lemma visit_ready ep rds exs : ep_ok ep ->
  Permutation (omap (ready_event ep rds exs) (visit ep)) (omap (ready_event ep rds exs) (seq 0 (count ep))).
Proof.
  intros Hok. unfold visit. set (st := Z.to_nat (ep_start ep)). rewrite Permutation_app_comm, <- seq_app.
  by rewrite omap_seq_from by (done || lia).
Qed.

(** Beyond the array the loop reads outside of it, unless it has enough events before. *)
Lemma collect_beyond ep rds exs maxevents rc fuel : forall i out, (i <= FD_SETSIZE < i + fuel)%nat ->
  (length out + length (omap (ready_event ep rds exs) (seq i (FD_SETSIZE - i))) < Z.to_nat (Z.min maxevents rc))%nat ->
  collect ep rds exs maxevents rc i fuel out = None.
Proof.
  induction fuel as [|fuel IH]; intros i out Hi Hl; [lia|]. cbn [collect].
  rewrite (proj2 (Z.ltb_lt _ maxevents)), (proj2 (Z.ltb_lt _ rc)) by lia. cbn [andb].
  destruct (Nat.leb_spec FD_SETSIZE i) as [|Hlt]; [done|]. apply IH; [lia|].
  replace (FD_SETSIZE - i)%nat with (S (FD_SETSIZE - S i)) in Hl by lia. cbn [seq omap list_omap] in Hl.
  destruct (ready_event ep rds exs i); [rewrite length_app; cbn [length] in *|]; lia.
Qed.
Lemma collect_all_beyond ep rds exs maxevents rc : ep_ok ep ->
  ep_start ep < 0 \/ Z.of_nat FD_SETSIZE < ep_start ep /\
    Z.of_nat (length (omap (ready_event ep rds exs) (seq 0 (count ep)))) < Z.min maxevents rc ->
  collect_all ep rds exs maxevents rc = None.
Proof.
  intros Hok H. pose proof (ep_count ep Hok) as Hc. unfold collect_all. destruct (Z.ltb_spec (ep_start ep) 0); [done|]. destruct H as [?|[H1 H2]]; [lia|].
  replace (count ep - Z.to_nat (ep_start ep))%nat with 0%nat by (unfold count; lia). cbn [collect mbind option_bind].
  apply collect_beyond; [lia|]. rewrite omap_seq_from by (done || (unfold count; lia)). cbn [length]. lia.
Qed.

(** A ready slot: registered, and in one of the sets [select] left. *)
Definition ready (ep : epoll) (rds exs : list Z) (i : nat) : Prop :=
  socket_at ep i <> INVALID_SOCKET /\ (socket_at ep i ∈ rds \/ socket_at ep i ∈ exs).

Lemma ready_event_Some ep rds exs i ev :
  ready_event ep rds exs i = Some ev ->
  ready ep rds exs i /\ data ev = data (event_at ep i) /\
  (Z.testbit (events ev) 0 = true <-> socket_at ep i ∈ rds) /\
  (Z.testbit (events ev) 2 = true <-> socket_at ep i ∈ exs).
Proof.
  unfold ready_event, ready, FD_ISSET.
  destruct (Z.eqb_spec (socket_at ep i) INVALID_SOCKET); [done|].
  do 2 case_bool_decide; cbn [orb]; intros [= <-]; (split; [tauto|]); simpl; tauto || done.
Qed.

Lemma ready_event_is_Some ep rds exs i :
  ready ep rds exs i -> is_Some (ready_event ep rds exs i).
Proof.
  intros [Hs Hr]. unfold ready_event, FD_ISSET. rewrite (proj2 (Z.eqb_neq _ _) Hs).
  do 2 case_bool_decide; cbn [orb]; [by eexists..|]. tauto.
Qed.

(** No more slots are ready than members of the two sets. *)
Lemma ready_count ep rds exs l :
  ep_ok ep -> NoDup l ->
  (length (omap (ready_event ep rds exs) l) <= length rds + length exs)%nat.
Proof.
  intros Hok Hnd. rewrite <- length_app.
  set (f := filter (fun i => is_Some (ready_event ep rds exs i)) l).
  assert (length (omap (ready_event ep rds exs) l) = length f) as ->.
  { unfold f. clear. induction l as [|i l IH]; [done|]. cbn [omap list_omap].
    rewrite filter_cons. destruct (ready_event ep rds exs i); simpl; [by rewrite IH|done]. }
  assert (forall i, i ∈ f -> ready ep rds exs i) as Hf.
  { intros i [[ev H] _]%list_elem_of_filter. by apply ready_event_Some in H as [? _]. }
  rewrite <- (length_fmap (socket_at ep) f). apply submseteq_length, NoDup_submseteq.
  - apply NoDup_fmap_2_strong; [|by apply NoDup_filter].
    intros i j Hi Hj E. apply (ep_inj ep Hok); [done|]. by apply (Hf i Hi).
  - intros s (i & -> & Hi)%list_elem_of_fmap. apply elem_of_app. by apply (Hf i Hi).
Qed.

Section Inv.
Context {W : Type} `{!Winsock W}.
Local Abbreviation P := (C (proc W)).

(** The table, once allocated, has its [maxepolls] entries and every instance
    in it is well-formed. *)
Definition epolls_inv (p : proc W) : Prop :=
  forall l, pr_epolls p = Some l ->
    length l = maxepolls /\ forall id ep, l !! id = Some (Some ep) -> ep_ok ep.

(** The instance a descriptor names, and its index. *)
Definition epoll_of (p : proc W) (fd : Z) : option (nat * epoll) := fst (wpdk_get_epoll fd p).

Lemma get_epoll_run fd (p : proc W) : wpdk_get_epoll fd p = (epoll_of p fd, p).
Proof.
  unfold epoll_of, wpdk_get_epoll, bind, gets, ret. destruct (pr_epolls p); [|done].
  by destruct (wpdk_is_epoll fd).
Qed.

Lemma epoll_of_Some p fd id ep :
  epoll_of p fd = Some (id, ep) <->
  exists l, pr_epolls p = Some l /\ wpdk_is_epoll fd = true /\
    id = Z.to_nat (fd - epollbase) /\ l !! id = Some (Some ep).
Proof.
  unfold epoll_of, wpdk_get_epoll, bind, gets, ret.
  destruct (pr_epolls p) as [l|]; [|split; [done|intros (?&?&_); done]].
  destruct (wpdk_is_epoll fd); cbn [fst];
    [|split; [done|by intros (?&?&?&_)]].
  destruct (l !! Z.to_nat (fd - epollbase)) as [[ep0|]|] eqn:E; split.
  - intros [= <- <-]. by exists l.
  - intros (l' & [= <-] & _ & -> & Hl). by rewrite E in Hl; injection Hl as ->.
  - done.
  - intros (l' & [= <-] & _ & -> & Hl). by rewrite E in Hl.
  - done.
  - intros (l' & [= <-] & _ & -> & Hl). by rewrite E in Hl.
Qed.

Lemma epoll_of_same p q fd : pr_epolls p = pr_epolls q -> epoll_of p fd = epoll_of q fd.
Proof.
  intros E. unfold epoll_of, wpdk_get_epoll, bind, gets, ret. rewrite E.
  destruct (pr_epolls q); [|done]. by destruct (wpdk_is_epoll fd).
Qed.

Lemma epoll_of_ok p fd id ep : epolls_inv p -> epoll_of p fd = Some (id, ep) -> ep_ok ep.
Proof. intros Hp (l & Hl & _ & _ & He)%epoll_of_Some. by apply (Hp l Hl) in He. Qed.

Lemma put_epoll_inv id e (p : proc W) :
  epolls_inv p -> (forall ep, e = Some ep -> ep_ok ep) -> epolls_inv (snd (put_epoll id e p)).
Proof.
  intros Hp He l. simpl. destruct (pr_epolls p) as [l0|] eqn:E; [|done]. intros [= <-].
  destruct (Hp l0 E) as [Hl Hok]. split; [by rewrite length_insert|].
  intros id' ep [(<- & -> & _)|[_ H]]%list_lookup_insert_Some; [by apply He|by apply (Hok id')].
Qed.

(** After storing an instance the descriptor names it. *)
Lemma put_epoll_of p fd id ep ep' :
  epoll_of p fd = Some (id, ep) ->
  epoll_of (snd (put_epoll id (Some ep') p)) fd = Some (id, ep').
Proof.
  intros (l & Hl & Hi & -> & He)%epoll_of_Some. apply epoll_of_Some.
  simpl. rewrite Hl. eexists. split_and!; [reflexivity|done|done|].
  apply list_lookup_insert_eq. by apply lookup_lt_Some in He.
Qed.

Lemma get_socket_snd fd (p : proc W) : exists e, snd (wpdk_get_socket fd p) = set_errno e p.
Proof.
  unfold wpdk_get_socket, bind, gets. destruct (_ =? INVALID_SOCKET); [by eexists|].
  exists (pr_errno p). by destruct p.
Qed.

(** The failing outcomes of [wpdk_epoll_ctl]. *)
Definition ctl_error (p : proc W) (epfd op fd : Z) (event : option epoll_event) (err : Z) : Prop :=
  let s := handle_of p fd in
  match epoll_of p epfd with
  | None => err = EBADF
  | Some (_, ep) =>
      (s = INVALID_SOCKET /\ err = EBADF) \/
      (op = EPOLL_CTL_ADD /\ event = None /\ err = EINVAL) \/
      (op = EPOLL_CTL_ADD /\ lookup_ep ep s <> None /\ err = EEXIST) \/
      (op = EPOLL_CTL_ADD /\ err = ENOSPC /\
       forall i, (i < FD_SETSIZE)%nat -> socket_at ep i <> INVALID_SOCKET) \/
      (op = EPOLL_CTL_DEL /\ lookup_ep ep s = None /\ err = ENOENT) \/
      (op <> EPOLL_CTL_ADD /\ op <> EPOLL_CTL_DEL /\ err = EINVAL)
  end.

(** C18: [wpdk_epoll_ctl] implements insertion and deletion in a finite map
    from sockets to events: a call that succeeds adds or removes exactly the
    association of the socket its descriptor names, a call that fails changes
    no instance and reports the cause in errno, and both keep every instance
    well-formed. *)
Theorem epoll_ctl_refines (p : proc W) (epfd op fd : Z) (event : option epoll_event) :
  epolls_inv p ->
  let '(r, q) := wpdk_epoll_ctl epfd op fd event p in
  epolls_inv q /\
  ((r = -1 /\ pr_epolls q = pr_epolls p /\ ctl_error p epfd op fd event (errno q)) \/
   (r = 0 /\ exists id ep ep', epoll_of p epfd = Some (id, ep) /\
      epoll_of q epfd = Some (id, ep') /\ handle_of p fd <> INVALID_SOCKET /\
      (forall s, s <> handle_of p fd -> s <> INVALID_SOCKET -> lookup_ep ep' s = lookup_ep ep s) /\
      ((op = EPOLL_CTL_ADD /\ lookup_ep ep (handle_of p fd) = None /\
        lookup_ep ep' (handle_of p fd) = event) \/
       (op = EPOLL_CTL_DEL /\ lookup_ep ep (handle_of p fd) <> None /\
        lookup_ep ep' (handle_of p fd) = None)))).
Proof.
  intros Hp. unfold wpdk_epoll_ctl. rewrite bind_run. fold (handle_of p fd).
  destruct (get_socket_snd fd p) as [e ->].
  rewrite bind_run, get_epoll_run. cbn [fst snd].
  rewrite (epoll_of_same (set_errno e p) p) by done. unfold ctl_error.
  destruct (epoll_of p epfd) as [[id ep]|] eqn:Ee; [|by split; [|left]].
  pose proof (epoll_of_ok _ _ _ _ Hp Ee) as Hok.
  destruct (Z.eqb_spec (handle_of p fd) INVALID_SOCKET) as [Hs|Hs];
    [split; [done|left; split_and!; [done..|by left]]|].
  destruct (Z.eqb_spec op EPOLL_CTL_ADD) as [->|Hadd].
  - destruct event as [ev|]; [|split; [done|left; split_and!; [done..|right; by left]]].
    pose proof (ctl_add_spec ep _ ev Hok Hs) as H. destruct (ctl_add _ _ _) as [err|ep'].
    + split; [done|left]. split_and!; [done..|].
      destruct H as [[-> H]|(-> & _ & H)]; [right; right; by left|right; right; right; by left].
    + destruct H as (Hn & Hok' & Hl & Ho). rewrite bind_run. split.
      { apply put_epoll_inv; [done|by intros ? [= <-]]. }
      right. split; [done|]. exists id, ep, ep'. split; [done|]. split.
      { apply (put_epoll_of (set_errno e p) epfd id ep). by rewrite (epoll_of_same _ p). }
      split_and!; [done|auto|left; by rewrite Hl].
  - destruct (Z.eqb_spec op EPOLL_CTL_DEL) as [->|Hdel].
    + pose proof (ctl_del_spec ep _ Hok Hs) as H. destruct (ctl_del _ _) as [err|ep'].
      * split; [done|left]. split_and!; [done..|]. destruct H as [-> H]. do 4 right. by left.
      * destruct H as (Hn & Hok' & Hl & Ho). rewrite bind_run. split.
        { apply put_epoll_inv; [done|by intros ? [= <-]]. }
        right. split; [done|]. exists id, ep, ep'. split; [done|]. split.
        { apply (put_epoll_of (set_errno e p) epfd id ep). by rewrite (epoll_of_same _ p). }
        split_and!; [done|auto|by right].
    + split; [done|left]. split_and!; [done..|]. by do 5 right.
Qed.

(** C19: a wait on an instance with sockets to watch, [select] giving the sets and their
    size.  A timeout other than 0 is refused with EINVAL.  As long as the rotating index is in
    the array (0 to FD_SETSIZE), a wait reports events of ready registered sockets only, at most
    [maxevents] of them, each with the data registered for the socket and the bits of the
    sets it is in; and when the caller's array is large enough for the count [select] gave, no
    ready socket is missed or reported twice.  With a larger index a wait that finds fewer
    ready sockets than it may report reads outside of the array. *)
Theorem epoll_wait_reports (p : proc W) (epfd maxevents : Z) (id : nat) (ep : epoll)
    (rc : Z) (rds exs : list Z) (w : W) :
  epolls_inv p -> epoll_of p epfd = Some (id, ep) -> worktodo ep = true -> 1 <= maxevents ->
  w_select (ep_maxcount ep) (build_set ep EPOLLIN 0 (count ep) [])
    (build_set ep EPOLLERR 0 (count ep) []) (world p) = ((rc, rds, exs), w) ->
  rc = Z.of_nat (length rds + length exs) ->
  let all_ready := omap (ready_event ep rds exs) (seq 0 (count ep)) in
  (forall timeout, timeout <> 0 ->
     wpdk_epoll_wait epfd true maxevents timeout p = (WaitReturns (-1) [], set_errno EINVAL p)) /\
  (0 <= ep_start ep <= Z.of_nat FD_SETSIZE ->
   exists out, fst (wpdk_epoll_wait epfd true maxevents 0 p) =
                WaitReturns (Z.of_nat (length out)) out /\
    Z.of_nat (length out) <= maxevents /\
    (forall ev, ev ∈ out -> exists i, ready ep rds exs i /\ data ev = data (event_at ep i) /\
       (Z.testbit (events ev) 0 = true <-> socket_at ep i ∈ rds) /\
       (Z.testbit (events ev) 2 = true <-> socket_at ep i ∈ exs)) /\
    (rc <= maxevents -> Permutation out all_ready)) /\
  (ep_start ep < 0 \/ Z.of_nat FD_SETSIZE < ep_start ep /\ Z.of_nat (length all_ready) < Z.min maxevents rc ->
   fst (wpdk_epoll_wait epfd true maxevents 0 p) = WaitOutOfBounds).
Proof.
  intros Hp He Hw Hm Hsel Hrc all_ready. pose proof (epoll_of_ok _ _ _ _ Hp He) as Hok.
  pose proof (ep_count ep Hok) as Hc.
  assert (forall o, collect_all ep rds exs maxevents rc = o -> fst (wpdk_epoll_wait epfd true maxevents 0 p) =
    match o with None => WaitOutOfBounds | Some out => WaitReturns (Z.of_nat (length out)) out end) as Hrun.
  { intros o Ho. unfold wpdk_epoll_wait. rewrite bind_run, get_epoll_run, He. cbn [fst snd].
    change (0 =? 0) with true. rewrite (proj2 (Z.ltb_ge _ _)) by lia. cbn [negb orb].
    rewrite Hw. cbn [negb]. rewrite bind_run. unfold lift. rewrite Hsel. cbn [fst snd].
    rewrite (proj2 (Z.eqb_neq _ _)) by (unfold SOCKET_ERROR; lia).
    rewrite Ho. destruct o; [by rewrite bind_run|done]. }
  split_and!.
  - intros timeout Ht. unfold wpdk_epoll_wait. rewrite bind_run, get_epoll_run, He. cbn [fst snd].
    by rewrite (proj2 (Z.eqb_neq timeout 0) Ht).
  - intros Hs. set (out := take (Z.to_nat (Z.min maxevents rc)) (omap (ready_event ep rds exs) (visit ep))).
    exists out. split; [rewrite (Hrun (Some out)); [done|]; by rewrite collect_all_spec by (done || lia)|].
    split; [unfold out; rewrite length_take; lia|]. split.
    + intros ev Hev. apply subseteq_take, list_elem_of_omap in Hev as (i & _ & H).
      exists i. by apply ready_event_Some.
    + intros Hle. pose proof (ready_count ep rds exs (visit ep) Hok (NoDup_visit ep)) as Hn.
      unfold out. rewrite take_ge by lia. by apply visit_ready.
  - intros H. apply (Hrun None). by apply collect_all_beyond.
Qed.

(** ** Every sequence of calls *)

Inductive epoll_call :=
  | ECreate (flags : Z)
  | ECtl (epfd op fd : Z) (event : option epoll_event)
  | EWait (epfd : Z) (has_events : bool) (maxevents timeout : Z)
  | EClose (fd : Z)
  | ESock (c : sock_call).

Definition run_epoll_call (c : epoll_call) (p : proc W) : proc W :=
  match c with
  | ECreate flags => snd (wpdk_epoll_create1 flags p)
  | ECtl epfd op fd event => snd (wpdk_epoll_ctl epfd op fd event p)
  | EWait epfd h m t => snd (wpdk_epoll_wait epfd h m t p)
  | EClose fd => snd (wpdk_close_epoll fd p)
  | ESock c => snd (run_call c p)
  end.

(** The calls of socket.c do not touch the epoll table. *)
Definition epolls_are (l : option (list (option epoll))) (p : proc W) : Prop := pr_epolls p = l.

Lemma epolls_lift {A} l (m : C W A) : keeps (epolls_are l) (lift m).
Proof. intros p Hp. unfold lift. by destruct (m (world p)). Qed.
Lemma epolls_posix_error l e : keeps (epolls_are l) (wpdk_posix_error e : P Z).
Proof. by intros p. Qed.
Lemma epolls_last_wsa_error l : keeps (epolls_are l) (wpdk_last_wsa_error : P Z).
Proof. by intros p. Qed.
Lemma epolls_set_last_wsa_error l e : keeps (epolls_are l) (wpdk_set_last_wsa_error e : P unit).
Proof. by intros p. Qed.
Lemma epolls_set_errno l e : keeps (epolls_are l) (set_errno_c e : P unit).
Proof. by intros p. Qed.
Lemma epolls_put_fd l i f : keeps (epolls_are l) (put_fd i f : P unit).
Proof. by intros p. Qed.
Lemma epolls_set_fds l f : keeps (epolls_are l) (modify (set_fds f) : P unit).
Proof. by intros p. Qed.
Lemma epolls_set_addr l f : keeps (epolls_are l) (modify (set_addr f) : P unit).
Proof. by intros p. Qed.
Lemma epolls_set_ready l f : keeps (epolls_are l) (modify (set_ready f) : P unit).
Proof. by intros p. Qed.
Lemma epolls_set_paths l f : keeps (epolls_are l) (modify (set_paths f) : P unit).
Proof. by intros p. Qed.
Lemma epolls_get l : keeps (epolls_are l) (get : P (proc W)).
Proof. by intros p. Qed.
Lemma epolls_get_fds l : keeps (epolls_are l) (get_fds : P _).
Proof. by intros p. Qed.
#[local] Hint Resolve epolls_lift epolls_posix_error epolls_last_wsa_error epolls_set_errno
  epolls_set_last_wsa_error epolls_put_fd epolls_set_fds epolls_set_addr epolls_set_ready
  epolls_set_paths epolls_get epolls_get_fds : wpdk.

Lemma epolls_get_socket l fd : keeps (epolls_are l) (wpdk_get_socket fd : P Z).
Proof. unfold wpdk_get_socket. keep. Qed.
#[local] Hint Resolve epolls_get_socket : wpdk.

Lemma epolls_allocate l s d f : keeps (epolls_are l) (wpdk_allocate_socket s d f : P Z).
Proof. unfold wpdk_allocate_socket. keep. Qed.
#[local] Hint Resolve epolls_allocate : wpdk.

Lemma epolls_report l rc v : keeps (epolls_are l) (report rc v : P Z).
Proof. unfold report. keep. Qed.
Lemma epolls_get_wsabuf l c iov n : keeps (epolls_are l) (wpdk_get_wsabuf c iov n : P _).
Proof. unfold wpdk_get_wsabuf, free_buf. keep. Qed.
Lemma epolls_translate_address l a n : keeps (epolls_are l) (translate_address a n : P _).
Proof. unfold translate_address. keep. Qed.
#[local] Hint Resolve epolls_report epolls_get_wsabuf epolls_translate_address : wpdk.

Lemma epolls_run_call l c : keeps (epolls_are l) (run_call c : P Z).
Proof.
  destruct c; cbn [run_call];
    unfold wpdk_socket, wpdk_close_socket, wpdk_accept, wpdk_accept4, wpdk_socket_startup,
      wpdk_bind, wpdk_connect, wpdk_getpeername, wpdk_getsockname, wpdk_getsockopt,
      wpdk_setsockopt, wpdk_listen, wpdk_shutdown, wpdk_recv, wpdk_recvfrom, wpdk_send,
      wpdk_sendto, wpdk_sendmsg, wpdk_recvmsg, wpdk_socket_readv, wpdk_socket_writev,
      wpdk_socket_fcntl, with_socket, free_buf; keep.
Qed.

Lemma epolls_inv_same (p q : proc W) : pr_epolls q = pr_epolls p -> epolls_inv p -> epolls_inv q.
Proof. unfold epolls_inv. by intros ->. Qed.

Lemma inv_lift {A} (m : C W A) : keeps epolls_inv (lift m).
Proof. intros p. apply epolls_inv_same. by apply (epolls_lift (pr_epolls p)). Qed.
Lemma inv_posix_error e : keeps epolls_inv (wpdk_posix_error e : P Z).
Proof. by intros p. Qed.
Lemma inv_last_wsa_error : keeps epolls_inv (wpdk_last_wsa_error : P Z).
Proof. by intros p. Qed.
Lemma inv_put_new i addr : keeps epolls_inv (put_epoll i (Some (new_epoll addr)) : P unit).
Proof. intros p Hp. apply put_epoll_inv; [done|]. intros ? [= <-]. apply new_epoll_ok. Qed.
Lemma inv_put_none i : keeps epolls_inv (put_epoll i None : P unit).
Proof. intros p Hp. by apply put_epoll_inv. Qed.
Lemma inv_set_table t :
  length t = maxepolls -> (forall id ep, t !! id <> Some (Some ep)) ->
  keeps epolls_inv (modify (set_epolls (Some t)) : P unit).
Proof. intros Hl Hn p _ l [= <-]. split; [done|]. intros id ep H. by destruct (Hn id ep). Qed.
Lemma inv_new_table : keeps epolls_inv (modify (set_epolls (Some (replicate maxepolls None))) : P unit).
Proof.
  apply inv_set_table; [apply length_replicate|].
  intros id ep H. by apply lookup_replicate in H as [? _].
Qed.
Lemma inv_get_epoll fd : keeps epolls_inv (wpdk_get_epoll fd : P _).
Proof. intros p. by rewrite get_epoll_run. Qed.
#[local] Hint Resolve inv_lift inv_posix_error inv_last_wsa_error inv_put_new inv_put_none
  inv_new_table inv_get_epoll : wpdk.

Lemma inv_allocate_epoll : keeps epolls_inv (wpdk_allocate_epoll : P Z).
Proof. unfold wpdk_allocate_epoll. keep. Qed.

(** Fields that the invariant does not constrain. *)
Lemma set_start_ok z ep : ep_ok ep -> ep_ok (set_start z ep).
Proof. intros [? ? ? ? ?]. by split. Qed.
Lemma set_ep_flags_ok z ep : ep_ok ep -> ep_ok (set_ep_flags z ep).
Proof. intros [? ? ? ? ?]. by split. Qed.

Lemma inv_create1 flags : keeps epolls_inv (wpdk_epoll_create1 flags : P Z).
Proof.
  unfold wpdk_epoll_create1. apply keeps_bind; [apply inv_allocate_epoll|]. intros id p Hp.
  destruct (id =? -1); [done|]. cbv zeta. rewrite bind_run. cbn [gets fst snd].
  destruct (default [] (pr_epolls p) !! _) as [[ep|]|] eqn:E; [|done..].
  rewrite bind_run. apply put_epoll_inv; [done|]. intros ? [= <-]. apply set_ep_flags_ok.
  destruct (pr_epolls p) as [l|] eqn:El; [|done]. by apply (Hp l El) in E.
Qed.

Lemma inv_ctl epfd op fd ev : keeps epolls_inv (wpdk_epoll_ctl epfd op fd ev : P Z).
Proof.
  intros p Hp. unfold wpdk_epoll_ctl. rewrite bind_run. fold (handle_of p fd).
  destruct (get_socket_snd fd p) as [e ->]. rewrite bind_run, get_epoll_run. cbn [fst snd].
  rewrite (epoll_of_same (set_errno e p) p) by done.
  destruct (epoll_of p epfd) as [[id ep]|] eqn:Ee; [|done].
  pose proof (epoll_of_ok _ _ _ _ Hp Ee) as Hok.
  destruct (Z.eqb_spec (handle_of p fd) INVALID_SOCKET) as [Hs|Hs]; [done|].
  pose proof (fun v => ctl_add_spec ep _ v Hok Hs) as Ha. pose proof (ctl_del_spec ep _ Hok Hs) as Hd.
  destruct (op =? EPOLL_CTL_ADD); [destruct ev as [v|]; [specialize (Ha v)|done]|].
  - destruct (ctl_add _ _ _); [done|]. rewrite bind_run.
    apply put_epoll_inv; [done|]. intros ? [= <-]. tauto.
  - destruct (op =? EPOLL_CTL_DEL); [|done]. destruct (ctl_del _ _); [done|]. rewrite bind_run.
    apply put_epoll_inv; [done|]. intros ? [= <-]. tauto.
Qed.

Lemma inv_wait epfd h m t : keeps epolls_inv (wpdk_epoll_wait epfd h m t : P _).
Proof.
  intros p Hp. unfold wpdk_epoll_wait. rewrite bind_run, get_epoll_run. cbn [fst snd].
  destruct (epoll_of p epfd) as [[id ep]|] eqn:Ee; [|done].
  pose proof (epoll_of_ok _ _ _ _ Hp Ee) as Hok.
  destruct (_ || _); [done|]. destruct (negb _); [done|]. rewrite bind_run.
  match goal with |- context [lift ?m p] => pose proof (inv_lift m p Hp) as Hq;
    destruct (lift m p) as [[[rc rds] exs] q] end. cbn [fst snd] in *.
  destruct (rc =? SOCKET_ERROR); [done|]. destruct (collect_all _ _ _ _ _); [|done].
  rewrite bind_run. cbn [snd ret]. destruct (_ <? rc); [|done].
  apply put_epoll_inv; [done|]. intros ? [= <-]. by apply set_start_ok.
Qed.

Lemma inv_close fd : keeps epolls_inv (wpdk_close_epoll fd : P Z).
Proof. unfold wpdk_close_epoll. keep. Qed.

(** C20: whatever sequence of epoll and socket calls a program makes, every
    epoll instance stays well-formed: within its arrays, free from [maxcount]
    on, no socket registered twice. *)
Theorem epoll_calls_inv (cs : list epoll_call) (w : W) :
  epolls_inv (fold_left (fun p c => run_epoll_call c p) cs (proc0 w)).
Proof.
  assert (epolls_inv (proc0 w)) as H0 by (intros l [=]).
  revert H0. generalize (proc0 w). induction cs as [|c cs IH]; intros p Hp; [done|].
  apply IH. destruct c; cbn [run_epoll_call].
  - by apply inv_create1.
  - by apply inv_ctl.
  - by apply inv_wait.
  - by apply inv_close.
  - eapply epolls_inv_same; [|exact Hp]. by apply (epolls_run_call (pr_epolls p)).
Qed.
End Inv.

(** ** Concrete runs *)

Section Runs.
Import SimpleWinsock.

(** A socket, and an epoll instance with that socket registered for both events. *)
Definition one_registered : proc w :=
  fold_left (fun p c => run_epoll_call c p)
    [ECreate 0; ESock (CSocket 2 1 0); ECtl 0x20000 EPOLL_CTL_ADD 0x10000 (Some (EpollEvent 5 77))]
    (proc0 ∅).

Lemma one_registered_inv : epolls_inv one_registered.
Proof.
  apply inv_ctl. apply (epolls_inv_same (snd (wpdk_epoll_create1 0 (proc0 ∅)))).
  - by apply (epolls_run_call (pr_epolls (snd (wpdk_epoll_create1 0 (proc0 (∅ : w)))))).
  - apply inv_create1. intros l [=].
Qed.

(** Registering the socket a second time: EEXIST. *)
Lemma epoll_ctl_refines_witness :
  epolls_inv one_registered /\
  ctl_error one_registered 0x20000 EPOLL_CTL_ADD 0x10000 (Some (EpollEvent 1 0)) EEXIST.
Proof.
  split; [exact one_registered_inv|].
  pose proof (epoll_ctl_refines one_registered 0x20000 EPOLL_CTL_ADD 0x10000
    (Some (EpollEvent 1 0)) one_registered_inv) as H.
  assert (fst (wpdk_epoll_ctl 0x20000 EPOLL_CTL_ADD 0x10000 (Some (EpollEvent 1 0)) one_registered)
    = -1) as E1 by (vm_compute; reflexivity).
  assert (errno (snd (wpdk_epoll_ctl 0x20000 EPOLL_CTL_ADD 0x10000 (Some (EpollEvent 1 0))
    one_registered)) = EEXIST) as E2 by (vm_compute; reflexivity).
  destruct (wpdk_epoll_ctl _ _ _ _ _) as [r q]. cbn [fst snd] in *.
  destruct H as [_ [(_ & _ & H)|[H _]]]; [rewrite E2 in H; exact H|].
  rewrite E1 in H. discriminate H.
Defined.

Definition the_epoll : epoll :=
  match epoll_of one_registered 0x20000 with Some (_, ep) => ep | None => new_epoll 0 end.

Lemma epoll_wait_reports_witness :
  exists out, fst (wpdk_epoll_wait 0x20000 true 4 0 one_registered)
                = WaitReturns (Z.of_nat (length out)) out /\ out = [EpollEvent 5 77].
Proof.
  destruct (proj1 (proj2 (epoll_wait_reports one_registered 0x20000 4 0 the_epoll 2 [0] [0]
    (world one_registered) one_registered_inv
    ltac:(vm_compute; reflexivity) ltac:(vm_compute; reflexivity) ltac:(lia)
    ltac:(vm_compute; reflexivity) ltac:(reflexivity))) ltac:(vm_compute; split; discriminate)) as (out & Hout & _).
  exists out. split; [exact Hout|].
  assert (fst (wpdk_epoll_wait 0x20000 true 4 0 one_registered) = WaitReturns 1 [EpollEvent 5 77])
    as E by (vm_compute; reflexivity).
  rewrite E in Hout. injection Hout as _ Hout. symmetry. exact Hout.
Defined.

(** The rotating index is never reset: when a socket stays in both sets
    (so that [select] counts more than the events reported) 65 waits report it,
    and the 66th reads beyond the [FD_SETSIZE] elements of the array. *)
Theorem epoll_wait_out_of_bounds :
  let wait p := snd (wpdk_epoll_wait 0x20000 true 4 0 p) in
  (forall k, (k < 65)%nat ->
     fst (wpdk_epoll_wait 0x20000 true 4 0 (Nat.iter k wait one_registered)) =
     WaitReturns 1 [EpollEvent 5 77]) /\
  fst (wpdk_epoll_wait 0x20000 true 4 0 (Nat.iter 65 wait one_registered)) = WaitOutOfBounds.
Proof.
  cbv zeta. split; [|vm_compute; reflexivity].
  assert (Forall (fun k => fst (wpdk_epoll_wait 0x20000 true 4 0
    (Nat.iter k (fun p => snd (wpdk_epoll_wait 0x20000 true 4 0 p)) one_registered)) =
     WaitReturns 1 [EpollEvent 5 77]) (seq 0 65)) as H
    by (repeat (apply List.Forall_cons; [vm_compute; reflexivity|]); constructor).
  rewrite Forall_forall in H. intros k Hk. apply H, elem_of_seq. lia.
Qed.
End Runs.
End Epolls.
