(* ===== verification/StartupRace.v ===== *)
(** * StartupRace: threads that start the socket layer (src/src/socket.c)

    [wpdk_socket] starts the layer when [wpdk_socket_ready] is not set, [wpdk_getaddrinfo]
    always; nothing locks [wpdk_socket_startup], so that any number of threads can be inside.
    Each builds a table and starts Winsock, publishes its table if there is none yet, and
    takes back what turns out to be superfluous.  A thread runs one access to shared memory,
    to the allocator or to Winsock at a time; a schedule is the list of the threads that run, each
    with whether a call that can fail succeeds. *)

From S2P Require Import Prelude.

Module Export StartupRace.

(** Where a thread is; the number is the table it has allocated. *)
Inductive start_pc :=
  | TestReady                  (* [if (!wpdk_socket_ready && ...)] of wpdk_socket *)
  | Allocate                   (* the call of calloc *)
  | StartWinsock (fds : nat)   (* the call of WSAStartup *)
  | FillTable (fds : nat)      (* the loop that makes the slots INVALID_SOCKET *)
  | Publish (fds : nat)        (* the exchange of wpdk_socket_fds *)
  | FreeTable (fds : nat)      (* another table was published *)
  | SetReady                   (* the exchange of wpdk_socket_ready *)
  | CleanUp                    (* another thread had set it *)
  | Started (ok : bool).       (* the result *)

(** [table] is wpdk_socket_fds, [ready] wpdk_socket_ready, [refs] the calls of WSAStartup less those of
    WSACleanup; [live] are the allocated tables, [filled] those whose slots are set, [fresh_id] was not used yet. *)
Record start_state := StartState {
  table : option nat; ready : bool; refs : nat;
  live : gset nat; filled : gset nat; fresh_id : nat; threads : list start_pc
}.

(** One step of a thread at [pc]: the new shared state and where it is then. *)
Definition thread_step (ok : bool) (s : start_state) (pc : start_pc) : start_state * start_pc :=
  let '(StartState tb rd rf lv fl id ts) := s in
  match pc with
  | TestReady => (s, if rd then Started true else Allocate)
  | Allocate =>
    if ok then (StartState tb rd rf ({[id]} ∪ lv) fl (S id) ts, StartWinsock id) else (s, Started false)
  | StartWinsock n =>
    if ok then (StartState tb rd (S rf) lv fl id ts, FillTable n)
    else (StartState tb rd rf (lv ∖ {[n]}) fl id ts, Started false)
  | FillTable n => (StartState tb rd rf lv ({[n]} ∪ fl) id ts, Publish n)
  | Publish n =>
    match tb with
    | None => (StartState (Some n) rd rf lv fl id ts, SetReady)
    | Some _ => (s, FreeTable n)
    end
  | FreeTable n => (StartState tb rd rf (lv ∖ {[n]}) fl id ts, SetReady)
  | SetReady => if rd then (s, CleanUp) else (StartState tb true rf lv fl id ts, Started true)
  | CleanUp => (StartState tb rd (pred rf) lv fl id ts, Started true)
  | Started b => (s, Started b)
  end.
Definition set_threads (ts : list start_pc) (s : start_state) : start_state :=
  StartState (table s) (ready s) (refs s) (live s) (filled s) (fresh_id s) ts.
Definition start_step (s : start_state) (x : nat * bool) : start_state :=
  match threads s !! fst x with
  | None => s
  | Some pc => let '(s', pc') := thread_step (snd x) s pc in set_threads (<[fst x := pc']> (threads s)) s'
  end.

(** Threads that call [wpdk_socket] ([true]) or [wpdk_getaddrinfo] when nothing has been started. *)
Definition start_init (callers : list bool) : start_state :=
  StartState None false 0 ∅ ∅ 0 (map (fun b : bool => if b then TestReady else Allocate) callers).
Definition start_run (callers : list bool) (sched : list (nat * bool)) : start_state := foldl start_step (start_init callers) sched.

(** ** The invariant *)

(** The table a thread owns, whether it must be filled already, and the references to Winsock it answers for. *)
Definition owned (pc : start_pc) : option nat :=
  match pc with StartWinsock n | FillTable n | Publish n | FreeTable n => Some n | _ => None end.
Definition has_filled (pc : start_pc) : option nat := match pc with Publish n | FreeTable n => Some n | _ => None end.
Definition ref_of (pc : start_pc) : nat :=
  match pc with FillTable _ | Publish _ | FreeTable _ | SetReady | CleanUp => 1 | _ => 0 end.
(** What a thread knows of the layer. *)
Definition knows (pc : start_pc) (s : start_state) : Prop :=
  match pc with
  | FreeTable _ | SetReady => table s <> None
  | CleanUp | Started true => ready s = true
  | _ => True
  end.
Abbreviation total := (tally ref_of).

Record start_inv (s : start_state) : Prop := {
  si_ready : ready s = true -> table s <> None;
  si_table : forall n, table s = Some n -> n ∈ live s /\ n ∈ filled s /\ forall k pc, threads s !! k = Some pc -> owned pc <> Some n;
  si_owned : forall k pc n, threads s !! k = Some pc -> owned pc = Some n -> n ∈ live s;
  si_distinct : forall k k' pc pc' n, threads s !! k = Some pc -> threads s !! k' = Some pc' ->
    owned pc = Some n -> owned pc' = Some n -> k = k';
  si_filled : forall k pc n, threads s !! k = Some pc -> has_filled pc = Some n -> n ∈ filled s;
  si_live : forall n, n ∈ live s -> n < fresh_id s /\ (table s = Some n \/ exists k pc, threads s !! k = Some pc /\ owned pc = Some n);
  si_refs : refs s = (if ready s then 1 else 0) + total (threads s);
  si_knows : forall k pc, threads s !! k = Some pc -> knows pc s
}.

Lemma total_member l k pc : l !! k = Some pc -> ref_of pc <= total l.
Proof. intros E. pose proof (tally_insert ref_of l k pc (Started false) E). cbn in *. lia. Qed.

Lemma start_init_inv callers : start_inv (start_init callers).
Proof.
  assert (forall k pc, threads (start_init callers) !! k = Some pc -> pc = TestReady \/ pc = Allocate) as Hpc.
  { intros k pc. cbn. rewrite list_lookup_fmap. destruct (callers !! k) as [[|]|]; cbn; intros [= <-]; auto. }
  split; try done.
  - intros k pc n E. by destruct (Hpc k pc E) as [-> | ->].
  - intros k k' pc pc' n E. by destruct (Hpc k pc E) as [-> | ->].
  - intros k pc n E. by destruct (Hpc k pc E) as [-> | ->].
  - cbn. induction callers as [|[|] l IH]; cbn; [done|..]; apply IH; intros k pc E; apply (Hpc (S k) pc E).
  - intros k pc E. by destruct (Hpc k pc E) as [-> | ->].
Qed.

(** ** Steps *)

(** What a step of a thread from [pc] to [pc'] does to the shared state. *)
Record moves (s s' : start_state) (pc pc' : start_pc) : Prop := {
  mv_ready : ready s = true -> ready s' = true;
  mv_table : table s' = table s \/ table s = None /\ exists n, table s' = Some n /\ owned pc = Some n /\ owned pc' = None /\ n ∈ filled s';
  mv_published : ready s' = true -> table s' <> None;
  mv_live : forall n, n ∈ live s' <-> (n ∈ live s /\ owned pc <> Some n) \/ owned pc' = Some n \/ (table s = None /\ table s' = Some n);
  mv_owned : owned pc' = None \/ owned pc' = owned pc \/ owned pc' = Some (fresh_id s);
  mv_fresh : fresh_id s <= fresh_id s' /\ (owned pc' = Some (fresh_id s) -> fresh_id s < fresh_id s');
  mv_filled : (filled s ⊆ filled s') /\ forall n, has_filled pc' = Some n -> n ∈ filled s';
  mv_refs : refs s' + (if ready s then 1 else 0) + ref_of pc = refs s + (if ready s' then 1 else 0) + ref_of pc';
  mv_knows : knows pc' s'
}.

Lemma knows_mono q s s' pc pc' ts : moves s s' pc pc' -> knows q s -> knows q (set_threads ts s').
Proof.
  intros M. assert (table s <> None -> table s' <> None) as Ht by (destruct (mv_table _ _ _ _ M) as [->|[-> _]]; done).
  pose proof (mv_ready _ _ _ _ M). destruct q as [| | | | | | | |[|]]; cbn; auto.
Qed.

(** A thread that owns a table is the only one, and the others keep theirs. *)
Lemma owned_moved s s' k pc pc' j q n : start_inv s -> moves s s' pc pc' -> threads s !! k = Some pc ->
  <[k := pc']> (threads s) !! j = Some q -> owned q = Some n ->
  (j = k /\ q = pc') \/ (j <> k /\ threads s !! j = Some q /\ n ∈ live s /\ owned pc <> Some n /\ owned pc' <> Some n /\ table s' <> Some n).
Proof.
  intros I M Hk Hj Hq. apply list_lookup_insert_Some in Hj as [(-> & -> & _)|[Hne Hj]]; [by left|right].
  pose proof (si_owned _ I _ _ _ Hj Hq) as Hl. assert (owned pc <> Some n) as Hpc by (intros E; apply Hne; symmetry; by eapply (si_distinct _ I)).
  split_and!; [done..| |].
  - destruct (mv_owned _ _ _ _ M) as [->|[->| ->]]; [done|done|]. intros [= <-]. apply (si_live _ I) in Hl as [Hl _]. lia.
  - destruct (mv_table _ _ _ _ M) as [->|(_ & m & -> & Em & _)]; [|congruence]. intros E. by apply (proj2 (proj2 (si_table _ I n E)) j q).
Qed.

Lemma moves_inv s s' k pc pc' : start_inv s -> threads s !! k = Some pc -> moves s s' pc pc' ->
  start_inv (set_threads (<[k := pc']> (threads s)) s').
Proof.
  intros I Hk M. pose proof (lookup_lt_Some _ _ _ Hk) as Hlt.
  assert (forall n, owned pc' = Some n -> n ∈ live s') as Hown by (intros n E; apply (mv_live _ _ _ _ M); auto).
  split; cbn [set_threads ready table live filled refs fresh_id threads].
  - apply (mv_published _ _ _ _ M).
  - intros n En. assert (n ∈ live s' /\ n ∈ filled s' /\ owned pc' <> Some n) as (H1 & H2 & H3).
    { destruct (mv_table _ _ _ _ M) as [E|(Hn & m & E & Eo & Eo' & Hf)].
      - rewrite E in En. destruct (si_table _ I n En) as (H1 & H2 & H3). pose proof (H3 k pc Hk). split_and!.
        + apply (mv_live _ _ _ _ M). auto.
        + by apply (proj1 (mv_filled _ _ _ _ M)).
        + destruct (mv_owned _ _ _ _ M) as [->|[->| ->]]; [done|done|]. intros [= <-]. apply (si_live _ I) in H1 as [? _]. lia.
      - rewrite E in En. injection En as ->. split_and!; [apply (mv_live _ _ _ _ M); auto|done|by rewrite Eo']. }
    split_and!; [done|done|]. intros j q Hj Hq. destruct (owned_moved s s' k pc pc' j q n I M Hk Hj Hq) as [[_ ->]|(_ & _ & _ & _ & _ & Hn)]; done.
  - intros j q n Hj Hq. destruct (owned_moved s s' k pc pc' j q n I M Hk Hj Hq) as [[_ ->]|(_ & _ & Hl & Hp & _)]; [auto|]. apply (mv_live _ _ _ _ M). auto.
  - intros j j' q q' n Hj Hj' Hq Hq'.
    destruct (owned_moved s s' k pc pc' j q n I M Hk Hj Hq) as [[-> ->]|(Hne & H1 & _ & _ & Hp & _)],
      (owned_moved s s' k pc pc' j' q' n I M Hk Hj' Hq') as [[-> ->]|(Hne' & H1' & _ & _ & Hp' & _)]; [done..|]. by eapply (si_distinct _ I).
  - intros j q n Hj Hq. apply list_lookup_insert_Some in Hj as [(-> & -> & _)|[_ Hj]]; [by apply (mv_filled _ _ _ _ M)|].
    apply (proj1 (mv_filled _ _ _ _ M)). by eapply (si_filled _ I).
  - intros n Hn. destruct (mv_fresh _ _ _ _ M) as [Hf Hf']. apply (mv_live _ _ _ _ M) in Hn as [[Hl Hp]|[Ho|[Hnone Ht]]].
    + destruct (si_live _ I n Hl) as [Hb Hw]. split; [lia|]. destruct Hw as [Ht|(j & q & Hj & Hq)].
      * left. destruct (mv_table _ _ _ _ M) as [->|[Hnone _]]; [done|congruence].
      * right. exists j, q. split; [|done]. rewrite list_lookup_insert_ne; [done|]. intros <-. congruence.
    + split; [|right; exists k, pc'; by rewrite list_lookup_insert_eq]. destruct (mv_owned _ _ _ _ M) as [E|[E|E]]; rewrite E in Ho; [done| |].
      * apply (si_owned _ I k pc) in Ho as Hl; [|done]. apply (si_live _ I) in Hl as [? _]. lia.
      * injection Ho as <-. auto.
    + split; [|by left]. destruct (mv_table _ _ _ _ M) as [E|(_ & m & E & Eo & _)]; [congruence|]. rewrite E in Ht. injection Ht as ->.
      apply (si_owned _ I k pc) in Eo as Hl; [|done]. apply (si_live _ I) in Hl as [? _]. lia.
  - pose proof (tally_insert ref_of (threads s) k pc pc' Hk). pose proof (si_refs _ I). pose proof (mv_refs _ _ _ _ M). lia.
  - intros j q Hj. apply list_lookup_insert_Some in Hj as [(-> & -> & _)|[_ Hj]]; [|eapply knows_mono; [done|by apply (si_knows _ I j)]].
    pose proof (mv_knows _ _ _ _ M) as Hkn. by destruct q as [| | | | | | | |[|]].
Qed.

(** The fields of a move: arithmetic, alternatives, and the tables that are live, where the one of the thread is a case. *)
Ltac move_live := let x := fresh "x" in intros x; rewrite ?elem_of_union, ?elem_of_difference, ?elem_of_singleton;
  first [intuition congruence|match goal with n : nat |- _ => solve [destruct (decide (x = n)) as [->|]; intuition congruence] end].
Ltac move_field :=
  lazymatch goal with
  | |- @eq nat _ _ => lia
  | |- forall x, _ <-> _ => move_live
  | |- _ /\ (_ -> _ < _) => let E := fresh in split; [lia|intros E; try (injection E; intros);
      repeat match goal with H : ?n ∈ ?l, L : forall x, x ∈ ?l -> _ |- _ => pose proof (L n H); clear H end; lia]
  | |- _ ⊆ _ /\ _ => split; [set_solver|intros ? [= <-]; set_solver]
  | |- _ => first [by auto|eauto 10]
  end.

(** Every step of the code is such a move. *)
Lemma thread_step_moves s k pc ok : start_inv s -> threads s !! k = Some pc ->
  moves s (fst (thread_step ok s pc)) pc (snd (thread_step ok s pc)).
Proof.
  intros I Hk. pose proof (si_ready _ I) as Hr. pose proof (si_knows _ I k pc Hk) as Hkn.
  pose proof (si_owned _ I k pc) as Ho. pose proof (si_filled _ I k pc) as Hf. pose proof (si_refs _ I) as Hrf. pose proof (total_member _ _ _ Hk) as Hm.
  assert (forall n, n ∈ live s -> n < fresh_id s) as Hlt by (intros n Hn; apply (si_live _ I n Hn)).
  assert (forall n, table s = Some n -> owned pc <> Some n) as Ht by (intros n E; apply (si_table _ I n E) with k; done).
  destruct s as [tb rd rf lv fl id ts]. cbn [threads ready table refs live filled fresh_id] in *. unfold knows in Hkn.
  destruct pc as [| |n|n|n|n| | |b]; cbn [thread_step]; try (pose proof (Ho n Hk eq_refl)); try (pose proof (Hf n Hk eq_refl)); clear Ho Hf Hk I;
    repeat case_match; subst; cbn [fst snd]; split; cbn [owned has_filled ref_of knows ready table refs live filled fresh_id threads] in *; try done;
    move_field.
Qed.

Lemma start_run_inv callers sched : start_inv (start_run callers sched).
Proof.
  unfold start_run. pose proof (start_init_inv callers) as I. revert I. generalize (start_init callers).
  induction sched as [|[k ok] sched IH]; intros s I; [done|]. cbn [foldl]. apply IH. unfold start_step. cbn [fst snd].
  destruct (threads s !! k) as [pc|] eqn:E; [|done]. pose proof (thread_step_moves s k pc ok I E) as M.
  destruct (thread_step ok s pc) as [s' pc']. by apply (moves_inv s s' k pc pc').
Qed.

(** ** Results *)

(** A published table stays, and the flag follows: it is set, or a thread is about to set it. *)
Definition announced (s : start_state) : Prop :=
  table s <> None -> ready s = true \/ exists k, threads s !! k = Some SetReady.

Lemma announced_step s x : announced s -> announced (start_step s x).
Proof.
  intros A. unfold start_step. destruct (threads s !! fst x) as [pc|] eqn:E; [|done]. pose proof (lookup_lt_Some _ _ _ E) as Hlt.
  unfold announced in *. destruct s as [tb rd rf lv fl id ts]. cbn [threads ready table] in *.
  assert (forall pc', pc <> SetReady -> tb <> None -> rd = true \/ exists k, <[fst x := pc']> ts !! k = Some SetReady) as Hother.
  { intros pc' Hpc Ht. destruct (A Ht) as [?|[k Hk]]; [by left|right]. exists k. rewrite list_lookup_insert_ne; [done|]. intros <-. congruence. }
  destruct pc; cbn [thread_step]; repeat case_match; simplify_eq; cbn; auto; intros _; right; exists (fst x); by apply list_lookup_insert_eq.
Qed.
Lemma start_run_announced callers sched : announced (start_run callers sched).
Proof.
  unfold start_run. assert (announced (start_init callers)) as A by (intros H; by destruct H). revert A. generalize (start_init callers).
  induction sched as [|x sched IH]; intros s A; [done|]. by apply IH, announced_step.
Qed.

Lemma table_stays sched s n : table s = Some n -> table (foldl start_step s sched) = Some n.
Proof.
  revert s. induction sched as [|x sched IH]; intros s E; [done|]. apply IH. unfold start_step. destruct (threads s !! fst x) as [pc|]; [|done].
  destruct s as [tb rd rf lv fl id ts]. cbn in E. subst tb. destruct pc; cbn [thread_step]; repeat case_match; simplify_eq; done.
Qed.

(** C5: however threads interleave in [wpdk_socket_startup], one for which it has succeeded, or that
    found the flag set, finds a table with all slots initialised; that table is never replaced or freed; when no call is in
    progress, that table is the only one allocated and Winsock has been started exactly once, or nothing has
    been started and nothing is left allocated. *)
Theorem startup_race (callers : list bool) (sched : list (nat * bool)) :
  let s := start_run callers sched in
  (forall k, threads s !! k = Some (Started true) -> ready s = true /\ exists n, table s = Some n /\ n ∈ live s /\ n ∈ filled s) /\
  (forall n more, table s = Some n -> let s' := start_run callers (sched ++ more) in table s' = Some n /\ n ∈ live s' /\ n ∈ filled s') /\
  (Forall (fun pc => exists b, pc = Started b) (threads s) ->
   (ready s = true /\ refs s = 1 /\ exists n, table s = Some n /\ live s = {[n]}) \/
   (ready s = false /\ refs s = 0 /\ table s = None /\ live s = ∅)).
Proof.
  cbv zeta. pose proof (start_run_inv callers sched) as I. split_and!.
  - intros k Hk. pose proof (si_knows _ I k _ Hk) as Hr. cbn in Hr. split; [done|]. pose proof (si_ready _ I Hr) as Ht.
    destruct (table (start_run callers sched)) as [n|] eqn:E; [|done]. exists n. split; [done|]. destruct (si_table _ I n E) as (? & ? & _). done.
  - intros n more E. pose proof (start_run_inv callers (sched ++ more)) as I'. assert (table (start_run callers (sched ++ more)) = Some n) as E'.
    { unfold start_run. rewrite foldl_app. by apply table_stays. }
    destruct (si_table _ I' n E') as (? & ? & _). done.
  - intros Hall. rewrite Forall_lookup in Hall. set (s := start_run callers sched) in *.
    assert (total (threads s) = 0) as Ht0.
    { clear -Hall. induction (threads s) as [|pc l IH]; [done|]. destruct (Hall 0 pc eq_refl) as [b ->]. apply IH. intros i x Hx. by apply (Hall (S i)). }
    assert (forall n, n ∈ live s <-> table s = Some n) as Hl.
    { intros n. split; [|intros E; by apply (si_table _ I n E)]. intros Hn. destruct (si_live _ I n Hn) as [_ [?|(k & pc & Hk & Ho)]]; [done|].
      destruct (Hall k pc Hk) as [b ->]. done. }
    pose proof (si_refs _ I) as Hr. rewrite Ht0 in Hr. destruct (table s) as [n|] eqn:Et.
    + left. assert (ready s = true) as Hrd. { destruct (start_run_announced callers sched) as [?|[k Hk]]; [by fold s; rewrite Et|done|]. by destruct (Hall k _ Hk). }
      rewrite Hrd in Hr. split_and!; [done|lia|]. exists n. split; [done|]. apply set_eq. intros x. rewrite Hl, elem_of_singleton. naive_solver.
    + right. assert (ready s = false) as Hrd by (destruct (ready s) eqn:Er; [by destruct (si_ready _ I Er)|done]).
      rewrite Hrd in Hr. split_and!; [done|lia|done|]. apply set_eq. intros x. rewrite Hl. set_solver.
Qed.

(** Threads 0 and 1 both get past the test; both publish, thread 0 first; thread 2 finds the flag. *)
Definition sched0 : list (nat * bool) := [(0, true); (1, true); (0, true); (1, true); (1, true); (0, true); (0, true); (1, true); (0, true); (1, true); (1, true); (0, true); (1, true); (1, true); (2, true)].
Lemma sched0_done : threads (start_run [true; true; true] sched0) = [Started true; Started true; Started true].
Proof. vm_compute. reflexivity. Qed.
Lemma startup_race_witness : refs (start_run [true; true; true] sched0) = 1 /\
  ((ready (start_run [true; true; true] sched0) = true /\ refs (start_run [true; true; true] sched0) = 1 /\
    exists n, table (start_run [true; true; true] sched0) = Some n /\ live (start_run [true; true; true] sched0) = {[n]}) \/
   (ready (start_run [true; true; true] sched0) = false /\ refs (start_run [true; true; true] sched0) = 0 /\
    table (start_run [true; true; true] sched0) = None /\ live (start_run [true; true; true] sched0) = ∅)).
Proof.
  split; [vm_compute; reflexivity|]. apply (proj2 (proj2 (startup_race [true; true; true] sched0))).
  rewrite sched0_done. repeat constructor; by eexists.
Defined.
End StartupRace.
