(* ===== verification/EpollRace.v ===== *)
(** * EpollRace: threads that create and close epoll instances (src/src/epoll.c)

    [wpdk_allocate_epoll] and [wpdk_close_epoll] use no lock: the table and its slots are
    claimed with compare-and-exchange and released with an exchange.  The model has the heap:
    every call of calloc and free is a step; freeing a block that is not allocated is a fault,
    and so is the store of [wpdk_epoll_create1] through a slot that is empty or whose instance
    was freed since the slot was read.  A schedule is the list of the calls that run, one access at a time, with whether
    calloc succeeds. *)

From S2P Require Import Prelude Errno CString PathMap Proc Sockets Epolls.

Module Export EpollRace.

(** A call in progress; numbers are blocks of memory and slots. *)
Inductive epc :=
  | TestTable                   (* [if (!wpdk_epoll_fds)] *)
  | AllocTable                  (* the first calloc *)
  | PubTable (fds : nat)        (* the exchange of wpdk_epoll_fds *)
  | DropTable (fds : nat)       (* another table was published *)
  | AllocEp                     (* the second calloc *)
  | Scan (ep i : nat)           (* [if (wpdk_epoll_fds[i] == NULL)] *)
  | Claim (ep i : nat)          (* the exchange of the slot *)
  | DropEp (ep : nat)           (* no slot is free *)
  | LoadEp (i : nat)            (* wpdk_epoll_create1 reads [wpdk_epoll_fds[id - epollbase]] *)
  | StoreEp (i : nat) (ep : option nat)  (* and stores the flags through it *)
  | Created (i : nat)           (* [return id] *)
  | TestSlot (i : nat)          (* wpdk_close_epoll: wpdk_get_epoll *)
  | Exchange (i : nat)          (* its exchange of the slot *)
  | FreeEp (ep : nat)
  | Closed
  | Fails (error : Z).

Record er_state := ErState {
  er_table : option nat; er_slots : list (option nat);
  er_live : gset nat; er_fresh : nat;
  er_fault : bool;              (* a block was freed that was not allocated *)
  er_crash : bool;              (* a store through NULL or to a freed block *)
  er_calls : list epc
}.
Definition er_free (n : nat) (s : er_state) : er_state :=
  ErState (er_table s) (er_slots s) (er_live s ∖ {[n]}) (er_fresh s) (er_fault s || negb (bool_decide (n ∈ er_live s))) (er_crash s) (er_calls s).
Definition er_alloc (s : er_state) : er_state :=
  ErState (er_table s) (er_slots s) ({[er_fresh s]} ∪ er_live s) (S (er_fresh s)) (er_fault s) (er_crash s) (er_calls s).
Definition er_set_slot (i : nat) (o : option nat) (s : er_state) : er_state :=
  ErState (er_table s) (<[i := o]> (er_slots s)) (er_live s) (er_fresh s) (er_fault s) (er_crash s) (er_calls s).
Definition er_set_table (n : nat) (s : er_state) : er_state :=
  ErState (Some n) (er_slots s) (er_live s) (er_fresh s) (er_fault s) (er_crash s) (er_calls s).
Definition er_set_calls (l : list epc) (s : er_state) : er_state :=
  ErState (er_table s) (er_slots s) (er_live s) (er_fresh s) (er_fault s) (er_crash s) l.
Definition is_live (ep : option nat) (s : er_state) : bool :=
  match ep with Some n => bool_decide (n ∈ er_live s) | None => false end.
Definition er_store (ep : option nat) (s : er_state) : er_state :=
  ErState (er_table s) (er_slots s) (er_live s) (er_fresh s) (er_fault s) (er_crash s || negb (is_live ep s)) (er_calls s).

Definition slot_of (i : nat) (s : er_state) : option nat := mjoin (er_slots s !! i).

(** One access of a call. *)
Definition call_step (ok : bool) (s : er_state) (pc : epc) : er_state * epc :=
  match pc with
  | TestTable => (s, if decide (er_table s = None) then AllocTable else AllocEp)
  | AllocTable => if ok then (er_alloc s, PubTable (er_fresh s)) else (s, Fails ENOMEM)
  | PubTable n => match er_table s with None => (er_set_table n s, AllocEp) | Some _ => (s, DropTable n) end
  | DropTable n => (er_free n s, AllocEp)
  | AllocEp => if ok then (er_alloc s, Scan (er_fresh s) 0) else (s, Fails ENOMEM)
  | Scan n i =>
    if decide (i < maxepolls)%nat then (s, if decide (slot_of i s = None) then Claim n i else Scan n (S i)) else (s, DropEp n)
  | Claim n i => match slot_of i s with None => (er_set_slot i (Some n) s, LoadEp i) | Some _ => (s, Scan n (S i)) end
  | DropEp n => (er_free n s, Fails EMFILE)
  | LoadEp i => (s, StoreEp i (slot_of i s))
  | StoreEp i ep => (er_store ep s, Created i)
  | Created i => (s, Created i)
  | TestSlot i => (s, if decide (er_table s = None \/ (maxepolls <= i)%nat \/ slot_of i s = None) then Fails EBADF else Exchange i)
  | Exchange i => match slot_of i s with None => (s, Fails EBADF) | Some n => (er_set_slot i None s, FreeEp n) end
  | FreeEp n => (er_free n s, Closed)
  | Closed => (s, Closed)
  | Fails e => (s, Fails e)
  end.
Definition er_step (s : er_state) (x : nat * bool) : er_state :=
  match er_calls s !! fst x with
  | None => s
  | Some pc => let '(s', pc') := call_step (snd x) s pc in er_set_calls (<[fst x := pc']> (er_calls s)) s'
  end.

(** The calls: [None] is epoll_create1, [Some i] is close of the descriptor of slot [i]. *)
Definition er_init (calls : list (option nat)) : er_state :=
  ErState None (replicate maxepolls None) ∅ 0 false false (map (fun c => match c with None => TestTable | Some i => TestSlot i end) calls).
Definition er_run (calls : list (option nat)) (sched : list (nat * bool)) : er_state := foldl er_step (er_init calls) sched.

(** ** Blocks and who holds them *)

Definition holds (pc : epc) : option nat :=
  match pc with PubTable n | DropTable n | Scan n _ | Claim n _ | DropEp n | FreeEp n => Some n | _ => None end.
Definition blocks (s : er_state) : list nat := option_list (er_table s) ++ omap id (er_slots s) ++ omap holds (er_calls s).

(** Replacing an element of a list exchanges what it contributes. *)
Lemma omap_insert_perm {A} (f : A -> option nat) (l : list A) k old new : l !! k = Some old ->
  option_list (f old) ++ omap f (<[k := new]> l) ≡ₚ option_list (f new) ++ omap f l.
Proof.
  revert k. induction l as [|x l IH]; intros [|k] E; [done|done| |].
  - injection E as ->. cbn. destruct (f old), (f new); cbn; solve_Permutation.
  - specialize (IH k E). change (<[S k := new]> (x :: l)) with (x :: <[k := new]> l). cbn [omap list_omap].
    destruct (f x) as [y|]; [|done]. rewrite <- !Permutation_middle. by rewrite IH.
Qed.

Record er_inv (s : er_state) : Prop := {
  ei_nodup : NoDup (blocks s);
  ei_live : forall n, n ∈ er_live s <-> n ∈ blocks s;
  ei_fresh : forall n, n ∈ er_live s -> (n < er_fresh s)%nat;
  ei_fault : er_fault s = false;
  ei_slots : length (er_slots s) = maxepolls;
  ei_claim : forall k n i, er_calls s !! k = Some (Claim n i) -> (i < maxepolls)%nat
}.

Lemma slots_insert s i old new : slot_of i s = old -> (i < length (er_slots s))%nat ->
  option_list old ++ omap id (<[i := new]> (er_slots s)) ≡ₚ option_list new ++ omap id (er_slots s).
Proof.
  intros E Hi. apply lookup_lt_is_Some_2 in Hi as [o Ho]. unfold slot_of in E. rewrite Ho in E. cbn in E. subst o.
  exact (omap_insert_perm id _ _ _ _ Ho).
Qed.

Lemma slot_lookup s i n : slot_of i s = Some n -> er_slots s !! i = Some (Some n).
Proof. unfold slot_of. destruct (er_slots s !! i) as [o|]; cbn; [by intros ->|done]. Qed.
Lemma slot_some_lt s i n : slot_of i s = Some n -> (i < length (er_slots s))%nat.
Proof. intros H%slot_lookup. by eapply lookup_lt_Some. Qed.

(** What a step does to the blocks: nothing, a new one, or one is freed. *)
Inductive block_change (s s' : er_state) : Prop :=
  | bc_kept : blocks s' ≡ₚ blocks s -> er_live s' = er_live s -> er_fresh s' = er_fresh s -> er_fault s' = er_fault s -> block_change s s'
  | bc_new : blocks s' ≡ₚ er_fresh s :: blocks s -> er_live s' = {[er_fresh s]} ∪ er_live s -> er_fresh s' = S (er_fresh s) ->
      er_fault s' = er_fault s -> block_change s s'
  | bc_freed n : n :: blocks s' ≡ₚ blocks s -> er_live s' = er_live s ∖ {[n]} -> er_fresh s' = er_fresh s ->
      er_fault s' = er_fault s || negb (bool_decide (n ∈ er_live s)) -> block_change s s'.

Lemma change_inv s s' : er_inv s -> block_change s s' -> length (er_slots s') = maxepolls ->
  (forall k n i, er_calls s' !! k = Some (Claim n i) -> (i < maxepolls)%nat) -> er_inv s'.
Proof.
  intros [Hnd Hl Hf Hfl _ _] Hc Hs Hcl. split; try done; destruct Hc as [E L F FT|E L F FT|n E L F FT].
  - by rewrite E.
  - rewrite E. apply NoDup_cons. split; [|done]. intros Hn%Hl%Hf. lia.
  - rewrite <- E in Hnd. by apply NoDup_cons in Hnd as [_ ?].
  - intros n. rewrite L, E. apply Hl.
  - intros n. rewrite L, E, elem_of_cons, elem_of_union, elem_of_singleton, Hl. done.
  - intros x. rewrite <- E in Hnd. apply NoDup_cons in Hnd as [Hn _]. rewrite L, elem_of_difference, elem_of_singleton, Hl, <- E, elem_of_cons. naive_solver.
  - intros x. rewrite L, F. apply Hf.
  - intros x. rewrite L, F, elem_of_union, elem_of_singleton. intros [->|Hx%Hf]; lia.
  - intros x. rewrite L, F, elem_of_difference. intros [Hx _]. by apply Hf.
  - by rewrite FT.
  - by rewrite FT.
  - rewrite FT, Hfl, bool_decide_eq_true_2; [done|]. rewrite Hl, <- E. left.
Qed.

(** The state after a step, and its blocks. *)
Lemma step_change s k pc ok : er_inv s -> er_calls s !! k = Some pc ->
  block_change s (er_set_calls (<[k := snd (call_step ok s pc)]> (er_calls s)) (fst (call_step ok s pc))).
Proof.
  intros I Hk. pose proof (omap_insert_perm holds (er_calls s) k pc (snd (call_step ok s pc)) Hk) as HX. pose proof (ei_slots _ I) as Hlen.
  pose proof (ei_claim _ I k) as Hcl.
  destruct pc as [| |n|n| |n i|n i|n|i|i ep|i|i|i|n| |e]; cbn [call_step] in *; repeat case_match;
    cbn [fst snd holds option_list app] in HX |- *;
    try (apply bc_kept; [unfold blocks; cbn; (by rewrite HX) || (apply Permutation_cons_inv in HX; by rewrite HX)|done..]);
    try (apply bc_new; [unfold blocks; cbn; rewrite HX; solve_Permutation|done..]);
    try (apply (bc_freed _ _ n); [unfold blocks; cbn; rewrite <- HX; solve_Permutation|done..]).
  - apply bc_kept; [|done..]. unfold blocks. cbn. match goal with H : er_table s = None |- _ => rewrite H end. rewrite <- HX. cbn. solve_Permutation.
  - match goal with H : slot_of i s = None |- _ => pose proof (slots_insert s i None (Some n) H ltac:(rewrite Hlen; by eapply Hcl)) as HS end.
    apply bc_kept; [|done..]. unfold blocks. cbn in *. rewrite HS, <- HX. solve_Permutation.
  - match goal with H : slot_of i s = Some n |- _ => pose proof (slots_insert s i (Some n) None H (slot_some_lt _ _ _ H)) as HS end.
    apply bc_kept; [|done..]. unfold blocks. cbn in *. rewrite HX, <- HS. solve_Permutation.
Qed.

Lemma er_step_inv s x : er_inv s -> er_inv (er_step s x).
Proof.
  intros I. destruct x as [k ok]. unfold er_step. cbn [fst snd]. destruct (er_calls s !! k) as [pc|] eqn:Hk; [|done].
  pose proof (step_change s k pc ok I Hk) as Hc. pose proof (ei_slots _ I) as Hlen.
  destruct (call_step ok s pc) as [s' pc'] eqn:E. cbn [fst snd] in Hc. apply (change_inv s); [done|done| |].
  - cbn. destruct pc; cbn [call_step] in E; repeat case_match; simplify_eq; cbn; by rewrite ?length_insert.
  - intros j n i Hj. cbn in Hj. apply list_lookup_insert_Some in Hj as [(_ & -> & _)|[_ Hj]]; [|by eapply (ei_claim _ I)].
    destruct pc; cbn [call_step] in E; repeat case_match; simplify_eq; done.
Qed.

Lemma er_run_inv calls sched : er_inv (er_run calls sched).
Proof.
  assert (omap holds (er_calls (er_init calls)) = [] /\ forall k n i, er_calls (er_init calls) !! k <> Some (Claim n i)) as [H1 H2].
  { cbn. split; [|intros k n i; rewrite list_lookup_fmap; by destruct (calls !! k) as [[?|]|]]. induction calls as [|[i|] l IH]; [done|..]; exact IH. }
  assert (omap id (er_slots (er_init calls)) = []) as H3 by (cbn [er_init er_slots]; by induction maxepolls).
  assert (er_inv (er_init calls)) as I.
  { split; unfold blocks; rewrite ?H1, ?H3; cbn [er_init er_table option_list app er_live er_fault er_slots]; try done.
    - apply NoDup_nil_2.
    - intros n. cbn. set_solver.
    - intros n Hn. set_solver. }
  unfold er_run. revert I. generalize (er_init calls). clear. induction sched as [|x sched IH]; intros s I; [done|]. by apply IH, er_step_inv.
Qed.

(** ** Descriptors *)

(** Creations that have claimed their slot, and closings that have taken the instance out of its slot. *)
Definition created (pc : epc) : nat := match pc with LoadEp _ | StoreEp _ _ | Created _ => 1 | _ => 0 end.
Definition taken_out (pc : epc) : nat := match pc with FreeEp _ | Closed => 1 | _ => 0 end.
(** Every creation is in a slot until a closing takes it out. *)
Definition balanced (s : er_state) : Prop :=
  (length (omap id (er_slots s)) + tally taken_out (er_calls s) = tally created (er_calls s))%nat.

Lemma er_step_balanced s x : er_inv s -> balanced s -> balanced (er_step s x).
Proof.
  intros I B. destruct x as [k ok]. unfold er_step. cbn [fst snd]. destruct (er_calls s !! k) as [pc|] eqn:Hk; [|done].
  destruct (call_step ok s pc) as [s' pc'] eqn:E. pose proof (tally_insert created _ k pc pc' Hk). pose proof (tally_insert taken_out _ k pc pc' Hk).
  unfold balanced in *. cbn [er_set_calls er_slots er_calls].
  assert (length (omap id (er_slots s')) + created pc + taken_out pc' = length (omap id (er_slots s)) + created pc' + taken_out pc)%nat; [|lia].
  pose proof (ei_claim _ I k) as Hcl. pose proof (ei_slots _ I) as Hlen. destruct pc as [| |n|n| |n i|n i|n|i|i ep|i|i|i|n| |e]; cbn [call_step] in E; repeat case_match; simplify_eq; cbn [er_slots er_alloc er_free er_set_table er_set_slot created taken_out]; try done.
  - match goal with H : slot_of i s = None |- _ => pose proof (slots_insert s i None (Some n) H ltac:(rewrite Hlen; by eapply Hcl)) as HS end.
    apply Permutation_length in HS. cbn in *. lia.
  - match goal with H : slot_of i s = Some ?n |- _ => pose proof (slots_insert s i (Some n) None H (slot_some_lt _ _ _ H)) as HS end.
    apply Permutation_length in HS. cbn in *. lia.
Qed.

Lemma er_run_balanced calls sched : balanced (er_run calls sched).
Proof.
  pose proof (er_run_inv calls []) as I. cbn in I. assert (balanced (er_init calls)) as B.
  { unfold balanced. replace (omap id (er_slots (er_init calls))) with (@nil nat) by (cbn [er_init er_slots]; by induction maxepolls).
    cbn [er_init er_calls length]. induction calls as [|[i|] l IH]; cbn in *; [done|..]; apply IH; apply (er_run_inv l []). }
  unfold er_run. revert I B. generalize (er_init calls). clear. induction sched as [|x sched IH]; intros s I B; [done|].
  apply IH; [by apply er_step_inv|by apply er_step_balanced].
Qed.

Lemma slot_in s n : n ∈ omap id (er_slots s) <-> exists i, slot_of i s = Some n.
Proof.
  rewrite list_elem_of_omap. split.
  - intros (o & Ho & E). cbn in E. subst o. apply list_elem_of_lookup in Ho as [i Ho]. exists i. unfold slot_of. by rewrite Ho.
  - intros [i E%slot_lookup]. exists (Some n). split; [by eapply list_elem_of_lookup_2|done].
Qed.

Lemma omap_id_inj (l : list (option nat)) i j n : NoDup (omap id l) -> l !! i = Some (Some n) -> l !! j = Some (Some n) -> i = j.
Proof.
  assert (forall k (l : list (option nat)), l !! k = Some (Some n) -> n ∈ omap id l) as Hin.
  { intros k l' E. apply list_elem_of_omap. exists (Some n). split; [by eapply list_elem_of_lookup_2|done]. }
  revert i j. induction l as [|o l IH]; intros [|i] [|j] Hnd Hi Hj; try done; cbn in Hi, Hj.
  - injection Hi as ->. cbn in Hnd. apply NoDup_cons in Hnd as [Hn _]. by destruct (Hn (Hin j l Hj)).
  - injection Hj as ->. cbn in Hnd. apply NoDup_cons in Hnd as [Hn _]. by destruct (Hn (Hin i l Hi)).
  - f_equal. apply IH; [|done|done]. cbn in Hnd. destruct o; [by apply NoDup_cons in Hnd as [_ ?]|done].
Qed.

Definition finished (pc : epc) : bool := match pc with Created _ | Closed | Fails _ => true | _ => false end.

(** ** The store of the flags *)

(** A creation that has claimed slot [i] and has not returned. *)
Definition returning (i : nat) (pc : epc) : bool := match pc with LoadEp j | StoreEp j _ => bool_decide (i = j) | _ => false end.
(** No closing takes an instance out of its slot before its creation has returned. *)
Definition orderly_step (s : er_state) (x : nat * bool) : bool :=
  match er_calls s !! fst x with Some (Exchange i) => negb (existsb (returning i) (er_calls s)) | _ => true end.
Fixpoint orderly (s : er_state) (sched : list (nat * bool)) : bool :=
  match sched with [] => true | x :: sched => orderly_step s x && orderly (er_step s x) sched end.

(** A creation that has not returned finds its instance in the slot. *)
Definition returns_to (s : er_state) (pc : epc) : Prop :=
  match pc with LoadEp i => slot_of i s <> None | StoreEp i ep => ep = slot_of i s /\ ep <> None | _ => True end.
Definition ord_inv (s : er_state) : Prop := er_crash s = false /\ forall k pc, er_calls s !! k = Some pc -> returns_to s pc.

Lemma slot_set i j o s s' : er_slots s' = <[i := o]> (er_slots s) -> slot_of j s' = if decide (i = j /\ i < length (er_slots s)) then o else slot_of j s.
Proof.
  intros E. unfold slot_of. rewrite E. case_decide as D.
  - destruct D as [<- D]. by rewrite list_lookup_insert_eq.
  - destruct (decide (i = j)) as [<-|]; [|by rewrite list_lookup_insert_ne]. rewrite list_insert_ge by lia. done.
Qed.
Lemma not_returning i l k pc : existsb (returning i) l = false -> l !! k = Some pc -> returning i pc = false.
Proof. intros H Hk. destruct (returning i pc) eqn:E; [|done]. rewrite <- H. symmetry. apply existsb_exists. exists pc. split; [|done]. apply list_elem_of_In. by eapply list_elem_of_lookup_2. Qed.

(** What a slot that a creation will return to does in an orderly step. *)
Lemma orderly_slots s k ok pc s' pc' j q : orderly_step s (k, ok) = true -> er_calls s !! k = Some pc -> call_step ok s pc = (s', pc') ->
  er_calls s !! j = Some q -> returns_to s q -> returns_to s' q.
Proof.
  unfold orderly_step. cbn [fst]. intros Ho Hk E Hj R. rewrite Hk in Ho.
  destruct pc; cbn [call_step] in E; repeat case_match; simplify_eq; try exact R.
  - destruct q; cbn [returns_to] in *; try done; erewrite slot_set by reflexivity; case_decide as D; try done; destruct D as [<- _]; intuition congruence.
  - apply negb_true_iff in Ho. pose proof (not_returning _ _ j q Ho Hj) as Hq.
    destruct q; cbn [returns_to returning] in *; try done; apply bool_decide_eq_false in Hq; erewrite slot_set by reflexivity; by rewrite decide_False by tauto.
Qed.

Lemma ord_inv_step s x : er_inv s -> ord_inv s -> orderly_step s x = true -> ord_inv (er_step s x).
Proof.
  intros I [Hc Hr] Ho. destruct x as [k ok]. unfold er_step. cbn [fst snd]. destruct (er_calls s !! k) as [pc|] eqn:Hk; [|done].
  destruct (call_step ok s pc) as [s' pc'] eqn:E. pose proof (Hr k pc Hk) as Hpc. split.
  - cbn. destruct pc; cbn [call_step] in E; repeat case_match; simplify_eq; cbn; try done. cbn in Hpc. destruct Hpc as [-> Hn].
    destruct (slot_of i s) as [n|] eqn:Hs; [|done]. rewrite Hc. cbn. rewrite bool_decide_eq_true_2; [done|]. apply (ei_live _ I). unfold blocks. rewrite !elem_of_app. right; left.
    apply list_elem_of_omap. exists (Some n). split; [|done]. apply slot_lookup in Hs. by eapply list_elem_of_lookup_2.
  - intros j q Hj. cbn in Hj. apply list_lookup_insert_Some in Hj as [(_ & -> & _)|[_ Hj]].
    + pose proof (ei_slots _ I) as Hlen. destruct pc as [| |n|n| |n i|n i|n|i|i ep|i|i|i|n| |e]; cbn [call_step] in E; repeat case_match; simplify_eq; try done.
      cbn. change (slot_of i (er_set_slot i (Some n) s) <> None). erewrite slot_set by reflexivity. rewrite decide_True; [done|]. split; [done|]. rewrite Hlen. by apply (ei_claim _ I k n).
    + assert (returns_to s' q) as R by (by eapply orderly_slots; eauto). by destruct q.
Qed.

Lemma orderly_run calls sched : orderly (er_init calls) sched = true -> er_crash (er_run calls sched) = false.
Proof.
  assert (ord_inv (er_init calls)) as O.
  { split; [done|]. intros k pc Hk. cbn in Hk. apply list_lookup_fmap_Some in Hk as (c & -> & _). by destruct c. }
  pose proof (er_run_inv calls []) as I. cbn in I. unfold er_run. revert I O. generalize (er_init calls). clear.
  induction sched as [|x sched IH]; intros s I O; [intros _; apply O|]. cbn [orderly foldl]. intros [H1 H2]%andb_true_iff.
  apply IH; [by apply er_step_inv|by apply ord_inv_step|done].
Qed.

(** C6: however creations and closings of epoll instances interleave, nothing is freed that is not
    allocated; every instance in a slot is allocated and belongs to that slot alone; each closing that succeeds ends
    exactly one creation; and when no call is in progress, the table and the instances in its slots are all that is
    allocated.  The store of the flags is to an allocated instance as long as no closing takes an instance out of its
    slot before its creation has returned. *)
Theorem epoll_race (calls : list (option nat)) (sched : list (nat * bool)) :
  let s := er_run calls sched in
  er_fault s = false /\
  (orderly (er_init calls) sched = true -> er_crash s = false) /\
  (forall i j n, slot_of i s = Some n -> n ∈ er_live s /\ (slot_of j s = Some n -> i = j)) /\
  (length (omap id (er_slots s)) + tally taken_out (er_calls s) = tally created (er_calls s))%nat /\
  (forallb finished (er_calls s) = true -> forall n, n ∈ er_live s <-> er_table s = Some n \/ exists i, slot_of i s = Some n).
Proof.
  cbv zeta. pose proof (er_run_inv calls sched) as I. set (s := er_run calls sched) in *. split_and!.
  - apply (ei_fault _ I).
  - apply orderly_run.
  - intros i j n Hi. split.
    + apply (ei_live _ I). unfold blocks. rewrite !elem_of_app, slot_in. eauto.
    + intros Hj. pose proof (ei_nodup _ I) as Hnd. unfold blocks in Hnd. apply NoDup_app in Hnd as (_ & _ & Hnd). apply NoDup_app in Hnd as (Hnd & _ & _).
      by apply (omap_id_inj _ i j n Hnd); apply slot_lookup.
  - apply er_run_balanced.
  - intros Hfin n. rewrite (ei_live _ I). unfold blocks. rewrite !elem_of_app, slot_in.
    assert (omap holds (er_calls s) = []) as ->.
    { clear -Hfin. induction (er_calls s) as [|pc l IH]; [done|]. cbn in *. apply andb_true_iff in Hfin as [H1 H2]. rewrite IH by done. by destruct pc. }
    rewrite elem_of_nil. destruct (er_table s) as [t|]; cbn; rewrite ?list_elem_of_singleton, ?elem_of_nil; naive_solver.
Qed.

(** Two creations race for the table and for slot 0; then slot 0 is closed twice at once. *)
Definition race_calls : list (option nat) := [None; None; Some 0%nat; Some 0%nat].
Definition race_sched : list (nat * bool) :=
  [(0, true); (1, true); (0, true); (1, true); (1, true); (0, true); (0, true); (1, true); (0, true);
   (0, true); (1, true); (0, true); (1, true); (1, true); (1, true); (0, true); (0, true); (1, true); (1, true);
   (2, true); (3, true); (3, true); (2, true); (3, true)]%nat.
Lemma race_done : er_calls (er_run race_calls race_sched) = [Created 0; Created 1; Fails EBADF; Closed]%nat.
Proof. vm_compute. reflexivity. Qed.
Lemma race_finished : forallb finished (er_calls (er_run race_calls race_sched)) = true.
Proof. by rewrite race_done. Qed.
Lemma epoll_race_witness : forallb finished (er_calls (er_run race_calls race_sched)) = true /\
  er_crash (er_run race_calls race_sched) = false /\
  forall n, n ∈ er_live (er_run race_calls race_sched) <->
    er_table (er_run race_calls race_sched) = Some n \/ exists i, slot_of i (er_run race_calls race_sched) = Some n.
Proof.
  destruct (epoll_race race_calls race_sched) as (_ & H1 & _ & _ & H2).
  exact (conj race_finished (conj (H1 ltac:(vm_compute; reflexivity)) (H2 race_finished))).
Defined.

(** Without that: descriptor 0 is closed after the claim and before the creation has read its slot, which is NULL
    then, or between the read and the store, which goes to the freed instance. *)
Definition early_close (n : nat) : er_state :=
  er_run [None; Some 0%nat] (replicate (6 + n) (0%nat, true) ++ replicate 3 (1%nat, true) ++ replicate 2 (0%nat, true)).
Lemma create_crashes : er_crash (early_close 0) = true /\ er_crash (early_close 1) = true /\ er_crash (early_close 2) = false /\
  er_calls (early_close 2) = [Created 0; Closed]%nat.
Proof. vm_compute. split_and!; reflexivity. Qed.
End EpollRace.
