(* ===== verification/EpollClosed.v ===== *)
(** * EpollClosed: closing a socket that an epoll instance watches (src/src/socket.c and epoll.c together)

    An epoll instance holds the handles of its sockets; closing a descriptor does not look at
    the instances, and the descriptor is needed to remove the handle.  The class [SelectOpen] has
    what Winsock documents: [select] fails when a set holds a handle that is not open. *)

From S2P Require Import Prelude Errno CString PathMap Proc Sockets Epolls.

Module Export EpollClosed.
Local Open Scope Z_scope.

Class SelectOpen (W : Type) `{!Winsock W, !WinsockLaws W} :=
  select_open : forall n rds exs w, (exists s, s ∈ rds ++ exs /\ w_handles w !! s = None) -> fst (fst (fst (w_select n rds exs w))) = SOCKET_ERROR.

(** A registered socket with the event is in the set, as there are no more slots than a set holds. *)
Lemma build_set_keeps ep bit s fuel : forall i set, s ∈ set -> s ∈ build_set ep bit i fuel set.
Proof.
  induction fuel as [|fuel IH]; intros i set Hs; [done|]. cbn [build_set]. apply IH. destruct (_ || _); [done|].
  unfold FD_SET. case_bool_decide; [done|]. destruct (_ <? _)%nat; [apply elem_of_app; by left|done].
Qed.
Lemma build_set_has ep bit fuel : forall i j set, (i <= j < i + fuel)%nat -> (length set + fuel <= FD_SETSIZE)%nat ->
  socket_at ep j <> INVALID_SOCKET -> Z.land (events (event_at ep j)) bit <> 0 -> socket_at ep j ∈ build_set ep bit i fuel set.
Proof.
  induction fuel as [|fuel IH]; intros i j set Hj Hl Hs Hb; [lia|]. cbn [build_set]. destruct (decide (i = j)) as [->|Hne].
  - apply build_set_keeps. rewrite (proj2 (Z.eqb_neq _ _) Hs), (proj2 (Z.eqb_neq _ _) Hb). cbn [orb]. unfold FD_SET.
    case_bool_decide; [done|]. rewrite (proj2 (Nat.ltb_lt _ _)) by lia. apply elem_of_app. right. by apply list_elem_of_singleton.
  - apply IH; [lia| |done|done]. destruct (_ || _); [lia|]. unfold FD_SET. case_bool_decide; [lia|].
    destruct (_ <? _)%nat; [rewrite length_app; cbn; lia|lia].
Qed.

Section Closed.
Context {W : Type} `{!Winsock W, !WinsockLaws W, !SelectOpen W}.

(** Slot [i] watches handle [s] for input or errors. *)
Definition watches (ep : epoll) (i : nat) (s : Z) : Prop :=
  (i < count ep)%nat /\ socket_at ep i = s /\ s <> INVALID_SOCKET /\
  (Z.land (events (event_at ep i)) EPOLLIN <> 0 \/ Z.land (events (event_at ep i)) EPOLLERR <> 0).

(** A wait on an instance that watches a handle that is not open. *)
Lemma wait_on_closed (q : proc W) epfd id ep i s maxevents : epolls_inv q -> epoll_of q epfd = Some (id, ep) -> watches ep i s ->
  w_handles (world q) !! s = None -> 1 <= maxevents -> fst (wpdk_epoll_wait epfd true maxevents 0 q) = WaitReturns (-1) [].
Proof.
  intros Hq He (Hi & Hs & Hne & Hev) Hc Hm. pose proof (epoll_of_ok _ _ _ _ Hq He) as Hok. pose proof (ep_count ep Hok) as Hn.
  assert (worktodo ep = true) as Hw.
  { unfold worktodo. apply existsb_exists. exists i. split; [apply in_seq; lia|]. rewrite Hs, (proj2 (Z.eqb_neq _ _) Hne). cbn [negb andb].
    destruct Hev as [H|H]; rewrite (proj2 (Z.eqb_neq _ _) H); cbn [negb]; [done|apply orb_true_r]. }
  unfold wpdk_epoll_wait. rewrite bind_run, get_epoll_run, He. cbn [fst snd]. rewrite (proj2 (Z.ltb_ge _ _)) by lia. cbn [negb orb Z.eqb]. rewrite Hw. cbn [negb].
  rewrite bind_run, lift_run. cbn [fst snd]. pose proof (select_open (ep_maxcount ep) (build_set ep EPOLLIN 0 (count ep) []) (build_set ep EPOLLERR 0 (count ep) []) (world q)) as Hsel.
  destruct (w_select _ _ _ (world q)) as [[[rc rds] exs] w']. cbn [fst snd] in *. rewrite Hsel; [by cbn|]. exists s. split; [|done].
  apply elem_of_app. rewrite <- Hs in Hne |- *. assert (count ep <= FD_SETSIZE)%nat by (unfold count; lia).
  destruct Hev as [H'|H']; [left|right]; (apply build_set_has; [lia|cbn; lia|done|done]).
Qed.

(** Closing leaves every instance as it is, and the handle closed. *)
Lemma close_socket_epolls (p : proc W) fd : sock_inv p -> handle_of p fd <> INVALID_SOCKET ->
  let q := snd (wpdk_close_socket fd p) in pr_epolls q = pr_epolls p /\
  (fst (wpdk_close_socket fd p) = 0 -> w_handles (world q) !! handle_of p fd = None).
Proof.
  intros _ Hne. cbv zeta. pose proof (get_socket_run fd p) as Hg. unfold handle_of in *. destruct (wpdk_get_socket fd p) as [s p'] eqn:Eg. cbn [fst] in *.
  destruct Hg as [[-> _]|(Hs & -> & Hi & l & Hl & E)]; [done|]. unfold wpdk_close_socket. rewrite bind_run, Eg. cbn [fst snd].
  rewrite (proj2 (Z.eqb_neq _ _) Hs), bind_run. cbn [get_fds gets fst snd]. rewrite Hl. change (default [] (Some l)) with l. rewrite E, Z.eqb_refl.
  rewrite !bind_run, lift_run. cbn [put_fd modify fst snd]. cbn [world set_fds]. pose proof (handles_close s (world p)) as Hc.
  destruct (closesocket s (world p)) as [rc w']. cbn [fst snd]. destruct (rc =? SOCKET_ERROR); cbn; [done|]. split; [done|]. intros _. rewrite Hc. apply lookup_delete_eq.
Qed.

(** A socket that is closed while an instance watches it stays registered: [epoll_ctl] refuses the descriptor,
    whatever it is asked, so that it cannot be removed, and every wait on the instance fails, for all its sockets, while the
    handle is not open again. *)
Theorem closed_socket_watched (p : proc W) (fd epfd : Z) (id : nat) (ep : epoll) (i : nat) :
  sock_inv p -> epolls_inv p -> epoll_of p epfd = Some (id, ep) -> handle_of p fd <> INVALID_SOCKET -> watches ep i (handle_of p fd) ->
  fst (wpdk_close_socket fd p) = 0 ->
  let q := snd (wpdk_close_socket fd p) in
  epoll_of q epfd = Some (id, ep) /\
  (forall op ev, fst (wpdk_epoll_ctl epfd op fd ev q) = -1 /\ errno (snd (wpdk_epoll_ctl epfd op fd ev q)) = EBADF /\
    epoll_of (snd (wpdk_epoll_ctl epfd op fd ev q)) epfd = Some (id, ep)) /\
  (forall maxevents, 1 <= maxevents -> fst (wpdk_epoll_wait epfd true maxevents 0 q) = WaitReturns (-1) []).
Proof.
  intros Hp Hi He Hne Hw Hz. cbv zeta. pose proof (close_socket_epolls p fd Hp Hne) as [Hep Hclosed]. specialize (Hclosed Hz).
  destruct (close_socket_frees p fd Hp Hne) as (Hgone & _). cbv zeta in *. set (q := snd (wpdk_close_socket fd p)) in *. clearbody q.
  assert (epolls_inv q) as Hq by (unfold epolls_inv in *; by rewrite Hep). rewrite (epoll_of_same q p epfd Hep). split_and!; [done| |].
  - intros op ev. destruct (get_socket_snd fd q) as [e Es]. unfold wpdk_epoll_ctl. rewrite bind_run. fold (handle_of q fd). rewrite Hgone, Es, bind_run, get_epoll_run. cbn [fst snd].
    assert (epoll_of (set_errno e q) epfd = Some (id, ep)) as -> by (by rewrite (epoll_of_same _ p epfd)). rewrite Z.eqb_refl. cbn.
    split_and!; [done..|]. by rewrite (epoll_of_same _ p epfd).
  - intros maxevents. apply (wait_on_closed q epfd id ep i (handle_of p fd)); [done| |done|done]. by rewrite (epoll_of_same q p epfd Hep).
Qed.
End Closed.

(** ** A Winsock whose select looks at the handles *)
Module StrictWinsock.
Import SimpleWinsock.
Definition strict_select (_ : Z) (rds exs : list Z) : C w (Z * list Z * list Z) := fun h : gmap Z bool =>
  if forallb (fun s => bool_decide (is_Some (h !! s))) (rds ++ exs) then ((Z.of_nat (length (rds ++ exs)), rds, exs), h) else ((SOCKET_ERROR, rds, exs), h).
#[export] Instance strict : Winsock w := {|
  w_WSAGetLastError := @w_WSAGetLastError w simple; w_WSASetLastError := @w_WSASetLastError w simple; WSAStartup := @WSAStartup w simple;
  WSACleanup := @WSACleanup w simple; w_socket := @w_socket w simple; closesocket := @closesocket w simple;
  ioctlsocket_FIONBIO := @ioctlsocket_FIONBIO w simple; w_accept := @w_accept w simple; w_bind := @w_bind w simple; w_connect := @w_connect w simple;
  w_getpeername := @w_getpeername w simple; w_getsockname := @w_getsockname w simple; w_getsockopt := @w_getsockopt w simple;
  w_setsockopt := @w_setsockopt w simple; w_listen := @w_listen w simple; w_shutdown := @w_shutdown w simple; w_recv := @w_recv w simple;
  w_recvfrom := @w_recvfrom w simple; w_send := @w_send w simple; w_sendto := @w_sendto w simple; WSARecv := @WSARecv w simple;
  WSASend := @WSASend w simple; w_select := strict_select; w_calloc := @w_calloc w simple; w_free := @w_free w simple; w_env := @w_env w simple |}.
#[export] Instance strict_laws : WinsockLaws w.
Proof.
  refine {| w_handles := fun h => h |}; try done.
  - intros. apply open_new_law.
  - intros. apply open_new_law.
  - intros s mode h Hs. cbn. unfold set_mode. destruct (h !! s); [reflexivity|congruence].
  - intros n rds exs h. cbn. unfold strict_select. by destruct (forallb _ _).
Defined.
#[export] Instance strict_open : SelectOpen w.
Proof.
  intros n rds exs h (s & Hs & Hn). cbn in *. unfold strict_select. destruct (forallb _ _) eqn:E; [|done].
  rewrite forallb_forall in E. specialize (E s ltac:(by apply list_elem_of_In)). apply bool_decide_eq_true in E as [b E]. unfold w in *. congruence.
Qed.
(** A socket that is registered for input and errors. *)
Definition registered : proc w :=
  fold_left (fun p c => run_epoll_call c p)
    [ECreate 0; ESock (CSocket 2 1 0); ECtl 0x20000 EPOLL_CTL_ADD 0x10000 (Some (EpollEvent 5 77))] (proc0 ∅).
Definition registered_epoll : epoll := match epoll_of registered 0x20000 with Some (_, ep) => ep | None => new_epoll 0 end.
Lemma registered_inv : epolls_inv registered.
Proof.
  apply inv_ctl. apply (epolls_inv_same (snd (wpdk_epoll_create1 0 (proc0 ∅)))).
  - by apply (epolls_run_call (pr_epolls (snd (wpdk_epoll_create1 0 (proc0 (∅ : w)))))).
  - apply inv_create1. intros l [=].
Qed.
End StrictWinsock.
Import SimpleWinsock StrictWinsock.

(** The socket is closed: the wait that reported it before fails, and it cannot be removed. *)
Lemma closed_socket_watched_witness :
  fst (wpdk_epoll_wait 0x20000 true 4 0 registered) = WaitReturns 1 [EpollEvent 5 77] /\
  fst (wpdk_epoll_wait 0x20000 true 4 0 (snd (wpdk_close_socket 0x10000 registered))) = WaitReturns (-1) [] /\
  fst (wpdk_epoll_ctl 0x20000 EPOLL_CTL_DEL 0x10000 None (snd (wpdk_close_socket 0x10000 registered))) = -1.
Proof.
  split; [vm_compute; reflexivity|].
  destruct (closed_socket_watched registered 0x10000 0x20000 0 registered_epoll 0) as (_ & H1 & H2).
  - apply (sock_inv_same (run_calls [CSocket 2 1 0] (proc0 (∅ : w)))); [vm_compute; reflexivity..|]. apply run_calls_inv. split; [done|intros l [=]].
  - exact registered_inv.
  - vm_compute. reflexivity.
  - vm_compute. discriminate.
  - split_and!; [vm_compute; lia|vm_compute; reflexivity|vm_compute; discriminate|left; vm_compute; discriminate].
  - vm_compute. reflexivity.
  - split; [apply H2; lia|apply H1].
Defined.
End EpollClosed.
