(* ===== verification/Threads.v ===== *)
(** * Threads: the table of joinable threads (src/src/pthread.c)

    [struct thread] objects live in a heap; the table [wpdk_threads] points to
    them.  The functions that take [wpdk_threads_lock] are atomic and executable
    here; an access to an object that was freed, or freeing one twice, is the
    outcome [None].  The calls into Windows ([calloc], [_beginthreadex],
    [WaitForSingleObjectEx], ...) are arguments: their results. *)

From S2P Require Import Prelude Errno.

Module Export Threads.
Local Open Scope Z_scope.

Definition maxthreads : nat := Z.to_nat 8192.
Arguments maxthreads : simpl never.
Definition PTHREAD_CREATE_DETACHED : Z := 1.

(** [struct thread]; [start] is 0 when it is NULL. *)
Record thread := Thread {
  th_id : Z; th_h : Z; th_start : Z; th_arg : Z; th_result : Z; th_index : Z
}.
#[export] Instance thread_eq_dec : EqDecision thread.
Proof. solve_decision. Defined.

(** The static variables and the heap of [struct thread] objects by address. *)
Record tstate := TState {
  wpdk_threads : option (list (option Z));
  hwmthreads : nat;
  heap : gmap Z thread
}.

Definition tstate0 : tstate := TState None 0 ∅.

Definition set_heap (h : gmap Z thread) (st : tstate) : tstate :=
  TState (wpdk_threads st) (hwmthreads st) h.
Definition set_table (i : nat) (e : option Z) (st : tstate) : tstate :=
  TState ((fun l => <[i := e]> l) <$> wpdk_threads st) (hwmthreads st) (heap st).

Definition entry (st : tstate) (i : nat) : option Z :=
  match wpdk_threads st with Some l => default None (l !! i) | None => None end.

(** [free(p)]: [None] when [p] is not allocated. *)
Definition free (p : Z) (st : tstate) : option tstate :=
  match heap st !! p with
  | Some _ => Some (set_heap (delete p (heap st)) st)
  | None => None
  end.

Definition zero_thread : thread := Thread 0 0 0 0 0 0.

Definition set_id_h (id h : Z) (t : thread) : thread :=
  Thread id h (th_start t) (th_arg t) (th_result t) (th_index t).
Definition set_index (i : Z) (t : thread) : thread :=
  Thread (th_id t) (th_h t) (th_start t) (th_arg t) (th_result t) i.
Definition set_start (f : Z) (t : thread) : thread :=
  Thread (th_id t) (th_h t) f (th_arg t) (th_result t) (th_index t).
Definition set_arg (a : Z) (t : thread) : thread :=
  Thread (th_id t) (th_h t) (th_start t) a (th_result t) (th_index t).
Definition set_result (r : Z) (t : thread) : thread :=
  Thread (th_id t) (th_h t) (th_start t) (th_arg t) r (th_index t).

(** [table] is whether [calloc] of the table succeeds, if it is needed; [p] the
    result of [calloc] for the object.  The result is the object or the errno. *)
Definition wpdk_allocate_thread (table : bool) (p : option Z) (st : tstate)
    : (Z + Z) * tstate :=
  let st := match wpdk_threads st with
            | None => if table then TState (Some (replicate maxthreads None))
                                      (hwmthreads st) (heap st) else st
            | Some _ => st
            end in
  match wpdk_threads st, p with
  | Some _, Some p =>
      let i := scan (fun i => match entry st i with None => true | Some _ => false end) maxthreads in
      if (i <? maxthreads)%nat then
        let st := set_table i (Some p) st in
        (inr p, TState (wpdk_threads st)
                  (if (hwmthreads st <=? i)%nat then S i else hwmthreads st)
                  (<[p := set_index (Z.of_nat i) zero_thread]> (heap st)))
      else (inl EMFILE, st)
  | _, _ => (inl ENOMEM, st)
  end.

Definition wpdk_set_thread_info (p id h : Z) (detached : bool) (st : tstate) : option tstate :=
  t ← heap st !! p;
  let t := set_id_h id (if detached then 0 else h) t in
  let st :=
    if th_h t =? 0
    then set_heap (<[p := set_index (-1) t]> (heap st)) (set_table (Z.to_nat (th_index t)) None st)
    else set_heap (<[p := t]> (heap st)) st in
  if h =? 0 then free p st else Some st.

(** The test [wpdk_threads[i] && wpdk_threads[i]->id == id]. *)
Definition has_id (st : tstate) (id : Z) (i : nat) : bool :=
  match entry st i with
  | Some p => match heap st !! p with Some t => th_id t =? id | None => false end
  | None => false
  end.

(** The handle and index of a thread. *)
Definition wpdk_get_thread_info (id : Z) (st : tstate) : option (Z * nat) :=
  let i := scan (has_id st id) (hwmthreads st) in
  if (i <? hwmthreads st)%nat then
    match entry st i with
    | Some p => match heap st !! p with Some t => Some (th_h t, i) | None => None end
    | None => None
    end
  else None.

(** The copy of the object and the state. *)
Definition wpdk_thread_starting (p : Z) (st : tstate) : option (thread * tstate) :=
  info ← heap st !! p;
  let st := set_heap (<[p := set_start 0 info]> (heap st)) st in
  if th_index info =? -1 then st ← free p st; Some (info, st) else Some (info, st).

(** The index searched for when [index] is -1, otherwise [index]; [None] when
    it is outside [0, maxthreads). *)
Definition locate (id index : Z) (st : tstate) : option nat :=
  let i := match wpdk_threads st with
           | Some _ => if index =? -1 then Z.of_nat (scan (has_id st id) (hwmthreads st)) else index
           | None => index
           end in
  if (0 <=? i) && (i <? Z.of_nat maxthreads) then
    match wpdk_threads st with
    | Some _ => if has_id st id (Z.to_nat i) then Some (Z.to_nat i) else None
    | None => None
    end
  else None.

(** [id] is [GetCurrentThreadId()]. *)
Definition wpdk_thread_done (id index result : Z) (st : tstate) : tstate :=
  match locate id index st with
  | Some i =>
      match entry st i with
      | Some p => set_heap (alter (set_result result) p (heap st)) st
      | None => st
      end
  | None => st
  end.

(** [None] when no thread is found; otherwise its result, the handle that is
    closed (0: none), and the state. *)
Inductive detached_thread := NotFound | Detached (result : Z) (closed : Z).

Definition wpdk_detach_thread (id index : Z) (st : tstate) : option (detached_thread * tstate) :=
  match locate id index st with
  | None => Some (NotFound, st)
  | Some i =>
      p ← entry st i;
      t ← heap st !! p;
      let st := set_heap (<[p := set_index (-1) t]> (heap st)) (set_table i None st) in
      st ← (if th_start t =? 0 then free p st else Some st);
      Some (Detached (th_result t) (th_h t), st)
  end.

(** [wpdk_start_thread] with the thread's routine, a function of its argument. *)
Definition wpdk_start_thread (routine : Z -> Z -> Z) (id p : Z) (st : tstate) : option tstate :=
  '(t, st) ← wpdk_thread_starting p st;
  Some (wpdk_thread_done id (th_index t) (routine (th_start t) (th_arg t)) st).

(** [struct pthread_attr_s] *)
Record pthread_attr := PthreadAttr { detachstate : Z; stacksize : Z }.

(** What the calls of [wpdk_pthread_create] into the system return: the two
    allocations, and the handle, thread id and errno of [_beginthreadex]. *)
Record create_env := CreateEnv {
  ce_table : bool; ce_object : option Z;
  ce_begin : Z -> Z -> Z * Z * Z  (** stack size, object *)
}.

(** The return value, [*thread] when it is 0, and the state.  ResumeThread and
    the CloseHandle of a detached thread do not touch the table. *)
Definition wpdk_pthread_create (e : create_env) (has_thread : bool)
    (attr : option pthread_attr) (start_routine arg : Z) (st : tstate)
    : option (Z * Z * tstate) :=
  if negb has_thread || (start_routine =? 0) then Some (EINVAL, 0, st)
  else
    match wpdk_allocate_thread (ce_table e) (ce_object e) st with
    | (inl err, st) => Some (err, 0, st)
    | (inr p, st) =>
        t ← heap st !! p;
        let st := set_heap (<[p := set_arg arg (set_start start_routine t)]> (heap st)) st in
        let detached := match attr with
                        | Some a => detachstate a =? PTHREAD_CREATE_DETACHED
                        | None => false
                        end in
        let '(h, id, error) := ce_begin e (match attr with Some a => stacksize a | None => 0 end) p in
        st ← wpdk_set_thread_info p id h detached st;
        Some (if h =? 0 then (error, 0, st) else (0, id, st))
    end.

(** [do rc = WaitForSingleObjectEx(...); while (rc != WAIT_OBJECT_0 && rc !=
    WAIT_FAILED);] on the successive results of the call: the alertable wait
    returns WAIT_IO_COMPLETION after each asynchronous procedure call. *)
Fixpoint wait_thread (rcs : list Z) : option Z :=
  match rcs with
  | [] => None
  | rc :: rcs => if (rc =? WAIT_OBJECT_0) || (rc =? WAIT_FAILED) then Some rc else wait_thread rcs
  end.

(** What [wpdk_pthread_join] does before it waits: the error, or the handle it
    waits for and the index. *)
Definition join_lookup (self id : Z) (st : tstate) : Z + Z * nat :=
  if (id =? 0) || (id =? self) then inl EINVAL
  else match wpdk_get_thread_info id st with None => inl EINVAL | Some hi => inr hi end.

(** What it does after: [error] is the -1 of [wpdk_last_error].  The return
    value, the result of the thread when one was found, and the state. *)
Definition join_finish (id : Z) (index : nat) (rc : Z) (st : tstate)
    : option (Z * option Z * tstate) :=
  let error := -1 in
  '(d, st) ← wpdk_detach_thread id (Z.of_nat index) st;
  let result := match d with Detached r _ => Some r | NotFound => None end in
  Some (if rc =? WAIT_FAILED then error
        else match d with Detached _ _ => 0 | NotFound => ESRCH end, result, st).

Definition wpdk_pthread_join (self id : Z) (rcs : list Z) (st : tstate)
    : option (Z * option Z * tstate) :=
  match join_lookup self id st with
  | inl err => Some (err, None, st)
  | inr (_, index) => rc ← wait_thread rcs; join_finish id index rc st
  end.

Definition wpdk_pthread_detach (id : Z) (st : tstate) : option (Z * tstate) :=
  '(d, st) ← wpdk_detach_thread id (-1) st;
  Some (match d with Detached _ _ => 0 | NotFound => EINVAL end, st).

Definition wpdk_pthread_exit (self value_ptr : Z) (st : tstate) : tstate :=
  wpdk_thread_done self (-1) value_ptr st.

(** ** The life of the objects

    The threads of the process interleave at the lock and at the stores of a creator that are not
    under it.  [creating] holds the objects between [wpdk_allocate_thread] and
    [wpdk_set_thread_info] of their creator; [no_start] and [no_arg] those of them whose start
    routine and argument are not stored yet; [pending] those whose thread was created but has
    not yet run [wpdk_thread_starting].  Detach, join and exit may come from any thread, at any
    time, with any index and any id; only the id of the thread that exits, and that of a
    thread that was created, are not 0.  [hit_zero] records that a detach of thread 0 found an
    object. *)

Record world := World {
  ts : tstate; creating : gset Z; pending : gset Z; no_start : gset Z; no_arg : gset Z; hit_zero : bool
}.

Inductive tstep : world -> world -> Prop :=
  | t_allocate w table p st' :
      p ∉ dom (heap (ts w)) -> wpdk_allocate_thread table (Some p) (ts w) = (inr p, st') ->
      tstep w (World st' ({[p]} ∪ creating w) (pending w) ({[p]} ∪ no_start w) ({[p]} ∪ no_arg w) (hit_zero w))
  | t_no_memory w table p st' err :
      wpdk_allocate_thread table p (ts w) = (inl err, st') ->
      tstep w (World st' (creating w) (pending w) (no_start w) (no_arg w) (hit_zero w))
  | t_store_start w p routine t :     (* pthread->start = start_routine *)
      p ∈ no_start w -> routine <> 0 -> heap (ts w) !! p = Some t ->
      tstep w (World (set_heap (<[p := set_start routine t]> (heap (ts w))) (ts w))
                 (creating w) (pending w) (no_start w ∖ {[p]}) (no_arg w) (hit_zero w))
  | t_store_arg w p arg t :           (* pthread->arg = arg *)
      p ∈ creating w -> p ∈ no_arg w -> p ∉ no_start w -> heap (ts w) !! p = Some t ->
      tstep w (World (set_heap (<[p := set_arg arg t]> (heap (ts w))) (ts w))
                 (creating w) (pending w) (no_start w) (no_arg w ∖ {[p]}) (hit_zero w))
  | t_created w p id h detached st' :
      p ∈ creating w -> p ∉ no_start w -> p ∉ no_arg w -> id <> 0 -> h <> 0 ->
      wpdk_set_thread_info p id h detached (ts w) = Some st' ->
      tstep w (World st' (creating w ∖ {[p]}) ({[p]} ∪ pending w) (no_start w) (no_arg w) (hit_zero w))
  | t_create_failed w p id detached st' :
      p ∈ creating w -> p ∉ no_start w -> p ∉ no_arg w ->
      wpdk_set_thread_info p id 0 detached (ts w) = Some st' ->
      tstep w (World st' (creating w ∖ {[p]}) (pending w) (no_start w) (no_arg w) (hit_zero w))
  | t_start w p info st' :
      p ∈ pending w -> wpdk_thread_starting p (ts w) = Some (info, st') ->
      tstep w (World st' (creating w) (pending w ∖ {[p]}) (no_start w) (no_arg w) (hit_zero w))
  | t_done w id index result :
      id <> 0 ->
      tstep w (World (wpdk_thread_done id index result (ts w)) (creating w) (pending w) (no_start w) (no_arg w) (hit_zero w))
  | t_detach w id index d st' :
      wpdk_detach_thread id index (ts w) = Some (d, st') ->
      tstep w (World st' (creating w) (pending w) (no_start w) (no_arg w)
                 (hit_zero w || match d with Detached _ _ => id =? 0 | NotFound => false end)).

Inductive treachable : world -> Prop :=
  | tr_init : treachable (World tstate0 ∅ ∅ ∅ ∅ false)
  | tr_step w w' : treachable w -> tstep w w' -> treachable w'.

(** The shape of the table. *)
Record table_ok (st : tstate) : Prop := {
  tb_len : forall l, wpdk_threads st = Some l -> length l = maxthreads;
  tb_hwm : (hwmthreads st <= maxthreads)%nat;
  tb_above : forall i, (hwmthreads st <= i)%nat -> entry st i = None;
  tb_live : forall i p, entry st i = Some p ->
    exists t, heap st !! p = Some t /\ th_index t = Z.of_nat i
}.

(** Who still refers to an object. *)
Record objects_ok (w : world) : Prop := {
  ob_creating : forall p, p ∈ creating w -> exists t, heap (ts w) !! p = Some t /\
    th_id t = 0 /\ (p ∉ no_start w -> th_start t <> 0) /\ th_index t <> -1;
  ob_fresh : forall p, p ∈ no_start w -> p ∈ creating w;
  ob_id : forall p t, heap (ts w) !! p = Some t -> p ∉ creating w -> th_id t <> 0;
  ob_pending : forall p, p ∈ pending w ->
    exists t, heap (ts w) !! p = Some t /\ th_start t <> 0;
  ob_disjoint : forall p, p ∈ creating w -> p ∉ pending w;
  ob_started : forall p t, heap (ts w) !! p = Some t -> p ∉ creating w -> p ∉ pending w ->
    th_start t = 0 /\ th_index t <> -1;
  ob_index : forall p t, heap (ts w) !! p = Some t -> th_index t <> -1 ->
    0 <= th_index t /\ entry (ts w) (Z.to_nat (th_index t)) = Some p
}.

Definition tinv (w : world) : Prop := table_ok (ts w) /\ objects_ok w.

Lemma tinv_init : tinv (World tstate0 ∅ ∅ ∅ ∅ false).
Proof.
  split; split; simpl; try done; try set_solver.
  unfold maxthreads. lia.
Qed.

Lemma entry_set_heap h st i : entry (set_heap h st) i = entry st i.
Proof. done. Qed.

Lemma entry_set_table st j e i :
  (exists l, wpdk_threads st = Some l /\ (j < length l)%nat) ->
  entry (set_table j e st) i = if decide (i = j) then e else entry st i.
Proof.
  intros (l & E & Hj). unfold entry, set_table. simpl. rewrite E. simpl.
  destruct (decide (i = j)) as [->|].
  - by rewrite list_lookup_insert_eq.
  - by rewrite list_lookup_insert_ne.
Qed.

Lemma entry_bound st i p :
  table_ok st -> entry st i = Some p ->
  exists l, wpdk_threads st = Some l /\ (i < length l)%nat /\ (i < hwmthreads st)%nat.
Proof.
  intros Hok Hi. assert (i < hwmthreads st)%nat as Hlt.
  { destruct (decide (i < hwmthreads st)%nat) as [|Hn]; [done|].
    rewrite (tb_above st Hok) in Hi by lia. done. }
  unfold entry in Hi. destruct (wpdk_threads st) as [l|] eqn:E; [|done].
  exists l. split_and!; [done| |done]. rewrite (tb_len st Hok l E). pose proof (tb_hwm st Hok). lia.
Qed.

(** Changing an object in place, its index kept. *)
Lemma table_ok_update st p t t' :
  table_ok st -> heap st !! p = Some t -> th_index t' = th_index t ->
  table_ok (set_heap (<[p := t']> (heap st)) st).
Proof.
  intros [H1 H2 H3 H4] Hp Hi. split; try done. simpl. intros i q Hq.
  destruct (H4 i q Hq) as (u & Hu & Hui). destruct (decide (q = p)) as [->|].
  - exists t'. rewrite lookup_insert_eq. split; [done|]. congruence.
  - exists u. by rewrite lookup_insert_ne.
Qed.

(** Removing entry [i] and its object's index; [h] changes nothing else that
    the table points to. *)
Lemma table_ok_remove st i p h :
  table_ok st -> entry st i = Some p ->
  (forall q, q <> p -> h !! q = heap st !! q) ->
  table_ok (set_heap h (set_table i None st)).
Proof.
  intros Hok Hi Hh. destruct (entry_bound st i p Hok Hi) as (l & El & Hl & Hlt).
  assert (forall j, entry (set_table i None st) j = if decide (j = i) then None else entry st j)
    as He by (intros j; apply entry_set_table; eauto).
  split; simpl.
  - rewrite El. intros l' [= <-]. rewrite length_insert. by apply (tb_len st Hok).
  - apply (tb_hwm st Hok).
  - intros j Hj. change (entry (set_table i None st) j = None). rewrite He.
    destruct (decide (j = i)); [done|]. by apply (tb_above st Hok).
  - intros j q. change (entry (set_heap _ _) j) with (entry (set_table i None st) j). rewrite He.
    destruct (decide (j = i)) as [|Hji]; [done|]. intros Hq.
    destruct (tb_live st Hok j q Hq) as (u & Hu & Hui). exists u. split; [|done].
    rewrite Hh; [done|]. intros ->. destruct (tb_live st Hok i p Hi) as (v & Hv & Hvi).
    rewrite Hu in Hv. injection Hv as <-. lia.
Qed.

(** The table created on first use: all entries free. *)
Definition with_table (table : bool) (st : tstate) : tstate :=
  match wpdk_threads st with
  | None => if table then TState (Some (replicate maxthreads None)) (hwmthreads st) (heap st) else st
  | Some _ => st
  end.

Lemma with_table_ok table st :
  table_ok st -> table_ok (with_table table st) /\ heap (with_table table st) = heap st /\
  hwmthreads (with_table table st) = hwmthreads st /\
  forall i, entry (with_table table st) i = entry st i.
Proof.
  intros Hok. unfold with_table. destruct (wpdk_threads st) as [l|] eqn:E; [done|].
  destruct table; [|done].
  assert (forall i, default None (replicate maxthreads (@None Z) !! i) = None) as Hr.
  { intros i. destruct (_ !! i) eqn:Ei; [|done]. by apply lookup_replicate in Ei as [-> _]. }
  assert (forall i, entry st i = None) as Hn by (intros i; unfold entry; by rewrite E).
  pose proof (length_replicate maxthreads (@None Z)) as Hlen. revert Hr Hlen.
  generalize (replicate maxthreads (@None Z)). intros tb Hr Hlen.
  split_and!; try done.
  - split; simpl.
    + by intros l [= <-].
    + apply (tb_hwm st Hok).
    + intros i _. apply Hr.
    + intros i p Hi. unfold entry in Hi. cbn [wpdk_threads] in Hi. by rewrite Hr in Hi.
  - intros i. rewrite Hn. apply Hr.
Qed.

Lemma allocate_spec table p st r st' :
  table_ok st -> wpdk_allocate_thread table p st = (r, st') ->
  match r with
  | inl err => (err = EMFILE \/ err = ENOMEM) /\ table_ok st' /\ heap st' = heap st /\
               forall i, entry st' i = entry st i
  | inr q => exists i, p = Some q /\ (i < maxthreads)%nat /\ entry st i = None /\
      heap st' = <[q := set_index (Z.of_nat i) zero_thread]> (heap st) /\
      (forall l, wpdk_threads st' = Some l -> length l = maxthreads) /\
      (hwmthreads st' <= maxthreads)%nat /\ (hwmthreads st <= hwmthreads st')%nat /\
      (i < hwmthreads st')%nat /\
      forall j, entry st' j = if decide (j = i) then Some q else entry st j
  end.
Proof.
  intros Hok. unfold wpdk_allocate_thread. fold (with_table table st).
  destruct (with_table_ok table st Hok) as (Hok' & Hh & Hw & He).
  set (st1 := with_table table st) in *. cbv zeta.
  destruct (wpdk_threads st1) as [l|] eqn:El; [|by intros [= <- <-]; auto].
  destruct p as [p|]; [|by intros [= <- <-]; auto].
  set (P := fun i => _). destruct (Nat.ltb_spec (scan P maxthreads) maxthreads) as [Hlt|];
    [|by intros [= <- <-]; auto].
  intros [= <- <-]. exists (scan P maxthreads). split; [done|]. split; [done|].
  pose proof (scan_found P _ Hlt) as HP. unfold P at 1 in HP. set (i := scan P maxthreads) in *.
  pose proof (tb_len st1 Hok' l El) as Hlen. pose proof (tb_hwm st1 Hok').
  assert (exists l, wpdk_threads st1 = Some l /\ (i < length l)%nat) as Hex by (exists l; lia || (split; [done|lia])).
  split_and!; simpl.
  - rewrite <- He. by destruct (entry st1 i).
  - by rewrite Hh.
  - rewrite El. intros l' [= <-]. by rewrite length_insert.
  - destruct (Nat.leb_spec (hwmthreads st1) i); lia.
  - rewrite Hw in *. destruct (Nat.leb_spec (hwmthreads st) i); lia.
  - destruct (Nat.leb_spec (hwmthreads st1) i); lia.
  - intros j. rewrite <- He, <- (entry_set_table st1 i (Some p) j Hex). done.
Qed.

(** An object whose entry is in the table: removing that entry. *)
Lemma entry_remove st i p j :
  table_ok st -> entry st i = Some p ->
  entry (set_table i None st) j = if decide (j = i) then None else entry st j.
Proof.
  intros Hok Hi. destruct (entry_bound st i p Hok Hi) as (l & El & Hl & _).
  apply entry_set_table. eauto.
Qed.

(** Case analysis on which object a fact is about. *)
Ltac which q p :=
  destruct (decide (q = p)) as [->|?];
  rewrite ?lookup_insert_eq, ?lookup_delete_eq in *;
  rewrite ?lookup_delete_ne, ?lookup_insert_ne in * by done.

(** Objects other than [p] keep their entries when the entry of [p] goes. *)
Lemma ob_index_remove w i p :
  tinv w -> entry (ts w) i = Some p ->
  forall q t, q <> p -> heap (ts w) !! q = Some t -> th_index t <> -1 ->
  0 <= th_index t /\ entry (set_table i None (ts w)) (Z.to_nat (th_index t)) = Some q.
Proof.
  intros [Ht Ho] Hi q t Hq Hh Hidx. destruct (ob_index w Ho q t Hh Hidx) as [H0 He].
  split; [done|]. rewrite (entry_remove _ _ p _ Ht Hi).
  destruct (decide _) as [E|]; [|done]. rewrite E in He. congruence.
Qed.

Lemma tinv_allocate w table p st' hz na :
  tinv w -> p ∉ dom (heap (ts w)) -> wpdk_allocate_thread table (Some p) (ts w) = (inr p, st') ->
  tinv (World st' ({[p]} ∪ creating w) (pending w) ({[p]} ∪ no_start w) na hz).
Proof.
  intros [Ht Ho] Hp Ha. apply not_elem_of_dom in Hp.
  destruct (allocate_spec _ _ _ _ _ Ht Ha) as
    (i & _ & Hi & Hfree & Hh & Hlen & Hmax & Hmono & Hhwm & He).
  split; split; simpl; rewrite ?Hh; try done.
  - intros j Hj. rewrite He, decide_False by lia. apply (tb_above _ Ht). lia.
  - intros j q. rewrite He. destruct (decide (j = i)) as [->|].
    + intros [= <-]. rewrite lookup_insert_eq. eauto.
    + intros Hq. destruct (tb_live _ Ht j q Hq) as (u & Hu & ?). exists u.
      rewrite lookup_insert_ne by congruence. done.
  - intros q Hq. which q p; [eexists; split_and!; [done|done|set_solver|simpl; lia]|].
    destruct (ob_creating w Ho q) as (u & Hu & ? & Hs & ?); [set_solver|]. exists u. split_and!; try done. intros. apply Hs. set_solver.
  - pose proof (ob_fresh w Ho). set_solver.
  - intros q u Hu Hc. which q p; [set_solver|]. apply (ob_id w Ho q); set_solver.
  - intros q Hq. destruct (ob_pending w Ho q Hq) as (u & Hu & ?). which q p; [congruence|eauto].
  - intros q [->%elem_of_singleton|Hq]%elem_of_union; [|by apply (ob_disjoint w Ho)].
    intros Hq. destruct (ob_pending w Ho p Hq) as (u & Hu & ?). congruence.
  - intros q u Hu Hc Hq. which q p; [set_solver|]. apply (ob_started w Ho q); set_solver.
  - intros q u Hu Hidx. rewrite He. which q p.
    + injection Hu as <-. simpl. rewrite decide_True by lia. lia || (split; [lia|done]).
    + destruct (ob_index w Ho q u Hu Hidx) as [H0 Hq]. split; [done|].
      destruct (decide _) as [E|]; [|done]. rewrite E in Hq. congruence.
Qed.

(** The stores of a creator: an object that is being created changes its start routine or argument. *)
Lemma tinv_store w p t u ns na hz :
  tinv w -> p ∈ creating w -> heap (ts w) !! p = Some t ->
  th_id u = th_id t -> th_index u = th_index t -> (p ∉ ns -> th_start u <> 0) ->
  (forall q, q <> p -> q ∈ ns <-> q ∈ no_start w) ->
  tinv (World (set_heap (<[p := u]> (heap (ts w))) (ts w)) (creating w) (pending w) ns na hz).
Proof.
  intros [Htab Ho] Hp Ht Hid Hix Hs Hns. split; [by apply (table_ok_update (ts w) _ t)|].
  destruct (ob_creating w Ho p Hp) as (t' & Ht' & H1 & H2 & H3). assert (t' = t) as -> by congruence.
  split; simpl.
  - intros q Hq. which q p; [exists u; split_and!; [done|congruence|done|congruence]|].
    destruct (ob_creating w Ho q Hq) as (v & Hv & ? & Hvs & ?). exists v. split_and!; try done. intros Hn. apply Hvs. by rewrite <- Hns.
  - intros q Hq. destruct (decide (q = p)) as [->|]; [done|]. apply (ob_fresh w Ho). by apply Hns.
  - intros q v Hv Hc. which q p; [done|]. by apply (ob_id w Ho q).
  - intros q Hq. which q p; [by destruct (ob_disjoint w Ho p)|]. by apply (ob_pending w Ho).
  - apply (ob_disjoint w Ho).
  - intros q v Hv Hc Hq. which q p; [done|]. by apply (ob_started w Ho q).
  - intros q v Hv Hidx. rewrite entry_set_heap. which q p; [|by apply (ob_index w Ho q v)].
    injection Hv as <-. rewrite Hix in *. by apply (ob_index w Ho p t).
Qed.

(** A creating object: its fields and its entry. *)
Lemma creating_entry w p :
  tinv w -> p ∈ creating w -> exists t, heap (ts w) !! p = Some t /\ (p ∉ no_start w -> th_start t <> 0) /\
    0 <= th_index t /\ entry (ts w) (Z.to_nat (th_index t)) = Some p.
Proof.
  intros [Ht Ho] Hp. destruct (ob_creating w Ho p Hp) as (t & Hh & _ & Hs & Hi).
  exists t. split_and!; try done; by apply (ob_index w Ho p t).
Qed.

Lemma tinv_created w p id h detached st' na hz :
  tinv w -> p ∈ creating w -> p ∉ no_start w -> id <> 0 -> h <> 0 ->
  wpdk_set_thread_info p id h detached (ts w) = Some st' ->
  tinv (World st' (creating w ∖ {[p]}) ({[p]} ∪ pending w) (no_start w) na hz).
Proof.
  intros Hinv Hp Hns Hid Hh. destruct (creating_entry w p Hinv Hp) as (t & Ht & Hs & H0 & He). specialize (Hs Hns).
  unfold wpdk_set_thread_info. rewrite Ht. cbn [mbind option_bind]. cbv zeta.
  rewrite (proj2 (Z.eqb_neq h 0) Hh). intros [= <-]. pose proof Hinv as [Htab Ho].
  assert (forall u, th_start u = th_start t -> th_id u = id ->
    (forall q, q ∈ creating w ∖ {[p]} -> exists t, (<[p := u]> (heap (ts w))) !! q = Some t /\
       th_id t = 0 /\ (q ∉ no_start w -> th_start t <> 0) /\ th_index t <> -1) /\
    (forall q, q ∈ no_start w -> q ∈ creating w ∖ {[p]}) /\
    (forall q t, (<[p := u]> (heap (ts w))) !! q = Some t -> q ∉ creating w ∖ {[p]} -> th_id t <> 0) /\
    (forall q, q ∈ {[p]} ∪ pending w ->
       exists t, (<[p := u]> (heap (ts w))) !! q = Some t /\ th_start t <> 0) /\
    (forall q, q ∈ creating w ∖ {[p]} -> q ∉ {[p]} ∪ pending w) /\
    (forall q t, (<[p := u]> (heap (ts w))) !! q = Some t -> q ∉ creating w ∖ {[p]} ->
       q ∉ {[p]} ∪ pending w -> th_start t = 0 /\ th_index t <> -1)) as Hobj.
  { intros u Hu Hui. split_and!.
    - intros q Hq. which q p; [set_solver|]. apply (ob_creating w Ho). set_solver.
    - intros q Hq. pose proof (ob_fresh w Ho q Hq). set_solver.
    - intros q v Hv Hc. which q p; [congruence|]. apply (ob_id w Ho q); set_solver.
    - intros q Hq. which q p; [exists u; by rewrite Hu|]. apply (ob_pending w Ho). set_solver.
    - intros q Hq. pose proof (ob_disjoint w Ho q). set_solver.
    - intros q v Hv Hc Hq. which q p; [set_solver|]. apply (ob_started w Ho q); set_solver. }
  cbn [th_h set_id_h th_index]. destruct ((if detached then 0 else h) =? 0).
  - destruct (Hobj (set_index (-1) (set_id_h id (if detached then 0 else h) t)) eq_refl eq_refl)
      as (Hc & Hf & Hd' & Hq & Hd & Hst). split; [|split; simpl; try done].
    + cbn [ts]. apply (table_ok_remove (ts w) _ p); [done|done|]. intros q Hq'. simpl. by rewrite lookup_insert_ne.
    + intros q v Hv Hidx. rewrite entry_set_heap. which q p; [by injection Hv as <-|].
      by apply (ob_index_remove w _ p).
  - destruct (Hobj (set_id_h id (if detached then 0 else h) t) eq_refl eq_refl) as (Hc & Hf & Hd' & Hq & Hd & Hst).
    split; [by apply (table_ok_update (ts w) _ t)|split; simpl; try done].
    intros q v Hv Hidx. rewrite entry_set_heap. which q p; [by injection Hv as <-|].
    by apply (ob_index w Ho).
Qed.

Lemma tinv_create_failed w p id detached st' na hz :
  tinv w -> p ∈ creating w -> p ∉ no_start w -> wpdk_set_thread_info p id 0 detached (ts w) = Some st' ->
  tinv (World st' (creating w ∖ {[p]}) (pending w) (no_start w) na hz).
Proof.
  intros Hinv Hp Hns. destruct (creating_entry w p Hinv Hp) as (t & Ht & Hs & H0 & He).
  unfold wpdk_set_thread_info. rewrite Ht. cbn [mbind option_bind]. cbv zeta.
  replace (if detached then 0 else 0) with 0 by (by destruct detached). cbn [th_h set_id_h].
  change (0 =? 0) with true. cbn iota. unfold free. cbn [heap set_heap].
  rewrite lookup_insert_eq. intros [= <-].
  pose proof Hinv as [Htab Ho]. split; [|split; simpl].
  - cbn [ts]. apply (table_ok_remove (ts w) _ p); [done|done|]. intros q Hq'. simpl.
    by rewrite lookup_delete_ne, lookup_insert_ne.
  - intros q Hq. which q p; [set_solver|]. apply (ob_creating w Ho). set_solver.
  - intros q Hq. pose proof (ob_fresh w Ho q Hq). set_solver.
  - intros q v Hv Hc. which q p; [done|]. apply (ob_id w Ho q); set_solver.
  - intros q Hq. which q p; [by destruct (ob_disjoint w Ho p)|]. by apply (ob_pending w Ho).
  - intros q Hq. apply (ob_disjoint w Ho). set_solver.
  - intros q v Hv Hc Hq. which q p; [done|]. apply (ob_started w Ho q); set_solver.
  - intros q v Hv Hidx. which q p; [done|]. by apply (ob_index_remove w _ p).
Qed.

Lemma tinv_start w p info st' na hz :
  tinv w -> p ∈ pending w -> wpdk_thread_starting p (ts w) = Some (info, st') ->
  tinv (World st' (creating w) (pending w ∖ {[p]}) (no_start w) na hz).
Proof.
  intros Hinv Hp. pose proof Hinv as [Htab Ho].
  destruct (ob_pending w Ho p Hp) as (t & Ht & Hs).
  assert (p ∉ creating w) as Hc by (intros Hc; by apply (ob_disjoint w Ho p)).
  unfold wpdk_thread_starting. rewrite Ht. cbn [mbind option_bind]. cbv zeta.
  destruct (Z.eqb_spec (th_index t) (-1)) as [Hidx|Hidx].
  - unfold free. cbn [heap set_heap]. rewrite lookup_insert_eq. cbn [mbind option_bind].
    intros [= <- <-].
    assert (table_ok (set_heap (delete p (<[p := set_start 0 t]> (heap (ts w)))) (ts w))) as Htab'.
    { destruct Htab as [H1 H2 H3 H4]. split; try done. intros i q Hq. cbn [heap set_heap].
      destruct (H4 i q Hq) as (u & Hu & Hi). which q p; [|eauto].
      rewrite Ht in Hu. injection Hu as <-. lia. }
    split; [done|split; simpl].
    + intros q Hq. which q p; [done|]. by apply (ob_creating w Ho).
    + apply (ob_fresh w Ho).
    + intros q v Hv Hq. which q p; [done|]. by apply (ob_id w Ho q).
    + intros q Hq. which q p; [set_solver|]. apply (ob_pending w Ho). set_solver.
    + intros q Hq. pose proof (ob_disjoint w Ho q Hq). set_solver.
    + intros q v Hv Hq Hq'. which q p; [done|]. apply (ob_started w Ho q); set_solver.
    + intros q v Hv Hq. which q p; [done|]. by apply (ob_index w Ho).
  - intros [= <- <-].
    split; [cbn [ts]; by apply (table_ok_update (ts w) _ t)|split; simpl].
    + intros q Hq. which q p; [done|]. by apply (ob_creating w Ho).
    + apply (ob_fresh w Ho).
    + intros q v Hv Hq. which q p; [injection Hv as <-; by apply (ob_id w Ho p t)|by apply (ob_id w Ho q)].
    + intros q Hq. which q p; [set_solver|]. apply (ob_pending w Ho). set_solver.
    + intros q Hq. pose proof (ob_disjoint w Ho q Hq). set_solver.
    + intros q v Hv Hq Hq'. which q p; [by injection Hv as <-|]. apply (ob_started w Ho q); set_solver.
    + intros q v Hv Hq. rewrite entry_set_heap. which q p;
      [injection Hv as <-; by apply (ob_index w Ho p t)|by apply (ob_index w Ho q v)].
Qed.

Lemma locate_spec id index st i :
  locate id index st = Some i -> exists p t, entry st i = Some p /\
    heap st !! p = Some t /\ th_id t = id.
Proof.
  unfold locate. destruct (wpdk_threads st); destruct (_ && _); try done.
  set (j := Z.to_nat _). destruct (has_id st id j) eqn:E; [|done]. intros [= <-].
  unfold has_id in E. destruct (entry st j) as [p|]; [|done].
  destruct (heap st !! p) as [t|] eqn:Ep; [|done]. bool_prop. exists p, t. auto.
Qed.

(** The invariant does not depend on the other fields. *)
Lemma tinv_same w na hz : tinv w -> tinv (World (ts w) (creating w) (pending w) (no_start w) na hz).
Proof. intros [Htab [H1 H2 H3 H4 H5 H6 H7]]. split; [done|]. by split. Qed.

Lemma tinv_done w id index result na hz :
  tinv w -> tinv (World (wpdk_thread_done id index result (ts w)) (creating w) (pending w) (no_start w) na hz).
Proof.
  intros Hinv. pose proof Hinv as [Htab Ho]. unfold wpdk_thread_done.
  destruct (locate id index (ts w)) as [i|] eqn:E; [|by apply (tinv_same w)].
  destruct (locate_spec _ _ _ _ E) as (p & t & He & Ht & _). rewrite He.
  assert (alter (set_result result) p (heap (ts w)) = <[p := set_result result t]> (heap (ts w))) as ->
    by (apply map_eq; intros q; destruct (decide (q = p)) as [->|];
        [by rewrite lookup_alter_eq, lookup_insert_eq, Ht
        |by rewrite lookup_alter_ne, lookup_insert_ne]).
  split; [by apply (table_ok_update (ts w) _ t)|split; simpl].
  - intros q Hq. destruct (ob_creating w Ho q Hq) as (u & Hu & ?). which q p; [|eauto].
    rewrite Ht in Hu. injection Hu as <-. eauto.
  - apply (ob_fresh w Ho).
  - intros q v Hv Hq. which q p; [injection Hv as <-; by apply (ob_id w Ho p t)|by apply (ob_id w Ho q)].
  - intros q Hq. destruct (ob_pending w Ho q Hq) as (u & Hu & ?). which q p; [|eauto].
    rewrite Ht in Hu. injection Hu as <-. eauto.
  - apply (ob_disjoint w Ho).
  - intros q v Hv. which q p;
      [injection Hv as <-; by apply (ob_started w Ho p t)|by apply (ob_started w Ho q v)].
  - intros q v Hv. rewrite entry_set_heap. which q p;
      [injection Hv as <-; by apply (ob_index w Ho p t)|by apply (ob_index w Ho q v)].
Qed.

Lemma tinv_detach w id index d st' na hz :
  tinv w -> match d with Detached _ _ => id =? 0 | NotFound => false end = false ->
  wpdk_detach_thread id index (ts w) = Some (d, st') ->
  tinv (World st' (creating w) (pending w) (no_start w) na hz).
Proof.
  intros Hinv Hd. pose proof Hinv as [Htab Ho]. unfold wpdk_detach_thread.
  destruct (locate id index (ts w)) as [i|] eqn:E; [|intros [= <- <-]; by apply (tinv_same w)].
  destruct (locate_spec _ _ _ _ E) as (p & t & He & Ht & Hti). rewrite He.
  cbn [mbind option_bind]. rewrite Ht. cbn [mbind option_bind]. cbv zeta.
  intros Hdet. assert (id <> 0) as Hid.
  { intros ->. destruct d; [|done]. match type of Hdet with (mbind _ ?x) = _ => by destruct x end. }
  assert (p ∉ creating w) as Hc.
  { intros Hc. destruct (ob_creating w Ho p Hc) as (u & Hu & ? & _). congruence. }
  revert Hdet.
  destruct (Z.eqb_spec (th_start t) 0) as [Hs|Hs].
  - unfold free. cbn [heap set_heap]. rewrite lookup_insert_eq. cbn [mbind option_bind].
    intros [= <- <-].
    assert (p ∉ pending w) as Hp.
    { intros Hp. destruct (ob_pending w Ho p Hp) as (u & Hu & ?). congruence. }
    split; [|split; simpl].
    + cbn [ts]. apply (table_ok_remove (ts w) _ p); [done|done|]. intros q Hq.
      by rewrite lookup_delete_ne, lookup_insert_ne.
    + intros q Hq. which q p; [done|]. by apply (ob_creating w Ho).
    + apply (ob_fresh w Ho).
    + intros q v Hv Hq. which q p; [done|]. by apply (ob_id w Ho q).
    + intros q Hq. which q p; [done|]. by apply (ob_pending w Ho).
    + apply (ob_disjoint w Ho).
    + intros q v Hv. which q p; [done|]. by apply (ob_started w Ho).
    + intros q v Hv Hq. which q p; [done|]. by apply (ob_index_remove w _ p).
  - cbn [mbind option_bind]. intros [= <- <-].
    assert (p ∈ pending w) as Hp.
    { destruct (decide (p ∈ pending w)) as [|Hp]; [done|].
      by destruct (ob_started w Ho p t Ht Hc Hp). }
    split; [|split; simpl].
    + cbn [ts]. apply (table_ok_remove (ts w) _ p); [done|done|]. intros q Hq. by rewrite lookup_insert_ne.
    + intros q Hq. which q p; [done|]. by apply (ob_creating w Ho).
    + apply (ob_fresh w Ho).
    + intros q v Hv Hq. which q p; [injection Hv as <-; by apply (ob_id w Ho p t)|by apply (ob_id w Ho q)].
    + intros q Hq. which q p; [by eexists|]. by apply (ob_pending w Ho).
    + apply (ob_disjoint w Ho).
    + intros q v Hv. which q p; [done|]. by apply (ob_started w Ho).
    + intros q v Hv Hq. rewrite entry_set_heap. which q p; [by injection Hv as <-|].
      by apply (ob_index_remove w _ p).
Qed.

Lemma tinv_no_memory w table p st' err na hz :
  tinv w -> wpdk_allocate_thread table p (ts w) = (inl err, st') ->
  tinv (World st' (creating w) (pending w) (no_start w) na hz).
Proof.
  intros [Htab Ho] Ha. destruct (allocate_spec _ _ _ _ _ Htab Ha) as (_ & Ht & Hh & He).
  split; [done|]. destruct Ho as [H1 H2 H3 H4 H5 H6 H7].
  split; simpl; rewrite ?Hh; try done. intros q v Hv Hq. rewrite He. by apply H7.
Qed.

Lemma tinv_step w w' : tinv w -> tstep w w' -> hit_zero w' = false -> tinv w'.
Proof.
  intros I Hs. destruct Hs as [w table p st' Hp Ha| |w p f t Hp Hf Ht|w p x t Hc Hp Hp' Ht| | | | |w id index d st' Hd]; intros Hz;
    eauto using tinv_allocate, tinv_no_memory, tinv_created, tinv_create_failed, tinv_start, tinv_done.
  - apply (tinv_store w p t); try done; [apply (ob_fresh w (proj2 I) p Hp)|set_solver].
  - destruct (ob_creating w (proj2 I) p Hc) as (t' & Ht' & _ & H & _). apply (tinv_store w p t); try done.
    intros _. assert (t' = t) as -> by congruence. by apply H.
  - cbn in Hz. apply orb_false_iff in Hz as [_ Hz]. eauto using tinv_detach.
Qed.

Lemma treachable_inv w : treachable w -> hit_zero w = false -> tinv w.
Proof.
  induction 1 as [|w w' _ IH Hs]; intros Hz; [apply tinv_init|]. apply (tinv_step w); [|done|done]. apply IH.
  destruct Hs; cbn in Hz; try done. by apply orb_false_iff in Hz as [? _].
Qed.

(** The operations on an object that is being created or started complete. *)
Lemma threads_safe (w : world) :
  treachable w -> hit_zero w = false ->
  (forall p, p ∈ creating w -> is_Some (heap (ts w) !! p)) /\
  (forall p id h detached, p ∈ creating w ->
     is_Some (wpdk_set_thread_info p id h detached (ts w))) /\
  (forall p, p ∈ pending w -> is_Some (wpdk_thread_starting p (ts w))).
Proof.
  intros Hr Hz. apply treachable_inv in Hr as [Htab Ho]; [|done]. split_and!.
  - intros p Hp. destruct (ob_creating w Ho p Hp) as (t & Ht & _). by eexists.
  - intros p id h detached Hp. destruct (ob_creating w Ho p Hp) as (t & Ht & _).
    unfold wpdk_set_thread_info. rewrite Ht. cbn [mbind option_bind]. cbv zeta.
    destruct (h =? 0); [|by eexists]. unfold free.
    destruct (th_h _ =? 0); cbn [heap set_heap]; rewrite lookup_insert_eq; by eexists.
  - intros p Hp. destruct (ob_pending w Ho p Hp) as (t & Ht & _).
    unfold wpdk_thread_starting. rewrite Ht. cbn [mbind option_bind]. cbv zeta.
    unfold free. destruct (_ =? -1); cbn [heap set_heap]; rewrite ?lookup_insert_eq; by eexists.
Qed.

(** Thread 0 is found only while a thread is being created. *)
Lemma detach_zero_none w : tinv w -> creating w = ∅ -> wpdk_pthread_detach 0 (ts w) = Some (EINVAL, ts w).
Proof.
  intros [_ Ho] Hc. unfold wpdk_pthread_detach, wpdk_detach_thread. destruct (locate 0 (-1) (ts w)) as [i|] eqn:E; [|done].
  destruct (locate_spec _ _ _ _ E) as (p & t & He & Ht & Hid). destruct (ob_id w Ho p t Ht); [set_solver|done].
Qed.

(** C2: however creation (its unlocked stores included), start, exit, join and detach of threads
    interleave, no [struct thread] is used after it was freed or freed twice, as long as no
    detach of thread 0 comes while a thread is being created: in every reachable state each
    operation that can come next completes without touching a freed object.  A detach of
    thread 0 at any other time fails with EINVAL and changes nothing. *)
Theorem threads_memory_safe (w : world) :
  treachable w -> hit_zero w = false ->
  (forall p, p ∈ creating w -> is_Some (heap (ts w) !! p)) /\
  (forall p id h detached, p ∈ creating w ->
     is_Some (wpdk_set_thread_info p id h detached (ts w))) /\
  (forall p, p ∈ pending w -> is_Some (wpdk_thread_starting p (ts w))) /\
  (forall id index, is_Some (wpdk_detach_thread id index (ts w))) /\
  (forall i p, entry (ts w) i = Some p -> is_Some (heap (ts w) !! p)) /\
  (creating w = ∅ -> wpdk_pthread_detach 0 (ts w) = Some (EINVAL, ts w)).
Proof.
  intros Hr Hz. destruct (threads_safe w Hr Hz) as (H0 & H1 & H2). apply treachable_inv in Hr as Hinv; [|done]. pose proof Hinv as [Htab Ho].
  split_and!; [done|done|done| | |by apply detach_zero_none].
  - intros id index. unfold wpdk_detach_thread.
    destruct (locate id index (ts w)) as [i|] eqn:E; [|by eexists].
    destruct (locate_spec _ _ _ _ E) as (p & t & He & Ht & _). rewrite He.
    cbn [mbind option_bind]. rewrite Ht. cbn [mbind option_bind]. cbv zeta. unfold free.
    destruct (_ =? 0); cbn [heap set_heap]; rewrite ?lookup_insert_eq; by eexists.
  - intros i p He. destruct (tb_live _ Htab i p He) as (t & Ht & _). by eexists.
Qed.

(** C3: nothing leaks and the table stays within its bounds, as long as no detach of thread 0
    comes while a thread is being created: an allocated object is in the table at its own
    index, or its creator or its thread still holds it; once every creation and start is over
    the objects are exactly those of the table, all below the high-water mark of at most
    [maxthreads]. *)
Theorem threads_no_leak (w : world) :
  treachable w -> hit_zero w = false ->
  (hwmthreads (ts w) <= maxthreads)%nat /\
  (forall p t, heap (ts w) !! p = Some t ->
     (p ∈ creating w \/ p ∈ pending w \/
      (exists i, (i < hwmthreads (ts w))%nat /\ entry (ts w) i = Some p /\ th_index t = Z.of_nat i))) /\
  (creating w = ∅ -> pending w = ∅ ->
   forall p, is_Some (heap (ts w) !! p) <-> exists i, entry (ts w) i = Some p).
Proof.
  intros Hr Hz. apply treachable_inv in Hr as [Htab Ho]; [|done].
  assert (forall p t, heap (ts w) !! p = Some t -> p ∉ creating w -> p ∉ pending w ->
    exists i, (i < hwmthreads (ts w))%nat /\ entry (ts w) i = Some p /\ th_index t = Z.of_nat i) as H.
  { intros p t Ht Hc Hp. destruct (ob_started w Ho p t Ht Hc Hp) as [_ Hidx].
    destruct (ob_index w Ho p t Ht Hidx) as [H0 He]. exists (Z.to_nat (th_index t)).
    destruct (entry_bound _ _ _ Htab He) as (l & _ & _ & Hlt). split_and!; [done|done|lia]. }
  split_and!; [apply (tb_hwm _ Htab)| |].
  - intros p t Ht. destruct (decide (p ∈ creating w)); [auto|].
    destruct (decide (p ∈ pending w)); [auto|]. right. right. by apply H.
  - intros Hc Hp p. split.
    + intros [t Ht]. destruct (H p t Ht) as (i & _ & He & _); [set_solver..|]. eauto.
    + intros [i He]. destruct (tb_live _ Htab i p He) as (t & Ht & _). by eexists.
Qed.

(** ** Joining *)

(** Entry [i] is the one that has thread id [id]. *)
Definition sole_id (st : tstate) (id : Z) (i : nat) : Prop :=
  forall j, has_id st id j = true <-> j = i.

Lemma sole_entry st id i :
  sole_id st id i -> exists p t, entry st i = Some p /\ heap st !! p = Some t /\ th_id t = id.
Proof.
  intros Hs. pose proof (proj2 (Hs i) eq_refl) as H. unfold has_id in H.
  destruct (entry st i) as [p|]; [|done]. destruct (heap st !! p) as [t|] eqn:E; [|done].
  bool_prop. by exists p, t.
Qed.

Lemma scan_sole st id i :
  table_ok st -> sole_id st id i -> scan (has_id st id) (hwmthreads st) = i /\ (i < hwmthreads st)%nat.
Proof.
  intros Hok Hs. destruct (sole_entry st id i Hs) as (p & t & He & _).
  destruct (entry_bound st i p Hok He) as (l & _ & _ & Hlt). split; [|done].
  pose proof (scan_complete (has_id st id) _ i Hlt (proj2 (Hs i) eq_refl)) as Hle.
  apply Hs, scan_found. lia.
Qed.

Lemma locate_sole st id index i :
  table_ok st -> sole_id st id i -> (index = -1 \/ index = Z.of_nat i) ->
  locate id index st = Some i.
Proof.
  intros Hok Hs Hi. destruct (scan_sole st id i Hok Hs) as [Hscan Hlt].
  destruct (sole_entry st id i Hs) as (p & t & He & _).
  destruct (entry_bound st i p Hok He) as (l & El & _ & _). pose proof (tb_hwm st Hok).
  unfold locate. rewrite El, Hscan.
  replace (if index =? -1 then Z.of_nat i else index) with (Z.of_nat i)
    by (destruct (Z.eqb_spec index (-1)); lia).
  rewrite (proj2 (Z.leb_le _ _)), (proj2 (Z.ltb_lt _ _)) by lia. cbn [andb].
  rewrite Nat2Z.id. by rewrite (proj2 (Hs i) eq_refl).
Qed.

Lemma wait_thread_apcs n :
  wait_thread (replicate n WAIT_IO_COMPLETION ++ [WAIT_OBJECT_0]) = Some WAIT_OBJECT_0.
Proof. induction n as [|n IH]; [done|]. exact IH. Qed.

(** Storing the result changes nothing the table is searched by. *)
Lemma thread_done_sole st id index i p t res :
  table_ok st -> sole_id st id i -> (index = -1 \/ index = Z.of_nat i) ->
  entry st i = Some p -> heap st !! p = Some t ->
  let st' := wpdk_thread_done id index res st in
  table_ok st' /\ sole_id st' id i /\ heap st' !! p = Some (set_result res t) /\
  forall j, entry st' j = entry st j.
Proof.
  intros Hok Hs Hi He Ht. unfold wpdk_thread_done. rewrite (locate_sole st id index i), He by done.
  assert (forall q, alter (set_result res) p (heap st) !! q =
    if decide (q = p) then Some (set_result res t) else heap st !! q) as Hq.
  { intros q. destruct (decide (q = p)) as [->|]; [by rewrite lookup_alter_eq, Ht|].
    by rewrite lookup_alter_ne. }
  cbv zeta. split_and!.
  - destruct Hok as [H1 H2 H3 H4]. split; try done. intros j q Hj. destruct (H4 j q Hj) as (u & Hu & ?).
    cbn [heap set_heap]. rewrite Hq. destruct (decide (q = p)) as [->|]; [|eauto].
    rewrite Ht in Hu. injection Hu as <-. eauto.
  - intros j. rewrite <- (Hs j). unfold has_id. rewrite entry_set_heap.
    destruct (entry st j) as [q|]; [|done]. cbn [heap set_heap]. rewrite Hq.
    destruct (decide (q = p)) as [->|]; [by rewrite Ht|done].
  - cbn [heap set_heap]. by rewrite Hq, decide_True.
  - done.
Qed.

(** C4: a thread that has started and finishes with [res] (by returning, with
    its index, or by [pthread_exit], without it) is joined with 0 and exactly
    [res], however often the alertable wait is interrupted; its object is freed,
    its entry is free again, and joining it once more is an error. *)
Theorem join_returns_result (st : tstate) (self id index res : Z) (i n : nat) (p : Z) (t : thread) :
  table_ok st -> sole_id st id i -> entry st i = Some p -> heap st !! p = Some t ->
  th_start t = 0 -> id <> 0 -> id <> self -> (index = -1 \/ index = Z.of_nat i) ->
  exists st', wpdk_pthread_join self id (replicate n WAIT_IO_COMPLETION ++ [WAIT_OBJECT_0])
                (wpdk_thread_done id index res st) = Some (0, Some res, st') /\
    heap st' !! p = None /\ entry st' i = None /\
    forall rcs, wpdk_pthread_join self id rcs st' = Some (EINVAL, None, st').
Proof.
  intros Hok Hs He Ht Hst Hid Hself Hidx.
  destruct (thread_done_sole st id index i p t res Hok Hs Hidx He Ht) as (Hok1 & Hs1 & Ht1 & He1).
  set (st1 := wpdk_thread_done id index res st) in *. cbv zeta in *.
  destruct (scan_sole st1 id i Hok1 Hs1) as [Hscan Hlt]. rewrite <- (He1 i) in He.
  exists (set_heap (delete p (<[p := set_index (-1) (set_result res t)]> (heap st1))) (set_table i None st1)).
  assert (forall j, entry (set_table i None st1) j = if decide (j = i) then None else entry st1 j) as Hrem
    by (intros j; by apply (entry_remove st1 i p)).
  split_and!.
  - unfold wpdk_pthread_join, join_lookup. rewrite (proj2 (Z.eqb_neq _ _) Hid), (proj2 (Z.eqb_neq _ _) Hself).
    cbn [orb]. unfold wpdk_get_thread_info. rewrite Hscan. cbv zeta.
    rewrite (proj2 (Nat.ltb_lt _ _) Hlt), He, Ht1, wait_thread_apcs. cbn [mbind option_bind].
    unfold join_finish, wpdk_detach_thread. rewrite (locate_sole st1 id _ i), He by auto.
    cbn [mbind option_bind]. rewrite Ht1. cbn [mbind option_bind th_start set_result]. cbv zeta.
    rewrite Hst. change (0 =? 0) with true. cbn iota. unfold free. cbn [heap set_heap].
    rewrite lookup_insert_eq. done.
  - cbn [heap set_heap]. apply lookup_delete_eq.
  - rewrite entry_set_heap, Hrem. by rewrite decide_True.
  - intros rcs. unfold wpdk_pthread_join, join_lookup.
    rewrite (proj2 (Z.eqb_neq _ _) Hid), (proj2 (Z.eqb_neq _ _) Hself). cbn [orb].
    unfold wpdk_get_thread_info. set (st' := set_heap _ _).
    assert (scan (has_id st' id) (hwmthreads st') = hwmthreads st') as ->.
    { apply scan_none. intros j _. unfold has_id, st'. rewrite entry_set_heap, Hrem.
      destruct (decide (j = i)) as [|Hji]; [done|]. destruct (entry st1 j) as [q|] eqn:Ej; [|done].
      cbn [heap set_heap]. destruct (decide (q = p)) as [->|]; [by rewrite lookup_delete_eq|].
      rewrite lookup_delete_ne, lookup_insert_ne by done.
      pose proof (proj1 (Hs1 j)) as Hj. unfold has_id in Hj. rewrite Ej in Hj.
      destruct (heap st1 !! q) as [u|]; [|done]. destruct (th_id u =? id); [|done].
      by destruct Hji; apply Hj. }
    cbv zeta. by rewrite Nat.ltb_irrefl.
Qed.

(** ** A concrete run: a joinable thread at address 100 with id 7 starts *)

Definition alloc100 : tstate := snd (wpdk_allocate_thread true (Some 100) tstate0).
Definition store100 (t : thread) (st : tstate) : tstate := set_heap (<[100 := t]> (heap st)) st.
Definition stS : tstate := store100 (set_start 9 (set_index 0 zero_thread)) alloc100.
Definition st1 : tstate := store100 (set_arg 3 (set_start 9 (set_index 0 zero_thread))) stS.
Definition st2 : tstate := default tstate0 (wpdk_set_thread_info 100 7 55 false st1).
Definition st3 : tstate := default tstate0 (snd <$> wpdk_thread_starting 100 st2).

(** It is what [wpdk_pthread_create] followed by [wpdk_thread_starting] computes. *)
Lemma st2_created :
  (fun '(rc, id, st) => (rc, id, heap st !! 100, entry st 0, hwmthreads st))
    <$> wpdk_pthread_create (CreateEnv true (Some 100) (fun _ _ => (55, 7, 0))) true None 9 3 tstate0
  = Some (0, 7, heap st2 !! 100, entry st2 0, hwmthreads st2).
Proof. vm_compute. reflexivity. Qed.

Lemma Some_default {A} (d : A) (x : option A) : is_Some x -> x = Some (default d x).
Proof. by intros [y ->]. Qed.

Definition w0 : world := World tstate0 ∅ ∅ ∅ ∅ false.
Definition wa : world := World alloc100 ({[100]} ∪ ∅) ∅ ({[100]} ∪ ∅) ({[100]} ∪ ∅) false.
Definition wb : world := World stS (creating wa) ∅ (no_start wa ∖ {[100]}) (no_arg wa) false.
Definition w1 : world := World st1 (creating wb) ∅ (no_start wb) (no_arg wb ∖ {[100]}) false.
Definition w2 : world := World st2 (creating w1 ∖ {[100]}) ({[100]} ∪ ∅) (no_start w1) (no_arg w1) false.
Definition w3 : world := World st3 (creating w2) (pending w2 ∖ {[100]}) (no_start w2) (no_arg w2) false.

Lemma reach_alloc : treachable wa.
Proof.
  apply (tr_step w0); [constructor|]. apply (t_allocate w0 true 100 alloc100); [cbn; set_solver|].
  unfold alloc100. cbn [ts w0].
  assert (fst (wpdk_allocate_thread true (Some 100) tstate0) = inr 100) as E by (vm_compute; reflexivity).
  rewrite (surjective_pairing (wpdk_allocate_thread _ _ _)), E. reflexivity.
Qed.
Lemma reach1 : treachable w1.
Proof.
  assert (treachable wb) as Hb.
  { apply (tr_step _ _ reach_alloc). apply (t_store_start wa 100 9 (set_index 0 zero_thread)); [cbn [no_start wa]; set_solver|done|vm_compute; reflexivity]. }
  apply (tr_step _ _ Hb). apply (t_store_arg wb 100 3 (set_start 9 (set_index 0 zero_thread)));
    [cbn [creating wb wa]; set_solver|cbn [no_arg wb wa]; set_solver|cbn [no_start wb wa]; set_solver|vm_compute; reflexivity].
Qed.

Lemma reach2 : treachable w2.
Proof.
  apply (tr_step _ _ reach1).
  assert (100 ∈ creating w1) as Hc by (cbn [creating w1 wb wa]; set_solver).
  apply (t_created w1 100 7 55 false st2);
    [done|cbn [no_start w1 wb wa]; set_solver|cbn [no_arg w1 wb wa]; set_solver|done|done|].
  apply (Some_default tstate0), (proj1 (proj2 (threads_safe _ reach1 eq_refl))). exact Hc.
Qed.

Lemma reach3 : treachable w3.
Proof.
  apply (tr_step _ _ reach2).
  assert (100 ∈ pending w2) as Hp by (cbn [pending w2]; set_solver).
  destruct (proj2 (proj2 (threads_safe _ reach2 eq_refl)) 100 Hp) as [[info st'] E].
  assert (st' = st3) as -> by (unfold st3; cbn [ts w2] in E; by rewrite E).
  exact (t_start w2 100 info st3 Hp E).
Qed.

(** A detach of thread 0 while object 100 is being created frees it: its creator goes on with freed memory. *)
Lemma detach_zero_frees : exists w, treachable w /\ hit_zero w = true /\ 100 ∈ creating w /\ heap (ts w) !! 100 = None.
Proof.
  destruct (wpdk_detach_thread 0 (-1) (ts wa)) as [[d st']|] eqn:E; [|by vm_compute in E].
  exists (World st' (creating wa) (pending wa) (no_start wa) (no_arg wa)
    (hit_zero wa || match d with Detached _ _ => 0 =? 0 | NotFound => false end)).
  split; [exact (tr_step _ _ reach_alloc (t_detach wa 0 (-1) d st' E))|].
  assert (fst <$> wpdk_detach_thread 0 (-1) (ts wa) = Some (Detached 0 0)) as Ed by (vm_compute; reflexivity).
  assert ((fun x => heap (snd x) !! 100) <$> wpdk_detach_thread 0 (-1) (ts wa) = Some None) as Eh by (vm_compute; reflexivity).
  rewrite E in Ed, Eh. cbn in Ed, Eh. split_and!; [by simplify_eq|cbn [creating wa]; set_solver|by simplify_eq].
Qed.

Lemma threads_memory_safe_witness :
  is_Some (wpdk_detach_thread 7 (-1) st3) /\ is_Some (heap st3 !! 100) /\ wpdk_pthread_detach 0 st3 = Some (EINVAL, st3).
Proof.
  destruct (threads_memory_safe _ reach3 eq_refl) as (_ & _ & _ & H & H' & H'').
  split; [apply H|split; [apply (H' 0%nat); vm_compute; reflexivity|]]. apply H''. cbn [creating w3 w2 w1 wb wa]. set_solver.
Defined.

Lemma threads_no_leak_witness :
  (hwmthreads st3 <= maxthreads)%nat /\ (is_Some (heap st3 !! 100) <-> exists i, entry st3 i = Some 100).
Proof.
  destruct (threads_no_leak _ reach3 eq_refl) as (H & _ & H').
  split; [exact H|]. apply H'; cbn [creating pending w3 w2 w1 wb wa]; set_solver.
Defined.

Lemma sole_st3 : sole_id st3 7 0.
Proof.
  pose proof (treachable_inv _ reach3 eq_refl) as [Htab _]. cbn [ts] in Htab. intros j. split.
  - intros Hj. unfold has_id in Hj. destruct (entry st3 j) as [p|] eqn:E; [|done].
    destruct (entry_bound st3 j p Htab E) as (l & _ & _ & Hlt).
    assert (hwmthreads st3 = 1%nat) as Eh by (vm_compute; reflexivity). lia.
  - intros ->. vm_compute. reflexivity.
Qed.

Lemma join_returns_result_witness :
  exists st', wpdk_pthread_join 1 7 [WAIT_IO_COMPLETION; WAIT_OBJECT_0] (wpdk_thread_done 7 (-1) 42 st3)
    = Some (0, Some 42, st') /\ heap st' !! 100 = None.
Proof.
  destruct (join_returns_result st3 1 7 (-1) 42 0 1 100 (Thread 7 55 0 3 0 0)
    (proj1 (treachable_inv _ reach3 eq_refl)) sole_st3 ltac:(vm_compute; reflexivity)
    ltac:(vm_compute; reflexivity) ltac:(reflexivity) ltac:(discriminate) ltac:(discriminate)
    ltac:(left; reflexivity)) as (st' & H1 & H2 & _).
  exists st'. exact (conj H1 H2).
Defined.
End Threads.
