(* ===== verification/Pthread.v ===== *)
(** * Pthread: attributes, locks, names and affinity (src/src/pthread.c)

    The functions of pthread.c that do not use the table of threads.  A pointer
    argument is an [option]; a setter returns the attribute object as it leaves
    it.  Critical sections, condition variables, barriers, thread handles and
    thread-local storage belong to Windows: the class [ThreadApi]. *)

From S2P Require Import Prelude Errno CString PathMap Proc.
From Stdlib Require Import Ascii.

Module Export Pthread.
Local Open Scope Z_scope.

Definition PTHREAD_MUTEX_NORMAL : Z := 0.
Definition PTHREAD_MUTEX_ERRORCHECK : Z := 1.
Definition PTHREAD_MUTEX_RECURSIVE : Z := 2.
Definition PTHREAD_MUTEX_DEFAULT : Z := PTHREAD_MUTEX_RECURSIVE.
Definition PTHREAD_MUTEX_STALLED : Z := 0.
Definition PTHREAD_MUTEX_ROBUST : Z := 1.
Definition PTHREAD_PROCESS_PRIVATE : Z := 0.
Definition PTHREAD_PROCESS_SHARED : Z := 1.
Definition PTHREAD_PRIO_NONE : Z := 0.
Definition PTHREAD_PRIO_INHERIT : Z := 1.
Definition PTHREAD_PRIO_PROTECT : Z := 2.
Definition PTHREAD_CREATE_JOINABLE : Z := 0.
Definition PTHREAD_CREATE_DETACHED : Z := 1.
Definition PTHREAD_BARRIER_SERIAL_THREAD : Z := 1.
Definition PTHREAD_CANCEL_ENABLE : Z := 1.
Definition PTHREAD_CANCEL_DISABLE : Z := 0.
Definition PTHREAD_CANCEL_DEFERRED : Z := 0.
Definition PTHREAD_CANCEL_ASYNCHRONOUS : Z := 1.
Definition TLS_OUT_OF_INDEXES : Z := 2 ^ 32 - 1.

(** ** Attribute objects *)

Record pthread_mutexattr := MutexAttr {
  mtype : Z; mrobust : Z; mpshared : Z; mprotocol : Z
}.
(** [pthread_barrierattr_t] and [pthread_condattr_t] have the one field. *)
Record pthread_barrierattr := BarrierAttr { bpshared : Z }.
Record pthread_condattr := CondAttr { cpshared : Z }.
Record pthread_attr := Attr { adetachstate : Z; astacksize : Z }.

#[export] Instance pthread_mutexattr_eq_dec : EqDecision pthread_mutexattr.
Proof. solve_decision. Defined.
#[export] Instance pthread_attr_eq_dec : EqDecision pthread_attr.
Proof. solve_decision. Defined.

(** [switch (v) { case ...: store; return 0; } return EINVAL;] *)
Definition store_if {A} (ok : bool) (a a' : A) : Z * A := if ok then (0, a') else (EINVAL, a).
(** [if (!attr) return EINVAL;] around a setter. *)
Definition on_attr {A} (attr : option A) (f : A -> Z * A) : Z * option A :=
  match attr with
  | None => (EINVAL, None)
  | Some a => let '(rc, a) := f a in (rc, Some a)
  end.
(** A getter: the value stored through the pointer, when it returns 0. *)
Definition get_attr {A} (attr : option A) (has_ptr : bool) (f : A -> Z) : Z * option Z :=
  match attr with
  | Some a => if has_ptr then (0, Some (f a)) else (EINVAL, None)
  | None => (EINVAL, None)
  end.

Definition wpdk_pthread_mutexattr_init (attr : option pthread_mutexattr) :=
  on_attr attr (fun _ => (0, MutexAttr PTHREAD_MUTEX_DEFAULT PTHREAD_MUTEX_STALLED
                               PTHREAD_PROCESS_PRIVATE PTHREAD_PRIO_NONE)).
Definition wpdk_pthread_mutexattr_destroy (attr : option pthread_mutexattr) :=
  on_attr attr (fun a => (0, a)).

Definition wpdk_pthread_mutexattr_gettype (attr : option pthread_mutexattr) (ptr : bool) :=
  get_attr attr ptr mtype.
Definition wpdk_pthread_mutexattr_settype (attr : option pthread_mutexattr) (type : Z) :=
  on_attr attr (fun a =>
    store_if ((type =? PTHREAD_MUTEX_RECURSIVE) || (type =? PTHREAD_MUTEX_NORMAL)
              || (type =? PTHREAD_MUTEX_ERRORCHECK))
      a (MutexAttr type (mrobust a) (mpshared a) (mprotocol a))).

Definition wpdk_pthread_mutexattr_getrobust (attr : option pthread_mutexattr) (ptr : bool) :=
  get_attr attr ptr mrobust.
Definition wpdk_pthread_mutexattr_setrobust (attr : option pthread_mutexattr) (robust : Z) :=
  on_attr attr (fun a =>
    store_if ((robust =? PTHREAD_MUTEX_ROBUST) || (robust =? PTHREAD_MUTEX_STALLED))
      a (MutexAttr (mtype a) robust (mpshared a) (mprotocol a))).

Definition wpdk_pthread_mutexattr_getpshared (attr : option pthread_mutexattr) (ptr : bool) :=
  get_attr attr ptr mpshared.
Definition wpdk_pthread_mutexattr_setpshared (attr : option pthread_mutexattr) (pshared : Z) :=
  on_attr attr (fun a =>
    store_if ((pshared =? PTHREAD_PROCESS_PRIVATE) || (pshared =? PTHREAD_PROCESS_SHARED))
      a (MutexAttr (mtype a) (mrobust a) pshared (mprotocol a))).

Definition wpdk_pthread_mutexattr_getprotocol (attr : option pthread_mutexattr) (ptr : bool) :=
  get_attr attr ptr mprotocol.
Definition wpdk_pthread_mutexattr_setprotocol (attr : option pthread_mutexattr) (protocol : Z) :=
  on_attr attr (fun a =>
    if (protocol =? PTHREAD_PRIO_INHERIT) || (protocol =? PTHREAD_PRIO_PROTECT) then (ENOSYS, a)
    else store_if (protocol =? PTHREAD_PRIO_NONE)
           a (MutexAttr (mtype a) (mrobust a) (mpshared a) protocol)).

Definition wpdk_pthread_mutexattr_getprioceiling (attr : option pthread_mutexattr) (ptr : bool) : Z :=
  match attr with Some _ => if ptr then ENOSYS else EINVAL | None => EINVAL end.
Definition wpdk_pthread_mutexattr_setprioceiling (attr : option pthread_mutexattr) (prio : Z) : Z :=
  match attr with Some _ => ENOSYS | None => EINVAL end.

Definition wpdk_pthread_barrierattr_init (attr : option pthread_barrierattr) :=
  on_attr attr (fun _ => (0, BarrierAttr PTHREAD_PROCESS_PRIVATE)).
Definition wpdk_pthread_barrierattr_destroy (attr : option pthread_barrierattr) :=
  on_attr attr (fun a => (0, a)).
Definition wpdk_pthread_barrierattr_getpshared (attr : option pthread_barrierattr) (ptr : bool) :=
  get_attr attr ptr bpshared.
Definition wpdk_pthread_barrierattr_setpshared (attr : option pthread_barrierattr) (pshared : Z) :=
  on_attr attr (fun a =>
    store_if ((pshared =? PTHREAD_PROCESS_PRIVATE) || (pshared =? PTHREAD_PROCESS_SHARED))
      a (BarrierAttr pshared)).

Definition wpdk_pthread_condattr_init (attr : option pthread_condattr) :=
  on_attr attr (fun _ => (0, CondAttr PTHREAD_PROCESS_PRIVATE)).
Definition wpdk_pthread_condattr_destroy (attr : option pthread_condattr) :=
  on_attr attr (fun a => (0, a)).
Definition wpdk_pthread_condattr_getpshared (attr : option pthread_condattr) (ptr : bool) :=
  get_attr attr ptr cpshared.
Definition wpdk_pthread_condattr_setpshared (attr : option pthread_condattr) (pshared : Z) :=
  on_attr attr (fun a =>
    store_if ((pshared =? PTHREAD_PROCESS_PRIVATE) || (pshared =? PTHREAD_PROCESS_SHARED))
      a (CondAttr pshared)).

Definition wpdk_pthread_attr_init (attr : option pthread_attr) :=
  on_attr attr (fun _ => (0, Attr PTHREAD_CREATE_JOINABLE 0)).
Definition wpdk_pthread_attr_destroy (attr : option pthread_attr) :=
  on_attr attr (fun a => (0, a)).
Definition wpdk_pthread_attr_getdetachstate (attr : option pthread_attr) (ptr : bool) :=
  get_attr attr ptr adetachstate.
Definition wpdk_pthread_attr_setdetachstate (attr : option pthread_attr) (detachstate : Z) :=
  on_attr attr (fun a =>
    store_if ((detachstate =? PTHREAD_CREATE_JOINABLE) || (detachstate =? PTHREAD_CREATE_DETACHED))
      a (Attr detachstate (astacksize a))).
Definition wpdk_pthread_attr_getstacksize (attr : option pthread_attr) (ptr : bool) :=
  get_attr attr ptr astacksize.
Definition wpdk_pthread_attr_setstacksize (attr : option pthread_attr) (stacksize : Z) :=
  on_attr attr (fun a =>
    if UINT_MAX <? stacksize then (EINVAL, a) else (0, Attr (adetachstate a) (u32 stacksize))).

Definition wpdk_pthread_equal (t1 t2 : Z) : Z := if t1 =? t2 then 1 else 0.

(** The return value and [*oldstate], [*oldtype]. *)
Definition wpdk_pthread_cancel (thread : Z) : Z := if thread =? 0 then EINVAL else ENOSYS.
Definition wpdk_pthread_setcancelstate (state : Z) (has_old : bool) : Z * option Z :=
  if negb has_old then (EINVAL, None)
  else if state =? PTHREAD_CANCEL_ENABLE then (0, Some PTHREAD_CANCEL_DISABLE)
  else if state =? PTHREAD_CANCEL_DISABLE then (0, Some PTHREAD_CANCEL_DISABLE)
  else (EINVAL, None).
Definition wpdk_pthread_setcanceltype (type : Z) (has_old : bool) : Z * option Z :=
  if negb has_old then (EINVAL, None)
  else if (type =? PTHREAD_CANCEL_DEFERRED) || (type =? PTHREAD_CANCEL_ASYNCHRONOUS)
  then (0, Some PTHREAD_CANCEL_DEFERRED)
  else (EINVAL, None).

(** ** The system *)

Class ThreadApi (W : Type) := {
  EnterCriticalSection : Z -> C W unit;
  TryEnterCriticalSection : Z -> C W Z;
  LeaveCriticalSection : Z -> C W unit;
  DeleteCriticalSection : Z -> C W unit;
  InitializeCriticalSectionAndSpinCount : Z -> Z -> C W Z;
  (** copies [mutex_init] to the address *)
  init_mutex : Z -> C W unit;
  InitializeSynchronizationBarrier : Z -> Z -> Z -> C W Z;
  DeleteSynchronizationBarrier : Z -> C W unit;
  EnterSynchronizationBarrier : Z -> C W Z;
  InitializeConditionVariable : Z -> C W unit;
  WakeConditionVariable : Z -> C W unit;
  WakeAllConditionVariable : Z -> C W unit;
  SleepConditionVariableCS : Z -> Z -> Z -> C W Z;
  OpenThread : Z -> Z -> C W Z;
  CloseHandle : Z -> C W unit;
  SetThreadAffinityMask : Z -> Z -> C W Z;
  (** whether [wpdk_pthread_initialise_once] found the two functions *)
  description_api : W -> bool;
  SetThreadDescription : Z -> list Z -> C W Z;
  (** the string is copied and released with LocalFree *)
  GetThreadDescription : Z -> C W (Z * list Z);
  TlsAlloc : C W Z;
  TlsFree : Z -> C W Z;
  TlsGetValue : Z -> C W Z;
  TlsSetValue : Z -> Z -> C W Z
}.

Section Ops.
Context {W : Type} `{!ThreadApi W, !WinError W}.
Local Open Scope c_scope.
Local Abbreviation P := (C (proc W)).

(** [if (!ptr) return EINVAL; call(ptr); return 0;] *)
Definition on_object (ptr : Z) (call : C W unit) : P Z :=
  if ptr =? 0 then ret EINVAL else lift call ;; ret 0.
(** [wpdk_last_error(); return errno;] *)
Definition last_errno : P Z := let* _ := wpdk_last_error in gets errno.

Definition wpdk_pthread_mutex_init (mutex : Z) : P Z := on_object mutex (init_mutex mutex).
Definition wpdk_pthread_mutex_destroy (mutex : Z) : P Z :=
  on_object mutex (DeleteCriticalSection mutex).
Definition wpdk_pthread_mutex_lock (mutex : Z) : P Z :=
  on_object mutex (EnterCriticalSection mutex).
Definition wpdk_pthread_mutex_trylock (mutex : Z) : P Z :=
  if mutex =? 0 then ret EINVAL
  else let* ok := lift (TryEnterCriticalSection mutex) in ret (if ok =? 0 then EBUSY else 0).
Definition wpdk_pthread_mutex_unlock (mutex : Z) : P Z :=
  on_object mutex (LeaveCriticalSection mutex).
Definition wpdk_pthread_mutex_consistent (mutex : Z) : P Z := ret EINVAL.

Definition wpdk_pthread_spin_init (lock pshared : Z) : P Z :=
  if lock =? 0 then ret EINVAL
  else if (pshared =? PTHREAD_PROCESS_PRIVATE) || (pshared =? PTHREAD_PROCESS_SHARED)
  then let* _ := lift (InitializeCriticalSectionAndSpinCount lock 32000) in ret 0
  else ret EINVAL.
Definition wpdk_pthread_spin_destroy (lock : Z) : P Z := on_object lock (DeleteCriticalSection lock).
Definition wpdk_pthread_spin_lock (lock : Z) : P Z := on_object lock (EnterCriticalSection lock).
Definition wpdk_pthread_spin_trylock (lock : Z) : P Z :=
  if lock =? 0 then ret EINVAL
  else let* ok := lift (TryEnterCriticalSection lock) in ret (if ok =? 0 then EBUSY else 0).
Definition wpdk_pthread_spin_unlock (lock : Z) : P Z := on_object lock (LeaveCriticalSection lock).

Definition wpdk_pthread_barrier_init (barrier count : Z) : P Z :=
  if (barrier =? 0) || (count =? 0) then ret EINVAL
  else let* _ := lift (InitializeSynchronizationBarrier barrier count (-1)) in ret 0.
Definition wpdk_pthread_barrier_destroy (barrier : Z) : P Z :=
  on_object barrier (DeleteSynchronizationBarrier barrier).
(** [TRUE] is 1. *)
Definition wpdk_pthread_barrier_wait (barrier : Z) : P Z :=
  if barrier =? 0 then ret EINVAL
  else let* last := lift (EnterSynchronizationBarrier barrier) in
       ret (if last =? 1 then PTHREAD_BARRIER_SERIAL_THREAD else 0).

Definition wpdk_pthread_cond_init (cond : Z) : P Z :=
  on_object cond (InitializeConditionVariable cond).
Definition wpdk_pthread_cond_destroy (cond : Z) : P Z := if cond =? 0 then ret EINVAL else ret 0.
Definition wpdk_pthread_cond_signal (cond : Z) : P Z := on_object cond (WakeConditionVariable cond).
Definition wpdk_pthread_cond_broadcast (cond : Z) : P Z :=
  on_object cond (WakeAllConditionVariable cond).

Definition wpdk_cond_wait (cond mutex msecs : Z) : P Z :=
  if (cond =? 0) || (mutex =? 0) then ret EINVAL
  else
    let* ok := lift (SleepConditionVariableCS cond mutex msecs) in
    if ok =? 0 then
      let* err := gets GetLastError in
      ret (if err =? ERROR_TIMEOUT then ETIMEDOUT else 0)
    else ret 0.
Definition wpdk_pthread_cond_wait (cond mutex : Z) : P Z := wpdk_cond_wait cond mutex INFINITE.
(** [abstime_to_msecs] is the conversion of time.c: the delay, or -1 with errno set. *)
Definition wpdk_pthread_cond_timedwait (abstime_to_msecs : P (option Z)) (cond mutex : Z) : P Z :=
  let* ms := abstime_to_msecs in
  match ms with
  | None => gets errno
  | Some ms => wpdk_cond_wait cond mutex ms
  end.

Definition wpdk_pthread_testcancel : P unit := ret tt.
Definition wpdk_pthread_self (GetCurrentThreadId : C W Z) : P Z := lift GetCurrentThreadId.

Definition THREAD_SET_QUERY_INFORMATION : Z := 0x60.
Definition THREAD_SET_LIMITED_INFORMATION : Z := 0x400.
Definition THREAD_QUERY_LIMITED_INFORMATION : Z := 0x800.

(** [cpuset] is [_bits[0]], [None] for a NULL pointer; [sizeof(affinity)] is 8. *)
Definition wpdk_pthread_setaffinity_np (thread cpusetsize : Z) (cpuset : option Z) : P Z :=
  match cpuset with
  | None => ret EINVAL
  | Some bits =>
      if (thread =? 0) || (cpusetsize <? 8) then ret EINVAL
      else
        let* h := lift (OpenThread THREAD_SET_QUERY_INFORMATION thread) in
        if h =? 0 then last_errno
        else
          let* affinity := lift (SetThreadAffinityMask h (u64 bits)) in
          let* error := wpdk_last_error in
          lift (CloseHandle h) ;;
          ret (if affinity =? 0 then error else 0)
  end.

(** [for (temporary = 1; temporary != 0; temporary <<= 1)]: the affinity found,
    restored by a second call; 64 rounds are all there are. *)
Fixpoint probe_affinity (fuel : nat) (h temporary : Z) : P (option Z) :=
  match fuel with
  | O => ret None
  | S fuel =>
      if temporary =? 0 then ret None
      else
        let* affinity := lift (SetThreadAffinityMask h temporary) in
        if affinity =? 0 then probe_affinity fuel h (u64 (Z.shiftl temporary 1))
        else let* _ := lift (SetThreadAffinityMask h affinity) in ret (Some affinity)
  end.

(** The return value and [_bits[0]] when it was stored (the rest is zeroed). *)
Definition wpdk_pthread_getaffinity_np (thread cpusetsize : Z) (has_cpuset : bool)
    : P (Z * option Z) :=
  if (thread =? 0) || (cpusetsize <? 8) || negb has_cpuset then ret (EINVAL, None)
  else
    let* h := lift (OpenThread THREAD_SET_QUERY_INFORMATION thread) in
    if h =? 0 then let* e := last_errno in ret (e, None)
    else
      let* found := probe_affinity 65 h 1 in
      match found with
      | Some affinity => lift (CloseHandle h) ;; ret (0, Some affinity)
      | None =>
          let* error := wpdk_last_error in
          lift (CloseHandle h) ;; ret (error, None)
      end.

Definition wpdk_pthread_key_create (has_key : bool) (destructor : Z) : P (Z * option Z) :=
  if negb has_key || negb (destructor =? 0) then ret (EINVAL, None)
  else
    let* index := lift TlsAlloc in
    if index =? TLS_OUT_OF_INDEXES then let* e := last_errno in ret (e, None)
    else ret (0, Some index).
Definition wpdk_pthread_key_delete (key : Z) : P Z :=
  let* ok := lift (TlsFree key) in if ok =? 0 then last_errno else ret 0.
Definition wpdk_pthread_getspecific (key : Z) : P Z := lift (TlsGetValue key).
Definition wpdk_pthread_setspecific (key value : Z) : P Z :=
  let* ok := lift (TlsSetValue key value) in if ok =? 0 then last_errno else ret 0.

(** [WCHAR] of a [char] (signed) and back. *)
Definition widen (c : ascii) : Z := u16 (swrap 8 (Z.of_N (N_of_ascii c))).
Definition narrow (w : Z) : ascii := ascii_of_N (Z.to_N (uwrap 8 w)).

(** [for (i = 0; i < 32 && name[i]; i++) buf[i] = name[i];] *)
Definition widen_name (name : cstr) : list Z := map widen (take 32 name).

Definition wpdk_pthread_setname_np (thread : Z) (name : option cstr) : P Z :=
  match name with
  | None => ret EINVAL
  | Some name =>
      if thread =? 0 then ret EINVAL
      else
        let* api := gets (fun p => description_api (world p)) in
        if negb api then ret ENOSYS
        else
          let buf := widen_name name in
          if (length buf =? 0)%nat then ret EINVAL
          else if (length buf =? 32)%nat then ret ERANGE
          else
            let* h := lift (OpenThread THREAD_SET_LIMITED_INFORMATION thread) in
            if h =? 0 then last_errno
            else
              let* rc := lift (SetThreadDescription h buf) in
              lift (CloseHandle h) ;;
              ret (if rc <? 0 then EINVAL else 0)
  end.

(** The characters written to [name], the terminator included when it fits;
    [str] is the description without its terminator. *)
Definition copy_name (str : list Z) (len : nat) : list ascii :=
  let s := map narrow (take len str) in
  if (length s <? len)%nat then s ++ [NUL] else s.

Definition wpdk_pthread_getname_np (thread : Z) (has_name : bool) (len : nat)
    : P (Z * list ascii) :=
  if (thread =? 0) || negb has_name || (len <? 1)%nat then ret (EINVAL, [])
  else
    let* api := gets (fun p => description_api (world p)) in
    if negb api then ret (ENOSYS, [])
    else
      let* h := lift (OpenThread THREAD_QUERY_LIMITED_INFORMATION thread) in
      if h =? 0 then let* e := last_errno in ret (e, [])
      else
        let* '(rc, str) := lift (GetThreadDescription h) in
        lift (CloseHandle h) ;;
        if rc <? 0 then ret (EINVAL, [])
        else ret (if (length (take len str) <? len)%nat then 0 else ERANGE, copy_name str len).

Definition wpdk_pthread_set_name_np (thread : Z) (name : option cstr) : P unit :=
  let* _ := wpdk_pthread_setname_np thread name in ret tt.

(** The first byte becomes NUL on failure. *)
Definition wpdk_pthread_get_name_np (thread : Z) (has_name : bool) (len : nat)
    : P (list ascii) :=
  let* '(rc, out) := wpdk_pthread_getname_np thread has_name len in
  ret (if negb (rc =? 0) && has_name && (0 <? len)%nat then NUL :: tl out else out).
End Ops.

(** ** Attributes: what is set is what is read *)

Inductive mfield := MType | MRobust | MPshared | MProtocol.
#[export] Instance mfield_eq_dec : EqDecision mfield.
Proof. solve_decision. Defined.

Definition mset (f : mfield) : option pthread_mutexattr -> Z -> Z * option pthread_mutexattr :=
  match f with
  | MType => wpdk_pthread_mutexattr_settype
  | MRobust => wpdk_pthread_mutexattr_setrobust
  | MPshared => wpdk_pthread_mutexattr_setpshared
  | MProtocol => wpdk_pthread_mutexattr_setprotocol
  end.
Definition mget (f : mfield) : option pthread_mutexattr -> bool -> Z * option Z :=
  match f with
  | MType => wpdk_pthread_mutexattr_gettype
  | MRobust => wpdk_pthread_mutexattr_getrobust
  | MPshared => wpdk_pthread_mutexattr_getpshared
  | MProtocol => wpdk_pthread_mutexattr_getprotocol
  end.
(** The values each attribute accepts. *)
Definition accepted (f : mfield) : list Z :=
  match f with
  | MType => [0; 1; 2] | MRobust => [0; 1] | MPshared => [0; 1] | MProtocol => [0]
  end.

Lemma store_if_spec {A} (b : bool) (a a' : A) :
  (b = true /\ store_if b a a' = (0, a')) \/ (b = false /\ store_if b a a' = (EINVAL, a)).
Proof. destruct b; auto. Qed.

(** A mutex attribute is set exactly to the values it accepts: then the
    getter returns the value and every other attribute is as before; any other
    value is refused with the object unchanged. *)
Theorem mutexattr_set_get (f g : mfield) (a : pthread_mutexattr) (v : Z) :
  (v ∈ accepted f ->
     fst (mset f (Some a) v) = 0 /\ mget f (snd (mset f (Some a) v)) true = (0, Some v) /\
     (g <> f -> mget g (snd (mset f (Some a) v)) true = mget g (Some a) true)) /\
  (v ∉ accepted f -> fst (mset f (Some a) v) <> 0 /\ snd (mset f (Some a) v) = Some a).
Proof.
  split.
  - intros Hv. destruct f; unfold accepted in Hv;
      repeat (apply elem_of_cons in Hv as [->|Hv]); try (by apply not_elem_of_nil in Hv);
      (split; [done|split; [done|]]); destruct g; done.
  - intros Hv. destruct f; unfold accepted in Hv;
      rewrite ?not_elem_of_cons in Hv; cbn [mset];
      unfold wpdk_pthread_mutexattr_settype, wpdk_pthread_mutexattr_setrobust,
        wpdk_pthread_mutexattr_setpshared, wpdk_pthread_mutexattr_setprotocol, on_attr, store_if;
      repeat split_if; try done; exfalso;
      unfold PTHREAD_MUTEX_RECURSIVE, PTHREAD_MUTEX_NORMAL, PTHREAD_MUTEX_ERRORCHECK,
        PTHREAD_MUTEX_ROBUST, PTHREAD_MUTEX_STALLED, PTHREAD_PROCESS_PRIVATE,
        PTHREAD_PROCESS_SHARED, PTHREAD_PRIO_NONE in *; lia.
Qed.

(** ** Names *)

Lemma narrow_widen c : narrow (widen c) = c.
Proof. destruct c as [[] [] [] [] [] [] [] []]; vm_compute; reflexivity. Qed.

Lemma narrow_widen_name name :
  (length name < 32)%nat -> map narrow (widen_name name) = name.
Proof.
  intros Hl. unfold widen_name. rewrite take_ge by lia. rewrite map_map.
  rewrite <- (map_id name) at 2. apply map_ext. apply narrow_widen.
Qed.

Section Laws.
Context {W : Type} `{!ThreadApi W, !WinError W}.

(** What is documented of thread descriptions and affinities: a description is
    read back as it was set, through any handle of the thread; setting an
    affinity that is a nonempty subset of the process's returns the previous
    one, anything else fails with 0. *)
Class ThreadLaws := {
  handle_thread : W -> Z -> Z;                 (** the thread a handle refers to *)
  description : W -> Z -> list Z;
  affinity : W -> Z -> Z;
  process_mask : Z;
  law_open : forall a t w, let '(h, w') := OpenThread a t w in
    description w' = description w /\ affinity w' = affinity w /\
    description_api w' = description_api w /\ (h <> 0 -> handle_thread w' h = t) /\
    (h = 0 -> s32 (w_GetLastError w') <> 0);
  law_close : forall h w, description (snd (CloseHandle h w)) = description w /\
    affinity (snd (CloseHandle h w)) = affinity w /\
    description_api (snd (CloseHandle h w)) = description_api w;
  law_set_description : forall h s w, let '(rc, w') := SetThreadDescription h s w in
    description_api w' = description_api w /\
    (0 <= rc -> description w' (handle_thread w h) = s);
  law_get_description : forall h w, let '(rc, str, w') := GetThreadDescription h w in
    description w' = description w /\ (0 <= rc -> str = description w (handle_thread w h));
  law_affinity : forall h m w, let '(r, w') := SetThreadAffinityMask h m w in
    (forall h', handle_thread w' h' = handle_thread w h') /\
    (forall t, t <> handle_thread w h -> affinity w' t = affinity w t) /\
    if negb (m =? 0) && (Z.land m process_mask =? m)
    then r = affinity w (handle_thread w h) /\ affinity w' (handle_thread w h) = m
    else r = 0 /\ affinity w' (handle_thread w h) = affinity w (handle_thread w h);
  law_affinity_valid : forall w t, affinity w t <> 0 /\
    Z.land (affinity w t) process_mask = affinity w t
}.
Context `{!ThreadLaws}.

Lemma last_errno_nonzero (p : proc W) :
  s32 (w_GetLastError (world p)) <> 0 -> fst (last_errno p) <> 0.
Proof.
  intros Hne. unfold last_errno. rewrite bind_run. cbn [gets fst snd]. autorewrite with wpdk_rw.
  cbn [snd]. rewrite errno_set_errno. pose proof (convert_range _ Hne). unfold GetLastError, proc_last_error in *. lia.
Qed.

(** What a successful [wpdk_pthread_setname_np] leaves behind. *)
Lemma setname_ok (p : proc W) thread name :
  fst (wpdk_pthread_setname_np thread (Some name) p) = 0 ->
  let q := snd (wpdk_pthread_setname_np thread (Some name) p) in
  thread <> 0 /\ (length name < 32)%nat /\ description_api (world q) = true /\
  description (world q) thread = widen_name name.
Proof.
  unfold wpdk_pthread_setname_np. destruct (Z.eqb_spec thread 0) as [|Ht]; [done|].
  rewrite bind_run. cbn [gets fst snd]. destruct (description_api (world p)) eqn:Eapi; [|done].
  cbn [negb]. destruct (length (widen_name name) =? 0)%nat eqn:E0; [done|].
  destruct (length (widen_name name) =? 32)%nat eqn:E32; [done|].
  assert (length name < 32)%nat as Hname.
  { unfold widen_name in E32. rewrite length_map, length_take in E32. bool_prop. lia. }
  rewrite bind_run, lift_run.
  pose proof (law_open THREAD_SET_LIMITED_INFORMATION thread (world p)) as Ho.
  destruct (OpenThread _ thread (world p)) as [h w1]. cbn [fst snd].
  destruct Ho as (_ & _ & Hapi1 & Hh & Herr).
  destruct (Z.eqb_spec h 0) as [E|Hh0]; [intros Hz; exfalso; revert Hz; apply last_errno_nonzero; exact (Herr E)|].
  specialize (Hh Hh0). rewrite bind_run, lift_run. cbn [world].
  pose proof (law_set_description h (widen_name name) w1) as Hs.
  destruct (SetThreadDescription h (widen_name name) w1) as [rc w2]. cbn [fst snd].
  destruct Hs as [Hapi2 Hd]. destruct (Z.ltb_spec rc 0); [rewrite bind_run; done|].
  intros _. rewrite bind_run, lift_run. cbn [world].
  pose proof (law_close h w2) as (Hc1 & _ & Hc2). destruct (CloseHandle h w2) as [u w3].
  cbn [fst snd world ret] in *. rewrite Hc1, Hc2, Hapi2, Hapi1.
  split_and!; try done. rewrite <- Hh. apply Hd. lia.
Qed.

Lemma getname_run (p : proc W) thread len :
  thread <> 0 -> (1 <= len)%nat -> description_api (world p) = true ->
  let '(rc, out) := fst (wpdk_pthread_getname_np thread true len p) in
  let str := description (world p) thread in
  (out = [] /\ rc <> 0 /\ rc <> ERANGE) \/
  (out = copy_name str len /\ rc = if (length (take len str) <? len)%nat then 0 else ERANGE) \/
  (out = [] /\ rc = ERANGE).
Proof.
  intros Ht Hlen Hapi. unfold wpdk_pthread_getname_np.
  rewrite (proj2 (Z.eqb_neq _ _) Ht). destruct (Nat.ltb_spec len 1); [lia|]. cbn [negb orb].
  rewrite bind_run. cbn [gets fst snd]. rewrite Hapi. cbn [negb]. rewrite bind_run, lift_run.
  pose proof (law_open THREAD_QUERY_LIMITED_INFORMATION thread (world p)) as Ho.
  destruct (OpenThread _ thread (world p)) as [h w1]. cbn [fst snd].
  destruct Ho as (Hd1 & _ & _ & Hh & Herr).
  destruct (Z.eqb_spec h 0) as [E|Hh0].
  - rewrite bind_run. cbn [ret fst snd].
    pose proof (last_errno_nonzero (Proc (pr_errno p) (pr_ready p) (pr_fds p) (pr_addr p)
      (pr_epolls p) (pr_paths p) w1) (Herr E)) as He.
    match goal with |- context [fst (last_errno ?x)] => destruct (decide (fst (last_errno x) = ERANGE)) end; auto.
  - specialize (Hh Hh0). rewrite bind_run, lift_run. cbn [world].
    pose proof (law_get_description h w1) as Hg.
    destruct (GetThreadDescription h w1) as [[rc str] w2]. cbn [fst snd].
    destruct Hg as [_ Hstr]. rewrite bind_run, lift_run. cbn [world].
    destruct (CloseHandle h w2) as [u w3]. cbn [fst snd].
    destruct (Z.ltb_spec rc 0); cbn [ret fst]; [left; done|].
    right. left. rewrite Hstr, Hh, Hd1 by lia. done.
Qed.

(** A name of 1 to 31 characters set on a thread is the name read back,
    with its terminator, into any buffer that has room for it, whatever bytes it
    has; a buffer without room is filled up to its size and not beyond. *)
Theorem name_roundtrip (p : proc W) (thread : Z) (name : cstr) (len : nat) :
  (1 <= len)%nat ->
  fst (wpdk_pthread_setname_np thread (Some name) p) = 0 ->
  let q := snd (wpdk_pthread_setname_np thread (Some name) p) in
  let '(rc, out) := fst (wpdk_pthread_getname_np thread true len q) in
  (length out <= len)%nat /\
  (rc = 0 -> out = name ++ [NUL]) /\
  (rc <> 0 -> out = [] \/ out = take len name /\ (len <= length name)%nat).
Proof.
  intros Hlen Hset. destruct (setname_ok p thread name Hset) as (Ht & Hn & Hapi & Hd). cbv zeta.
  set (q := snd _) in *. pose proof (getname_run q thread len Ht Hlen Hapi) as Hg.
  destruct (fst (wpdk_pthread_getname_np thread true len q)) as [rc out]. rewrite Hd in Hg. cbv zeta in Hg.
  assert (map narrow (take len (widen_name name)) = take len name) as Hcp
    by (rewrite <- (narrow_widen_name name) at 2 by done; rewrite firstn_map; done).
  unfold copy_name in Hg. rewrite Hcp in Hg.
  assert (length (take len (widen_name name)) = length (take len name)) as E
    by (rewrite <- Hcp at 1; by rewrite length_map).
  rewrite E in Hg. rewrite length_take in Hg.
  destruct Hg as [(-> & H0 & _)|[[-> ->]|[-> ->]]];
    [split_and!; [simpl; lia|done|auto]| |split_and!; [simpl; lia|done|auto]].
  destruct (Nat.ltb_spec (len `min` length name) len).
  - split_and!; [rewrite length_app, length_take; simpl; lia| |done].
    intros _. by rewrite take_ge by lia.
  - split_and!; [rewrite length_take; lia|done|]. intros _. right. split; [done|lia].
Qed.

(** Probing with [2 ^ k], [2 ^ (k+1)], ...: what is found is the affinity of the
    thread, which is as before in every case; and it is found when the process
    may run on one of the remaining processors. *)
Lemma probe_spec fuel h k (p : proc W) :
  0 <= k -> k + Z.of_nat fuel = 65 ->
  let '(r, q) := probe_affinity fuel h (if k <? 64 then 2 ^ k else 0) p in
  (forall t, affinity (world q) t = affinity (world p) t) /\
  (forall m, r = Some m -> m = affinity (world p) (handle_thread (world p) h)) /\
  (forall j, k <= j < 64 -> Z.testbit process_mask j = true -> r <> None).
Proof.
  revert k p. induction fuel as [|fuel IH]; intros k p Hk Hf; cbn [probe_affinity].
  { split_and!; [done|done|intros; lia]. }
  destruct (Z.ltb_spec k 64) as [Hk64|Hk64].
  2: { split_and!; [done|done|intros; lia]. }
  assert (0 < 2 ^ k) as Hpos by (apply pow2_pos; lia).
  rewrite (proj2 (Z.eqb_neq _ _)) by lia. rewrite bind_run, lift_run. cbn [fst snd].
  pose proof (law_affinity h (2 ^ k) (world p)) as Hl.
  destruct (SetThreadAffinityMask h (2 ^ k) (world p)) as [r w1]. cbn [fst snd].
  destruct Hl as (Hh & Hother & Hset). rewrite (proj2 (Z.eqb_neq (2 ^ k) 0)) in Hset by lia.
  cbn [negb andb] in Hset. set (th := handle_thread (world p) h) in *.
  destruct (law_affinity_valid (world p) th) as [Hv0 Hv1].
  destruct (Z.land (2 ^ k) process_mask =? 2 ^ k) eqn:E.
  - destruct Hset as [-> Hnew]. rewrite (proj2 (Z.eqb_neq _ _)) by done.
    rewrite bind_run, lift_run. cbn [fst snd world ret].
    pose proof (law_affinity h (affinity (world p) th) w1) as Hl2.
    destruct (SetThreadAffinityMask h (affinity (world p) th) w1) as [r2 w2]. cbn [fst snd].
    rewrite (Hh h) in Hl2. fold th in Hl2. destruct Hl2 as (_ & Hother2 & Hset2).
    rewrite (proj2 (Z.eqb_neq _ _)), (proj2 (Z.eqb_eq _ _)) in Hset2 by done.
    cbn [negb andb] in Hset2. split_and!; [|by intros m [= <-]|done].
    intros t. destruct (decide (t = th)) as [->|]; [tauto|]. by rewrite Hother2, Hother.
  - destruct Hset as [-> Hsame]. change (0 =? 0) with true. cbn iota.
    replace (u64 (Z.shiftl (2 ^ k) 1)) with (if k + 1 <? 64 then 2 ^ (k + 1) else 0).
    2: { rewrite Z.shiftl_mul_pow2 by lia. rewrite <- Z.pow_add_r by lia. unfold uwrap.
         destruct (Z.ltb_spec (k + 1) 64).
         - rewrite Z.mod_small; [done|]. split; [apply Z.pow_nonneg; lia|].
           apply Z.pow_lt_mono_r; lia.
         - replace (k + 1) with 64 by lia. by rewrite Z.mod_same. }
    match goal with |- context [probe_affinity fuel h _ ?q] =>
      specialize (IH (k + 1) q ltac:(lia) ltac:(lia)) end.
    destruct (probe_affinity fuel h _ _) as [r q]. cbn [world] in IH. destruct IH as (H1 & H2 & H3).
    assert (forall t, affinity w1 t = affinity (world p) t) as Hw1.
    { intros t. destruct (decide (t = th)) as [->|]; auto. }
    split_and!.
    + intros t. by rewrite H1, Hw1.
    + intros m Hm. rewrite (H2 m Hm), (Hh h). apply Hw1.
    + intros j Hj Hbit. apply (H3 j); [|done].
      destruct (decide (j = k)) as [->|]; [|lia]. exfalso. bool_prop. apply E.
      apply Z.bits_inj'. intros n Hn. rewrite Z.land_spec, Z.pow2_bits_eqb by lia.
      destruct (Z.eqb_spec k n) as [->|]; [by rewrite Hbit|done].
Qed.

(** Reading the affinity by probing does not disturb it: the value stored
    is the thread's affinity and every thread's affinity is the same afterwards;
    and the probing always finds it once the thread could be opened. *)
Theorem getaffinity_preserves (p : proc W) (thread cpusetsize : Z) :
  0 < process_mask < 2 ^ 64 -> thread <> 0 -> 8 <= cpusetsize ->
  let '((rc, bits), q) := wpdk_pthread_getaffinity_np thread cpusetsize true p in
  (forall t, affinity (world q) t = affinity (world p) t) /\
  (forall m, bits = Some m -> rc = 0 /\ m = affinity (world p) thread) /\
  (fst (OpenThread THREAD_SET_QUERY_INFORMATION thread (world p)) <> 0 -> bits <> None).
Proof.
  intros Hmask Ht Hsz. unfold wpdk_pthread_getaffinity_np.
  rewrite (proj2 (Z.eqb_neq _ _) Ht), (proj2 (Z.ltb_ge _ _) Hsz). cbn [orb negb].
  rewrite bind_run, lift_run. cbn [fst snd].
  pose proof (law_open THREAD_SET_QUERY_INFORMATION thread (world p)) as Ho.
  destruct (OpenThread _ thread (world p)) as [h w1]. cbn [fst snd].
  destruct Ho as (_ & Haff & _ & Hh & _).
  destruct (Z.eqb_spec h 0) as [->|Hh0].
  { rewrite bind_run. cbn [ret]. split_and!; [simpl; by rewrite Haff|done|done]. }
  specialize (Hh Hh0). rewrite bind_run. set (p1 := Proc _ _ _ _ _ _ w1).
  pose proof (probe_spec 65 h 0 p1 ltac:(lia) ltac:(lia)) as Hp.
  change (if 0 <? 64 then 2 ^ 0 else 0) with 1 in Hp.
  destruct (probe_affinity 65 h 1 p1) as [r q]. cbn [fst snd].
  destruct Hp as (H1 & H2 & H3). cbn [world p1] in H1, H2. rewrite Haff, Hh in *.
  assert (exists j, 0 <= j < 64 /\ Z.testbit process_mask j = true) as (j & Hj & Hbit).
  { exists (Z.log2 process_mask). split; [|apply Z.bit_log2; lia].
    split; [apply Z.log2_nonneg|]. apply Z.log2_lt_pow2; lia. }
  pose proof (H3 j Hj Hbit) as Hsome. destruct r as [m|]; [|done].
  rewrite bind_run, lift_run. cbn [fst snd ret world].
  split_and!; [|intros m' [= <-]; auto|done].
  intros t. rewrite (proj1 (proj2 (law_close h (world q)))). apply H1.
Qed.
End Laws.

(** ** A system to run the model on *)
Module SimpleThreads.
(** The descriptions and affinities of the threads of a 4-processor machine; a
    handle is the thread's id. *)
Record w := SW { names : gmap Z (list Z); masks : gmap Z Z }.

Definition valid_mask (m : Z) : bool := negb (m =? 0) && (Z.land m 15 =? m).
Definition mask_of (s : w) (t : Z) : Z :=
  match masks s !! t with Some m => if valid_mask m then m else 15 | None => 15 end.

Definition set_mask (h m : Z) : C w Z := fun s =>
  if valid_mask m then (mask_of s h, SW (names s) (<[h := m]> (masks s))) else (0, s).

#[export] Instance simple_error : WinError w := fun _ => 6.
#[export] Instance simple_threads : ThreadApi w := {|
  EnterCriticalSection _ := ret tt; TryEnterCriticalSection _ := ret 1;
  LeaveCriticalSection _ := ret tt; DeleteCriticalSection _ := ret tt;
  InitializeCriticalSectionAndSpinCount _ _ := ret 1; init_mutex _ := ret tt;
  InitializeSynchronizationBarrier _ _ _ := ret 1; DeleteSynchronizationBarrier _ := ret tt;
  EnterSynchronizationBarrier _ := ret 1;
  InitializeConditionVariable _ := ret tt; WakeConditionVariable _ := ret tt;
  WakeAllConditionVariable _ := ret tt; SleepConditionVariableCS _ _ _ := ret 1;
  OpenThread _ t := ret t; CloseHandle _ := ret tt;
  SetThreadAffinityMask := set_mask; description_api _ := true;
  SetThreadDescription h d := fun s => (0, SW (<[h := d]> (names s)) (masks s));
  GetThreadDescription h := fun s => ((0, default [] (names s !! h)), s);
  TlsAlloc := ret 1; TlsFree _ := ret 1; TlsGetValue _ := ret 0; TlsSetValue _ _ := ret 1
|}.

#[export] Instance simple_thread_laws : ThreadLaws (W := w).
Proof.
  refine {| handle_thread := fun _ h => h; description := fun s t => default [] (names s !! t);
            affinity := mask_of; process_mask := 15 |}; try done.
  - intros h d s. simpl. split; [done|]. intros _. by rewrite lookup_insert_eq.
  - intros h m s. cbn [SetThreadAffinityMask simple_threads]. unfold set_mask.
    change (negb (m =? 0) && (Z.land m 15 =? m)) with (valid_mask m).
    destruct (valid_mask m) eqn:E; [|done]. split; [done|]. split.
    + intros t Ht. unfold mask_of. simpl. by rewrite lookup_insert_ne.
    + split; [done|]. unfold mask_of. simpl. rewrite lookup_insert_eq. by rewrite E.
  - intros s t. unfold mask_of. destruct (masks s !! t) as [m|]; [|done].
    destruct (valid_mask m) eqn:E; [|done]. unfold valid_mask in E. bool_prop. done.
Defined.
End SimpleThreads.

Section Witnesses.
Import SimpleThreads.

Lemma name_roundtrip_witness :
  let q := snd (wpdk_pthread_setname_np 7 (Some (lit "reactor_0")) (proc0 (SW ∅ ∅))) in
  fst (wpdk_pthread_getname_np 7 true 16 q) = (0, lit "reactor_0" ++ [NUL]).
Proof.
  cbv zeta.
  pose proof (name_roundtrip (proc0 (SW ∅ ∅)) 7 (lit "reactor_0") 16 ltac:(lia)
    ltac:(vm_compute; reflexivity)) as H. cbv zeta in H.
  assert (fst (fst (wpdk_pthread_getname_np 7 true 16
    (snd (wpdk_pthread_setname_np 7 (Some (lit "reactor_0")) (proc0 (SW ∅ ∅)))))) = 0) as E
    by (vm_compute; reflexivity).
  destruct (fst (wpdk_pthread_getname_np _ _ _ _)) as [rc out]. simpl in E. subst rc.
  destruct H as (_ & H & _). by rewrite H.
Defined.

Lemma getaffinity_preserves_witness :
  let p := proc0 (SW ∅ {[7 := 6]}) in
  fst (wpdk_pthread_getaffinity_np 7 16 true p) = (0, Some 6) /\
  affinity (world (snd (wpdk_pthread_getaffinity_np 7 16 true p))) 7 = 6.
Proof.
  cbv zeta. split; [vm_compute; reflexivity|].
  assert (0 < process_mask < 2 ^ 64) as Hm by (cbn [process_mask simple_thread_laws]; lia).
  pose proof (getaffinity_preserves (proc0 (SW ∅ {[7 := 6]})) 7 16 Hm
    ltac:(discriminate) ltac:(lia)) as H.
  destruct (wpdk_pthread_getaffinity_np _ _ _ _) as [[rc bits] q]. destruct H as (H & _).
  cbn [snd]. rewrite (H 7). vm_compute. reflexivity.
Defined.
Lemma mutexattr_set_get_witness :
  mget MType (snd (mset MType (Some (MutexAttr 2 0 0 0)) 1)) true = (0, Some 1).
Proof. apply (mutexattr_set_get MType MRobust (MutexAttr 2 0 0 0) 1). apply list_elem_of_In. simpl. auto. Defined.
End Witnesses.
End Pthread.
