(* ===== verification/Files.v ===== *)
(** * Files: descriptors, dispatch and advisory locks

    [wpdk_open], [wpdk_fcntl] and the byte-range locks of src/src/fcntl.c,
    [wpdk_lockf] of src/src/unistd.c, and [wpdk_flock] of src/src/file.c.  A descriptor is a socket, an epoll instance or one of the
    C runtime; the runtime and the kernel are the class [FileApi], whose
    runtime functions also return the errno they set, if any. *)

From S2P Require Import Prelude Errno CString PathMap Proc Sockets Epolls.
From stdpp Require Import gmultiset.

Module Export Files.
Local Open Scope Z_scope.

Definition F_GETFD : Z := 1.
Definition F_SETFD : Z := 2.
Definition F_GETLK : Z := 5.
Definition F_SETLK : Z := 6.
Definition F_SETLKW : Z := 7.
Definition F_RDLCK : Z := 0.
Definition F_WRLCK : Z := 1.
Definition F_UNLCK : Z := 2.
Definition F_LOCK : Z := 1.
Definition F_ULOCK : Z := 2.
Definition F_TLOCK : Z := 3.
Definition F_TEST : Z := 4.
Definition LOCK_SH : Z := 1.
Definition LOCK_EX : Z := 2.
Definition LOCK_NB : Z := 4.
Definition LOCK_UN : Z := 8.
Definition SEEK_SET : Z := 0.
Definition SEEK_CUR : Z := 1.
Definition SEEK_END : Z := 2.
Definition INVALID_HANDLE_VALUE : Z := -1.
Definition INT64_MIN : Z := - 2 ^ 63.
(** [((INT64_MAX - 1) / 2)] *)
Definition LOCKFILE_MAX : Z := (INT64_MAX - 1) / 2.
Definition LOCKFILE_GUARD : Z := INT64_MAX - LOCKFILE_MAX.
(** The file modes and flags of the runtime. *)
Definition S_IREAD : Z := 0x100.
Definition S_IWRITE : Z := 0x80.
Definition O_CREAT : Z := 0x100.
Definition O_RDWR : Z := 2.
(** [O_RDONLY|O_WRONLY|O_RDWR|O_APPEND|O_CREAT|O_TRUNC|O_EXCL] and [_O_BINARY]. *)
Definition O_KEPT : Z := 0x70b.
Definition _O_BINARY : Z := 0x8000.

Definition S_IEXEC : Z := 0x40.
(** The permissions of the owner, the group and others (stat.h). *)
Definition S_IRWXU : Z := Z.lor (Z.lor S_IREAD S_IWRITE) S_IEXEC.
Definition S_IRUSR : Z := S_IREAD.
Definition S_IWUSR : Z := S_IWRITE.
Definition S_IXUSR : Z := S_IEXEC.
Definition S_IRWXG : Z := Z.shiftr S_IRWXU 3.
Definition S_IRGRP : Z := Z.shiftr S_IRUSR 3.
Definition S_IWGRP : Z := Z.shiftr S_IWUSR 3.
Definition S_IXGRP : Z := Z.shiftr S_IXUSR 3.
Definition S_IRWXO : Z := Z.shiftr S_IRWXG 3.
Definition S_IROTH : Z := Z.shiftr S_IRGRP 3.
Definition S_IWOTH : Z := Z.shiftr S_IWGRP 3.
Definition S_IXOTH : Z := Z.shiftr S_IXGRP 3.
Definition S_IR_ANY : Z := Z.lor (Z.lor S_IRUSR S_IRGRP) S_IROTH.
Definition S_IW_ANY : Z := Z.lor (Z.lor S_IWUSR S_IWGRP) S_IWOTH.

(** What a path argument of the runtime points to. *)
Inductive path_ptr := PathNull | PathStr (s : cstr) | PathDangling.

(** A byte-range lock: handle, offset, length. *)
Abbreviation region := (Z * Z * Z)%type.

Class FileApi (W : Type) := {
  (** functions of the C runtime: the result, and errno when they set it *)
  crt_open : path_ptr -> Z -> Z -> C W (Z * option Z);
  crt_close : Z -> C W (Z * option Z);
  crt_read : Z -> Z -> Z -> C W (Z * option Z);
  crt_write : Z -> Z -> Z -> C W (Z * option Z);
  crt_lseeki64 : Z -> Z -> Z -> C W (Z * option Z);
  crt_telli64 : Z -> C W (Z * option Z);
  crt_chsize_s : Z -> Z -> C W (Z * option Z);
  crt_unlink : path_ptr -> C W (Z * option Z);
  crt_chmod : path_ptr -> Z -> C W (Z * option Z);
  crt_access : path_ptr -> Z -> C W (Z * option Z);
  crt_isatty : Z -> C W (Z * option Z);
  (** the handle of a descriptor *)
  crt_get_osfhandle : Z -> C W (Z * option Z);
  FlushFileBuffers : Z -> C W Z;
  GetFileSizeEx : Z -> C W (Z * Z);
  (** exclusive, fail immediately, offset and length as 64-bit values *)
  LockFileEx : Z -> bool -> bool -> Z -> Z -> C W Z;
  UnlockFileEx : Z -> Z -> Z -> C W Z
}.

Section Ops.
Context {W : Type} `{!Winsock W, !WinError W, !FileApi W}.
Local Open Scope c_scope.
Local Abbreviation P := (C (proc W)).

(** A call of the runtime. *)
Definition crt (m : C W (Z * option Z)) : P Z :=
  let* '(r, e) := lift m in
  match e with Some e => set_errno_c e ;; ret r | None => ret r end.

(** [wpdk_get_path(pathname, buf, sizeof(buf))]: [None] when it is NULL for a
    path that is not, which the callers report as EINVAL. *)
Definition map_arg (pathname : option cstr) : P (option path_ptr) :=
  let* p := get in
  let '(r, _, paths) := wpdk_get_path (w_env (world p)) pathname [] MAX_PATH (pr_paths p) in
  modify (set_paths paths) ;;
  ret (match r with
       | SamePath (Some s) => Some (PathStr s)
       | SamePath None => None
       | InBuffer s => Some (PathStr s)
       | DeadLocal _ => Some PathDangling
       | NullPath => None
       end).

Definition with_path (pathname : option cstr) (k : path_ptr -> P Z) : P Z :=
  let* path := map_arg pathname in
  match path with None => wpdk_posix_error EINVAL | Some path => k path end.

(** [m] is the third argument, read only with O_CREAT. *)
Definition wpdk_open (pathname : option cstr) (flags m : Z) : P Z :=
  let mode :=
    if Z.land flags O_CREAT =? 0 then 0
    else Z.lor (if Z.land (u16 m) S_IR_ANY =? 0 then 0 else S_IREAD)
               (if Z.land (u16 m) S_IW_ANY =? 0 then 0 else S_IWRITE) in
  let flags := Z.lor (Z.land flags O_KEPT) _O_BINARY in
  with_path pathname (fun path => crt (crt_open path flags mode)).

(** ** Byte-range locks *)

(** The position [whence] refers to; [None] is a reported failure. *)
Definition lock_base (fildes whence : Z) : P (option Z) :=
  if whence =? SEEK_SET then ret (Some 0)
  else if whence =? SEEK_CUR then
    let* posn := crt (crt_telli64 fildes) in
    ret (if posn =? -1 then None else Some posn)
  else if whence =? SEEK_END then
    let* h := crt (crt_get_osfhandle fildes) in
    if h =? INVALID_HANDLE_VALUE then ret None
    else
      let* '(ok, size) := lift (GetFileSizeEx h) in
      if ok =? 0 then wpdk_last_error ;; ret None else ret (Some size)
  else wpdk_posix_error EINVAL ;; ret None.

(** The arithmetic of [wpdk_lockfile_get_range] on 64-bit signed integers, every
    operation wrapped; [None] is EINVAL. *)
Definition lock_range (posn offset size : Z) : option (Z * Z) :=
  if LOCKFILE_MAX <=? posn then None
  else if ((offset <? 0) && (posn <? s64 (- offset))) || (LOCKFILE_MAX <=? offset) then None
  else
    let posn := s64 (posn + offset) in
    if size <? 0 then
      if (posn <? s64 (- size)) || (LOCKFILE_MAX <? s64 (- size)) then None
      else Some (s64 (posn + size), s64 (- size))
    else
      if (LOCKFILE_MAX <? size) || (LOCKFILE_MAX <? s64 (posn + size)) then None
      else Some (posn, if size =? 0 then s64 (LOCKFILE_MAX - posn) else size).

Definition wpdk_lockfile_get_range (fildes whence offset size : Z) : P (option (Z * Z)) :=
  let* posn := lock_base fildes whence in
  match posn with
  | None => ret None
  | Some posn =>
      match lock_range posn offset size with
      | None => wpdk_posix_error EINVAL ;; ret None
      | Some r => ret (Some r)
      end
  end.

(** The switch on the operation; the region is [LOCKFILE_MAX + start], [nbytes]
    as the 64-bit values whose halves are passed. *)
Definition lock_op (h op start nbytes : Z) (immediately : bool) : P (option Z) :=
  let off := u64 (LOCKFILE_MAX + start) in
  let len := u64 nbytes in
  if op =? F_WRLCK then let* rc := lift (LockFileEx h true immediately off len) in ret (Some rc)
  else if op =? F_RDLCK then let* rc := lift (LockFileEx h false immediately off len) in ret (Some rc)
  else if op =? F_UNLCK then let* rc := lift (UnlockFileEx h off len) in ret (Some rc)
  else ret None.

(** [wpdk_lockfile] with [nowait] false, the form its recursive calls take. *)
Definition lockfile_wait (op fildes start nbytes : Z) : P Z :=
  let* h := crt (crt_get_osfhandle fildes) in
  if h =? INVALID_HANDLE_VALUE then ret (-1)
  else
    let* rc := lock_op h op start nbytes false in
    match rc with
    | None => wpdk_posix_error EINVAL
    | Some rc =>
        let* error := gets GetLastError in
        if rc =? 0 then wpdk_windows_error (s32 error) else ret 0
    end.

Definition wpdk_lockfile (op fildes start nbytes : Z) (nowait : bool) : P Z :=
  if negb nowait then lockfile_wait op fildes start nbytes
  else
    let* h := crt (crt_get_osfhandle fildes) in
    if h =? INVALID_HANDLE_VALUE then ret (-1)
    else
      let* guard := lockfile_wait F_WRLCK fildes LOCKFILE_GUARD 1 in
      if guard =? -1 then ret (-1)
      else
        let* rc := lock_op h op start nbytes true in
        match rc with
        | None => wpdk_posix_error EINVAL
        | Some rc =>
            let* error := gets GetLastError in
            let* _ := lockfile_wait F_UNLCK fildes LOCKFILE_GUARD 1 in
            if rc =? 0 then wpdk_windows_error (s32 error) else ret 0
        end.

(** [struct flock] *)
Record flock := Flock { l_type : Z; l_whence : Z; l_start : Z; l_len : Z; l_pid : Z }.

(** The return value and the structure as it is left. *)
Definition wpdk_fcntl_lockfile (fildes cmd : Z) (f : flock) : P (Z * flock) :=
  let done m := let* rc := m in ret (rc, f) in
  let type := l_type f in
  if negb ((type =? F_RDLCK) || (type =? F_WRLCK) || (type =? F_UNLCK))
  then done (wpdk_posix_error EINVAL)
  else
    let* range := wpdk_lockfile_get_range fildes (l_whence f) (l_start f) (l_len f) in
    match range with
    | None => ret (-1, f)
    | Some (start, nbytes) =>
        if cmd =? F_GETLK then
          if type =? F_UNLCK then done (wpdk_posix_error EINVAL)
          else
            let* rc := wpdk_lockfile type fildes start nbytes true in
            if rc =? -1 then ret (0, Flock type (l_whence f) (l_start f) (l_len f) (-1))
            else
              let* _ := wpdk_lockfile F_UNLCK fildes start nbytes false in
              ret (0, Flock F_UNLCK (l_whence f) (l_start f) (l_len f) (-1))
        else if cmd =? F_SETLK then done (wpdk_lockfile type fildes start nbytes true)
        else if cmd =? F_SETLKW then done (wpdk_lockfile type fildes start nbytes false)
        else done (wpdk_posix_error EINVAL)
    end.

(** The third argument of [fcntl].  The lock commands require a structure; the
    last branch of their case is not reachable by a conforming caller (the code
    reads [flockp->l_type] before it tests the pointer). *)
Inductive fcntl_arg := ArgNone | ArgInt (arg : Z) | ArgFlock (f : flock).

Definition wpdk_fcntl (fildes cmd : Z) (a : fcntl_arg) : P (Z * fcntl_arg) :=
  let done m := let* rc := m in ret (rc, a) in
  let file_flags :=
    let* h := crt (crt_get_osfhandle fildes) in
    if h =? INVALID_HANDLE_VALUE then wpdk_posix_error EBADF else ret 0 in
  if (cmd =? F_GETFD) || (cmd =? F_SETFD) then done file_flags
  else if cmd =? F_GETFL then
    done (if wpdk_is_socket fildes then wpdk_socket_fcntl fildes cmd 0 else file_flags)
  else if cmd =? F_SETFL then
    let arg := match a with ArgInt arg => arg | _ => 0 end in
    done (if wpdk_is_socket fildes then wpdk_socket_fcntl fildes cmd arg else file_flags)
  else if (cmd =? F_GETLK) || (cmd =? F_SETLK) || (cmd =? F_SETLKW) then
    match a with
    | ArgFlock f => let* '(rc, f) := wpdk_fcntl_lockfile fildes cmd f in ret (rc, ArgFlock f)
    | _ => done (wpdk_posix_error EINVAL)
    end
  else done (wpdk_posix_error EINVAL).

Definition wpdk_lockf (fildes function size : Z) : P Z :=
  let* range := wpdk_lockfile_get_range fildes SEEK_CUR 0 size in
  match range with
  | None => ret (-1)
  | Some (start, nbytes) =>
      if function =? F_LOCK then wpdk_lockfile F_WRLCK fildes start nbytes false
      else if function =? F_TLOCK then wpdk_lockfile F_WRLCK fildes start nbytes true
      else if function =? F_ULOCK then wpdk_lockfile F_UNLCK fildes start nbytes false
      else if function =? F_TEST then
        let* rc := wpdk_lockfile F_WRLCK fildes start nbytes true in
        if rc =? -1 then ret rc
        else let* _ := wpdk_lockfile F_UNLCK fildes start nbytes false in ret rc
      else wpdk_posix_error EINVAL
  end.

Definition wpdk_flock (fd operation : Z) : P Z :=
  let op := Z.ldiff operation LOCK_NB in
  if negb ((op =? LOCK_SH) || (op =? LOCK_EX) || (op =? LOCK_UN)) then wpdk_posix_error EINVAL
  else
    let* range := wpdk_lockfile_get_range fd SEEK_SET 0 0 in
    match range with
    | None => ret (-1)
    | Some (start, nbytes) =>
        let* _ := wpdk_lockfile F_UNLCK fd start nbytes false in
        let nowait := negb (Z.land operation LOCK_NB =? 0) in
        let finish rc :=
          let* e := gets errno in
          if (rc =? -1) && (e =? EACCES) && nowait then wpdk_posix_error EWOULDBLOCK else ret rc in
        if op =? LOCK_SH then
          let* rc := wpdk_lockfile F_RDLCK fd start nbytes nowait in finish rc
        else if op =? LOCK_EX then
          let* rc := wpdk_lockfile F_WRLCK fd start nbytes nowait in finish rc
        else ret 0
    end.

(** What a call of the runtime leaves. *)
Lemma crt_run (m : C W (Z * option Z)) (p : proc W) :
  fst (crt m p) = fst (fst (m (world p))) /\ world (snd (crt m p)) = snd (m (world p)) /\
  errno (snd (crt m p)) = default (errno p) (snd (fst (m (world p)))).
Proof. unfold crt. rewrite bind_run, lift_run. cbn [fst snd]. destruct (fst (m (world p))) as [r [e|]]; by destruct p. Qed.
End Ops.

(** ** The range that is locked *)

Lemma s64_id z : - 2 ^ 63 <= z < 2 ^ 63 -> s64 z = z.
Proof. intros H. apply swrap_id; [lia|exact H]. Qed.

Lemma lockfile_max_val : LOCKFILE_MAX = 2 ^ 62 - 1.
Proof. reflexivity. Qed.

(** For a position, offset and size that do not overflow, the range is the
    POSIX one: it begins at [posn + offset] ([size] bytes before it for a negative
    size), extends to [LOCKFILE_MAX] for size 0, and is accepted exactly when it
    starts at 0 or later and ends by [LOCKFILE_MAX]. *)
Theorem lock_range_posix (posn offset size : Z) :
  0 <= posn < LOCKFILE_MAX -> INT64_MIN < offset < LOCKFILE_MAX -> INT64_MIN < size < 2 ^ 63 ->
  posn + offset <= LOCKFILE_MAX ->
  let base := posn + offset in
  let first := if size <? 0 then base + size else base in
  let last := if size <? 0 then base else if size =? 0 then LOCKFILE_MAX else base + size in
  lock_range posn offset size =
    if (0 <=? base) && (0 <=? first) && (last <=? LOCKFILE_MAX)
    then Some (first, last - first) else None.
Proof.
  unfold INT64_MIN. rewrite lockfile_max_val. intros Hp Ho Hs Hb. unfold lock_range.
  rewrite lockfile_max_val. cbv zeta. rewrite (proj2 (Z.leb_gt _ _)) by lia.
  rewrite (s64_id (- offset)) by lia. rewrite (s64_id (posn + offset)) by lia.
  rewrite (s64_id (- size)) by lia.
  destruct (Z.leb_spec 0 (posn + offset)) as [Hbase|Hbase].
  2: { destruct (Z.ltb_spec offset 0), (Z.ltb_spec posn (- offset)); try lia. done. }
  assert (((offset <? 0) && (posn <? - offset) || (2 ^ 62 - 1 <=? offset)) = false) as ->
    by (destruct (Z.ltb_spec offset 0), (Z.ltb_spec posn (- offset)),
          (Z.leb_spec (2 ^ 62 - 1) offset); lia || done).
  destruct (Z.ltb_spec size 0) as [Hneg|Hneg].
  - destruct (Z.ltb_spec (posn + offset) (- size)), (Z.ltb_spec (2 ^ 62 - 1) (- size)),
      (Z.leb_spec 0 (posn + offset + size)), (Z.leb_spec (posn + offset) (2 ^ 62 - 1));
      try lia; try done.
    cbn [orb andb]. rewrite s64_id by lia. repeat f_equal. lia.
  - destruct (Z.ltb_spec (2 ^ 62 - 1) size) as [|Hsz].
    + destruct (Z.eqb_spec size 0); [lia|]. cbn [orb andb].
      destruct (Z.leb_spec 0 (posn + offset)), (Z.leb_spec (posn + offset + size) (2 ^ 62 - 1)); lia || done.
    + rewrite (s64_id (posn + offset + size)) by lia.
      destruct (Z.eqb_spec size 0) as [->|].
      * rewrite Z.add_0_r. rewrite s64_id by lia.
        destruct (Z.ltb_spec (2 ^ 62 - 1) (posn + offset)), (Z.leb_spec 0 (posn + offset)),
          (Z.leb_spec (2 ^ 62 - 1) (2 ^ 62 - 1)); lia || done.
      * destruct (Z.ltb_spec (2 ^ 62 - 1) (posn + offset + size)), (Z.leb_spec 0 (posn + offset)),
          (Z.leb_spec (posn + offset + size) (2 ^ 62 - 1)); try lia; cbn [orb andb]; try done.
        repeat f_equal. lia.
Qed.

Lemma lock_range_posix_witness : lock_range 100 50 (-20) = Some (130, 20).
Proof.
  rewrite (lock_range_posix 100 50 (-20)); [vm_compute; reflexivity|..];
    vm_compute; repeat split; congruence.
Defined.

(** At the ends of the 64-bit range the checks are bypassed: the negation
    of INT64_MIN overflows, and a seek-relative start above [LOCKFILE_MAX] is not
    refused for a negative size; the range returned is then negative, or its
    offset in the file overflows. *)
Theorem lock_range_overflows :
  lock_range 0 0 INT64_MIN = Some (INT64_MIN, INT64_MIN) /\
  lock_range 0 INT64_MIN 0 = Some (INT64_MIN, s64 (LOCKFILE_MAX - INT64_MIN)) /\
  lock_range (2 ^ 62 - 2) (2 ^ 62 - 2) (-1) = Some (2 ^ 63 - 5, 1) /\
  s64 (LOCKFILE_MAX + (2 ^ 63 - 5)) < 0.
Proof. vm_compute. repeat split; congruence. Qed.

(** ** What the lock calls do to the locks that are held *)

Section Locks.
Context {W : Type} `{!Winsock W, !WinError W, !FileApi W}.
Local Abbreviation P := (C (proc W)).

(** The documented behaviour of byte-range locks: a successful LockFileEx adds
    the region to those the process holds, UnlockFileEx removes exactly that
    region and fails when it is not held; neither changes the handles of the
    descriptors. *)
Class LockLaws := {
  held : W -> gmultiset region;
  handle_of_fd : W -> Z -> Z;
  law_osfhandle : forall fd w, let '((h, _), w') := crt_get_osfhandle fd w in
    h = handle_of_fd w fd /\ held w' = held w /\ handle_of_fd w' = handle_of_fd w;
  law_telli64 : forall fd w, let '((z, _), w') := crt_telli64 fd w in
    handle_of_fd w' = handle_of_fd w /\ held w' = held w /\ (z = -1 \/ 0 <= z);
  law_lock : forall h ex im off len w, let '(rc, w') := LockFileEx h ex im off len w in
    handle_of_fd w' = handle_of_fd w /\
    held w' = if rc =? 0 then held w else held w ⊎ {[+ (h, off, len) +]};
  law_unlock : forall h off len w, let '(rc, w') := UnlockFileEx h off len w in
    handle_of_fd w' = handle_of_fd w /\
    (if decide ((h, off, len) ∈ held w)
     then rc <> 0 /\ held w' = held w ∖ {[+ (h, off, len) +]}
     else rc = 0 /\ held w' = held w)
}.
Context `{LL : !LockLaws}.

(** The region of the file that stands for [start], [nbytes]. *)
Definition lock_region (h start nbytes : Z) : region := (h, u64 (LOCKFILE_MAX + start), u64 nbytes).

(** The locks held after [op] on a region, when it succeeds. *)
Definition after_op (op : Z) (r : region) (l : gmultiset region) : gmultiset region :=
  if op =? F_UNLCK then l ∖ {[+ r +]} else l ⊎ {[+ r +]}.

Definition fd_handle (p : proc W) (fd : Z) : Z := handle_of_fd (world p) fd.
Definition locks (p : proc W) : gmultiset region := held (world p).

Lemma osfhandle_run fd (p : proc W) :
  let '(h, q) := crt (crt_get_osfhandle fd) p in
  h = fd_handle p fd /\ locks q = locks p /\ fd_handle q = fd_handle p.
Proof.
  unfold crt. rewrite bind_run, lift_run. cbn [fst snd].
  pose proof (law_osfhandle fd (world p)) as H. destruct (crt_get_osfhandle fd (world p)) as [[h e] w].
  cbn [fst snd]. destruct H as (-> & H1 & H2). unfold locks, fd_handle.
  destruct e; cbn; by rewrite H1, H2.
Qed.

(** The three operations. *)
Definition valid_op (op : Z) : Prop := op = F_WRLCK \/ op = F_RDLCK \/ op = F_UNLCK.

Lemma lock_op_run h op start nbytes im (p : proc W) :
  valid_op op ->
  let '(r, q) := lock_op h op start nbytes im p in
  fd_handle q = fd_handle p /\
  exists rc, r = Some rc /\
    (rc = 0 /\ locks q = locks p /\ (op = F_UNLCK -> lock_region h start nbytes ∉ locks p) \/
     rc <> 0 /\ locks q = after_op op (lock_region h start nbytes) (locks p) /\
     (op = F_UNLCK -> lock_region h start nbytes ∈ locks p)).
Proof.
  intros Hop. unfold lock_op, after_op, locks, fd_handle, lock_region. cbv zeta.
  set (off := u64 (LOCKFILE_MAX + start)). set (len := u64 nbytes).
  assert (forall ex, let '(r, q) := (let* rc := lift (LockFileEx h ex im off len) in ret (Some rc))%c p in
    handle_of_fd (world q) = handle_of_fd (world p) /\ exists rc, r = Some rc /\
    (rc = 0 /\ held (world q) = held (world p) \/
     rc <> 0 /\ held (world q) = held (world p) ⊎ {[+ (h, off, len) +]})) as Hlock.
  { intros ex. rewrite bind_run, lift_run. cbn [fst snd ret].
    pose proof (law_lock h ex im off len (world p)) as Hl.
    destruct (LockFileEx h ex im off len (world p)) as [rc w]. cbn [fst snd world].
    destruct Hl as [Hh Hl]. split; [done|]. exists rc. split; [done|].
    destruct (Z.eqb_spec rc 0); auto. }
  destruct Hop as [->|[->| ->]]; cbn [Z.eqb].
  - specialize (Hlock true). change (F_WRLCK =? F_WRLCK) with true. cbn iota.
    destruct (bind _ _ p) as [r q]. destruct Hlock as (Hh & rc & -> & Hr).
    split; [done|]. exists rc. split; [done|]. destruct Hr as [[? ?]|[? ?]];
      [left|right]; split_and!; done.
  - specialize (Hlock false). change (F_RDLCK =? F_WRLCK) with false.
    change (F_RDLCK =? F_RDLCK) with true. cbn iota.
    destruct (bind _ _ p) as [r q]. destruct Hlock as (Hh & rc & -> & Hr).
    split; [done|]. exists rc. split; [done|]. destruct Hr as [[? ?]|[? ?]];
      [left|right]; split_and!; done.
  - change (F_UNLCK =? F_WRLCK) with false. change (F_UNLCK =? F_RDLCK) with false.
    change (F_UNLCK =? F_UNLCK) with true. cbn iota. rewrite bind_run, lift_run. cbn [fst snd ret].
    pose proof (law_unlock h off len (world p)) as Hl.
    destruct (UnlockFileEx h off len (world p)) as [rc w]. cbn [fst snd world].
    destruct Hl as [Hh Hl]. split; [done|]. exists rc. split; [done|].
    destruct (decide _) as [Hin|Hin]; destruct Hl as [? ?]; [right|left]; auto.
Qed.

Lemma lockfile_wait_run op fd start nbytes (p : proc W) :
  valid_op op ->
  let '(r, q) := lockfile_wait op fd start nbytes p in
  fd_handle q = fd_handle p /\
  (r = -1 /\ locks q = locks p \/
   r = 0 /\ locks q = after_op op (lock_region (fd_handle p fd) start nbytes) (locks p) /\
   fd_handle p fd <> INVALID_HANDLE_VALUE /\
   (op = F_UNLCK -> lock_region (fd_handle p fd) start nbytes ∈ locks p)) /\
  (fd_handle p fd <> INVALID_HANDLE_VALUE -> op = F_UNLCK ->
   lock_region (fd_handle p fd) start nbytes ∈ locks p -> r = 0).
Proof.
  intros Hop. unfold lockfile_wait. rewrite bind_run.
  pose proof (osfhandle_run fd p) as H1. destruct (crt (crt_get_osfhandle fd) p) as [h p1].
  cbn [fst snd]. destruct H1 as (-> & Hl1 & Hh1).
  destruct (Z.eqb_spec (fd_handle p fd) INVALID_HANDLE_VALUE) as [E|E];
    [split_and!; [done|by left|done]|].
  rewrite bind_run. pose proof (lock_op_run (fd_handle p fd) op start nbytes false p1 Hop) as H2.
  destruct (lock_op _ op start nbytes false p1) as [r p2]. cbn [fst snd].
  destruct H2 as (Hh2 & rc & -> & Hr). rewrite bind_run. cbn [gets fst snd].
  rewrite Hl1 in Hr. destruct Hr as [(-> & Hl2 & Hin)|(Hrc & Hl2 & Hin)].
  - change (0 =? 0) with true. cbn iota. autorewrite with wpdk_rw.
    split; [change (fd_handle p2 = fd_handle p); congruence|].
    split; [left; split; [done|exact Hl2]|]. intros _ Ho H. by destruct (Hin Ho).
  - rewrite (proj2 (Z.eqb_neq _ _) Hrc). cbn [ret].
    split_and!; [congruence|right; split_and!; done|done].
Qed.

(** [wpdk_lockfile] changes the locks of the process by exactly the one region:
    when it returns 0 that region was added, or removed for an unlock; when it
    returns -1 nothing changed.  With [nowait] the guard lock it takes around the
    attempt is released again in every case. *)
Lemma lockfile_run (p : proc W) (op fd start nbytes : Z) (nowait : bool) :
  valid_op op -> lock_region (fd_handle p fd) start nbytes <> lock_region (fd_handle p fd) LOCKFILE_GUARD 1 ->
  let '(r, q) := wpdk_lockfile op fd start nbytes nowait p in
  fd_handle q = fd_handle p /\
  (r = -1 /\ locks q = locks p \/
   r = 0 /\ locks q = after_op op (lock_region (fd_handle p fd) start nbytes) (locks p) /\
   fd_handle p fd <> INVALID_HANDLE_VALUE).
Proof.
  intros Hop Hg. unfold wpdk_lockfile. destruct nowait; cbn [negb].
  2: { pose proof (lockfile_wait_run op fd start nbytes p Hop) as H.
       destruct (lockfile_wait op fd start nbytes p) as [r q].
       destruct H as (? & [?|(? & ? & ? & _)] & _); auto. }
  rewrite bind_run. pose proof (osfhandle_run fd p) as H1.
  destruct (crt (crt_get_osfhandle fd) p) as [h p1]. cbn [fst snd]. destruct H1 as (-> & Hl1 & Hh1).
  destruct (Z.eqb_spec (fd_handle p fd) INVALID_HANDLE_VALUE) as [E|E];
    [split; [done|by left]|].
  rewrite bind_run. pose proof (lockfile_wait_run F_WRLCK fd LOCKFILE_GUARD 1 p1 ltac:(by left)) as H2.
  destruct (lockfile_wait F_WRLCK fd LOCKFILE_GUARD 1 p1) as [g p2]. cbn [fst snd].
  rewrite Hl1, Hh1 in H2. destruct H2 as (Hh2 & [[-> Hl2]|(-> & Hl2 & _)] & _).
  { split; [done|]. left. split; [done|]. by rewrite Hl2. }
  change (0 =? -1) with false. cbn iota. set (G := lock_region _ LOCKFILE_GUARD 1) in *.
  change (after_op F_WRLCK G (locks p)) with (locks p ⊎ {[+ G +]}) in Hl2.
  rewrite bind_run. pose proof (lock_op_run (fd_handle p fd) op start nbytes true p2 Hop) as H3.
  destruct (lock_op _ op start nbytes true p2) as [r3 p3]. cbn [fst snd].
  destruct H3 as (Hh3 & rc & -> & Hr). rewrite bind_run. cbn [gets fst snd]. rewrite bind_run.
  pose proof (lockfile_wait_run F_UNLCK fd LOCKFILE_GUARD 1 p3 ltac:(by right; right)) as H4.
  destruct (lockfile_wait F_UNLCK fd LOCKFILE_GUARD 1 p3) as [u p4]. cbn [fst snd].
  rewrite Hh3, Hh2 in H4. fold G in H4. destruct H4 as (Hh4 & Hu & Hu0).
  set (R := lock_region _ start nbytes) in *.
  assert (locks p3 = (if rc =? 0 then locks p else after_op op R (locks p)) ⊎ {[+ G +]} /\
          (rc <> 0 -> True)) as [Hl3 _].
  { split; [|done]. rewrite Hl2 in Hr. destruct Hr as [(-> & -> & _)|(Hrc & -> & Hin)]; [done|].
    rewrite (proj2 (Z.eqb_neq _ _) Hrc). unfold after_op in *.
    destruct (Z.eqb_spec op F_UNLCK) as [->|]; [|multiset_solver].
    specialize (Hin eq_refl). assert (R ∈ locks p) by multiset_solver. multiset_solver. }
  assert (locks p4 = if rc =? 0 then locks p else after_op op R (locks p)) as Hl4.
  { destruct Hu as [[-> Hu]|(_ & Hu & _ & _)].
    - specialize (Hu0 E eq_refl ltac:(rewrite Hl3; multiset_solver)). done.
    - rewrite Hu, Hl3. unfold after_op at 1. change (F_UNLCK =? F_UNLCK) with true. cbn iota. multiset_solver. }
  destruct (rc =? 0); [autorewrite with wpdk_rw|cbn [ret]]; (split; [change (fd_handle p4 = fd_handle p)|]);
    try congruence; [left|right]; split_and!; try done; exact Hl4.
Qed.

(** A range as [wpdk_lockfile_get_range] computes it is never the guard. *)
Lemma region_not_guard h start nbytes :
  0 <= start <= LOCKFILE_MAX -> lock_region h start nbytes <> lock_region h LOCKFILE_GUARD 1.
Proof.
  intros H [= E]. revert E. unfold lock_region, LOCKFILE_GUARD. rewrite lockfile_max_val in *.
  unfold INT64_MAX. rewrite !uwrap_id by (unfold in_u; lia). lia.
Qed.

Lemma lock_range_bounds posn size start nbytes :
  0 <= posn -> INT64_MIN < size < 2 ^ 63 -> lock_range posn 0 size = Some (start, nbytes) ->
  0 <= start /\ 0 <= nbytes /\ start + nbytes <= LOCKFILE_MAX.
Proof.
  intros Hp Hs. unfold lock_range, INT64_MIN in *. cbv zeta. rewrite lockfile_max_val, Z.add_0_r.
  destruct (Z.leb_spec (2 ^ 62 - 1) posn); [done|]. change (0 <? 0) with false.
  change (2 ^ 62 - 1 <=? 0) with false. cbn [andb orb].
  rewrite (s64_id posn), (s64_id (- size)) by lia.
  destruct (Z.ltb_spec size 0).
  - destruct (Z.ltb_spec posn (- size)), (Z.ltb_spec (2 ^ 62 - 1) (- size)); try done. cbn [orb].
    rewrite s64_id by lia. intros [= <- <-]. lia.
  - destruct (Z.ltb_spec (2 ^ 62 - 1) size); [done|]. rewrite (s64_id (posn + size)) by lia.
    destruct (Z.ltb_spec (2 ^ 62 - 1) (posn + size)); [done|]. cbn [orb].
    intros [= <- <-]. destruct (Z.eqb_spec size 0); [rewrite s64_id by lia|]; lia.
Qed.

Lemma lockf_range_run fd size (p : proc W) :
  INT64_MIN < size < 2 ^ 63 ->
  let '(r, q) := wpdk_lockfile_get_range fd SEEK_CUR 0 size p in
  fd_handle q = fd_handle p /\ locks q = locks p /\
  forall start nbytes, r = Some (start, nbytes) ->
    0 <= start /\ 0 <= nbytes /\ start + nbytes <= LOCKFILE_MAX.
Proof.
  intros Hs. unfold wpdk_lockfile_get_range. rewrite bind_run.
  assert (let '(b, q) := lock_base fd SEEK_CUR p in fd_handle q = fd_handle p /\ locks q = locks p /\
    forall z, b = Some z -> 0 <= z) as Hb.
  { unfold lock_base. change (SEEK_CUR =? SEEK_SET) with false.
    change (SEEK_CUR =? SEEK_CUR) with true. cbn iota. unfold crt. rewrite !bind_run, lift_run.
    pose proof (law_telli64 fd (world p)) as Ht. destruct (crt_telli64 fd (world p)) as [[z e] w].
    cbn [fst snd]. unfold fd_handle, locks. destruct Ht as (H1 & H2 & H3).
    destruct e; cbn; rewrite H1, H2; (split_and!; [done|done|]);
      intros z' Hz; (destruct (Z.eqb_spec z (-1)); [done|]); injection Hz as <-; lia. }
  destruct (lock_base fd SEEK_CUR p) as [b q]. cbn [fst snd]. destruct Hb as (H1 & H2 & H3).
  destruct b as [z|]; [|split_and!; done].
  destruct (lock_range z 0 size) as [[start nbytes]|] eqn:E; [|split_and!; done].
  cbn [ret]. split_and!; [done|done|]. intros ? ? [= <- <-].
  by apply (lock_range_bounds z size); auto.
Qed.

(** C30: [lockf] changes the locks of the process by exactly one region inside
    the file space reserved for locks: F_LOCK and F_TLOCK add it, F_ULOCK removes
    it, F_TEST leaves every lock as it was, and a call that fails changes nothing
    (the guard lock taken around an attempt is released in every case). *)
Theorem lockf_effect (p : proc W) (fd function size : Z) :
  INT64_MIN < size < 2 ^ 63 ->
  let '(r, q) := wpdk_lockf fd function size p in
  (r = -1 /\ locks q = locks p) \/
  (r = 0 /\ exists start nbytes, let R := lock_region (fd_handle p fd) start nbytes in
     0 <= start /\ 0 <= nbytes /\ start + nbytes <= LOCKFILE_MAX /\
     locks q = if function =? F_TEST then locks p
               else if function =? F_ULOCK then locks p ∖ {[+ R +]} else locks p ⊎ {[+ R +]}).
Proof.
  intros Hs. unfold wpdk_lockf. rewrite bind_run.
  pose proof (lockf_range_run fd size p Hs) as Hr.
  destruct (wpdk_lockfile_get_range fd SEEK_CUR 0 size p) as [r p1]. cbn [fst snd].
  destruct Hr as (Hh & Hl & Hb). destruct r as [[start nbytes]|]; [|left; split; done].
  specialize (Hb start nbytes eq_refl) as (Hb1 & Hb2 & Hb3).
  pose proof (region_not_guard (fd_handle p1 fd) start nbytes ltac:(lia)) as Hng.
  pose proof (fun op nw (Hop : valid_op op) => lockfile_run p1 op fd start nbytes nw Hop Hng) as Hrun.
  rewrite Hh, Hl in Hrun.
  destruct (Z.eqb_spec function F_LOCK) as [->|].
  { specialize (Hrun F_WRLCK false ltac:(by left)). destruct (wpdk_lockfile _ _ _ _ _ p1) as [r q].
    destruct Hrun as (_ & [?|(-> & ? & _)]); [by left|]. right. split; [done|]. exists start, nbytes. auto. }
  destruct (Z.eqb_spec function F_TLOCK) as [->|].
  { specialize (Hrun F_WRLCK true ltac:(by left)). destruct (wpdk_lockfile _ _ _ _ _ p1) as [r q].
    destruct Hrun as (_ & [?|(-> & ? & _)]); [by left|]. right. split; [done|]. exists start, nbytes. auto. }
  destruct (Z.eqb_spec function F_ULOCK) as [->|].
  { specialize (Hrun F_UNLCK false ltac:(by right; right)). destruct (wpdk_lockfile _ _ _ _ _ p1) as [r q].
    destruct Hrun as (_ & [?|(-> & ? & _)]); [by left|]. right. split; [done|]. exists start, nbytes. auto. }
  destruct (Z.eqb_spec function F_TEST) as [->|].
  2: { left. split; [done|exact Hl]. }
  rewrite bind_run. specialize (Hrun F_WRLCK true ltac:(by left)).
  destruct (wpdk_lockfile F_WRLCK fd start nbytes true p1) as [r q]. cbn [fst snd].
  destruct Hrun as (Hq & [[-> ?]|(-> & Hlq & Hval)]); [by left|].
  change (0 =? -1) with false. cbn iota. rewrite bind_run. unfold wpdk_lockfile. cbn [negb].
  pose proof (lockfile_wait_run F_UNLCK fd start nbytes q ltac:(by right; right)) as Hu.
  destruct (lockfile_wait F_UNLCK fd start nbytes q) as [r2 q2]. cbn [fst snd ret].
  rewrite Hq, Hlq in Hu. set (R := lock_region (fd_handle p fd) start nbytes) in *.
  change (after_op F_WRLCK R (locks p)) with (locks p ⊎ {[+ R +]}) in Hu.
  right. split; [done|]. exists start, nbytes. split_and!; [done..|].
  destruct Hu as (_ & Hu & Hu0). specialize (Hu0 Hval eq_refl ltac:(multiset_solver)).
  destruct Hu as [[-> _]|(_ & Hu & _)]; [done|]. rewrite Hu. unfold after_op.
  change (F_UNLCK =? F_UNLCK) with true. cbn iota. multiset_solver.
Qed.
End Locks.

(** ** A file system to run the model on: the locks that are held *)
Module SimpleFiles.
Definition w : Type := gmultiset region.
Definition ok (z : Z) : C w (Z * option Z) := ret (z, None).

Definition lock_file (h : Z) (ex im : bool) (off len : Z) : C w Z := fun l : gmultiset region =>
  if decide ((h, off, len) ∈ l) then (0, l) else (1, l ⊎ {[+ (h, off, len) +]}).
Definition unlock_file (h off len : Z) : C w Z := fun l : gmultiset region =>
  if decide ((h, off, len) ∈ l) then (1, l ∖ {[+ (h, off, len) +]}) else (0, l).

#[export] Instance simple_file_error : WinError w := fun _ => ERROR_LOCK_VIOLATION.
#[export] Instance simple_files : FileApi w := {|
  crt_open _ _ _ := ok 3; crt_close _ := ok 0; crt_read _ _ n := ok n; crt_write _ _ n := ok n;
  crt_lseeki64 _ o _ := ok o; crt_telli64 _ := ok 10; crt_chsize_s _ _ := ok 0;
  crt_unlink _ := ok 0; crt_chmod _ _ := ok 0; crt_access _ _ := ok 0; crt_isatty _ := ok 0;
  crt_get_osfhandle fd := ok (fd + 100); FlushFileBuffers _ := ret 1;
  GetFileSizeEx _ := ret (1, 10); LockFileEx := lock_file; UnlockFileEx := unlock_file
|}.

#[export] Instance simple_lock_laws : LockLaws (W := w).
Proof.
  refine {| held := fun l => l; handle_of_fd := fun _ fd => fd + 100 |}.
  - done.
  - intros fd l. simpl. split_and!; [done|done|lia].
  - intros h ex im off len l. cbn [LockFileEx simple_files]. unfold lock_file.
    by destruct (decide _).
  - intros h off len l. cbn [UnlockFileEx simple_files]. unfold unlock_file.
    by destruct (decide _).
Defined.
End SimpleFiles.

Section LockWitness.
Import SimpleFiles.
(** Testing bytes 10 to 14 of descriptor 3 leaves no lock. *)
Lemma lockf_effect_witness :
  fst (wpdk_lockf 3 F_TEST 5 (proc0 (∅ : w))) = 0 /\
  locks (snd (wpdk_lockf 3 F_TEST 5 (proc0 (∅ : w)))) = (∅ : gmultiset region).
Proof.
  assert (fst (wpdk_lockf 3 F_TEST 5 (proc0 (∅ : w))) = 0) as E by (vm_compute; reflexivity).
  split; [exact E|].
  pose proof (lockf_effect (proc0 (∅ : w)) 3 F_TEST 5 ltac:(vm_compute; split; reflexivity)) as H.
  destruct (wpdk_lockf 3 F_TEST 5 (proc0 (∅ : w))) as [r q]. cbn [fst snd] in *.
  destruct H as [[H _]|[_ (start & n & _ & _ & _ & H)]]; [congruence|exact H].
Defined.
End LockWitness.
End Files.
