(* ===== verification/Unistd.v ===== *)
(** * Unistd: descriptor dispatch, vectored I/O and the rest of unistd.c

    src/src/unistd.c and src/src/uio.c over the three kinds of descriptors.  The
    clock, the processor information and the process token are the class
    [SysApi]. *)

From S2P Require Import Prelude Errno CString PathMap Proc Sockets Epolls Files.

Module Export Unistd.
Local Open Scope Z_scope.

Definition _SC_NPROCESSORS_CONF : Z := 1.
Definition _SC_NPROCESSORS_ONLN : Z := 2.
Definition _SC_PAGESIZE : Z := 3.
Definition _SC_IOV_MAX : Z := 4.
Definition ERROR_INVALID_HANDLE_CODE : Z := 6.

(** One group of a RelationGroup record: maximum and active processor counts. *)
Record group_info := GroupInfo { maximum_count : Z; active_count : Z }.
(** A record of GetLogicalProcessorInformationEx: the groups of a RelationGroup
    record, [None] for another relationship. *)
Abbreviation proc_record := (option (list group_info)).

Class SysApi (W : Type) := {
  GetCurrentProcessId : W -> Z;
  GetTickCount64 : W -> Z;
  SleepEx : Z -> C W unit;
  QueryPerformanceFrequency : W -> Z;
  (** the counter, which advances with each reading *)
  QueryPerformanceCounter : C W Z;
  (** SwitchToThread, then YieldProcessor when it did not switch *)
  yield_processor : C W unit;
  (** the records, or [None] when the buffer cannot be allocated *)
  processor_records : C W (option (list proc_record));
  dwNumberOfProcessors : W -> Z;
  dwPageSize : W -> Z;
  (** whether the process token could be queried and is elevated *)
  token_elevated : W -> option bool
}.

Definition wpdk_is_fd (fildes : Z) : bool :=
  negb (wpdk_is_epoll fildes) && negb (wpdk_is_socket fildes).

(** The sums over the groups; DWORD counters. *)
Definition count_processors (rs : list proc_record) : Z * Z :=
  fold_left (fun '(config, online) r =>
    match r with
    | None => (config, online)
    | Some groups =>
        fold_left (fun '(config, online) g =>
          (u32 (config + maximum_count g), u32 (online + active_count g))) groups (config, online)
    end) rs (0, 0).

Section Ops.
Context {W : Type} `{!Winsock W, !WinError W, !FileApi W, !SysApi W}.
Local Open Scope c_scope.
Local Abbreviation P := (C (proc W)).

(** [None] is the fatal error for an id above INT_MAX. *)
Definition wpdk_getpid : P (option Z) :=
  let* pid := gets (fun p => GetCurrentProcessId (world p)) in
  ret (if INT_MAX <? pid then None else Some pid).

Definition wpdk_truncate (pathname : option cstr) (length : Z) : P Z :=
  with_path pathname (fun path =>
    let* fd := crt (crt_open path O_RDWR 0) in
    if fd =? -1 then ret (-1)
    else
      let* rc := crt (crt_chsize_s fd length) in
      if rc =? 0 then let* _ := crt (crt_close fd) in ret 0
      else
        let* rc := gets errno in
        let* _ := crt (crt_close fd) in
        wpdk_posix_error rc).

Definition wpdk_ftruncate (fd length : Z) : P Z :=
  let* rc := crt (crt_chsize_s fd length) in
  let* e := gets errno in
  if negb (rc =? 0) && (e =? EACCES) then wpdk_posix_error EBADF
  else ret (if rc =? 0 then 0 else -1).

(** The yielding loop; [fuel] bounds the readings of the counter and [None] is
    running out of it. *)
Fixpoint spin_until (fuel : nat) (now end_ : Z) : P (option Z) :=
  if now <? end_ then
    match fuel with
    | O => ret None
    | S fuel =>
        lift yield_processor ;;
        let* now := lift QueryPerformanceCounter in
        spin_until fuel now end_
    end
  else ret (Some 0).

Definition wpdk_usleep (fuel : nat) (useconds : Z) : P (option Z) :=
  if 10000 <=? useconds then lift (SleepEx (useconds / 1000)) ;; ret (Some 0)
  else
    let* freq := gets (fun p => QueryPerformanceFrequency (world p)) in
    let* now := lift QueryPerformanceCounter in
    spin_until fuel now (s64 (now + s64 (useconds * freq) / 1000000)).

Definition wpdk_isatty (fildes : Z) : P Z :=
  if negb (wpdk_is_fd fildes) then wpdk_posix_error ENOTTY ;; ret 0
  else
    set_errno_c 0 ;;
    let* r := crt (crt_isatty fildes) in
    if r =? 0 then
      let* e := gets errno in
      (if (e =? 0) || negb (e =? EBADF) then wpdk_posix_error ENOTTY else ret 0) ;;
      ret 0
    else ret 1.

Definition wpdk_ttyname (fildes : Z) : P (option cstr) :=
  let* r := wpdk_isatty fildes in
  ret (if r =? 0 then None else Some (lit "/dev/pts/0")).

(** [LONG_MAX / 1000] seconds at most. *)
Definition wpdk_sleep (seconds : Z) : P Z :=
  if seconds =? 0 then ret 0
  else
    let seconds := if LONG_MAX / 1000 <? seconds then LONG_MAX / 1000 else seconds in
    let* start := gets (fun p => GetTickCount64 (world p)) in
    lift (SleepEx (u32 (seconds * 1000))) ;;
    let* now := gets (fun p => GetTickCount64 (world p)) in
    let elapsed := u64 (now - start + 500) / 1000 in
    ret (if elapsed <? seconds then u32 (seconds - elapsed) else 0).

Definition wpdk_get_processor_count : P (option (Z * Z)) :=
  let* rs := lift processor_records in
  ret (count_processors <$> rs).

Definition wpdk_sysconf (name : Z) : P Z :=
  if (name =? _SC_NPROCESSORS_CONF) || (name =? _SC_NPROCESSORS_ONLN) then
    let* c := wpdk_get_processor_count in
    match c with
    | Some (config, online) => ret (s32 (if name =? _SC_NPROCESSORS_CONF then config else online))
    | None => let* n := gets (fun p => dwNumberOfProcessors (world p)) in ret (s32 n)
    end
  else if name =? _SC_PAGESIZE then
    let* n := gets (fun p => dwPageSize (world p)) in ret (s32 n)
  else if name =? _SC_IOV_MAX then ret IOV_MAX
  else wpdk_posix_error EINVAL.

Definition wpdk_fork : P Z := wpdk_posix_error ENOSYS.
Definition wpdk_daemon (nochdir noclose : Z) : P Z := wpdk_posix_error ENOSYS.

Definition wpdk_read (fildes buf nbyte : Z) : P Z :=
  if INT_MAX <? nbyte then wpdk_posix_error EINVAL
  else if wpdk_is_epoll fildes then wpdk_posix_error EBADF
  else if wpdk_is_socket fildes then wpdk_socket_read fildes buf nbyte
  else crt (crt_read fildes buf nbyte).

Definition wpdk_write (fildes buf nbyte : Z) : P Z :=
  if INT_MAX <? nbyte then wpdk_posix_error EINVAL
  else if wpdk_is_epoll fildes then wpdk_posix_error EBADF
  else if wpdk_is_socket fildes then wpdk_socket_write fildes buf nbyte
  else crt (crt_write fildes buf nbyte).

Definition wpdk_lseek (fildes offset whence : Z) : P Z :=
  if negb (wpdk_is_fd fildes) then wpdk_posix_error EBADF
  else crt (crt_lseeki64 fildes offset whence).

Definition wpdk_unlink (pathname : option cstr) : P Z :=
  with_path pathname (fun path =>
    let* _ := crt (crt_chmod path (Z.lor S_IREAD S_IWRITE)) in
    crt (crt_unlink path)).

Definition wpdk_access (pathname : option cstr) (mode : Z) : P Z :=
  with_path pathname (fun path => crt (crt_access path mode)).

Definition wpdk_close (fildes : Z) : P Z :=
  if wpdk_is_epoll fildes then wpdk_close_epoll fildes
  else if wpdk_is_socket fildes then wpdk_close_socket fildes
  else crt (crt_close fildes).

Definition wpdk_fsync (fildes : Z) : P Z :=
  if negb (wpdk_is_fd fildes) then wpdk_posix_error EBADF
  else
    let* h := crt (crt_get_osfhandle fildes) in
    if h =? INVALID_HANDLE_VALUE then wpdk_posix_error EBADF
    else
      let* ok := lift (FlushFileBuffers h) in
      if ok =? 0 then
        let* rc := gets GetLastError in
        if rc =? ERROR_INVALID_HANDLE_CODE then ret 0 else wpdk_windows_error (s32 rc)
      else ret 0.

Definition wpdk_getuid : P Z :=
  let* t := gets (fun p => token_elevated (world p)) in
  ret (match t with Some true => 0 | _ => 1000 end).

(** ** Vectored I/O (uio.c) *)

(** The loop of [wpdk_uio_check_iovec]; [length] is the running total. *)
Fixpoint check_lengths (iov : list iovec) (length : Z) : bool :=
  match iov with
  | [] => true
  | v :: iov =>
      if UINT_MAX <? iov_len v then false
      else if SSIZE_MAX - length <? iov_len v then false
      else check_lengths iov (s64 (length + iov_len v))
  end.

Definition wpdk_uio_check_iovec (iov : option (list iovec)) (iovcnt : Z) : bool :=
  match iov with
  | None => false
  | Some iov =>
      if (iovcnt <? 0) || (IOV_MAX <? iovcnt) then false
      else check_lengths (take (Z.to_nat iovcnt) iov) 0
  end.

(** The loop of [wpdk_writev] and [wpdk_readv]; [op] is [_write] or [_read]. *)
Fixpoint transfer (op : Z -> Z -> C W (Z * option Z)) (iov : list iovec) (nbytes : Z) : P Z :=
  match iov with
  | [] => ret nbytes
  | v :: iov =>
      let* rc := crt (op (iov_base v) (u32 (iov_len v))) in
      if rc <? 0 then ret (-1)
      else
        let nbytes := s64 (nbytes + rc) in
        if rc =? iov_len v then transfer op iov nbytes else ret nbytes
  end.

Definition wpdk_writev (fildes : Z) (iov : option (list iovec)) (iovcnt : Z) : P Z :=
  if negb (wpdk_uio_check_iovec iov iovcnt) then wpdk_posix_error EINVAL
  else if wpdk_is_socket fildes then wpdk_socket_writev fildes iov iovcnt
  else if negb (wpdk_is_fd fildes) then wpdk_posix_error EBADF
  else transfer (crt_write fildes) (take (Z.to_nat iovcnt) (default [] iov)) 0.

Definition wpdk_readv (fildes : Z) (iov : option (list iovec)) (iovcnt : Z) : P Z :=
  if negb (wpdk_uio_check_iovec iov iovcnt) then wpdk_posix_error EINVAL
  else if wpdk_is_socket fildes then wpdk_socket_readv fildes iov iovcnt
  else if negb (wpdk_is_fd fildes) then wpdk_posix_error EBADF
  else transfer (crt_read fildes) (take (Z.to_nat iovcnt) (default [] iov)) 0.
End Ops.

(** ** Descriptors *)

(** Every integer is a descriptor of exactly one kind, and the descriptors
    the C runtime gives out (below 0x10000) are never taken for a socket or an
    epoll instance. *)
Theorem fd_kinds_partition (fd : Z) :
  (if wpdk_is_socket fd then 1 else 0) + (if wpdk_is_epoll fd then 1 else 0) +
  (if wpdk_is_fd fd then 1 else 0) = 1 /\
  (fd < 0x10000 -> wpdk_is_fd fd = true) /\
  (forall i, (i < maxsockets)%nat -> wpdk_is_socket (socketbase + Z.of_nat i) = true) /\
  (forall i, (i < maxepolls)%nat -> wpdk_is_epoll (epollbase + Z.of_nat i) = true).
Proof.
  assert (wpdk_is_socket fd = true -> wpdk_is_epoll fd = false) as Hdis.
  { unfold wpdk_is_socket, wpdk_is_epoll, socketbase, epollbase, maxsockets, maxepolls.
    intros H. bool_prop. apply andb_false_iff. left. apply Z.leb_gt. lia. }
  split_and!.
  - unfold wpdk_is_fd. destruct (wpdk_is_socket fd), (wpdk_is_epoll fd); try done.
    by specialize (Hdis eq_refl).
  - intros Hlt. unfold wpdk_is_fd, wpdk_is_socket, wpdk_is_epoll, socketbase, epollbase.
    rewrite !(proj2 (Z.leb_gt _ _)) by lia. done.
  - intros i Hi. by apply slot_of_nat.
  - intros i Hi. unfold wpdk_is_epoll. apply andb_true_iff. rewrite Z.leb_le, Z.ltb_lt. lia.
Qed.

Section Close.
Context {W : Type} `{!Winsock W, !WinsockLaws W, !WinError W, !FileApi W}.

(** Closing a descriptor affects that descriptor only: every other socket
    keeps its handle and every other epoll instance its registrations, whichever
    kind is closed and whatever the call returns. *)
Theorem close_isolated (p : proc W) (fd fd' : Z) :
  sock_inv p -> fd' <> fd ->
  handle_of (snd (wpdk_close fd p)) fd' = handle_of p fd' /\
  epoll_of (snd (wpdk_close fd p)) fd' = epoll_of p fd'.
Proof.
  intros [_ Hf] Hne. unfold wpdk_close. destruct (wpdk_is_epoll fd) eqn:Ee.
  - unfold wpdk_close_epoll. rewrite bind_run, get_epoll_run. cbn [fst snd].
    destruct (epoll_of p fd) as [[id ep]|] eqn:Ep;
      [|by split; [apply handle_of_same|apply epoll_of_same]].
    rewrite !bind_run, lift_run. cbn [fst snd put_epoll modify ret]. split; [by apply handle_of_same|].
    apply epoll_of_Some in Ep as (l & El & _ & -> & He).
    unfold epoll_of, wpdk_get_epoll, bind, gets, ret, set_epolls. cbn [pr_epolls].
    rewrite El. cbn [fmap option_fmap option_map].
    destruct (wpdk_is_epoll fd') eqn:Ee'; [|done]. cbn [fst].
    rewrite list_lookup_insert_ne; [done|].
    unfold wpdk_is_epoll in *. bool_prop. lia.
  - destruct (wpdk_is_socket fd) eqn:Es.
    + split; [|apply epoll_of_same; apply (epolls_run_call (pr_epolls p) (CClose fd)); done].
      destruct (decide (handle_of p fd = INVALID_SOCKET)) as [Hinv|Hinv].
      * unfold wpdk_close_socket. rewrite bind_run. fold (handle_of p fd). rewrite Hinv.
        change (INVALID_SOCKET =? INVALID_SOCKET) with true. cbn iota.
        destruct (get_socket_snd fd p) as [e ->]. by apply handle_of_same.
      * destruct (pr_fds p) as [l|] eqn:El;
          [|by unfold handle_of, wpdk_get_socket, bind, gets in Hinv; rewrite El in Hinv].
        destruct (close_socket_fds p fd l El Hinv) as (Hi & f & Hq & _).
        apply (handle_of_other p _ fd fd' l f); try done. by apply (fds_len _ _ (Hf l eq_refl)).
    + unfold crt. rewrite bind_run, lift_run. cbn [fst snd].
      destruct (crt_close fd (world p)) as [[r [e|]] w];
        (split; [by apply handle_of_same|by apply epoll_of_same]).
Qed.
End Close.

(** ** Vectored I/O *)

Definition total (iov : list iovec) : Z := fold_right (fun v t => iov_len v + t) 0 iov.

Lemma total_app l k : total (l ++ k) = total l + total k.
Proof. unfold total. induction l as [|v l IH]; cbn [fold_right app]; lia. Qed.

(** The check accepts exactly the lengths that fit. *)
Lemma check_lengths_spec iov n : 0 <= n <= SSIZE_MAX -> Forall (fun v => 0 <= iov_len v) iov ->
  check_lengths iov n = true <-> Forall (fun v => iov_len v <= UINT_MAX) iov /\ n + total iov <= SSIZE_MAX.
Proof.
  revert n. induction iov as [|v iov IH]; intros n Hn Hpos; cbn [check_lengths total fold_right].
  { split; [intros _; split; [constructor|lia]|done]. }
  apply Forall_cons in Hpos as [Hv Hpos]. fold (total iov). rewrite Forall_cons.
  assert (0 <= total iov) as Htot by (clear -Hpos; induction Hpos; simpl; [lia|]; fold (total l); lia).
  destruct (Z.ltb_spec UINT_MAX (iov_len v)); [split; [done|lia]|].
  destruct (Z.ltb_spec (SSIZE_MAX - n) (iov_len v)); [split; [done|lia]|].
  rewrite s64_id by (unfold SSIZE_MAX in *; lia). rewrite IH by (done || lia). rewrite Z.add_assoc. tauto.
Qed.

(** The first [n] bytes at an address. *)
Definition bytes_at (mem : Z -> Z) (base : Z) (n : Z) : list Z := map (fun i => mem (base + Z.of_nat i)) (seq 0 (Z.to_nat n)).
(** The data of the buffers, one after the other. *)
Definition gathered (mem : Z -> Z) (iov : list iovec) : list Z := concat (map (fun v => bytes_at mem (iov_base v) (iov_len v)) iov).

Lemma bytes_at_length mem base n : length (bytes_at mem base n) = Z.to_nat n.
Proof. unfold bytes_at. by rewrite length_map, length_seq. Qed.
Lemma bytes_at_take mem base k n : 0 <= k <= n -> take (Z.to_nat k) (bytes_at mem base n) = bytes_at mem base k.
Proof.
  intros H. unfold bytes_at. rewrite <- fmap_take, take_seq. f_equal. f_equal. lia.
Qed.
Lemma gathered_length mem iov : Forall (fun v => 0 <= iov_len v) iov -> Z.of_nat (length (gathered mem iov)) = total iov.
Proof.
  unfold gathered. induction 1 as [|v iov Hv _ IH]; cbn [map concat total fold_right]; [done|]. rewrite length_app, bytes_at_length. fold (total iov). lia.
Qed.
Lemma gathered_app mem l k : gathered mem (l ++ k) = gathered mem l ++ gathered mem k.
Proof. unfold gathered. by rewrite map_app, concat_app. Qed.

(** What is documented of [_write] on a descriptor: it appends the first bytes of the buffer to what was written, as many as it
    returns, or some when it returns -1, and leaves the memory of the caller. *)
Class WriteLaws (W : Type) `{!FileApi W} (fd : Z) := {
  memory : W -> Z -> Z;
  written : W -> list Z;
  write_law : forall base len w, 0 <= len -> let '((rc, _), w') := crt_write fd base len w in
    memory w' = memory w /\ exists k, 0 <= k <= len /\ (rc = -1 \/ rc = k) /\ written w' = written w ++ bytes_at (memory w) base k
}.

Section Transfer.
Context {W : Type} `{!Winsock W, !WinError W, !FileApi W} (fd : Z) `{LAWS : !WriteLaws W fd}.

(** A call that starts in the world [w0] and ends in [w'] with the result [r]: all the buffers before some point were written whole;
    there it ended because none were left, or with the call of [_write] for the next buffer, which failed or was short. *)
Definition written_through (iov : list iovec) (n : Z) (w0 : W) (r : Z) (w' : W) : Prop :=
  exists done rest w1, iov = done ++ rest /\ memory w1 = memory w0 /\ written w1 = written w0 ++ gathered (memory w0) done /\
    match rest with
    | [] => r = n + total done /\ w' = w1
    | v :: _ => let '((rc, _), w2) := crt_write fd (iov_base v) (iov_len v) w1 in
      w' = w2 /\ rc <> iov_len v /\ (rc = -1 /\ r = -1 \/ 0 <= rc /\ r = n + total done + rc)
    end.

Lemma crt_outcome (m : C W (Z * option Z)) (p : proc W) :
  fst (crt m p) = fst (fst (m (world p))) /\ world (snd (crt m p)) = snd (m (world p)).
Proof. unfold crt. rewrite bind_run, lift_run. cbn [fst snd]. by destruct (m (world p)) as [[r [e|]] w]. Qed.

Lemma transfer_spec iov n (p : proc W) : 0 <= n -> Forall (fun v => 0 <= iov_len v <= UINT_MAX) iov -> n + total iov <= SSIZE_MAX ->
  let '(r, p') := transfer (crt_write fd) iov n p in written_through iov n (world p) r (world p').
Proof.
  revert n p. induction iov as [|v iov IH]; intros n p Hn Hlens Ht; cbn [transfer].
  { exists [], [], (world p). cbn. rewrite app_nil_r. split_and!; try done. lia. }
  apply Forall_cons in Hlens as [Hv Hlens]. cbn [total fold_right] in Ht. fold (total iov) in Ht.
  assert (0 <= total iov) as Htot by (clear -Hlens; induction Hlens; simpl; [lia|]; fold (total l); lia).
  rewrite bind_run. unfold UINT_MAX, SSIZE_MAX in *. assert (u32 (iov_len v) = iov_len v) as -> by (apply uwrap_id; unfold in_u; lia).
  destruct (crt_outcome (crt_write fd (iov_base v) (iov_len v)) p) as [E1 E2].
  pose proof (write_law (iov_base v) (iov_len v) (world p) ltac:(lia)) as Hw.
  destruct (crt_write fd (iov_base v) (iov_len v) (world p)) as [[rc e] w2] eqn:Ew. destruct Hw as (Hm & k & Hk & Hrc & Hwr).
  destruct (crt _ p) as [rc' q]. cbn [fst snd] in *. subst rc' w2. destruct (Z.eqb_spec rc (iov_len v)) as [->|Hne].
  - rewrite (proj2 (Z.ltb_ge _ 0)) by lia. rewrite s64_id by lia. assert (k = iov_len v) as -> by lia.
    specialize (IH (n + iov_len v) q ltac:(lia) Hlens ltac:(lia)). destruct (transfer _ _ _ q) as [r p'].
    destruct IH as (d & rest & w1 & -> & Hm1 & Hw1 & Hrest). exists (v :: d), rest, w1. split_and!; [done|congruence| |].
    + rewrite Hw1, Hwr, Hm. unfold gathered. cbn [map concat]. by rewrite app_assoc.
    + cbn [total fold_right]. fold (total d). rewrite !Z.add_assoc. done.
  - assert (written_through (v :: iov) n (world p) (if rc <? 0 then -1 else n + rc) (world q)) as H.
    { exists [], (v :: iov), (world p). cbn [gathered map concat total fold_right app]. rewrite app_nil_r, Ew. split_and!; try done.
      destruct (Z.ltb_spec rc 0); [left|right]; lia. }
    destruct (rc <? 0); [done|]. by rewrite s64_id by lia.
Qed.

(** What was written is the first bytes of the data. *)
Lemma written_prefix iov (w0 : W) r w' : Forall (fun v => 0 <= iov_len v) iov -> written_through iov 0 w0 r w' -> r <> -1 ->
  0 <= r <= total iov /\ written w' = written w0 ++ take (Z.to_nat r) (gathered (memory w0) iov).
Proof.
  intros Hpos (d & rest & w1 & -> & Hm & Hw & Hrest) Hr. apply Forall_app in Hpos as [Hd Hrs].
  pose proof (gathered_length (memory w0) d Hd) as Hld. rewrite gathered_app. destruct rest as [|v rest].
  - destruct Hrest as [-> ->]. change (gathered (memory w0) []) with (@nil Z). rewrite !app_nil_r, take_ge by lia. split; [lia|done].
  - apply Forall_cons in Hrs as [Hv Hrs]. pose proof (gathered_length (memory w0) rest Hrs) as Hlr. pose proof (write_law (iov_base v) (iov_len v) w1 Hv) as Hwl.
    destruct (crt_write fd (iov_base v) (iov_len v) w1) as [[rc e] w2]. destruct Hrest as (-> & _ & [[_ ->]|[Hrc ->]]); [done|].
    destruct Hwl as (_ & k & Hk & Hrk & ->). assert (k = rc) as -> by lia. split.
    + rewrite total_app. cbn [total fold_right]. fold (total rest). lia.
    + rewrite Hw, <- app_assoc. f_equal. rewrite take_app, take_ge by lia. f_equal. cbn [gathered map concat].
      fold (gathered (memory w0) rest). rewrite take_app_le by (rewrite bytes_at_length; lia).
      rewrite Hm, <- (bytes_at_take _ _ rc (iov_len v)) by lia. f_equal. lia.
Qed.

(** C32: [writev] on a file.  Lengths that do not fit (more than IOV_MAX buffers, one above UINT_MAX, a total above
    SSIZE_MAX) are refused with EINVAL and nothing is written.  Otherwise the buffers are written in order from their own addresses,
    each whole before the next, and the call ends after the last one or with the first [_write] that fails or is short, and makes no other
    after it; it returns -1 exactly when that one failed, and otherwise the number of bytes written, which are exactly the
    first bytes of the data of the buffers taken one after the other. *)
Theorem writev_prefix (p : proc W) (iov : list iovec) :
  wpdk_is_fd fd = true -> Forall (fun v => 0 <= iov_len v) iov ->
  let '(r, p') := wpdk_writev fd (Some iov) (Z.of_nat (length iov)) p in
  let w := world p in
  if decide (Z.of_nat (length iov) <= IOV_MAX /\ Forall (fun v => iov_len v <= UINT_MAX) iov /\ total iov <= SSIZE_MAX) then
    written_through iov 0 w r (world p') /\
    (r <> -1 -> 0 <= r <= total iov /\ written (world p') = written w ++ take (Z.to_nat r) (gathered (memory w) iov))
  else r = -1 /\ errno p' = EINVAL /\ world p' = w.
Proof.
  intros Hfd Hpos. unfold wpdk_writev, wpdk_uio_check_iovec. rewrite (proj2 (Z.ltb_ge _ 0)) by lia. cbn [orb].
  destruct (Z.ltb_spec IOV_MAX (Z.of_nat (length iov))) as [Hc|Hc]; [cbn [negb]; change (wpdk_posix_error EINVAL p) with (-1, set_errno EINVAL p); cbv zeta iota; rewrite decide_False by lia; done|].
  rewrite Nat2Z.id, take_ge by lia. pose proof (check_lengths_spec iov 0 ltac:(unfold SSIZE_MAX; lia) Hpos) as Hs.
  destruct (check_lengths iov 0); cbn [negb].
  - destruct (proj1 Hs eq_refl) as [Hl Ht].
    assert (wpdk_is_socket fd = false) as -> by (unfold wpdk_is_fd in Hfd; bool_prop; done). rewrite Hfd. cbn [negb].
    change (default [] (Some iov)) with iov. rewrite take_ge by lia.
    assert (Forall (fun v => 0 <= iov_len v <= UINT_MAX) iov) as Hl' by (rewrite Forall_forall in *; auto).
    pose proof (transfer_spec iov 0 p ltac:(lia) Hl' Ht) as H. destruct (transfer _ iov 0 p) as [r p']. cbv zeta.
    rewrite decide_True by done. split; [done|]. by apply written_prefix.
  - change (wpdk_posix_error EINVAL p) with (-1, set_errno EINVAL p). cbv zeta iota. rewrite decide_False; [done|]. intros (_ & Hl & Ht). by discriminate (proj2 Hs (conj Hl Ht)).
Qed.
End Transfer.

(** ** Sleeping *)

Section Sleep.
Context {W : Type} `{!Winsock W, !WinError W, !FileApi W, !SysApi W}.

(** The performance counter advances with every reading and never goes back. *)
Class ClockLaws := {
  counter : W -> Z;
  law_counter : forall w, let '(v, w') := QueryPerformanceCounter w in
    v = counter w' /\ counter w < v;
  law_yield : forall w, counter w <= counter (snd (yield_processor w))
}.
Context `{CL : !ClockLaws}.

Lemma spin_until_spec fuel end_ (p : proc W) :
  end_ - counter (world p) <= Z.of_nat fuel ->
  fst (spin_until fuel (counter (world p)) end_ p) = Some 0 /\
  end_ <= counter (world (snd (spin_until fuel (counter (world p)) end_ p))).
Proof.
  revert p. induction fuel as [|fuel IH]; intros p Hf; cbn [spin_until].
  - destruct (Z.ltb_spec (counter (world p)) end_); [lia|]. cbn. split; [done|lia].
  - destruct (Z.ltb_spec (counter (world p)) end_); [|cbn; split; [done|lia]].
    rewrite !bind_run, !lift_run. cbn [fst snd world].
    pose proof (law_yield (world p)) as Hy. set (w1 := snd (yield_processor (world p))) in *.
    pose proof (law_counter w1) as Hq. destruct (QueryPerformanceCounter w1) as [v w2].
    cbn [fst snd]. destruct Hq as [-> Hlt].
    apply (IH (Proc (pr_errno p) (pr_ready p) (pr_fds p) (pr_addr p) (pr_epolls p) (pr_paths p) w2)).
    cbn [world]. lia.
Qed.

(** A short [usleep] returns, and not before the performance counter has
    advanced by the requested time. *)
Theorem usleep_waits (p : proc W) (useconds : Z) :
  let freq := QueryPerformanceFrequency (world p) in
  let now := fst (QueryPerformanceCounter (world p)) in
  let ticks := useconds * freq / 1000000 in
  0 <= useconds < 10000 -> 0 < freq -> useconds * freq < 2 ^ 63 -> 0 <= now -> now + ticks < 2 ^ 63 ->
  exists fuel, fst (wpdk_usleep fuel useconds p) = Some 0 /\
    now + ticks <= counter (world (snd (wpdk_usleep fuel useconds p))).
Proof.
  cbv zeta. intros Hu Hfreq Hmul Hnow Hend.
  exists (Z.to_nat (useconds * QueryPerformanceFrequency (world p) / 1000000)).
  unfold wpdk_usleep. rewrite (proj2 (Z.leb_gt _ _)) by lia. rewrite bind_run. cbn [gets fst snd].
  rewrite bind_run, lift_run. cbn [fst snd].
  pose proof (law_counter (world p)) as Hq.
  destruct (QueryPerformanceCounter (world p)) as [now w1]. cbn [fst snd] in *.
  destruct Hq as [-> Hlt]. set (freq := QueryPerformanceFrequency (world p)) in *.
  assert (0 <= useconds * freq) by (apply Z.mul_nonneg_nonneg; lia).
  rewrite (s64_id (useconds * freq)) by lia.
  pose proof (Z.div_pos (useconds * freq) 1000000 ltac:(lia) ltac:(lia)).
  rewrite s64_id by lia.
  apply (spin_until_spec _ _ (Proc (pr_errno p) (pr_ready p) (pr_fds p) (pr_addr p) (pr_epolls p) (pr_paths p) w1)).
  cbn [world]. lia.
Qed.
End Sleep.

(** ** Concrete systems *)

Section Witnesses.
Import SimpleWinsock.

#[local] Instance sock_file_error : WinError w := fun _ => 5.
#[local] Instance sock_files : FileApi w := {|
  crt_open _ _ _ := ret (3, None); crt_close _ := ret (0, None); crt_read _ _ n := ret (n, None);
  crt_write _ _ n := ret (Z.min n 100, None);
  crt_lseeki64 _ o _ := ret (o, None); crt_telli64 _ := ret (0, None);
  crt_chsize_s _ _ := ret (0, None); crt_unlink _ := ret (0, None); crt_chmod _ _ := ret (0, None);
  crt_access _ _ := ret (0, None); crt_isatty _ := ret (0, None);
  crt_get_osfhandle fd := ret (fd, None); FlushFileBuffers _ := ret 1;
  GetFileSizeEx _ := ret (1, 0); LockFileEx _ _ _ _ _ := ret 1; UnlockFileEx _ _ _ := ret 1
|}.

Lemma close_isolated_witness :
  handle_of (snd (wpdk_close 0x10000 two_sockets)) 0x10001 = handle_of two_sockets 0x10001.
Proof. apply (close_isolated two_sockets 0x10000 0x10001 two_sockets_inv). discriminate. Defined.

End Witnesses.

(** A file that takes three bytes at a time; the world is what was written.  There are no sockets. *)
Module WriteSim.
Definition mem0 (a : Z) : Z := a.
#[export] Instance no_sockets : Winsock (list Z) := {|
  w_WSAGetLastError _ := 0; w_WSASetLastError _ h := h; WSAStartup := ret 0; WSACleanup := ret 0;
  w_socket _ _ _ := ret (-1); closesocket _ := ret (-1); ioctlsocket_FIONBIO _ _ := ret (-1); w_accept _ _ _ := ret (-1);
  w_bind _ _ _ := ret (-1); w_connect _ _ _ := ret (-1); w_getpeername _ _ _ := ret (-1); w_getsockname _ _ _ := ret (-1);
  w_getsockopt _ _ _ _ _ := ret (-1); w_setsockopt _ _ _ _ _ := ret (-1); w_listen _ _ := ret (-1); w_shutdown _ _ := ret (-1);
  w_recv _ _ _ _ := ret (-1); w_recvfrom _ _ _ _ _ _ := ret (-1); w_send _ _ _ _ := ret (-1); w_sendto _ _ _ _ _ _ := ret (-1);
  WSARecv _ _ _ f := ret (-1, 0, f); WSASend _ _ _ _ := ret (-1, 0); w_select _ r x := ret (-1, r, x);
  w_calloc _ _ := ret None; w_free _ := ret tt; w_env _ := env_tmp |}.
#[export] Instance write_error : WinError (list Z) := fun _ => 5.
#[export] Instance write_files : FileApi (list Z) := {|
  crt_open _ _ _ := ret (3, None); crt_close _ := ret (0, None); crt_read _ _ n := ret (n, None);
  crt_write _ base n := fun w => ((Z.min n 3, None), w ++ bytes_at mem0 base (Z.min n 3));
  crt_lseeki64 _ o _ := ret (o, None); crt_telli64 _ := ret (0, None);
  crt_chsize_s _ _ := ret (0, None); crt_unlink _ := ret (0, None); crt_chmod _ _ := ret (0, None);
  crt_access _ _ := ret (0, None); crt_isatty _ := ret (0, None);
  crt_get_osfhandle fd := ret (fd, None); FlushFileBuffers _ := ret 1;
  GetFileSizeEx _ := ret (1, 0); LockFileEx _ _ _ _ _ := ret 1; UnlockFileEx _ _ _ := ret 1 |}.
#[export] Instance write_laws : WriteLaws (list Z) 3.
Proof.
  refine {| memory := fun _ => mem0; written := fun w => w |}. intros base len w Hlen. cbn. split; [done|].
  exists (Z.min len 3). split_and!; [lia|lia|by right|done].
Defined.
End WriteSim.

Section WriteWitness.
Import WriteSim.
Lemma writev_prefix_witness : let iov := [Iovec 10 2; Iovec 100 5; Iovec 200 1] in
  let '(r, p') := wpdk_writev 3 (Some iov) 3 (proc0 [7]) in
  0 <= r <= total iov /\ world p' = [7] ++ take (Z.to_nat r) (gathered WriteSim.mem0 iov) /\ r = 5.
Proof.
  cbv zeta. pose proof (writev_prefix 3 (proc0 [7]) [Iovec 10 2; Iovec 100 5; Iovec 200 1] eq_refl ltac:(repeat constructor; simpl; lia)) as H.
  change (Z.of_nat (length [Iovec 10 2; Iovec 100 5; Iovec 200 1])) with 3 in H.
  assert (fst (wpdk_writev 3 (Some [Iovec 10 2; Iovec 100 5; Iovec 200 1]) 3 (proc0 [7])) = 5) as E by (vm_compute; reflexivity).
  destruct (wpdk_writev 3 _ 3 (proc0 [7])) as [r p']. cbn [fst] in E. subst r. rewrite decide_True in H.
  - destruct H as [_ H]. destruct (H ltac:(discriminate)) as [H1 H2]. by split_and!.
  - split_and!; [vm_compute; discriminate|repeat constructor; vm_compute; discriminate|vm_compute; discriminate].
Defined.
End WriteWitness.

(** A machine whose counter runs at 10 MHz. *)
Section Clock.
#[local] Instance clock_sys : SysApi Z := {|
  GetCurrentProcessId _ := 1; GetTickCount64 _ := 0; SleepEx _ := ret tt;
  QueryPerformanceFrequency _ := 10000000;
  QueryPerformanceCounter := fun t => (t + 1, t + 1); yield_processor := ret tt;
  processor_records := ret None; dwNumberOfProcessors _ := 1; dwPageSize _ := 4096;
  token_elevated _ := None
|}.
#[local] Instance clock_laws : ClockLaws (W := Z).
Proof. refine {| counter := fun t => t |}; simpl; intros; lia. Defined.

Lemma usleep_waits_witness :
  exists fuel, fst (wpdk_usleep fuel 3 (proc0 0)) = Some 0 /\
    31 <= counter (world (snd (wpdk_usleep fuel 3 (proc0 0)))).
Proof.
  destruct (usleep_waits (proc0 0) 3) as (fuel & H1 & H2); try (vm_compute; try split; congruence).
  exists fuel. split; [exact H1|]. eapply Z.le_trans; [|exact H2]. vm_compute. discriminate.
Defined.
End Clock.
End Unistd.
