(* ===== verification/Aio.v ===== *)
(** * Aio: asynchronous I/O contexts (src/src/aio.c, src/inc/libaio.h)

    A context is a ring of events with a count of the operations in flight.  The
    code issues its transfers synchronously: [ReadFile] and [WriteFile] complete,
    fail or stay pending; nothing in aio.c collects a pending transfer, so a
    pending operation stays in flight. *)

From S2P Require Import Prelude Errno CString PathMap Proc.

Module Export Aio.
Local Open Scope Z_scope.

(** The commands; [IO_CMD_OTHER] is every other opcode. *)
Inductive io_iocb_cmd := IO_CMD_PREAD | IO_CMD_PWRITE | IO_CMD_PREADV | IO_CMD_PWRITEV | IO_CMD_OTHER.

(** [struct iocb]; [aio_buf] is an address for a plain transfer, a vector for a
    vectored one; [iocb_addr] is the address of the structure itself. *)
Record iocb := Iocb {
  iocb_addr : Z; iocb_data : Z; aio_lio_opcode : io_iocb_cmd; aio_fildes : Z;
  aio_buf : Z; aio_iov : list iovec; aio_nbytes : Z; aio_offset : Z
}.

(** The [io_prep] functions of libaio.h on a structure at [addr]. *)
Definition io_prep_pread (addr fd buf count offset : Z) : iocb := Iocb addr 0 IO_CMD_PREAD fd buf [] count offset.
Definition io_prep_pwrite (addr fd buf count offset : Z) : iocb := Iocb addr 0 IO_CMD_PWRITE fd buf [] count offset.
Definition io_prep_preadv (addr fd buf : Z) (iov : list iovec) (iovcnt offset : Z) : iocb :=
  Iocb addr 0 IO_CMD_PREADV fd buf iov (u64 iovcnt) offset.
Definition io_prep_pwritev (addr fd buf : Z) (iov : list iovec) (iovcnt offset : Z) : iocb :=
  Iocb addr 0 IO_CMD_PWRITEV fd buf iov (u64 iovcnt) offset.

Record io_event := IoEvent { ev_data : Z; ev_obj : Z; ev_res : Z; ev_res2 : Z }.
#[export] Instance io_event_eq_dec : EqDecision io_event.
Proof. solve_decision. Defined.

(** [struct io_header] with its [struct io_context]; [size], [head] and [tail]
    are 32-bit unsigned, [iocount] is a [long]. *)
Record io_header := IoHeader {
  ctx_size : Z; ctx_head : Z; ctx_tail : Z; hdr_events : list io_event; iocount : Z
}.

Definition no_io_event : io_event := IoEvent 0 0 0 0.

(** [maxevents] is an int; [alloc] whether [malloc] succeeds.  The left value is
    the code returned, the negation of the errno set. *)
Definition wpdk_io_setup (maxevents : Z) (has_ctxp is_null alloc : bool) : Z + io_header :=
  if negb has_ctxp || negb is_null || (maxevents <? 1) then inl (- EINVAL)
  else if negb alloc then inl (- ENOMEM)
  else inr (IoHeader maxevents 0 0 (replicate (Z.to_nat maxevents) no_io_event) 0).

(** The context is freed; the code does not wait for operations in flight. *)
Definition wpdk_io_destroy (ctx : option io_header) : Z :=
  match ctx with None => - EINVAL | Some _ => 0 end.

(** The compare-and-exchange loop: one round without interference. *)
Definition wpdk_aio_increment_iocount (hdr : io_header) : bool * io_header :=
  if ctx_size hdr <=? iocount hdr then (false, hdr)
  else (true, IoHeader (ctx_size hdr) (ctx_head hdr) (ctx_tail hdr) (hdr_events hdr) (s32 (iocount hdr + 1))).

Definition wpdk_aio_decrement_iocount (hdr : io_header) : io_header :=
  IoHeader (ctx_size hdr) (ctx_head hdr) (ctx_tail hdr) (hdr_events hdr) (s32 (iocount hdr - 1)).

(** [struct io_task], the parts the code reads: [data] and [iocb] of the request.
    A vectored request has the counters and, per transfer, the result and
    whether it was marked shorter than requested. *)
Record io_task := IoTask { task_data : Z; task_iocb : Z }.
Record iov_task := IovTask {
  iov_parent : io_task; iov_active : Z; iov_iovcnt : Z; iov_subs : list (Z * bool)
}.

(** [alloc] is whether [calloc] succeeds. *)
Definition wpdk_aio_allocate (alloc : bool) (cb : iocb) (hdr : io_header) : option io_task * io_header :=
  if negb alloc then (None, hdr)
  else match wpdk_aio_increment_iocount hdr with
       | (false, hdr) => (None, hdr)
       | (true, hdr) => (Some (IoTask (iocb_data cb) (iocb_addr cb)), hdr)
       end.

Definition wpdk_aio_free (hdr : io_header) : io_header := wpdk_aio_decrement_iocount hdr.

(** [res] is stored in an unsigned 64-bit field. *)
Definition wpdk_aio_task_done (t : io_task) (res : Z) (hdr : io_header) : io_header :=
  let events := <[Z.to_nat (ctx_tail hdr) := IoEvent (task_data t) (task_iocb t) (u64 res) 0]>
                  (hdr_events hdr) in
  wpdk_aio_free (IoHeader (ctx_size hdr) (ctx_head hdr)
                   (u32 (ctx_tail hdr + 1) mod ctx_size hdr) events (iocount hdr)).

(** The loop over the results: stop after an error or a short transfer. *)
Fixpoint iov_result (subs : list (Z * bool)) (result : Z) : Z :=
  match subs with
  | [] => result
  | (r, short) :: subs =>
      if r <? 0 then r
      else if short then s64 (result + r) else iov_result subs (s64 (result + r))
  end.

(** The value returned, and the task unless it was completed (and freed). *)
Definition wpdk_aio_iov_done (t : iov_task) (count : Z) (hdr : io_header)
    : Z * option iov_task * io_header :=
  let active := s32 (iov_active t - count) in
  if active =? 0 then
    (0, None, wpdk_aio_task_done (iov_parent t)
                (iov_result (take (Z.to_nat (iov_iovcnt t)) (iov_subs t)) 0) hdr)
  else (active, Some (IovTask (iov_parent t) active (iov_iovcnt t) (iov_subs t)), hdr).

Definition set_sub (i : nat) (r : Z) (short : bool) (t : iov_task) : iov_task :=
  IovTask (iov_parent t) (iov_active t) (iov_iovcnt t) (<[i := (r, short)]> (iov_subs t)).

(** [wpdk_aio_done] of transfer [i] (from 0) of a vectored request. *)
Definition aio_sub_done (t : iov_task) (i : nat) (res : Z) (hdr : io_header)
    : Z * option iov_task * io_header :=
  let '(len, short) := nth i (iov_subs t) (0, false) in
  wpdk_aio_iov_done (set_sub i res (short || negb (res =? len)) t) 1 hdr.

(** How a transfer comes back from ReadFile or WriteFile. *)
Inductive outcome := Transferred (nbytes : Z) | Pending | Failed (error : Z).

Class AioApi (W : Type) := {
  (** handle, address, 32-bit length, offset *)
  ReadFile : Z -> Z -> Z -> Z -> C W outcome;
  WriteFile : Z -> Z -> Z -> Z -> C W outcome;
  aio_osfhandle : W -> Z -> Z;
  (** whether the next [calloc] succeeds *)
  aio_calloc : C W bool
}.

Record aio_state (W : Type) := AioState { a_errno : Z; a_hdr : io_header; a_world : W }.
Arguments AioState {W}. Arguments a_errno {W}. Arguments a_hdr {W}. Arguments a_world {W}.

Section Ops.
Context {W : Type} `{!AioApi W}.
Local Open Scope c_scope.
Local Abbreviation P := (C (aio_state W)).

#[export] Instance aio_errno : HasErrno (aio_state W).
Proof.
  refine {| errno := a_errno; set_errno := fun e s => AioState e (a_hdr s) (a_world s) |}.
  reflexivity.
Defined.

Definition aio_lift {A} (m : C W A) : P A :=
  fun s => let '(a, w) := m (a_world s) in (a, AioState (a_errno s) (a_hdr s) w).
(** A function on the header alone. *)
Definition on_hdr {A} (f : io_header -> A * io_header) : P A :=
  fun s => let '(a, h) := f (a_hdr s) in (a, AioState (a_errno s) h (a_world s)).
Definition put_hdr (f : io_header -> io_header) : P unit := on_hdr (fun h => (tt, f h)).

(** [return (wpdk_posix_error(rc), -rc);] *)
Definition fail_with (rc : Z) : P Z := wpdk_posix_error rc ;; ret (- rc).

Definition wpdk_aio_abort (error : Z) : P Z :=
  let rc := wpdk_convert_to_posix (s32 error) in
  put_hdr wpdk_aio_free ;; fail_with rc.

(** Allocation; on failure errno is EAGAIN. *)
Definition allocate (cb : iocb) : P (option io_task) :=
  let* ok := aio_lift aio_calloc in
  let* t := on_hdr (wpdk_aio_allocate ok cb) in
  match t with
  | None => set_errno_c EAGAIN ;; ret None
  | Some t => ret (Some t)
  end.

(** [wpdk_aio_read] and [wpdk_aio_write]; [io] is ReadFile or WriteFile. *)
Definition aio_single (io : Z -> Z -> Z -> Z -> C W outcome) (h : Z) (cb : iocb) (buf len : Z) : P Z :=
  let* t := allocate cb in
  match t with
  | None => ret (- EAGAIN)
  | Some t =>
      let* r := if len =? 0 then ret (Transferred 0) else aio_lift (io h buf (u32 len) (aio_offset cb)) in
      match r with
      | Transferred nbytes => put_hdr (wpdk_aio_task_done t nbytes) ;; ret 0
      | Pending => ret 0
      | Failed error => wpdk_aio_abort error
      end
  end.
Definition wpdk_aio_read := aio_single ReadFile.
Definition wpdk_aio_write := aio_single WriteFile.

(** [wpdk_aio_iov_abort] of transfer [i] (from 0, the source's [i] is one more).
    After a completion the task is gone: a second use of it is [None]. *)
Definition wpdk_aio_iov_abort (t : iov_task) (i : nat) (error : Z) : P (option Z) :=
  let rc := wpdk_convert_to_posix (s32 error) in
  let t := set_sub i (- rc) (snd (nth i (iov_subs t) (0, false))) t in
  let* '(count, t') := on_hdr (fun h =>
    let '(c, t', h) := wpdk_aio_iov_done t (iov_iovcnt t - Z.of_nat i) h in ((c, t'), h)) in
  if count =? 1 then put_hdr wpdk_aio_free ;; let* r := fail_with rc in ret (Some r)
  else
    match t' with
    | None => ret None
    | Some t' =>
        let* _ := on_hdr (fun h => let '(c, _, h) := wpdk_aio_iov_done t' 1 h in (c, h)) in
        ret (Some EINTR)
    end.

(** The loop of [wpdk_aio_readv] and [wpdk_aio_writev]: transfer [i] and the rest
    of the vector.  [None] is a use of a freed task. *)
Fixpoint aio_vector (io : Z -> Z -> Z -> Z -> C W outcome) (h : Z) (iov : list iovec)
    (i : nat) (offset : Z) (t : iov_task) : P (option Z) :=
  match iov with
  | [] =>
      let* _ := on_hdr (fun hd => let '(c, _, hd) := wpdk_aio_iov_done t 1 hd in (c, hd)) in
      ret (Some 0)
  | v :: iov =>
      let t := set_sub i (iov_len v) (snd (nth i (iov_subs t) (0, false))) t in
      let* r := if iov_len v =? 0 then ret (Transferred 0)
                else aio_lift (io h (iov_base v) (u32 (iov_len v)) offset) in
      match r with
      | Transferred nbytes =>
          let* '(_, t') := on_hdr (fun hd =>
            let '(c, t', hd) := aio_sub_done t i nbytes hd in ((c, t'), hd)) in
          match t' with
          | None => ret None
          | Some t =>
              if nbytes =? iov_len v then aio_vector io h iov (S i) (s64 (offset + iov_len v)) t
              else
                let* _ := on_hdr (fun hd =>
                  let '(c, _, hd) := wpdk_aio_iov_done t (iov_iovcnt t - Z.of_nat i) hd in (c, hd)) in
                ret (Some 0)
          end
      | Pending => aio_vector io h iov (S i) (s64 (offset + iov_len v)) t
      | Failed error => wpdk_aio_iov_abort t i error
      end
  end.

Definition aio_vectored (io : Z -> Z -> Z -> Z -> C W outcome) (h : Z) (cb : iocb) (iov : list iovec)
    : P (option Z) :=
  let iovcnt := Z.of_nat (length iov) in
  let* t := allocate cb in
  match t with
  | None => ret (Some (- EAGAIN))
  | Some t => aio_vector io h iov 0 (aio_offset cb)
                (IovTask t (iovcnt + 1) iovcnt (replicate (length iov) (0, false)))
  end.
Definition wpdk_aio_readv := aio_vectored ReadFile.
Definition wpdk_aio_writev := aio_vectored WriteFile.

(** The loop of [wpdk_aio_validate_iovec]. *)
Fixpoint validate_lengths (iov : list iovec) (length : Z) : bool :=
  match iov with
  | [] => true
  | v :: iov => if SSIZE_MAX - length <? iov_len v then false
                else validate_lengths iov (s64 (length + iov_len v))
  end.
Definition wpdk_aio_validate_iovec (iov : list iovec) (iovcnt : Z) : P bool :=
  if (iovcnt <? 1) || negb (validate_lengths (take (Z.to_nat (s32 iovcnt)) iov) 0)
  then set_errno_c EINVAL ;; ret false else ret true.

(** One request of [wpdk_io_submit]: its [rc].  The vector holds at least the
    [aio_nbytes] entries the caller announces. *)
Definition submit_one (h : Z) (cb : iocb) : P (option Z) :=
  let single m := let* r := m in ret (Some r) in
  let vectored (rd : bool) :=
    let* ok := wpdk_aio_validate_iovec (aio_iov cb) (aio_nbytes cb) in
    if negb ok then ret (Some (- EINVAL))
    else
      match aio_nbytes cb =? 1, aio_iov cb with
      | true, v :: _ => single ((if rd then wpdk_aio_read else wpdk_aio_write) h cb (iov_base v) (iov_len v))
      | _, iov => (if rd then wpdk_aio_readv else wpdk_aio_writev) h cb
                    (take (Z.to_nat (s32 (aio_nbytes cb))) iov)
      end in
  match aio_lio_opcode cb with
  | IO_CMD_PREAD => single (wpdk_aio_read h cb (aio_buf cb) (aio_nbytes cb))
  | IO_CMD_PWRITE => single (wpdk_aio_write h cb (aio_buf cb) (aio_nbytes cb))
  | IO_CMD_PREADV => vectored true
  | IO_CMD_PWRITEV => vectored false
  | IO_CMD_OTHER => set_errno_c EINVAL ;; ret (Some (- EINVAL))
  end.

(** The loop of [wpdk_io_submit] from request [i]; [None] in the list is a NULL
    pointer, [None] as result a use of a freed task. *)
Fixpoint submit_loop (ios : list (option iocb)) (i : Z) : P (option Z) :=
  let stop rc := ret (Some (if i =? 0 then rc else i)) in
  match ios with
  | [] => ret (Some i)
  | None :: _ => set_errno_c EINVAL ;; stop (- EINVAL)
  | Some cb :: ios =>
      let* h := gets (fun s => aio_osfhandle (a_world s) (aio_fildes cb)) in
      if h =? -1 then set_errno_c EINVAL ;; stop (- EINVAL)
      else
        let* rc := submit_one h cb in
        match rc with
        | None => ret None
        | Some rc =>
            if rc =? EINTR then ret (Some (i + 1))
            else if negb (rc =? 0) then stop rc
            else submit_loop ios (i + 1)
        end
  end.

Definition wpdk_io_submit (nr : Z) (ios : option (list (option iocb))) : P (option Z) :=
  match ios with
  | None => set_errno_c EINVAL ;; ret (Some (- EINVAL))
  | Some ios => submit_loop (take (Z.to_nat nr) ios) 0
  end.

Definition wpdk_io_cancel : P Z := ret (- EINVAL).
End Ops.

(** [wpdk_io_getevents] on a context: the events returned and the header. *)
Fixpoint getevents_loop (nr : nat) (hdr : io_header) : list io_event * io_header :=
  match nr with
  | O => ([], hdr)
  | S nr =>
      if ctx_head hdr =? ctx_tail hdr then ([], hdr)
      else
        let e := nth (Z.to_nat (ctx_head hdr)) (hdr_events hdr) no_io_event in
        let '(es, hdr) := getevents_loop nr
          (IoHeader (ctx_size hdr) (u32 (ctx_head hdr + 1) mod ctx_size hdr) (ctx_tail hdr)
             (hdr_events hdr) (iocount hdr)) in
        (e :: es, hdr)
  end.

(** The left value is the code returned for a null context, the negation of errno. *)
Definition wpdk_io_getevents (nr : Z) (ctx : option io_header) : Z + (list io_event * io_header) :=
  match ctx with
  | None => inl (- EINVAL)
  | Some hdr => inr (getevents_loop (Z.to_nat nr) hdr)
  end.

(** ** The ring as a queue *)

Record hdr_ok (hdr : io_header) : Prop := {
  ok_size : 0 < ctx_size hdr < 2 ^ 31;
  ok_head : 0 <= ctx_head hdr < ctx_size hdr;
  ok_tail : 0 <= ctx_tail hdr < ctx_size hdr;
  ok_events : length (hdr_events hdr) = Z.to_nat (ctx_size hdr)
}.

(** The number of events between head and tail, and those events in order. *)
Definition queued (hdr : io_header) : nat := Z.to_nat ((ctx_tail hdr - ctx_head hdr) mod ctx_size hdr).
Definition event_index (hdr : io_header) (k : nat) : nat :=
  Z.to_nat ((ctx_head hdr + Z.of_nat k) mod ctx_size hdr).
Definition queue (hdr : io_header) : list io_event :=
  map (fun k => nth (event_index hdr k) (hdr_events hdr) no_io_event) (seq 0 (queued hdr)).

Lemma mod_wrap x m : 0 <= x < 2 * m -> x mod m = if x <? m then x else x - m.
Proof.
  intros H. destruct (Z.ltb_spec x m).
  - by rewrite Z.mod_small by lia.
  - rewrite <- (Z_mod_plus_full x (-1) m). rewrite Z.mod_small by lia. lia.
Qed.

Lemma mod_wrap_neg x m : - m <= x < m -> 0 < m -> x mod m = if x <? 0 then x + m else x.
Proof.
  intros H Hm. destruct (Z.ltb_spec x 0).
  - rewrite <- (Z_mod_plus_full x 1 m). destruct (Z.eqb_spec x (- m)).
    + subst. replace (- m + 1 * m) with 0 by lia. rewrite Z.mod_0_l; lia.
    + rewrite Z.mod_small; lia.
  - by rewrite Z.mod_small by lia.
Qed.

Lemma queued_lt hdr : hdr_ok hdr -> (queued hdr < Z.to_nat (ctx_size hdr))%nat.
Proof.
  intros [Hs Hh Ht _]. unfold queued.
  pose proof (Z.mod_pos_bound (ctx_tail hdr - ctx_head hdr) (ctx_size hdr) ltac:(lia)). lia.
Qed.

Lemma queue_length hdr : length (queue hdr) = queued hdr.
Proof. unfold queue. by rewrite length_map, length_seq. Qed.

Lemma setup_ok maxevents hdr :
  maxevents < 2 ^ 31 -> wpdk_io_setup maxevents true true true = inr hdr ->
  hdr_ok hdr /\ queue hdr = [] /\ iocount hdr = 0.
Proof.
  unfold wpdk_io_setup. cbn [negb orb]. intros Hm. destruct (Z.ltb_spec maxevents 1); [done|].
  intros [= <-]. split; [split; cbn; rewrite ?length_replicate; lia|].
  split; [|done]. unfold queue, queued. cbn. by rewrite Z.mod_0_l by lia.
Qed.

(** The position of the tail. *)
Lemma tail_index hdr : hdr_ok hdr -> event_index hdr (queued hdr) = Z.to_nat (ctx_tail hdr).
Proof.
  intros [Hs Hh Ht _]. unfold event_index, queued. rewrite Z2Nat.id by (apply Z.mod_pos_bound; lia).
  rewrite Z.add_mod_idemp_r by lia. replace (ctx_head hdr + (ctx_tail hdr - ctx_head hdr)) with (ctx_tail hdr) by lia.
  by rewrite Z.mod_small by lia.
Qed.

Lemma event_index_inj hdr j k :
  hdr_ok hdr -> (j < Z.to_nat (ctx_size hdr))%nat -> (k < Z.to_nat (ctx_size hdr))%nat ->
  event_index hdr j = event_index hdr k -> j = k.
Proof.
  intros [Hs Hh Ht _] Hj Hk. unfold event_index. rewrite !mod_wrap by lia.
  destruct (Z.ltb_spec (ctx_head hdr + Z.of_nat j) (ctx_size hdr)),
    (Z.ltb_spec (ctx_head hdr + Z.of_nat k) (ctx_size hdr)); lia.
Qed.

Lemma u32_small z : 0 <= z < 2 ^ 31 + 1 -> u32 z = z.
Proof. intros. apply uwrap_id. unfold in_u. lia. Qed.

Lemma task_done_ok t res hdr : hdr_ok hdr -> hdr_ok (wpdk_aio_task_done t res hdr).
Proof.
  intros [Hs Hh Ht He]. split; cbn; try lia.
  - apply Z.mod_pos_bound. lia.
  - by rewrite length_insert.
Qed.

Lemma task_done_queued t res hdr :
  hdr_ok hdr -> queued (wpdk_aio_task_done t res hdr) =
    if (S (queued hdr) =? Z.to_nat (ctx_size hdr))%nat then 0%nat else S (queued hdr).
Proof.
  intros [Hs Hh Ht He]. unfold queued. cbn [ctx_tail ctx_head ctx_size wpdk_aio_task_done
    wpdk_aio_free wpdk_aio_decrement_iocount]. rewrite u32_small by lia.
  rewrite (mod_wrap (ctx_tail hdr + 1)) by lia.
  rewrite (mod_wrap_neg (ctx_tail hdr - ctx_head hdr)) by lia.
  destruct (Nat.eqb_spec (S (Z.to_nat (if ctx_tail hdr - ctx_head hdr <? 0
      then ctx_tail hdr - ctx_head hdr + ctx_size hdr else ctx_tail hdr - ctx_head hdr)))
      (Z.to_nat (ctx_size hdr))) as [E|E]; revert E;
    destruct (Z.ltb_spec (ctx_tail hdr + 1) (ctx_size hdr));
    rewrite mod_wrap_neg by lia;
    repeat match goal with |- context [?a <? ?b] => destruct (Z.ltb_spec a b) end; lia.
Qed.

(** C36: a completion appends its event to the queue the ring represents, as
    long as fewer than [size - 1] events wait to be collected; with [size - 1]
    waiting the tail catches up with the head and every event waiting is lost. *)
Theorem task_done_queue (t : io_task) (res : Z) (hdr : io_header) :
  hdr_ok hdr ->
  queue (wpdk_aio_task_done t res hdr) =
    if (Z.of_nat (length (queue hdr)) + 1 <? ctx_size hdr)
    then queue hdr ++ [IoEvent (task_data t) (task_iocb t) (u64 res) 0] else [].
Proof.
  intros Hok. pose proof (queued_lt hdr Hok) as Hlt. pose proof Hok as [Hs Hh Ht He].
  rewrite queue_length. unfold queue. rewrite task_done_queued by done.
  destruct (Nat.eqb_spec (S (queued hdr)) (Z.to_nat (ctx_size hdr))) as [E|E];
    destruct (Z.ltb_spec (Z.of_nat (queued hdr) + 1) (ctx_size hdr)); try lia; [done|].
  rewrite seq_S, map_app. f_equal.
  - apply map_ext_in. intros k Hk%in_seq.
    change (event_index (wpdk_aio_task_done t res hdr) k) with (event_index hdr k).
    cbn. rewrite <- tail_index by done. rewrite !nth_lookup.
    rewrite list_lookup_insert_ne; [done|]. intros Heq.
    apply event_index_inj in Heq; [lia|done|lia|lia].
  - cbn [map Nat.add].
    change (event_index (wpdk_aio_task_done t res hdr) (queued hdr)) with (event_index hdr (queued hdr)).
    rewrite tail_index by done. f_equal. cbn. rewrite nth_lookup.
    rewrite list_lookup_insert_eq by lia. done.
Qed.

(** One event off the front. *)
Lemma getevents_step hdr :
  hdr_ok hdr -> ctx_head hdr <> ctx_tail hdr ->
  let hdr' := IoHeader (ctx_size hdr) (u32 (ctx_head hdr + 1) mod ctx_size hdr) (ctx_tail hdr)
                (hdr_events hdr) (iocount hdr) in
  hdr_ok hdr' /\ queue hdr = nth (Z.to_nat (ctx_head hdr)) (hdr_events hdr) no_io_event :: queue hdr'.
Proof.
  intros [Hs Hh Ht He] Hne. cbv zeta. split.
  { split; cbn; try lia. apply Z.mod_pos_bound. lia. }
  set (hdr' := IoHeader _ _ _ _ _).
  assert (ctx_head hdr' = (ctx_head hdr + 1) mod ctx_size hdr) as Hh'
    by (cbn; by rewrite u32_small by lia).
  assert (queued hdr = S (queued hdr')) as Eq.
  { unfold queued. rewrite Hh'. cbn. rewrite (mod_wrap (ctx_head hdr + 1)) by lia.
    rewrite (mod_wrap_neg (ctx_tail hdr - ctx_head hdr)) by lia.
    destruct (Z.ltb_spec (ctx_head hdr + 1) (ctx_size hdr));
      rewrite mod_wrap_neg by lia;
      repeat match goal with |- context [?a <? ?b] => destruct (Z.ltb_spec a b) end; lia. }
  unfold queue. rewrite Eq. cbn [seq map]. f_equal.
  - unfold event_index. rewrite Z.add_0_r, Z.mod_small by lia. done.
  - rewrite <- seq_shift, map_map. apply map_ext. intros k. f_equal. unfold event_index.
    rewrite Hh'. cbn [ctx_size hdr']. rewrite Z.add_mod_idemp_l by lia. do 2 f_equal. lia.
Qed.

Lemma getevents_loop_fifo nr hdr :
  hdr_ok hdr ->
  let '(es, hdr') := getevents_loop nr hdr in
  es = take nr (queue hdr) /\ queue hdr' = drop nr (queue hdr) /\ hdr_ok hdr'.
Proof.
  revert hdr.
  induction nr as [|nr IH]; intros hdr Hok; cbn [getevents_loop]; [done|].
  destruct (Z.eqb_spec (ctx_head hdr) (ctx_tail hdr)) as [E|E].
  - assert (queue hdr = []) as ->; [|done].
    unfold queue, queued. rewrite E, Z.sub_diag, Z.mod_0_l; [done|]. destruct Hok. lia.
  - destruct (getevents_step hdr Hok E) as [Hok' Hq]. cbv zeta in *.
    specialize (IH _ Hok'). destruct (getevents_loop nr _) as [es hdr'].
    destruct IH as (-> & -> & ?). rewrite Hq. done.
Qed.
(** [io_getevents] returns the events in the order they were completed:
    the first [nr] of the queue, which are then gone from it. *)
Theorem getevents_fifo (nr : Z) (hdr : io_header) :
  hdr_ok hdr ->
  exists es hdr', wpdk_io_getevents nr (Some hdr) = inr (es, hdr') /\
  es = take (Z.to_nat nr) (queue hdr) /\ queue hdr' = drop (Z.to_nat nr) (queue hdr) /\ hdr_ok hdr'.
Proof.
  unfold wpdk_io_getevents. generalize (Z.to_nat nr). clear nr. intros nr Hok.
  pose proof (getevents_loop_fifo nr hdr Hok) as H.
  destruct (getevents_loop nr hdr) as [es hdr']. eauto.
Qed.

(** ** Vectored requests *)

Section Vectored.
Context {W : Type} `{!AioApi W}.

(** What the transfers of a vector do, without the bookkeeping: the bytes moved,
    the number of transfers left pending, and the error that ended the request. *)
Fixpoint vector_io (io : Z -> Z -> Z -> Z -> C W outcome) (h : Z) (iov : list iovec) (offset : Z) (w : W)
    : Z * nat * option Z * W :=
  match iov with
  | [] => (0, 0%nat, None, w)
  | v :: iov =>
      let '(r, w) := if iov_len v =? 0 then (Transferred 0, w)
                     else io h (iov_base v) (u32 (iov_len v)) offset w in
      match r with
      | Transferred n =>
          if n =? iov_len v then
            let '(total, p, e, w) := vector_io io h iov (s64 (offset + iov_len v)) w in (n + total, p, e, w)
          else (n, 0%nat, None, w)
      | Pending =>
          let '(total, p, e, w) := vector_io io h iov (s64 (offset + iov_len v)) w in (total, S p, e, w)
      | Failed e => (0, 0%nat, Some e, w)
      end
  end.

(** The bytes ReadFile and WriteFile report fit their 32-bit result. *)
Definition reports_dword (io : Z -> Z -> Z -> Z -> C W outcome) : Prop :=
  forall h b l o w n w', io h b l o w = (Transferred n, w') -> 0 <= n < 2 ^ 32.

Definition request_result (t : io_task) (total : Z) (p : nat) (e : option Z) (s : aio_state W)
    : option Z * aio_state W :=
  match p, e with
  | O, None => (Some 0, AioState (a_errno s) (wpdk_aio_task_done t total (a_hdr s)) (a_world s))
  | O, Some e => let rc := wpdk_convert_to_posix (s32 e) in
                 (Some (- rc), AioState rc (wpdk_aio_free (a_hdr s)) (a_world s))
  | S _, None => (Some 0, s)
  | S _, Some _ => (Some EINTR, s)
  end.

(** Before transfer [i] of [n], with [p] transfers pending and the others complete:
    [done] lists their lengths when none is pending. *)
Record vec_inv (n i p : nat) (done : list Z) (t : iov_task) : Prop := {
  vi_bound : Z.of_nat n < 2 ^ 31 - 1;
  vi_cnt : iov_iovcnt t = Z.of_nat n;
  vi_len : length (iov_subs t) = n;
  vi_active : iov_active t = Z.of_nat n + 1 - Z.of_nat i + Z.of_nat p;
  vi_le : (p <= i <= n)%nat;
  vi_rest : forall j, (i <= j < n)%nat -> snd (nth j (iov_subs t) (0, false)) = false;
  vi_done : p = 0%nat -> take i (iov_subs t) = map (fun r => (r, false)) done;
  vi_dword : Forall (fun r => 0 <= r < 2 ^ 32) done
}.

Definition sumz (l : list Z) : Z := foldr Z.add 0 l.

Lemma sumz_bound l : Forall (fun r => 0 <= r < 2 ^ 32) l -> 0 <= sumz l <= Z.of_nat (length l) * (2 ^ 32 - 1).
Proof.
  induction 1 as [|r l Hr Hl IH]; cbn [length]; [cbn; lia|].
  change (sumz (r :: l)) with (r + sumz l). lia.
Qed.

Lemma sumz_snoc l r : sumz (l ++ [r]) = sumz l + r.
Proof. induction l as [|a l IH]; cbn; [lia|]. unfold sumz in IH. rewrite IH. fold (sumz l). lia. Qed.

Lemma s64_small z : 0 <= z < 2 ^ 63 -> s64 z = z.
Proof. intros. apply swrap_id; [lia|]. unfold in_s. lia. Qed.

Lemma s32_small z : 0 <= z < 2 ^ 31 -> s32 z = z.
Proof. intros. apply swrap_id; [lia|]. unfold in_s. lia. Qed.

(** Completed transfers add up. *)
Lemma iov_result_app l rest acc :
  Forall (fun r => 0 <= r < 2 ^ 32) l -> 0 <= acc -> acc + sumz l < 2 ^ 63 ->
  iov_result (map (fun r => (r, false)) l ++ rest) acc = iov_result rest (acc + sumz l).
Proof.
  intros Hl. revert acc. induction Hl as [|r l Hr Hl IH]; intros acc H0 Hb; cbn in *.
  - by rewrite Z.add_0_r.
  - pose proof (sumz_bound l Hl). fold (sumz l) in *. destruct (Z.ltb_spec r 0); [lia|].
    rewrite s64_small by lia. rewrite IH by lia. f_equal. lia.
Qed.

Lemma iov_done_more t count hd :
  0 < iov_active t - count < 2 ^ 31 ->
  wpdk_aio_iov_done t count hd =
    (iov_active t - count, Some (IovTask (iov_parent t) (iov_active t - count) (iov_iovcnt t) (iov_subs t)), hd).
Proof.
  intros. unfold wpdk_aio_iov_done. rewrite s32_small by lia. by destruct (Z.eqb_spec (iov_active t - count) 0); [lia|].
Qed.

Lemma iov_done_last t count hd :
  iov_active t = count ->
  wpdk_aio_iov_done t count hd =
    (0, None, wpdk_aio_task_done (iov_parent t) (iov_result (take (Z.to_nat (iov_iovcnt t)) (iov_subs t)) 0) hd).
Proof. intros <-. unfold wpdk_aio_iov_done. by rewrite Z.sub_diag. Qed.

(** Recording transfer [i]: complete, or started and pending. *)
Lemma vec_inv_full n i p done t r :
  vec_inv n i p done t -> (i < n)%nat -> 0 <= r < 2 ^ 32 ->
  vec_inv n (S i) p (done ++ [r])
    (IovTask (iov_parent t) (iov_active t - 1) (iov_iovcnt t) (<[i := (r, false)]> (iov_subs t))).
Proof.
  intros [Hb Hc Hl Ha Hle Hr Hd Hw] Hi Hr0. split; cbn; auto; try lia.
  - by rewrite length_insert.
  - intros j Hj. rewrite nth_lookup, list_lookup_insert_ne, <- nth_lookup by lia. apply Hr. lia.
  - intros ->. rewrite (take_S_r _ _ (r, false)) by (apply list_lookup_insert_eq; lia).
    rewrite take_insert_ge by lia. by rewrite Hd, map_app.
  - apply Forall_app. auto.
Qed.

Lemma vec_inv_pending n i p done t r :
  vec_inv n i p done t -> (i < n)%nat ->
  vec_inv n (S i) (S p) done (set_sub i r false t).
Proof.
  intros [Hb Hc Hl Ha Hle Hr Hd Hw] Hi. split; cbn; auto; try lia.
  - by rewrite length_insert.
  - intros j Hj. rewrite nth_lookup, list_lookup_insert_ne, <- nth_lookup by lia. apply Hr. lia.
Qed.

Lemma vec_inv_set n i p done t r :
  vec_inv n i p done t -> vec_inv n i p done (set_sub i r false t).
Proof.
  intros [Hb Hc Hl Ha Hle Hr Hd Hw]. split; cbn; auto.
  - by rewrite length_insert.
  - intros j Hj. destruct (decide (i = j)) as [->|].
    + by rewrite nth_lookup, list_lookup_insert_eq by lia.
    + rewrite nth_lookup, list_lookup_insert_ne, <- nth_lookup by lia. by apply Hr.
  - intros ->. rewrite take_insert_ge by lia. auto.
Qed.

Lemma on_hdr_run {A} (f : io_header -> A * io_header) er hd w :
  on_hdr f (AioState er hd w) = (fst (f hd), AioState er (snd (f hd)) w) :> A * aio_state W.
Proof. unfold on_hdr. cbn. by destruct (f hd). Qed.

(** The vector is exhausted: the last reference is dropped. *)
Lemma aio_vector_end io h n p done t off er hd w :
  vec_inv n n p done t ->
  aio_vector io h [] n off t (AioState er hd w) =
    request_result (iov_parent t) (sumz done) p None (AioState er hd w).
Proof.
  intros [Hb Hc Hl Ha Hle Hr Hd Hw]. cbn [aio_vector]. unfold bind, on_hdr. cbn [a_hdr a_errno a_world].
  destruct p as [|p].
  - rewrite iov_done_last by lia. cbn. do 3 f_equal.
    rewrite Hc, Nat2Z.id, Hd, <- (app_nil_r (map _ done)) by done.
    assert (length done = n) as Hn.
    { pose proof (f_equal length (Hd eq_refl)) as E. rewrite length_take, length_map in E. lia. }
    pose proof (sumz_bound done Hw). rewrite iov_result_app by (auto; lia). by cbn.
  - rewrite iov_done_more by lia. done.
Qed.

(** A transfer shorter than requested ends the request. *)
Lemma aio_vector_short n i p done t r hd :
  vec_inv n i p done t -> (i < n)%nat -> 0 <= r < 2 ^ 32 ->
  let t' := IovTask (iov_parent t) (iov_active t - 1) (iov_iovcnt t) (<[i := (r, true)]> (iov_subs t)) in
  snd (wpdk_aio_iov_done t' (iov_iovcnt t - Z.of_nat i) hd) =
    match p with O => wpdk_aio_task_done (iov_parent t) (sumz done + r) hd | S _ => hd end.
Proof.
  intros [Hb Hc Hl Ha Hle Hr Hd Hw] Hi Hr0. cbv zeta. destruct p as [|p].
  - rewrite iov_done_last by (cbn; lia). cbn [snd iov_parent iov_iovcnt iov_subs]. f_equal.
    rewrite Hc, Nat2Z.id. rewrite take_ge by (rewrite length_insert; lia).
    rewrite <- (take_drop i (<[i:=_]> _)), take_insert_ge, Hd by (lia || done).
    assert (length done = i) as Hn.
    { pose proof (f_equal length (Hd eq_refl)) as E. rewrite length_take, length_map in E. lia. }
    pose proof (sumz_bound done Hw). rewrite iov_result_app by (auto; lia).
    rewrite (drop_S _ (r, true)) by (apply list_lookup_insert_eq; lia). cbn [iov_result].
    destruct (Z.ltb_spec r 0); [lia|]. rewrite s64_small; lia.
  - rewrite iov_done_more by (cbn; lia). done.
Qed.

(** A transfer that fails ends the request too. *)
Lemma aio_vector_abort n i p done t error er hd w :
  vec_inv n i p done t -> (i < n)%nat ->
  wpdk_aio_iov_abort t i error (AioState er hd w) =
    request_result (iov_parent t) (sumz done) p (Some error) (AioState er hd w).
Proof.
  intros [Hb Hc Hl Ha Hle Hr Hd Hw] Hi. unfold wpdk_aio_iov_abort, bind at 1, on_hdr at 1.
  cbn [a_hdr a_errno a_world]. rewrite iov_done_more by (cbn; lia).
  cbn [iov_active iov_iovcnt iov_parent iov_subs set_sub]. destruct p as [|p].
  - destruct (Z.eqb_spec (iov_active t - (iov_iovcnt t - Z.of_nat i)) 1); [done|lia].
  - destruct (Z.eqb_spec (iov_active t - (iov_iovcnt t - Z.of_nat i)) 1); [lia|].
    unfold bind, on_hdr. cbn [a_hdr a_errno a_world]. rewrite iov_done_more by (cbn; lia). done.
Qed.

(** A transfer that completes at once leaves the request alive. *)
Lemma sub_done_run n i p done t nb len hd :
  vec_inv n i p done t -> (i < n)%nat ->
  aio_sub_done (set_sub i len false t) i nb hd =
    (iov_active t - 1,
     Some (IovTask (iov_parent t) (iov_active t - 1) (iov_iovcnt t)
             (<[i := (nb, negb (nb =? len))]> (iov_subs t))), hd).
Proof.
  intros [Hb Hc Hl Ha Hle Hr Hd Hw] Hi. unfold aio_sub_done, set_sub.
  cbn [iov_subs iov_parent iov_active iov_iovcnt].
  rewrite nth_lookup, list_lookup_insert_eq by lia.
  change (default (0, false) (Some (len, false))) with (len, false). cbn iota beta.
  rewrite list_insert_insert_eq, iov_done_more by (cbn; lia). done.
Qed.

Lemma aio_vector_run io h : reports_dword io -> forall iov n i p done t off er hd w,
  vec_inv n i p done t -> (i + length iov = n)%nat ->
  let '(total, q, e, w') := vector_io io h iov off w in
  aio_vector io h iov i off t (AioState er hd w) =
    request_result (iov_parent t) (sumz done + total) (p + q) e (AioState er hd w').
Proof.
  intros Hio iov. induction iov as [|v iov IH]; intros n i p done t off er hd w Hinv Hn.
  { cbn [vector_io]. cbn in Hn. replace i with n in * by lia. rewrite Z.add_0_r, Nat.add_0_r.
    by apply aio_vector_end. }
  cbn [length] in Hn. cbn [vector_io aio_vector]. rewrite bind_run.
  rewrite (vi_rest _ _ _ _ _ Hinv i) by lia.
  set (m := if iov_len v =? 0 then (Transferred 0, w) else io h (iov_base v) (u32 (iov_len v)) off w).
  replace ((if iov_len v =? 0 then ret (Transferred 0)
     else aio_lift (io h (iov_base v) (u32 (iov_len v)) off)) (AioState er hd w))
    with (fst m, AioState er hd (snd m))
    by (unfold m, aio_lift; destruct (iov_len v =? 0); [done|]; cbn; by destruct (io _ _ _ _ w)).
  destruct m as [r w1] eqn:Em. cbn [fst snd].
  assert (forall b, r = Transferred b -> 0 <= b < 2 ^ 32) as Hd.
  { intros b ->. unfold m in Em. destruct (iov_len v =? 0); [injection Em; lia|eauto]. }
  destruct r as [nb| |error].
  - specialize (Hd nb eq_refl). rewrite bind_run, on_hdr_run. cbn beta.
    rewrite (sub_done_run n i p done) by (done || lia). cbn [fst snd].
    destruct (Z.eqb_spec nb (iov_len v)) as [E|E]; cbn [negb].
    + pose proof (vec_inv_full n i p done t nb Hinv ltac:(lia) Hd) as Hinv'.
      specialize (IH n (S i) p (done ++ [nb]) _ (s64 (off + iov_len v)) er hd w1 Hinv' ltac:(lia)).
      destruct (vector_io io h iov _ w1) as [[[total q] e] w2].
      rewrite IH. cbn [iov_parent]. f_equal. rewrite sumz_snoc. lia.
    + pose proof (aio_vector_short n i p done t nb hd Hinv ltac:(lia) Hd) as Hs. cbv zeta in Hs.
      unfold bind, on_hdr. cbn [a_hdr a_errno a_world iov_iovcnt iov_parent iov_active iov_subs].
      destruct (wpdk_aio_iov_done _ _ hd) as [[c t'] hd'] eqn:Ed. cbn [snd] in Hs. rewrite Hs.
      rewrite Nat.add_0_r. by destruct p.
  - pose proof (vec_inv_pending n i p done t (iov_len v) Hinv ltac:(lia)) as Hinv'.
    specialize (IH n (S i) (S p) done _ (s64 (off + iov_len v)) er hd w1 Hinv' ltac:(lia)).
    destruct (vector_io io h iov _ w1) as [[[total q] e] w2].
    rewrite IH, Nat.add_succ_r. done.
  - rewrite Z.add_0_r, Nat.add_0_r.
    change (iov_parent t) with (iov_parent (set_sub i (iov_len v) false t)).
    eapply aio_vector_abort; [by apply vec_inv_set|lia].
Qed.

(** C35: a vectored request starts the transfers in order up to the first that
    fails or comes back short, and settles the context exactly once: with nothing
    pending, either one event with the number of bytes moved is posted and the
    call returns 0, or the context is as before and the error is returned; with
    transfers pending the operation stays in flight and no event is posted.  No
    path uses the task after it was freed. *)
Theorem vectored_request io h cb iov er hdr (w w1 : W) :
  reports_dword io -> aio_calloc w = (true, w1) ->
  0 <= iocount hdr < ctx_size hdr -> ctx_size hdr < 2 ^ 31 ->
  2 <= Z.of_nat (length iov) < 2 ^ 31 - 1 ->
  let hdr1 := IoHeader (ctx_size hdr) (ctx_head hdr) (ctx_tail hdr) (hdr_events hdr) (iocount hdr + 1) in
  let '(total, p, e, w') := vector_io io h iov (aio_offset cb) w1 in
  aio_vectored io h cb iov (AioState er hdr w) =
    request_result (IoTask (iocb_data cb) (iocb_addr cb)) total p e (AioState er hdr1 w') /\
  wpdk_aio_free hdr1 = hdr.
Proof.
  intros Hio Ha Hc Hs Hl hdr1.
  set (t := IovTask (IoTask (iocb_data cb) (iocb_addr cb)) (Z.of_nat (length iov) + 1)
              (Z.of_nat (length iov)) (replicate (length iov) (0, false))).
  assert (vec_inv (length iov) 0 0 [] t) as Hinv.
  { split; cbn; rewrite ?length_replicate; auto; try lia.
    intros j Hj. rewrite nth_lookup, lookup_replicate_2 by lia. done. }
  pose proof (aio_vector_run io h Hio iov _ 0 0 [] t (aio_offset cb) er hdr1 w1 Hinv eq_refl) as H.
  destruct (vector_io io h iov (aio_offset cb) w1) as [[[total p] e] w']. split.
  - cbn [sumz foldr Nat.add iov_parent t] in H. rewrite Z.add_0_l in H. rewrite <- H. unfold aio_vectored, allocate, aio_lift, on_hdr, wpdk_aio_allocate,
      wpdk_aio_increment_iocount, bind. cbn [a_world a_errno a_hdr]. rewrite Ha.
    cbn [negb a_hdr a_errno a_world]. destruct (Z.leb_spec (ctx_size hdr) (iocount hdr)); [lia|].
    rewrite s32_small by lia. done.
  - unfold hdr1, wpdk_aio_free, wpdk_aio_decrement_iocount. cbn. rewrite s32_small by lia.
    replace (iocount hdr + 1 - 1) with (iocount hdr) by lia. by destruct hdr.
Qed.
End Vectored.

(** ** A scripted system *)
Module ScriptedAio.
(** The next outcomes of ReadFile and WriteFile; end of file when they run out. *)
Definition next (_ _ _ _ : Z) : C (list outcome) outcome := fun w =>
  match w with
  | [] => (Transferred 0, [])
  | Transferred n :: w => (Transferred (u32 n), w)
  | r :: w => (r, w)
  end.
#[export] Instance scripted_aio : AioApi (list outcome) := {|
  ReadFile := next; WriteFile := next; aio_osfhandle _ fd := fd; aio_calloc := ret true |}.
End ScriptedAio.
Import ScriptedAio.

Lemma task_done_queue_witness :
  hdr_ok (IoHeader 2 0 0 [no_io_event; no_io_event] 1) /\
  queue (wpdk_aio_task_done (IoTask 7 8) 512 (IoHeader 2 0 0 [no_io_event; no_io_event] 1)) =
    [IoEvent 7 8 512 0].
Proof.
  assert (hdr_ok (IoHeader 2 0 0 [no_io_event; no_io_event] 1)) as H by (split; cbn; lia).
  split; [done|]. exact (task_done_queue (IoTask 7 8) 512 _ H).
Defined.

Lemma getevents_fifo_witness :
  exists es hdr', wpdk_io_getevents 1
      (Some (wpdk_aio_task_done (IoTask 7 8) 512 (IoHeader 2 0 0 [no_io_event; no_io_event] 1))) = inr (es, hdr') /\
    es = [IoEvent 7 8 512 0] /\ queue hdr' = [].
Proof.
  destruct (getevents_fifo 1 (wpdk_aio_task_done (IoTask 7 8) 512 (IoHeader 2 0 0 [no_io_event; no_io_event] 1)))
    as (es & hdr' & E & -> & Hq & _).
  { split; vm_compute; auto; split; congruence. }
  exists (take (Z.to_nat 1) (queue (wpdk_aio_task_done (IoTask 7 8) 512 (IoHeader 2 0 0 [no_io_event; no_io_event] 1)))), hdr'.
  split; [exact E|]. split; [reflexivity|exact Hq].
Defined.

Lemma vectored_request_witness :
  let hdr := IoHeader 2 0 0 [no_io_event; no_io_event] 0 in
  aio_vectored next 5 (io_prep_preadv 8 5 100 [] 2 0) [Iovec 100 4; Iovec 200 4]
      (AioState 0 hdr [Transferred 4; Transferred 3]) =
    (Some 0, AioState 0 (wpdk_aio_task_done (IoTask 0 8) 7 (IoHeader 2 0 0 [no_io_event; no_io_event] 1)) []).
Proof.
  intros hdr.
  refine (proj1 (vectored_request next 5 (io_prep_preadv 8 5 100 [] 2 0) [Iovec 100 4; Iovec 200 4]
    0 hdr [Transferred 4; Transferred 3] [Transferred 4; Transferred 3] _ eq_refl _ _ _)).
  - intros h b l o [|[m| |e] w] n w' [= <- <-]; [lia|]. apply (uwrap_range 32). lia.
  - cbn; lia.
  - cbn; lia.
  - cbn; lia.
Defined.
End Aio.
