(* ===== verification/AioRace.v ===== *)
(** * AioRace: threads that submit to one asynchronous context (src/src/aio.c)

    Threads can submit requests to the same context at the same time.  The number of
    requests in flight is kept with compare-and-exchange ([wpdk_aio_increment_iocount]); the
    event ring is not protected at all ([wpdk_aio_task_done] has a comment that says so).  A
    thread here submits one request, one access to the shared header at a time: calloc can
    fail, and the transfer completes at once, fails, or is pending and completed later.  A
    schedule is the list of the threads that run; a turn of a request that is pending is
    its completion. *)

From S2P Require Import Prelude.

Module Export AioRace.

(** Where a thread is; a number is a value it has read. *)
Inductive apc :=
  | Calloc                     (* wpdk_aio_allocate *)
  | ReadCount                  (* [count = hdr->iocount] *)
  | SwapCount (count : nat)    (* the exchange *)
  | Refused                    (* EAGAIN *)
  | Transfer                   (* ReadFile or WriteFile *)
  | InProgress                 (* ERROR_IO_PENDING *)
  | ReadTail                   (* [next = &hdr->events[hdr->context.tail]] *)
  | WriteEvent (next : nat)
  | ReadTailAgain              (* [hdr->context.tail = (hdr->context.tail + 1) % size] *)
  | WriteTail (tail : nat)
  | Decrement                  (* wpdk_aio_free *)
  | Finished.

(** What becomes of a request. *)
Inductive fate := NoMemory | AtOnce | Later | Failing.

(** The shared header: [ring] holds the request whose event was written last, for each entry. *)
Record hdr_state := HdrState { h_size : nat; h_iocount : nat; h_tail : nat; h_ring : list (option nat); h_fates : list fate; h_threads : list apc }.

(** A step of thread [k]. *)
Definition hdr_step (s : hdr_state) (k : nat) : hdr_state :=
  let '(HdrState sz io tl rg fs ts) := s in
  match ts !! k with
  | None => s
  | Some pc =>
    let go pc' := HdrState sz io tl rg fs (<[k := pc']> ts) in
    match pc with
    | Calloc => go (match fs !! k with Some NoMemory => Refused | _ => ReadCount end)
    | ReadCount => go (if decide (sz <= io) then Refused else SwapCount io)
    | SwapCount c => if decide (io = c) then HdrState sz (S io) tl rg fs (<[k := Transfer]> ts) else go ReadCount
    | Transfer => go (match fs !! k with Some Failing => Decrement | Some Later => InProgress | _ => ReadTail end)
    | InProgress => go ReadTail
    | ReadTail => go (WriteEvent tl)
    | WriteEvent n => HdrState sz io tl (<[n := Some k]> rg) fs (<[k := ReadTailAgain]> ts)
    | ReadTailAgain => go (WriteTail tl)
    | WriteTail n => HdrState sz io ((n + 1) mod sz) rg fs (<[k := Decrement]> ts)
    | Decrement => HdrState sz (pred io) tl rg fs (<[k := Finished]> ts)
    | Refused | Finished => s
    end
  end.
Definition hdr_init (size : nat) (fates : list fate) : hdr_state :=
  HdrState size 0 0 (replicate size None) fates (replicate (length fates) Calloc).
Definition hdr_run (size : nat) (fates : list fate) (sched : list nat) : hdr_state := foldl hdr_step (hdr_init size fates) sched.

(** ** The count *)

(** A thread with a request in flight. *)
Definition in_flight (pc : apc) : nat :=
  match pc with Transfer | InProgress | ReadTail | WriteEvent _ | ReadTailAgain | WriteTail _ | Decrement => 1 | _ => 0 end.

Definition count_inv (s : hdr_state) : Prop :=
  h_iocount s = tally in_flight (h_threads s) /\ h_iocount s <= h_size s /\
  forall k c, h_threads s !! k = Some (SwapCount c) -> c < h_size s.

Lemma count_inv_moved sz io tl rg fs ts k pc pc' io' tl' rg' : count_inv (HdrState sz io tl rg fs ts) -> ts !! k = Some pc ->
  io' + in_flight pc = io + in_flight pc' -> io' <= sz -> (forall c, pc' = SwapCount c -> c < sz) ->
  count_inv (HdrState sz io' tl' rg' fs (<[k := pc']> ts)).
Proof.
  unfold count_inv. cbn [h_iocount h_size h_threads]. intros (H1 & H2 & H3) Hk Hio Hle Hpc. split_and!.
  - pose proof (tally_insert in_flight ts k pc pc' Hk). lia.
  - done.
  - intros j c Hj. apply list_lookup_insert_Some in Hj as [(_ & -> & _)|[_ Hj]]; [by apply Hpc|by eapply H3].
Qed.

Lemma hdr_step_inv s k : count_inv s -> count_inv (hdr_step s k).
Proof.
  intros I. destruct s as [sz io tl rg fs ts]. cbn [hdr_step]. destruct (ts !! k) as [pc|] eqn:Hk; [|done].
  pose proof I as (H1 & H2 & H3). cbn [h_iocount h_size h_threads] in *. specialize (H3 k).
  pose proof (tally_insert in_flight ts k pc Finished Hk) as Hf.
  destruct pc; repeat (case_decide || case_match); try done; (eapply count_inv_moved; [done..| | |]); cbn [in_flight] in *; try lia; try congruence.
  - intros c [= <-]. lia.
  - subst. specialize (H3 _ Hk). lia.
Qed.

Lemma hdr_run_inv size fates sched : count_inv (hdr_run size fates sched) /\ h_size (hdr_run size fates sched) = size.
Proof.
  assert (count_inv (hdr_init size fates)) as I.
  { unfold count_inv, hdr_init. cbn [h_iocount h_size h_threads]. split_and!; [by induction fates|lia|].
    intros k c Hk. by apply lookup_replicate in Hk as [? _]. }
  assert (h_size (hdr_init size fates) = size) as Hs by done. unfold hdr_run. revert I Hs. generalize (hdr_init size fates).
  induction sched as [|k sched IH]; intros s I Hs; [done|]. cbn [foldl]. apply IH; [by apply hdr_step_inv|].
  rewrite <- Hs. destruct s as [sz io tl rg fs ts]. cbn [hdr_step]. by repeat case_match.
Qed.

(** However threads submit to one context, the count is the number of requests in flight and never exceeds
    the size of the context; a thread is refused only when as many requests are in flight; and a thread whose
    exchange fails found the count changed by another. *)
Theorem iocount_exact (size : nat) (fates : list fate) (sched : list nat) (k : nat) :
  let s := hdr_run size fates sched in
  h_iocount s = tally in_flight (h_threads s) /\ h_iocount s <= size /\
  (h_threads s !! k = Some ReadCount -> h_threads (hdr_step s k) !! k = Some Refused -> tally in_flight (h_threads s) = size) /\
  (forall c, h_threads s !! k = Some (SwapCount c) -> h_threads (hdr_step s k) !! k = Some ReadCount -> h_iocount s <> c).
Proof.
  cbv zeta. destruct (hdr_run_inv size fates sched) as [(H1 & H2 & _) Hs]. rewrite Hs in H2. split_and!; [done|done| |];
    revert H1 H2 Hs; generalize (hdr_run size fates sched); intros [sz io tl rg fs ts]; cbn [h_iocount h_size h_threads hdr_step]; intros H1 H2 Hs.
  - intros Hk. rewrite Hk. pose proof (lookup_lt_Some _ _ _ Hk). cbn [h_threads]. rewrite list_lookup_insert_eq by done. case_decide; [lia|done].
  - intros c Hk. rewrite Hk. pose proof (lookup_lt_Some _ _ _ Hk). case_decide; [|done]. cbn [h_threads]. by rewrite list_lookup_insert_eq.
Qed.

(** ** The ring *)

(** Without a lock an event is lost: two threads complete their requests at the same time, both requests
    end, the tail moves over two entries, and the event of the first thread is in none of them. *)
Definition lost_sched : list nat := [0; 0; 0; 1; 1; 1; 0; 1; 0; 1; 0; 1; 0; 0; 1; 1; 0; 1].
Theorem ring_loses_event : let s := hdr_run 4 [AtOnce; AtOnce] lost_sched in
  h_threads s = [Finished; Finished] /\ h_iocount s = 0 /\ h_tail s = 2 /\ h_ring s = [Some 1; None; None; None].
Proof. vm_compute. done. Qed.

(** The first request is pending, the second finds the context full, the third has no memory. *)
Lemma iocount_exact_witness : let s := hdr_run 1 [Later; AtOnce; NoMemory] [0; 0; 0; 0; 1; 2] in
  h_threads s = [InProgress; ReadCount; Refused] /\ tally in_flight (h_threads s) = 1.
Proof.
  split; [reflexivity|]. apply (proj1 (proj2 (proj2 (iocount_exact 1 [Later; AtOnce; NoMemory] [0; 0; 0; 0; 1; 2] 1)))); reflexivity.
Defined.
End AioRace.
