(* ===== verification/Poll.v ===== *)
(** * Poll: poll and select on socket descriptors (src/src/poll.c, src/src/select.c)

    Both wrap the [select] of Winsock, whose sets hold handles, not descriptors.
    [fd_set] is the list of its members, at most [FD_SETSIZE]. *)

From S2P Require Import Prelude Errno CString PathMap Proc Sockets Epolls.

Module Export Poll.
Local Open Scope Z_scope.

Definition POLLRDNORM : Z := 0x100.
Definition POLLRDBAND : Z := 0x200.
Definition POLLIN : Z := Z.lor POLLRDNORM POLLRDBAND.
Definition POLLPRI : Z := 0x400.
Definition POLLOUT : Z := 0x10.
Definition POLLERR : Z := 1.
Definition POLLHUP : Z := 2.
Definition POLLNVAL : Z := 4.

Record pollfd := Pollfd { pfd_fd : Z; pfd_events : Z; pfd_revents : Z }.

(** [struct timeval] *)
Record timeval := Timeval { tv_sec : Z; tv_usec : Z }.

(** [FD_CLR] of Winsock: remove the member, if it is there. *)
Fixpoint FD_CLR (s : Z) (set : list Z) : list Z :=
  match set with
  | [] => []
  | x :: set => if x =? s then set else x :: FD_CLR s set
  end.

(** [select]: the read, write and exception sets and the timeout (seconds and
    microseconds, [None] is NULL); the result and the sets as it leaves them. *)
Class Select (W : Type) :=
  select : Z -> list Z -> list Z -> list Z -> option (Z * Z) -> C W (Z * list Z * list Z * list Z).

Section Ops.
Context {W : Type} `{!Winsock W, !Select W}.
Local Open Scope c_scope.
Local Abbreviation P := (C (proc W)).

(** The sets are returned as the caller finds them. *)
Definition wpdk_select (nfds : Z) (readfds writefds exceptfds : list Z) (timeout : option timeval)
    : P (Z * list Z * list Z * list Z) :=
  let delay := match timeout with
               | None => None
               | Some t => Some (if LONG_MAX <? tv_sec t then LONG_MAX else s32 (tv_sec t), tv_usec t)
               end in
  let* '(rc, r, w, x) := lift (select nfds readfds writefds exceptfds delay) in
  if rc =? SOCKET_ERROR then let* e := wpdk_last_wsa_error in ret (e, r, w, x)
  else ret (rc, r, w, x).

Definition wpdk_fd_zero (set : list Z) : list Z := [].

Definition wpdk_fd_set (fd : Z) (set : list Z) : P (list Z) :=
  let* s := wpdk_get_socket fd in
  ret (if s =? INVALID_SOCKET then set else FD_SET s set).

Definition wpdk_fd_clr (fd : Z) (set : list Z) : P (list Z) :=
  let* s := wpdk_get_socket fd in
  ret (if s =? INVALID_SOCKET then set else FD_CLR s set).

Definition wpdk_fd_isset (fd : Z) (set : list Z) : P bool :=
  let* s := wpdk_get_socket fd in
  ret (if s =? INVALID_SOCKET then false else FD_ISSET s set).

(** The three sets and [worktodo]. *)
Record poll_sets := PollSets { ps_read : list Z; ps_write : list Z; ps_except : list Z; ps_work : bool }.
Definition no_sets : poll_sets := PollSets [] [] [] false.

(** The body of the first loop for a socket. *)
Definition add_events (events s : Z) (ps : poll_sets) : poll_sets :=
  let ps := if Z.land events POLLIN =? 0 then ps
            else PollSets (FD_SET s (ps_read ps)) (ps_write ps) (ps_except ps) true in
  let ps := if Z.land events POLLOUT =? 0 then ps
            else PollSets (ps_read ps) (FD_SET s (ps_write ps)) (ps_except ps) true in
  if Z.land events POLLPRI =? 0 then ps
  else PollSets (ps_read ps) (ps_write ps) (FD_SET s (ps_except ps)) true.

(** The first loop. *)
Fixpoint poll_prepare (fds : list pollfd) (ps : poll_sets) : P (list pollfd * poll_sets) :=
  match fds with
  | [] => ret ([], ps)
  | f :: fds =>
      let entry r := Pollfd (pfd_fd f) (pfd_events f) r in
      let next r ps := let* '(fds, ps) := poll_prepare fds ps in ret (entry r :: fds, ps) in
      if pfd_fd f <? 0 then next 0 ps
      else
        let* s := wpdk_get_socket (pfd_fd f) in
        if s =? INVALID_SOCKET then next POLLNVAL ps
        else next 0 (add_events (pfd_events f) s ps)
  end.

(** The second loop, with the sets [select] left. *)
Definition add_revents (ps : poll_sets) (s r : Z) : Z :=
  let r := if FD_ISSET s (ps_read ps) then Z.lor r POLLIN else r in
  let r := if FD_ISSET s (ps_write ps) then Z.lor r POLLOUT else r in
  if FD_ISSET s (ps_except ps) then Z.lor r (Z.lor POLLERR (Z.lor POLLHUP POLLPRI)) else r.

Fixpoint poll_collect (fds : list pollfd) (ps : poll_sets) (n : Z) : P (list pollfd * Z) :=
  match fds with
  | [] => ret ([], n)
  | f :: fds =>
      let next f n := let* '(fds, n) := poll_collect fds ps n in ret (f :: fds, n) in
      if pfd_fd f <? 0 then next f n
      else
        let* s := wpdk_get_socket (pfd_fd f) in
        let r := if s =? INVALID_SOCKET then pfd_revents f else add_revents ps s (pfd_revents f) in
        next (Pollfd (pfd_fd f) (pfd_events f) r) (if r =? 0 then n else n + 1)
  end.

(** [None] is a null [fds]; the list holds the [nfds] entries.  The result, and
    the array as the call leaves it. *)
Definition wpdk_poll (fds : option (list pollfd)) (timeout : Z) : P (Z * list pollfd) :=
  match fds with
  | None => let* rc := wpdk_posix_error EINVAL in ret (rc, [])
  | Some fds =>
      let nfds := length fds in
      if (FD_SETSIZE <=? nfds)%nat then let* rc := wpdk_posix_error EINVAL in ret (rc, fds)
      else
        let delay := (Z.quot timeout 1000, Z.rem timeout 1000 * 1000) in
        let* '(fds, ps) := poll_prepare fds no_sets in
        let* '(rc, r, w, x) :=
          if ps_work ps
          then lift (select (Z.of_nat nfds) (ps_read ps) (ps_write ps) (ps_except ps)
                       (if timeout =? -1 then None else Some delay))
          else ret (0, ps_read ps, ps_write ps, ps_except ps) in
        if rc =? SOCKET_ERROR then let* e := wpdk_last_wsa_error in ret (e, fds)
        else
          let* '(fds, n) := poll_collect fds (PollSets r w x (ps_work ps)) 0 in
          ret (n, fds)
  end.
End Ops.

(** ** Sets of handles *)

Lemma elem_of_FD_SET a s l : (length l < FD_SETSIZE)%nat -> a ∈ FD_SET s l <-> a = s \/ a ∈ l.
Proof.
  intros Hl. unfold FD_SET. case_bool_decide as E; [split; [auto|by intros [->|]]|].
  rewrite (proj2 (Nat.ltb_lt _ _) Hl), elem_of_app, list_elem_of_singleton. tauto.
Qed.

Lemma length_FD_SET s l : (length (FD_SET s l) <= S (length l))%nat.
Proof. unfold FD_SET. case_bool_decide; [lia|]. split_if; [|lia]. rewrite length_app. simpl. lia. Qed.

Lemma NoDup_FD_SET s l : NoDup l -> NoDup (FD_SET s l).
Proof.
  intros H. unfold FD_SET. case_bool_decide as E; [done|]. split_if; [|done].
  apply NoDup_app. split_and!; [done|set_solver|apply NoDup_singleton].
Qed.

Lemma elem_of_FD_CLR a s l : NoDup l -> a ∈ FD_CLR s l <-> a <> s /\ a ∈ l.
Proof.
  induction 1 as [|x l Hx Hl IH]; cbn [FD_CLR]; [set_solver|].
  destruct (Z.eqb_spec x s) as [->|]; [set_solver|]. rewrite !elem_of_cons, IH.
  split; [|tauto]. intros [->|[? ?]]; auto.
Qed.

Section Props.
Context {W : Type} `{!Winsock W, !Select W}.
Local Abbreviation P := (C (proc W)).

(** Only errno, and what Windows keeps, may differ. *)
Definition same_fds (p q : proc W) : Prop := pr_fds q = pr_fds p /\ world q = world p.
#[local] Instance same_fds_preorder : PreOrder same_fds.
Proof. split; [done|intros p q r [? ?] [? ?]; split; congruence]. Qed.

Lemma poll_get_socket fd (p : proc W) :
  exists q, wpdk_get_socket fd p = (handle_of p fd, q) /\ same_fds p q.
Proof.
  unfold handle_of, wpdk_get_socket, bind, gets. cbv zeta.
  destruct (_ =? INVALID_SOCKET); eexists; split; try done; by destruct p.
Qed.

Lemma handle_of_same_fds (p q : proc W) fd : same_fds p q -> handle_of q fd = handle_of p fd.
Proof. intros [E _]. by apply handle_of_same. Qed.

(** What the entry names: a socket's handle, or nothing. *)
Definition entry_socket (p : proc W) (f : pollfd) : option Z :=
  if pfd_fd f <? 0 then None
  else if handle_of p (pfd_fd f) =? INVALID_SOCKET then None else Some (handle_of p (pfd_fd f)).

Definition prepared (p : proc W) (f : pollfd) : pollfd :=
  Pollfd (pfd_fd f) (pfd_events f)
    (match entry_socket p f with None => if pfd_fd f <? 0 then 0 else POLLNVAL | Some _ => 0 end).
Definition sets_of (p : proc W) (fds : list pollfd) (ps : poll_sets) : poll_sets :=
  foldl (fun ps f => match entry_socket p f with None => ps | Some s => add_events (pfd_events f) s ps end)
    ps fds.

Lemma entry_socket_same p q f : same_fds p q -> entry_socket q f = entry_socket p f.
Proof. intros H. unfold entry_socket. by rewrite (handle_of_same_fds p q). Qed.

Lemma prepare_run fds : forall ps (p : proc W), exists q,
  poll_prepare fds ps p = ((map (prepared p) fds, sets_of p fds ps), q) /\ same_fds p q.
Proof.
  induction fds as [|f fds IH]; intros ps p; [by exists p|].
  cbn [poll_prepare map sets_of foldl]. unfold prepared at 1.
  assert (forall q, same_fds p q -> map (prepared q) fds = map (prepared p) fds /\
      forall ps, sets_of q fds ps = sets_of p fds ps) as Hq.
  { intros q H. split; [apply map_ext; intros g; unfold prepared; by rewrite (entry_socket_same p q)|].
    clear -H. induction fds as [|g fds IH]; intros ps; [done|]. cbn.
    rewrite (entry_socket_same p q) by done. apply IH. }
  pose proof (eq_refl (entry_socket p f)) as Ef. unfold entry_socket at 2 in Ef.
  destruct (Z.ltb_spec (pfd_fd f) 0).
  { rewrite !Ef. destruct (IH ps p) as (q & E & Hs). exists q. rewrite bind_run, E. done. }
  destruct (poll_get_socket (pfd_fd f) p) as (p1 & E1 & H1). rewrite bind_run, E1. cbn [fst snd].
  destruct (Hq p1 H1) as [Em Es].
  destruct (Z.eqb_spec (handle_of p (pfd_fd f)) INVALID_SOCKET); rewrite !Ef;
    [destruct (IH ps p1) as (q & E & Hs)
    |destruct (IH (add_events (pfd_events f) (handle_of p (pfd_fd f)) ps) p1) as (q & E & Hs)];
    exists q; rewrite bind_run, E, Em, Es; (split; [done|by transitivity p1]).
Qed.

(** The entry as the second loop leaves it. *)
Definition reported (p : proc W) (ps : poll_sets) (f : pollfd) : pollfd :=
  Pollfd (pfd_fd f) (pfd_events f)
    (match entry_socket p f with
     | None => if pfd_fd f <? 0 then 0 else POLLNVAL
     | Some s => add_revents ps s 0
     end).
Definition nonzero (fds : list pollfd) : Z :=
  Z.of_nat (length (filter (fun f => pfd_revents f <> 0) fds)).

Lemma nonzero_cons f fds :
  nonzero (f :: fds) = (if pfd_revents f =? 0 then 0 else 1) + nonzero fds.
Proof. unfold nonzero. rewrite filter_cons. destruct (Z.eqb_spec (pfd_revents f) 0); case_decide; cbn [length]; lia. Qed.

Lemma collect_run fds ps p0 : forall n (p : proc W), same_fds p0 p -> exists q,
  poll_collect (map (prepared p0) fds) ps n p =
    ((map (reported p0 ps) fds, n + nonzero (map (reported p0 ps) fds)), q) /\ same_fds p0 q.
Proof.
  induction fds as [|f fds IH]; intros n p Hp; [exists p; cbn; by rewrite Z.add_0_r|].
  cbn [map]. rewrite nonzero_cons.
  remember (prepared p0 f) as g eqn:Eg. remember (reported p0 ps f) as h eqn:Eh.
  unfold prepared in Eg. unfold reported in Eh. unfold entry_socket in Eg, Eh.
  assert (pfd_fd g = pfd_fd f) as Efd by (by rewrite Eg). cbn [poll_collect]. rewrite Efd.
  destruct (Z.ltb_spec (pfd_fd f) 0).
  { destruct (IH n p Hp) as (q & E & Hs). exists q. rewrite bind_run, E. subst g h. done. }
  destruct (poll_get_socket (pfd_fd f) p) as (p1 & E1 & H1). rewrite bind_run, E1. cbn [fst snd].
  rewrite (handle_of_same_fds p0 p) by done.
  assert (same_fds p0 p1) as H2 by (by transitivity p).
  destruct (Z.eqb_spec (handle_of p0 (pfd_fd f)) INVALID_SOCKET);
    subst g h; cbn [pfd_fd pfd_events pfd_revents].
  - destruct (IH (n + 1) p1 H2) as (q & E & Hs). exists q. split; [|done].
    cbn [Z.eqb POLLNVAL]. rewrite bind_run, E. cbn [fst snd]. unfold ret. do 2 f_equal. lia.
  - set (r := add_revents ps (handle_of p0 (pfd_fd f)) 0).
    destruct (IH (if r =? 0 then n else n + 1) p1 H2) as (q & E & Hs). exists q. split; [|done].
    rewrite bind_run, E. cbn [fst snd]. unfold ret. do 2 f_equal. destruct (r =? 0); lia.
Qed.

(** Some entry asks for one of the bits on this handle. *)
Definition asked (p : proc W) (bits : Z) (fds : list pollfd) (s : Z) : Prop :=
  exists f, f ∈ fds /\ entry_socket p f = Some s /\ Z.land (pfd_events f) bits <> 0.

Lemma add_events_spec e s ps :
  (length (ps_read ps) < FD_SETSIZE)%nat -> (length (ps_write ps) < FD_SETSIZE)%nat ->
  (length (ps_except ps) < FD_SETSIZE)%nat -> forall a,
  (a ∈ ps_read (add_events e s ps) <-> (a = s /\ Z.land e POLLIN <> 0) \/ a ∈ ps_read ps) /\
  (a ∈ ps_write (add_events e s ps) <-> (a = s /\ Z.land e POLLOUT <> 0) \/ a ∈ ps_write ps) /\
  (a ∈ ps_except (add_events e s ps) <-> (a = s /\ Z.land e POLLPRI <> 0) \/ a ∈ ps_except ps).
Proof.
  intros Hr Hw Hx a. unfold add_events.
  destruct (Z.eqb_spec (Z.land e POLLIN) 0), (Z.eqb_spec (Z.land e POLLOUT) 0), (Z.eqb_spec (Z.land e POLLPRI) 0);
    cbn [ps_read ps_write ps_except]; rewrite ?elem_of_FD_SET by done; tauto.
Qed.

Lemma add_events_length e s ps n :
  (length (ps_read ps) <= n -> length (ps_write ps) <= n -> length (ps_except ps) <= n ->
   length (ps_read (add_events e s ps)) <= S n /\ length (ps_write (add_events e s ps)) <= S n /\
   length (ps_except (add_events e s ps)) <= S n)%nat.
Proof.
  intros Hr Hw Hx. unfold add_events.
  pose proof (length_FD_SET s (ps_read ps)). pose proof (length_FD_SET s (ps_write ps)).
  pose proof (length_FD_SET s (ps_except ps)). repeat split_if; cbn [ps_read ps_write ps_except]; lia.
Qed.

Lemma asked_cons p bits f fds a :
  asked p bits (f :: fds) a <->
  (entry_socket p f = Some a /\ Z.land (pfd_events f) bits <> 0) \/ asked p bits fds a.
Proof.
  unfold asked. split.
  - intros (g & [->|Hg]%elem_of_cons & H); [by left|right; eauto].
  - intros [H|(g & Hg & H)]; [exists f|exists g]; (split; [|done]); apply elem_of_cons; auto.
Qed.

(** The sets hold exactly what was asked for: with fewer than [FD_SETSIZE]
    entries no handle is dropped. *)
Lemma sets_of_spec p fds : forall ps n,
  (length (ps_read ps) <= n -> length (ps_write ps) <= n -> length (ps_except ps) <= n ->
   n + length fds < FD_SETSIZE)%nat -> forall a,
  (length (ps_read ps) <= n)%nat -> (length (ps_write ps) <= n)%nat -> (length (ps_except ps) <= n)%nat ->
  (a ∈ ps_read (sets_of p fds ps) <-> asked p POLLIN fds a \/ a ∈ ps_read ps) /\
  (a ∈ ps_write (sets_of p fds ps) <-> asked p POLLOUT fds a \/ a ∈ ps_write ps) /\
  (a ∈ ps_except (sets_of p fds ps) <-> asked p POLLPRI fds a \/ a ∈ ps_except ps).
Proof.
  induction fds as [|f fds IH]; intros ps n Hn a Hr Hw Hx.
  { assert (forall bits, asked p bits [] a <-> False) as Hf by (intros; split; [intros (f & H%not_elem_of_nil & _); done|done]).
    rewrite !Hf. cbn. clear. tauto. }
  cbn [sets_of foldl]. specialize (Hn Hr Hw Hx). cbn [length] in Hn. rewrite !asked_cons.
  destruct (entry_socket p f) as [s|] eqn:Ef.
  - destruct (add_events_length (pfd_events f) s ps n Hr Hw Hx) as (Hr' & Hw' & Hx').
    destruct (IH (add_events (pfd_events f) s ps) (S n) ltac:(lia) a Hr' Hw' Hx') as (H1 & H2 & H3).
    destruct (add_events_spec (pfd_events f) s ps ltac:(lia) ltac:(lia) ltac:(lia) a) as (E1 & E2 & E3).
    unfold sets_of in H1, H2, H3. rewrite H1, H2, H3, E1, E2, E3.
    assert (Some s = Some a <-> a = s) as -> by (split; [by intros [= ->]|by intros ->]). clear. tauto.
  - destruct (IH ps n ltac:(lia) a Hr Hw Hx) as (H1 & H2 & H3).
    unfold sets_of in H1, H2, H3. rewrite H1, H2, H3.
    assert (None = Some a <-> False) as -> by (split; done). clear. tauto.
Qed.

Lemma no_sets_spec p fds a :
  (length fds < FD_SETSIZE)%nat ->
  (a ∈ ps_read (sets_of p fds no_sets) <-> asked p POLLIN fds a) /\
  (a ∈ ps_write (sets_of p fds no_sets) <-> asked p POLLOUT fds a) /\
  (a ∈ ps_except (sets_of p fds no_sets) <-> asked p POLLPRI fds a).
Proof.
  intros Hl. destruct (sets_of_spec p fds no_sets 0 ltac:(lia) a ltac:(done) ltac:(done) ltac:(done))
    as (H1 & H2 & H3). rewrite H1, H2, H3. cbn.
  pose proof (not_elem_of_nil a) as Hn. clear -Hn. tauto.
Qed.

(** What an entry reports, given the handles [select] found ready. *)
Definition entry_report (p : proc W) (r w x : list Z) (f f' : pollfd) : Prop :=
  pfd_fd f' = pfd_fd f /\ pfd_events f' = pfd_events f /\
  match entry_socket p f with
  | None => pfd_revents f' = if pfd_fd f <? 0 then 0 else POLLNVAL
  | Some s => forall i, 0 <= i -> Z.testbit (pfd_revents f') i =
      (bool_decide (s ∈ r) && Z.testbit POLLIN i) || (bool_decide (s ∈ w) && Z.testbit POLLOUT i) ||
      (bool_decide (s ∈ x) && Z.testbit (Z.lor POLLERR (Z.lor POLLHUP POLLPRI)) i)
  end.

Lemma reported_report p ps f :
  entry_report p (ps_read ps) (ps_write ps) (ps_except ps) f (reported p ps f).
Proof.
  unfold entry_report, reported. cbn [pfd_fd pfd_events pfd_revents]. split_and!; [done..|].
  destruct (entry_socket p f) as [s|]; [|done]. intros i Hi. unfold add_revents, FD_ISSET.
  destruct (bool_decide (s ∈ ps_read ps)), (bool_decide (s ∈ ps_write ps)), (bool_decide (s ∈ ps_except ps));
    rewrite ?Z.lor_spec, ?Z.bits_0; cbn [andb orb]; rewrite ?orb_false_r; done.
Qed.

(** There is something to wait for exactly when a set has a member. *)
Lemma add_events_work e s ps : (ps_work ps = true <-> ps_read ps ++ ps_write ps ++ ps_except ps <> []) ->
  (length (ps_read ps) < FD_SETSIZE)%nat -> (length (ps_write ps) < FD_SETSIZE)%nat -> (length (ps_except ps) < FD_SETSIZE)%nat ->
  let ps' := add_events e s ps in ps_work ps' = true <-> ps_read ps' ++ ps_write ps' ++ ps_except ps' <> [].
Proof.
  intros H Hr Hw Hx. assert (forall l, (length l < FD_SETSIZE)%nat -> FD_SET s l <> []) as Hne.
  { intros l Hl E. apply (not_elem_of_nil s). rewrite <- E. apply elem_of_FD_SET; auto. }
  pose proof (Hne _ Hr). pose proof (Hne _ Hw). pose proof (Hne _ Hx).
  unfold add_events. repeat split_if; cbn [ps_read ps_write ps_except ps_work]; try done; (split; [intros _|done]); intros Enil;
    repeat (apply app_eq_nil in Enil as [? Enil]); done.
Qed.
Lemma sets_of_work p fds : forall ps n, (ps_work ps = true <-> ps_read ps ++ ps_write ps ++ ps_except ps <> []) ->
  (length (ps_read ps) <= n)%nat -> (length (ps_write ps) <= n)%nat -> (length (ps_except ps) <= n)%nat -> (n + length fds < FD_SETSIZE)%nat ->
  let ps' := sets_of p fds ps in ps_work ps' = true <-> ps_read ps' ++ ps_write ps' ++ ps_except ps' <> [].
Proof.
  induction fds as [|f fds IH]; intros ps n H Hr Hw Hx Hn; [done|]. cbn [sets_of foldl length] in *. destruct (entry_socket p f) as [s|].
  - destruct (add_events_length (pfd_events f) s ps n Hr Hw Hx) as (Hr' & Hw' & Hx').
    apply (IH _ (S n)); try done; [apply add_events_work; done || lia|lia].
  - apply (IH _ n); try done. lia.
Qed.

(** What [select] answers for these sets, when there is something to wait for. *)
Definition ask_select (n timeout : Z) (R Wr X : list Z) (st : W) : Z * list Z * list Z * list Z * W :=
  if bool_decide (R ++ Wr ++ X = []) then (0, [], [], [], st)
  else select n R Wr X (if timeout =? -1 then None else Some (Z.quot timeout 1000, Z.rem timeout 1000 * 1000)) st.

(** C21: [poll] of fewer than [FD_SETSIZE] entries asks [select] once (not at all when there is nothing to
    wait for) for exactly the handles on which entries ask for POLLIN, POLLOUT and POLLPRI, with the timeout in
    seconds and microseconds or without one for -1.  When [select] fails, [poll] fails with its error; otherwise it returns the
    number of entries with something to report: an entry with a negative descriptor reports nothing, one that is no
    socket POLLNVAL, and one that names a socket the events of the sets [select] left its handle in;
    descriptors and requests are unchanged, as are the sockets. *)
Theorem poll_reports (fds : list pollfd) (timeout : Z) (p : proc W) :
  (length fds < FD_SETSIZE)%nat ->
  exists R Wr X,
    (forall s, (s ∈ R <-> asked p POLLIN fds s) /\ (s ∈ Wr <-> asked p POLLOUT fds s) /\ (s ∈ X <-> asked p POLLPRI fds s)) /\
    let '(rc, r, w, x, st) := ask_select (Z.of_nat (length fds)) timeout R Wr X (world p) in
    let '((n, fds'), q) := wpdk_poll (Some fds) timeout p in
    pr_fds q = pr_fds p /\ world q = st /\
    if rc =? SOCKET_ERROR then n = -1 /\ errno q = wpdk_convert_to_posix (WSAGetLastError q)
    else n = nonzero fds' /\ Forall2 (entry_report p r w x) fds fds'.
Proof.
  intros Hl. destruct (prepare_run fds no_sets p) as (p1 & E1 & H1). set (ps := sets_of p fds no_sets) in *.
  exists (ps_read ps), (ps_write ps), (ps_except ps). split; [intros s; by apply no_sets_spec|].
  pose proof (sets_of_work p fds no_sets 0 ltac:(split; done) ltac:(done) ltac:(done) ltac:(done) ltac:(lia)) as Hwork. cbv zeta in Hwork. fold ps in Hwork.
  unfold wpdk_poll. rewrite (proj2 (Nat.leb_gt _ _) Hl). cbv zeta. rewrite bind_run, E1. cbn [fst snd]. rewrite bind_run.
  assert ((if ps_work ps then lift (select (Z.of_nat (length fds)) (ps_read ps) (ps_write ps) (ps_except ps)
             (if timeout =? -1 then None else Some (Z.quot timeout 1000, Z.rem timeout 1000 * 1000)))
           else ret (0, ps_read ps, ps_write ps, ps_except ps)) p1 =
    let '(rc, r, w, x, st) := ask_select (Z.of_nat (length fds)) timeout (ps_read ps) (ps_write ps) (ps_except ps) (world p) in
    ((rc, r, w, x), Proc (pr_errno p1) (pr_ready p1) (pr_fds p1) (pr_addr p1) (pr_epolls p1) (pr_paths p1) st)) as ->.
  { unfold ask_select. destruct (ps_work ps).
    - rewrite bool_decide_eq_false_2 by (by apply Hwork). rewrite lift_run, (proj2 H1). by destruct (select _ _ _ _ _ (world p)) as [[[[rc r] w] x] st].
    - assert (ps_read ps ++ ps_write ps ++ ps_except ps = []) as E0.
      { destruct (decide (ps_read ps ++ ps_write ps ++ ps_except ps = [])) as [|Hn]; [done|]. by apply Hwork in Hn. }
      rewrite bool_decide_eq_true_2 by done. repeat (apply app_eq_nil in E0 as [-> E0]). rewrite E0, <- (proj2 H1). by destruct p1. }
  destruct (ask_select _ _ _ _ _ _) as [[[[rc r] w] x] st]. cbn [fst snd]. set (p2 := Proc _ _ _ _ _ _ _).
  assert (pr_fds p2 = pr_fds p) as H2 by (apply (proj1 H1)).
  destruct (Z.eqb_spec rc SOCKET_ERROR) as [Er|Er]; [rewrite bind_run; done|].
  rewrite bind_run. destruct (collect_run fds (PollSets r w x (ps_work ps)) p2 0 p2) as (q & E & Hq); [done|].
  assert (map (prepared p2) fds = map (prepared p) fds) as Hm.
  { apply map_ext. intros f. unfold prepared, entry_socket. by rewrite (handle_of_same p2 p). }
  rewrite <- Hm, E. cbn. split; [by rewrite (proj1 Hq), H2|]. split; [by rewrite (proj2 Hq)|].
  split; [by rewrite Z.add_0_l|]. apply Forall2_fmap_r, Forall_Forall2_diag, Forall_true. intros f.
  pose proof (reported_report p2 (PollSets r w x (ps_work ps)) f) as H.
  unfold entry_report, entry_socket in *. by rewrite (handle_of_same p2 p) in H.
Qed.

(** Distinct descriptors name distinct handles. *)
Lemma handle_of_inj `{!WinsockLaws W} (p : proc W) fd fd' :
  sock_inv p -> handle_of p fd = handle_of p fd' -> handle_of p fd <> INVALID_SOCKET -> fd = fd'.
Proof.
  intros [_ Hi]. destruct (pr_fds p) as [l|] eqn:El.
  - specialize (Hi l eq_refl) as [Hlen _ Hinj]. rewrite !(handle_of_eq p _ l) by done.
    destruct (wpdk_is_socket fd) eqn:E1, (wpdk_is_socket fd') eqn:E2; try congruence.
    intros E Hne. apply slot_inj; [done..|].
    assert (forall g, wpdk_is_socket g = true -> l !! slot g = Some (fd_at l (slot g))) as Hlk.
    { intros g Hg. unfold fd_at. rewrite nth_lookup.
      destruct (lookup_lt_is_Some_2 l (slot g)) as [x ->]; [|done].
      rewrite Hlen. unfold wpdk_is_socket, slot in *. bool_prop. lia. }
    eapply Hinj; eauto.
  - unfold handle_of, wpdk_get_socket, bind, gets. rewrite El. cbn. done.
Qed.

(** On the descriptors of sockets the macros of sys/select.h are a set: FD_SET
    adds its descriptor and no other, FD_CLR removes it and no other, FD_ISSET
    tells the members, until FD_SETSIZE of them are in the set. *)
Theorem fd_set_is_a_set `{!WinsockLaws W} (p : proc W) (fd fd' : Z) (set : list Z) :
  sock_inv p -> NoDup set -> (length set < FD_SETSIZE)%nat ->
  handle_of p fd <> INVALID_SOCKET -> handle_of p fd' <> INVALID_SOCKET ->
  let isset g set := fst (wpdk_fd_isset g set p) in
  let added := fst (wpdk_fd_set fd set p) in
  let cleared := fst (wpdk_fd_clr fd set p) in
  isset fd' added = bool_decide (fd' = fd) || isset fd' set /\
  isset fd' cleared = negb (bool_decide (fd' = fd)) && isset fd' set /\
  NoDup added /\ NoDup cleared.
Proof.
  intros Hp Hset Hlen Hfd Hfd'.
  assert (forall g s, handle_of p g <> INVALID_SOCKET ->
    fst (wpdk_fd_isset g s p) = bool_decide (handle_of p g ∈ s) /\
    fst (wpdk_fd_set g s p) = FD_SET (handle_of p g) s /\
    fst (wpdk_fd_clr g s p) = FD_CLR (handle_of p g) s) as Hrun.
  { intros g s Hg. unfold wpdk_fd_isset, wpdk_fd_set, wpdk_fd_clr. rewrite !bind_run.
    destruct (poll_get_socket g p) as (q & -> & _). cbn. by rewrite (proj2 (Z.eqb_neq _ _) Hg). }
  cbv beta zeta. destruct (Hrun fd set Hfd) as (_ & -> & ->).
  rewrite !(fun s => proj1 (Hrun fd' s Hfd')).

  assert (handle_of p fd' = handle_of p fd <-> fd' = fd) as Heq.
  { split; [|congruence]. intros E. by apply (handle_of_inj p). }
  split_and!.
  - rewrite <- bool_decide_or. apply bool_decide_ext. by rewrite elem_of_FD_SET, Heq.
  - rewrite <- bool_decide_not, <- bool_decide_and. apply bool_decide_ext.
    by rewrite elem_of_FD_CLR, Heq.
  - by apply NoDup_FD_SET.
  - clear -Hset. induction Hset as [|x l Hx Hl IH]; cbn [FD_CLR]; [constructor|].
    split_if; [done|]. constructor; [|done]. rewrite elem_of_FD_CLR by done. tauto.
Qed.
End Props.

Section Witnesses.
Import SimpleWinsock.
(** Every socket is ready. *)
#[local] Instance simple_select : Select w := fun _ r wr x _ => ok (Z.of_nat (length (r ++ wr ++ x)), r, wr, x).
Lemma poll_reports_witness :
  let fds := [Pollfd 0x10000 POLLIN 0; Pollfd (-1) POLLIN 9; Pollfd 3 POLLIN 0; Pollfd 0x10001 POLLOUT 0] in
  (length fds < FD_SETSIZE)%nat /\
  fst (wpdk_poll (Some fds) 5 two_sockets) =
    (3, [Pollfd 0x10000 POLLIN POLLIN; Pollfd (-1) POLLIN 0; Pollfd 3 POLLIN POLLNVAL; Pollfd 0x10001 POLLOUT POLLOUT]) /\
  pr_fds (snd (wpdk_poll (Some fds) 5 two_sockets)) = pr_fds two_sockets.
Proof.
  intros fds. assert (length fds < FD_SETSIZE)%nat as H by (vm_compute; lia).
  split; [exact H|]. split; [vm_compute; reflexivity|].
  destruct (poll_reports fds 5 two_sockets H) as (R & Wr & X & _ & Hr).
  destruct (ask_select _ _ _ _ _ _) as [[[[rc r] w] x] st]. destruct (wpdk_poll (Some fds) 5 two_sockets) as [[n fds'] q]. apply Hr.
Defined.

Lemma fd_set_is_a_set_witness :
  fst (wpdk_fd_isset 0x10001 (fst (wpdk_fd_set 0x10000 [] two_sockets)) two_sockets) = false.
Proof.
  pose proof (fd_set_is_a_set two_sockets 0x10000 0x10001 [] two_sockets_inv) as H.
  exact (proj1 (H ltac:(constructor) ltac:(vm_compute; lia) ltac:(vm_compute; discriminate) ltac:(vm_compute; discriminate))).
Defined.
End Witnesses.
End Poll.
