(* ===== verification/Uuid.v ===== *)
(** * Uuid: universally unique identifiers (src/src/uuid.c, src/inc/uuid/uuid.h)

    A [uuid_t] is sixteen bytes; the Windows structure [UUID] has the same data
    as three integers and eight bytes.  The byte order of the integers depends on
    the variant: variant 2 is little endian. *)

From S2P Require Import Prelude Errno CString.
From Stdlib Require Import Ascii.

Module Export Uuid.
Local Open Scope Z_scope.

Abbreviation uuid_t := (list Z) (only parsing).

Record UUID := Uuid_ { Data1 : Z; Data2 : Z; Data3 : Z; Data4 : list Z }.

Definition byte_at (cp : list Z) (i : nat) : Z := nth i cp 0.

(** The bytes stored at [cp], in order. *)
Definition put_uint32 (v : Z) (little_endian : bool) : list Z :=
  if little_endian
  then [u8 v; u8 (Z.shiftr v 8); u8 (Z.shiftr v 16); u8 (Z.shiftr v 24)]
  else [u8 (Z.shiftr v 24); u8 (Z.shiftr v 16); u8 (Z.shiftr v 8); u8 v].

Definition put_uint16 (v : Z) (little_endian : bool) : list Z :=
  if little_endian then [u8 v; u8 (Z.shiftr v 8)] else [u8 (Z.shiftr v 8); u8 v].

Definition get_uint32 (cp : list Z) (little_endian : bool) : Z :=
  if little_endian
  then Z.lor (Z.lor (Z.lor (u32 (Z.shiftl (byte_at cp 3) 24)) (u32 (Z.shiftl (byte_at cp 2) 16)))
                (u32 (Z.shiftl (byte_at cp 1) 8))) (byte_at cp 0)
  else Z.lor (Z.lor (Z.lor (u32 (Z.shiftl (byte_at cp 0) 24)) (u32 (Z.shiftl (byte_at cp 1) 16)))
                (u32 (Z.shiftl (byte_at cp 2) 8))) (byte_at cp 3).

Definition get_uint16 (cp : list Z) (little_endian : bool) : Z :=
  u16 (if little_endian then Z.lor (Z.shiftl (byte_at cp 1) 8) (byte_at cp 0)
       else Z.lor (Z.shiftl (byte_at cp 0) 8) (byte_at cp 1)).

Definition is_little_endian (v : Z) : bool := Z.land v 0xe0 =? 0xc0.

Definition uuid_to_bytes (src : UUID) : uuid_t :=
  let little_endian := is_little_endian (byte_at (Data4 src) 0) in
  put_uint32 (Data1 src) little_endian ++ put_uint16 (Data2 src) little_endian ++
  put_uint16 (Data3 src) little_endian ++ Data4 src.

Definition bytes_to_uuid (src : uuid_t) : UUID :=
  let little_endian := is_little_endian (byte_at src 8) in
  Uuid_ (get_uint32 src little_endian) (get_uint16 (drop 4 src) little_endian)
    (get_uint16 (drop 6 src) little_endian) (take 8 (drop 8 src)).

Definition wpdk_uuid_clear : uuid_t := replicate 16 0.
Definition wpdk_uuid_copy (src : uuid_t) : uuid_t := take 16 src.

(** The loop returns 0 at the first byte that is not zero. *)
Definition wpdk_uuid_is_null (uu : uuid_t) : bool := forallb (fun b => b =? 0) (take 16 uu).

Definition RPC_S_OK : Z := 0.
Definition RPC_S_UUID_LOCAL_ONLY : Z := 1824.

(** [rc] and [id] are what [UuidCreate] returns; [None] is the fatal error. *)
Definition wpdk_uuid_generate (rc : Z) (id : UUID) : option uuid_t :=
  if negb (rc =? RPC_S_OK) && negb (rc =? RPC_S_UUID_LOCAL_ONLY) then None
  else Some (uuid_to_bytes id).

(** [memcmp], by its sign. *)
Fixpoint memcmp (a b : list Z) : Z :=
  match a, b with
  | x :: a, y :: b => if x =? y then memcmp a b else if x <? y then -1 else 1
  | _, _ => 0
  end.

Definition wpdk_uuid_compare (uu1 uu2 : uuid_t) : Z :=
  let id1 := bytes_to_uuid uu1 in
  let id2 := bytes_to_uuid uu2 in
  if negb (Data1 id1 =? Data1 id2) then (if Data1 id1 <? Data1 id2 then -1 else 1)
  else if negb (Data2 id1 =? Data2 id2) then (if Data2 id1 <? Data2 id2 then -1 else 1)
  else if negb (Data3 id1 =? Data3 id2) then (if Data3 id1 <? Data3 id2 then -1 else 1)
  else memcmp (Data4 id1) (Data4 id2).

(** The conversion of [sprintf]: [width] hexadecimal digits, zero-padded, of a
    value that has no more. *)
Definition hex_digit (upper : bool) (d : Z) : ascii :=
  if d <? 10 then ascii_of_nat (Z.to_nat (48 + d))
  else ascii_of_nat (Z.to_nat ((if upper then 55 else 87) + d)).
Fixpoint hex (upper : bool) (width : nat) (v : Z) : cstr :=
  match width with
  | O => []
  | S width => hex upper width (v / 16) ++ [hex_digit upper (v mod 16)]
  end.

(** [XXXX] and [xxxx] on two bytes. *)
Definition hex_pair (upper : bool) (d : list Z) (i : nat) : cstr :=
  hex upper 2 (byte_at d i) ++ hex upper 2 (byte_at d (S i)).

Definition dash : cstr := lit "-".
Definition unparse_format (upper : bool) (u : UUID) : cstr :=
  hex upper 8 (Data1 u) ++ dash ++ hex upper 4 (Data2 u) ++ dash ++ hex upper 4 (Data3 u) ++ dash ++
  hex_pair upper (Data4 u) 0 ++ dash ++ hex_pair upper (Data4 u) 2 ++ hex_pair upper (Data4 u) 4 ++
  hex_pair upper (Data4 u) 6.

Definition wpdk_uuid_unparse_upper (uu : uuid_t) : cstr := unparse_format true (bytes_to_uuid uu).
Definition wpdk_uuid_unparse_lower (uu : uuid_t) : cstr := unparse_format false (bytes_to_uuid uu).
Definition wpdk_uuid_unparse (uu : uuid_t) : cstr := wpdk_uuid_unparse_upper uu.

(** [UuidFromString] of the RPC runtime: the structure when it returns
    [RPC_S_OK].  It is documented to convert the string form in either case. *)
Class UuidRuntime := UuidFromString : cstr -> option UUID.

(** The result and the bytes stored. *)
Definition wpdk_uuid_parse `{!UuidRuntime} (str : cstr) (uu : uuid_t) : Z * uuid_t :=
  match UuidFromString str with
  | Some id => (0, uuid_to_bytes id)
  | None => (-1, uu)
  end.

(** ** Byte order *)

Definition is_byte (b : Z) : Prop := 0 <= b < 256.
Definition wf_bytes (uu : uuid_t) : Prop := length uu = 16%nat /\ Forall is_byte uu.
Record wf_uuid (u : UUID) : Prop := {
  wf_1 : 0 <= Data1 u < 2 ^ 32; wf_2 : 0 <= Data2 u < 2 ^ 16; wf_3 : 0 <= Data3 u < 2 ^ 16;
  wf_4 : length (Data4 u) = 8%nat; wf_4b : Forall is_byte (Data4 u)
}.

Lemma lor_add x y k : 0 <= k -> 0 <= y < 2 ^ k -> Z.lor (x * 2 ^ k) y = x * 2 ^ k + y.
Proof.
  intros Hk Hy. assert (Z.land (x * 2 ^ k) y = 0) as H0.
  { rewrite <- Z.shiftl_mul_pow2 by lia. apply Z.bits_inj'. intros i Hi.
    rewrite Z.land_spec, Z.bits_0. destruct (Z.lt_ge_cases i k); [by rewrite Z.shiftl_spec_low|].
    rewrite <- (Z.mod_small y (2 ^ k)), Z.mod_pow2_bits_high by lia. apply andb_false_r. }
  by rewrite Z.add_nocarry_lxor, Z.lxor_lor by done.
Qed.

Lemma get32 a b c d : is_byte a -> is_byte b -> is_byte c -> is_byte d ->
  Z.lor (Z.lor (Z.lor (u32 (Z.shiftl a 24)) (u32 (Z.shiftl b 16))) (u32 (Z.shiftl c 8))) d =
  a * 2 ^ 24 + b * 2 ^ 16 + c * 2 ^ 8 + d.
Proof.
  unfold is_byte. intros. rewrite !Z.shiftl_mul_pow2 by lia.
  rewrite !(uwrap_id 32) by (unfold in_u; lia).
  rewrite lor_add by lia. replace (a * 2 ^ 24 + b * 2 ^ 16) with ((a * 2 ^ 8 + b) * 2 ^ 16) by lia.
  rewrite lor_add by lia. replace ((a * 2 ^ 8 + b) * 2 ^ 16 + c * 2 ^ 8) with (((a * 2 ^ 8 + b) * 2 ^ 8 + c) * 2 ^ 8) by lia.
  rewrite lor_add by lia. lia.
Qed.

Lemma get16 a b : is_byte a -> is_byte b -> u16 (Z.lor (Z.shiftl a 8) b) = a * 2 ^ 8 + b.
Proof.
  unfold is_byte. intros. rewrite Z.shiftl_mul_pow2, lor_add by lia. apply uwrap_id. unfold in_u. lia.
Qed.

Lemma u8_byte z : is_byte (u8 z).
Proof. pose proof (uwrap_range 8 z ltac:(lia)). unfold in_u, is_byte in *. lia. Qed.

Lemma put32 v : 0 <= v < 2 ^ 32 ->
  u8 (Z.shiftr v 24) * 2 ^ 24 + u8 (Z.shiftr v 16) * 2 ^ 16 + u8 (Z.shiftr v 8) * 2 ^ 8 + u8 v = v.
Proof.
  intros. unfold u8, uwrap. rewrite !Z.shiftr_div_pow2 by lia.
  change (2 ^ 8) with 256. change (2 ^ 32) with 4294967296 in *. change (2 ^ 24) with 16777216. change (2 ^ 16) with 65536. Z.to_euclidean_division_equations. lia.
Qed.

Lemma put16 v : 0 <= v < 2 ^ 16 -> u8 (Z.shiftr v 8) * 2 ^ 8 + u8 v = v.
Proof.
  intros. unfold u8, uwrap. rewrite !Z.shiftr_div_pow2 by lia. change (2 ^ 8) with 256.
  change (2 ^ 16) with 65536 in *. Z.to_euclidean_division_equations. lia.
Qed.

(** Sixteen bytes, spelled out. *)
Lemma wf_bytes_inv uu : wf_bytes uu -> exists a0 a1 a2 a3 b0 b1 c0 c1 d,
  uu = [a0; a1; a2; a3; b0; b1; c0; c1] ++ d /\ length d = 8%nat /\ Forall is_byte d /\
  Forall is_byte [a0; a1; a2; a3; b0; b1; c0; c1].
Proof.
  intros [Hl Hb]. do 8 (destruct uu as [|? uu]; [done|]).
  do 9 eexists. split; [reflexivity|]. split; [cbn in Hl; lia|].
  rewrite !Forall_cons in *. pose proof (Forall_nil_2 is_byte). tauto.
Qed.

Lemma bytes_to_uuid_app a0 a1 a2 a3 b0 b1 c0 c1 d :
  length d = 8%nat ->
  bytes_to_uuid ([a0; a1; a2; a3; b0; b1; c0; c1] ++ d) =
    let le := is_little_endian (byte_at d 0) in
    Uuid_ (get_uint32 [a0; a1; a2; a3] le) (get_uint16 [b0; b1] le) (get_uint16 [c0; c1] le) d.
Proof.
  intros Hd. unfold bytes_to_uuid. cbn [drop app]. rewrite drop_0, take_ge by lia. done.
Qed.

(** Both directions of the conversion. *)
Lemma bytes_uuid_bytes uu : wf_bytes uu -> uuid_to_bytes (bytes_to_uuid uu) = uu.
Proof.
  intros (a0 & a1 & a2 & a3 & b0 & b1 & c0 & c1 & d & -> & Hd & _ & Hb)%wf_bytes_inv.
  rewrite bytes_to_uuid_app by done. cbv zeta. unfold uuid_to_bytes. cbn [Data1 Data2 Data3 Data4].
  rewrite !Forall_cons in Hb. destruct Hb as (? & ? & ? & ? & ? & ? & ? & ? & _).
  unfold get_uint32, get_uint16, byte_at. cbn [nth].
  destruct (is_little_endian _); rewrite get32, !get16 by done; unfold put_uint32, put_uint16, is_byte in *;
    cbn [app]; unfold u8, uwrap; rewrite !Z.shiftr_div_pow2 by lia;
    repeat (apply f_equal2; [|]); try done;
    change (2 ^ 8) with 256; change (2 ^ 16) with 65536; change (2 ^ 24) with 16777216;
    Z.to_euclidean_division_equations; lia.
Qed.

Lemma uuid_to_bytes_wf u : wf_uuid u -> wf_bytes (uuid_to_bytes u).
Proof.
  intros [_ _ _ H4 Hb]. unfold wf_bytes, uuid_to_bytes, put_uint32, put_uint16. split.
  - destruct (is_little_endian _); rewrite !length_app, H4; done.
  - destruct (is_little_endian _); rewrite !Forall_app, !Forall_cons;
      split_and!; auto using u8_byte; constructor.
Qed.

Lemma uuid_bytes_uuid u : wf_uuid u -> bytes_to_uuid (uuid_to_bytes u) = u.
Proof.
  intros [H1 H2 H3 H4 _]. unfold uuid_to_bytes. set (le := is_little_endian _).
  assert (exists a0 a1 a2 a3 b0 b1 c0 c1,
    put_uint32 (Data1 u) le = [a0; a1; a2; a3] /\ put_uint16 (Data2 u) le = [b0; b1] /\
    put_uint16 (Data3 u) le = [c0; c1] /\ get_uint32 [a0; a1; a2; a3] le = Data1 u /\
    get_uint16 [b0; b1] le = Data2 u /\ get_uint16 [c0; c1] le = Data3 u)
    as (a0 & a1 & a2 & a3 & b0 & b1 & c0 & c1 & -> & -> & -> & E1 & E2 & E3).
  { unfold put_uint32, put_uint16, get_uint32, get_uint16, byte_at.
    destruct le; do 8 eexists; (split; [reflexivity|]); (split; [reflexivity|]); (split; [reflexivity|]);
      cbn [nth]; rewrite get32, !get16 by apply u8_byte; rewrite put32, !put16 by done; done. }
  change ([a0; a1; a2; a3] ++ [b0; b1] ++ [c0; c1] ++ Data4 u)
    with ([a0; a1; a2; a3; b0; b1; c0; c1] ++ Data4 u).
  rewrite bytes_to_uuid_app by done. cbv zeta. fold le. rewrite E1, E2, E3. by destruct u.
Qed.

Lemma bytes_to_uuid_wf uu : wf_bytes uu -> wf_uuid (bytes_to_uuid uu).
Proof.
  intros (a0 & a1 & a2 & a3 & b0 & b1 & c0 & c1 & d & -> & Hd & Hdb & Hb)%wf_bytes_inv.
  rewrite bytes_to_uuid_app by done. cbv zeta. rewrite !Forall_cons in Hb.
  destruct Hb as (? & ? & ? & ? & ? & ? & ? & ? & _).
  unfold get_uint32, get_uint16, byte_at. cbn [nth].
  destruct (is_little_endian _); rewrite get32, !get16 by done; unfold is_byte in *; split; cbn; try done; lia.
Qed.

(** ** The order *)

Definition uuid_key (uu : uuid_t) : list Z :=
  let u := bytes_to_uuid uu in Data1 u :: Data2 u :: Data3 u :: Data4 u.

Lemma compare_key a b : wpdk_uuid_compare a b = memcmp (uuid_key a) (uuid_key b).
Proof.
  unfold wpdk_uuid_compare, uuid_key. cbn [memcmp].
  repeat (destruct (_ =? _); [cbn [negb]|done]). done.
Qed.

Lemma memcmp_refl_iff a b : length a = length b -> memcmp a b = 0 <-> a = b.
Proof.
  revert b. induction a as [|x a IH]; intros [|y b] Hl; try done. cbn in *.
  destruct (Z.eqb_spec x y) as [->|]; [rewrite IH by lia; split; [by intros ->|by intros [= ->]]|].
  destruct (x <? y); (split; [done|intros [= -> _]; done]).
Qed.

Lemma memcmp_sym a b : memcmp b a = - memcmp a b.
Proof.
  revert b. induction a as [|x a IH]; intros [|y b]; try done. cbn. rewrite (Z.eqb_sym y x).
  destruct (Z.eqb_spec x y); [apply IH|]. destruct (Z.ltb_spec x y), (Z.ltb_spec y x); lia.
Qed.

Lemma memcmp_trans a b c : length a = length b -> length b = length c ->
  memcmp a b < 0 -> memcmp b c < 0 -> memcmp a c < 0.
Proof.
  revert b c. induction a as [|x a IH]; intros [|y b] [|z c] H1 H2; try done. cbn in *.
  destruct (Z.eqb_spec x y) as [->|], (Z.eqb_spec y z) as [->|].
  - apply IH; lia.
  - destruct (y <? z); lia.
  - rewrite (proj2 (Z.eqb_neq x z)) by done. destruct (x <? z); lia.
  - destruct (Z.ltb_spec x y), (Z.ltb_spec y z), (Z.eqb_spec x z); try lia.
    destruct (Z.ltb_spec x z); lia.
Qed.

Lemma uuid_key_length uu : wf_bytes uu -> length (uuid_key uu) = 11%nat.
Proof. intros H%bytes_to_uuid_wf. unfold uuid_key. cbn [length]. by rewrite (wf_4 _ H). Qed.

Lemma uuid_key_inj a b : wf_bytes a -> wf_bytes b -> uuid_key a = uuid_key b -> a = b.
Proof.
  intros Ha Hb E. rewrite <- (bytes_uuid_bytes a), <- (bytes_uuid_bytes b) by done. f_equal.
  unfold uuid_key in E. destruct (bytes_to_uuid a), (bytes_to_uuid b). by injection E as -> -> -> ->.
Qed.

(** Numbers written big endian compare like their bytes. *)
Lemma memcmp_be32 a0 a1 a2 a3 b0 b1 b2 b3 a b :
  Forall is_byte [a0; a1; a2; a3; b0; b1; b2; b3] ->
  memcmp ((a0 * 2 ^ 24 + a1 * 2 ^ 16 + a2 * 2 ^ 8 + a3) :: a) ((b0 * 2 ^ 24 + b1 * 2 ^ 16 + b2 * 2 ^ 8 + b3) :: b) =
  memcmp ([a0; a1; a2; a3] ++ a) ([b0; b1; b2; b3] ++ b).
Proof.
  rewrite !Forall_cons. unfold is_byte. intros (? & ? & ? & ? & ? & ? & ? & ? & _). cbn [memcmp app].
  repeat match goal with |- context [?x =? ?y] => destruct (Z.eqb_spec x y); subst; try lia end;
  repeat match goal with |- context [?x <? ?y] => destruct (Z.ltb_spec x y); subst; try lia end.
Qed.

Lemma memcmp_be16 a0 a1 b0 b1 a b :
  Forall is_byte [a0; a1; b0; b1] ->
  memcmp ((a0 * 2 ^ 8 + a1) :: a) ((b0 * 2 ^ 8 + b1) :: b) = memcmp ([a0; a1] ++ a) ([b0; b1] ++ b).
Proof.
  rewrite !Forall_cons. unfold is_byte. intros (? & ? & ? & ? & _). cbn [memcmp app].
  repeat match goal with |- context [?x =? ?y] => destruct (Z.eqb_spec x y); subst; try lia end;
  repeat match goal with |- context [?x <? ?y] => destruct (Z.ltb_spec x y); subst; try lia end.
Qed.

Lemma memcmp_cons_ext x y a b a' b' : memcmp a b = memcmp a' b' -> memcmp (x :: a) (y :: b) = memcmp (x :: a') (y :: b').
Proof. intros E. cbn. by rewrite E. Qed.

(** Big-endian identifiers have their bytes as key. *)
Lemma be_compare a b : wf_bytes a -> wf_bytes b ->
  is_little_endian (byte_at a 8) = false -> is_little_endian (byte_at b 8) = false ->
  memcmp (uuid_key a) (uuid_key b) = memcmp a b.
Proof.
  intros (a0 & a1 & a2 & a3 & e0 & e1 & f0 & f1 & d & -> & Hd & _ & Ha)%wf_bytes_inv
    (b0 & b1 & b2 & b3 & g0 & g1 & h0 & h1 & d' & -> & Hd' & _ & Hb)%wf_bytes_inv La Lb.
  unfold uuid_key. rewrite !bytes_to_uuid_app by done. cbv zeta. cbn [Data1 Data2 Data3 Data4].
  change (byte_at ([a0; a1; a2; a3; e0; e1; f0; f1] ++ d) 8) with (byte_at d 0) in La.
  change (byte_at ([b0; b1; b2; b3; g0; g1; h0; h1] ++ d') 8) with (byte_at d' 0) in Lb.
  rewrite La, Lb. rewrite !Forall_cons in Ha, Hb.
  destruct Ha as (? & ? & ? & ? & ? & ? & ? & ? & _), Hb as (? & ? & ? & ? & ? & ? & ? & ? & _).
  unfold get_uint32, get_uint16, byte_at. cbn [nth]. rewrite !get32, !get16 by done.
  change (memcmp ([a0; a1; a2; a3; e0; e1; f0; f1] ++ d) ([b0; b1; b2; b3; g0; g1; h0; h1] ++ d'))
    with (memcmp ([a0; a1; a2; a3] ++ ([e0; e1] ++ ([f0; f1] ++ d))) ([b0; b1; b2; b3] ++ ([g0; g1] ++ ([h0; h1] ++ d')))).
  rewrite <- memcmp_be32 by (rewrite !Forall_cons; pose proof (Forall_nil_2 is_byte); tauto).
  apply memcmp_cons_ext.
  rewrite <- memcmp_be16 by (rewrite !Forall_cons; pose proof (Forall_nil_2 is_byte); tauto).
  apply memcmp_cons_ext.
  by rewrite <- memcmp_be16 by (rewrite !Forall_cons; pose proof (Forall_nil_2 is_byte); tauto).
Qed.

(** [wpdk_uuid_compare] is a strict total order on identifiers: it is 0 exactly
    for equal bytes, antisymmetric and transitive; on identifiers that are not
    variant 2 it is the order of [memcmp] on the sixteen bytes. *)
Theorem uuid_compare_order (a b c : uuid_t) :
  wf_bytes a -> wf_bytes b -> wf_bytes c ->
  (wpdk_uuid_compare a b = 0 <-> a = b) /\
  wpdk_uuid_compare b a = - wpdk_uuid_compare a b /\
  (wpdk_uuid_compare a b < 0 -> wpdk_uuid_compare b c < 0 -> wpdk_uuid_compare a c < 0) /\
  (is_little_endian (byte_at a 8) = false -> is_little_endian (byte_at b 8) = false ->
   wpdk_uuid_compare a b = memcmp a b).
Proof.
  intros Ha Hb Hc. rewrite !compare_key. split_and!.
  - rewrite memcmp_refl_iff by (by rewrite !uuid_key_length).
    split; [by apply uuid_key_inj|by intros ->].
  - apply memcmp_sym.
  - apply memcmp_trans; by rewrite !uuid_key_length.
  - by apply be_compare.
Qed.

(** ** Text

    The documented text form of an identifier: 8, 4, 4, 4 and 12 hexadecimal digits in either case,
    separated by dashes, the first three groups the integers, the others the bytes in order. *)

Definition hex_value (c : ascii) : option Z :=
  let n := Z.of_nat (nat_of_ascii c) in
  if (48 <=? n) && (n <=? 57) then Some (n - 48)
  else if (65 <=? n) && (n <=? 70) then Some (n - 55)
  else if (97 <=? n) && (n <=? 102) then Some (n - 87) else None.
Definition read_hex (s : cstr) : option Z :=
  foldl (fun a c => a ← a; d ← hex_value c; Some (16 * a + d)) (Some 0) s.
(** Read [w] digits and go on with the rest. *)
Definition digits {A} (w : nat) (s : cstr) (k : Z -> cstr -> option A) : option A :=
  if (w <=? length s)%nat then v ← read_hex (take w s); k v (drop w s) else None.
Definition dashed {A} (s : cstr) (k : cstr -> option A) : option A :=
  match s with c :: s => if eqc c "-"%char then k s else None | [] => None end.
Definition text_value (s : cstr) : option UUID :=
  digits 8 s (fun d1 s => dashed s (fun s => digits 4 s (fun d2 s => dashed s (fun s =>
  digits 4 s (fun d3 s => dashed s (fun s =>
  digits 2 s (fun b0 s => digits 2 s (fun b1 s => dashed s (fun s =>
  digits 2 s (fun b2 s => digits 2 s (fun b3 s => digits 2 s (fun b4 s =>
  digits 2 s (fun b5 s => digits 2 s (fun b6 s => digits 2 s (fun b7 s =>
  match s with [] => Some (Uuid_ d1 d2 d3 [b0; b1; b2; b3; b4; b5; b6; b7]) | _ => None end))))))))))))))).

Definition upper (c : ascii) : ascii :=
  let n := nat_of_ascii c in if ((97 <=? n) && (n <=? 122))%nat then ascii_of_nat (n - 32) else c.

Lemma length_hex up w v : length (hex up w v) = w.
Proof. revert v. induction w as [|w IH]; intros v; [done|]. cbn. rewrite length_app, IH. cbn. lia. Qed.

Lemma hex_value_digit up d : 0 <= d < 16 -> hex_value (hex_digit up d) = Some d.
Proof.
  intros Hd. assert (forallb (fun up => forallb (fun d => bool_decide (hex_value (hex_digit up d) = Some d))
    (Z.of_nat <$> seq 0 16)) [true; false] = true) as H by (vm_compute; reflexivity).
  rewrite forallb_forall in H. specialize (H up). rewrite forallb_forall in H.
  eapply bool_decide_unpack, Is_true_true, H; [destruct up; cbn; auto|].
  apply list_elem_of_In, list_elem_of_fmap. exists (Z.to_nat d). split; [lia|]. apply elem_of_seq. lia.
Qed.

Lemma digit_hex_value c d : hex_value c = Some d -> hex_digit true d = upper c /\ 0 <= d < 16.
Proof.
  assert (forallb (fun n => match hex_value (ascii_of_nat n) with
    | Some d => eqc (hex_digit true d) (upper (ascii_of_nat n)) && (0 <=? d) && (d <? 16) | None => true end) (seq 0 256) = true) as H by (vm_compute; reflexivity).
  rewrite forallb_forall in H. specialize (H (nat_of_ascii c)). rewrite ascii_nat_embedding in H. intros E. rewrite E in H.
  assert (In (nat_of_ascii c) (seq 0 256)) as Hin by (apply in_seq; pose proof (nat_ascii_bounded c); lia).
  specialize (H Hin). bool_prop. destruct (eqc_spec (hex_digit true d) (upper c)); [|done]. split; [done|lia].
Qed.

Lemma read_hex_snoc s c : read_hex (s ++ [c]) = (a ← read_hex s; d ← hex_value c; Some (16 * a + d)).
Proof. unfold read_hex. by rewrite foldl_app. Qed.

Lemma read_hex_hex up w v : 0 <= v < 16 ^ Z.of_nat w -> read_hex (hex up w v) = Some v.
Proof.
  revert v. induction w as [|w IH]; intros v Hv; [cbn in *; f_equal; lia|].
  cbn [hex]. rewrite read_hex_snoc. rewrite Nat2Z.inj_succ, Z.pow_succ_r in Hv by lia.
  rewrite IH by (split; [apply Z.div_pos; lia|apply Z.div_lt_upper_bound; lia]). cbn.
  rewrite hex_value_digit by (apply Z.mod_pos_bound; lia). cbn. f_equal.
  rewrite (Z.div_mod v 16) at 3 by lia. done.
Qed.

Lemma hex_read_hex s v : read_hex s = Some v -> hex true (length s) v = map upper s /\ 0 <= v < 16 ^ Z.of_nat (length s).
Proof.
  revert v. induction s as [|c s IH] using rev_ind; intros v; [intros [= <-]; cbn; split; [done|lia]|].
  rewrite read_hex_snoc. destruct (read_hex s) as [a|]; [|done]. cbn. destruct (hex_value c) as [d|] eqn:Ed; [|done]. cbn. intros [= <-].
  destruct (IH a eq_refl) as [Ea Ha]. destruct (digit_hex_value c d Ed) as [Ec Hd].
  rewrite length_app, Nat.add_1_r, Nat2Z.inj_succ, Z.pow_succ_r, map_app by lia. cbn [hex map]. split; [|lia].
  rewrite Z.mul_comm, Z.div_add_l, Z.div_small, Z.add_0_r by lia. rewrite Z.add_comm, Z.mod_add, Z.mod_small by lia. by rewrite Ea, Ec.
Qed.

Lemma digits_hex {A} up w v s (k : Z -> cstr -> option A) :
  0 <= v < 16 ^ Z.of_nat w -> digits w (hex up w v ++ s) k = k v s.
Proof.
  intros Hv. unfold digits. pose proof (length_hex up w v) as Hl.
  rewrite (proj2 (Nat.leb_le _ _)) by (rewrite length_app; lia). rewrite take_app_length', drop_app_length', read_hex_hex by done. done.
Qed.

Lemma digits_inv {A} w s (k : Z -> cstr -> option A) r : digits w s k = Some r ->
  exists t v s', s = t ++ s' /\ hex true w v = map upper t /\ 0 <= v < 16 ^ Z.of_nat w /\ k v s' = Some r.
Proof.
  unfold digits. destruct (Nat.leb_spec w (length s)) as [Hl|]; [|done]. destruct (read_hex (take w s)) as [v|] eqn:E; [|done]. cbn. intros H.
  pose proof (hex_read_hex _ _ E) as [H1 H2]. rewrite length_take, Nat.min_l in H1, H2 by done.
  exists (take w s), v, (drop w s). by rewrite take_drop.
Qed.
Lemma dashed_inv {A} s (k : cstr -> option A) r : dashed s k = Some r -> exists s', s = dash ++ s' /\ k s' = Some r.
Proof. destruct s as [|c s]; cbn; [done|]. destruct (eqc_spec c "-"%char) as [->|]; [|done]. intros H. by exists s. Qed.

(** The text the unparse functions print is the documented form of the structure. *)
Lemma text_value_unparse up u : wf_uuid u -> text_value (unparse_format up u) = Some u.
Proof.
  destruct u as [d1 d2 d3 d4]. intros [H1 H2 H3 H4 Hb]. cbn [Data1 Data2 Data3 Data4] in *.
  do 8 (destruct d4 as [|? d4]; [done|]). destruct d4; [|done].
  rewrite !Forall_cons in Hb. unfold is_byte in Hb. destruct Hb as (? & ? & ? & ? & ? & ? & ? & ? & _).
  unfold text_value, unparse_format, hex_pair, byte_at.
  cbn [Data1 Data2 Data3 Data4 nth]. change (2 ^ 32) with (16 ^ Z.of_nat 8) in H1.
  change (2 ^ 16) with (16 ^ Z.of_nat 4) in H2, H3. change 256 with (16 ^ Z.of_nat 2) in *.
  assert (forall A (k : cstr -> option A) s, dashed (dash ++ s) k = k s) as Hdash by done.
  rewrite <- !app_assoc. repeat (rewrite Hdash || (rewrite digits_hex by done)).
  match goal with |- digits 2 ?h _ = _ => rewrite <- (app_nil_r h) end. by rewrite digits_hex.
Qed.

(** A structure is printed as every text that denotes it, in upper case. *)
Lemma unparse_text_value s u : text_value s = Some u -> wf_uuid u /\ unparse_format true u = map upper s.
Proof.
  unfold text_value. intros H.
  repeat match goal with
  | H : digits _ _ _ = Some _ |- _ => apply digits_inv in H as (? & ? & ? & -> & ? & ? & H)
  | H : dashed _ _ = Some _ |- _ => apply dashed_inv in H as (? & -> & H)
  end.
  case_match; [|done]. injection H as <-. split.
  - split; cbn [Data1 Data2 Data3 Data4]; [done|done|done|done|]. repeat (constructor; [unfold is_byte; change 256 with (16 ^ Z.of_nat 2); done|]). constructor.
  - unfold unparse_format, hex_pair, byte_at. cbn [Data1 Data2 Data3 Data4 nth]. rewrite !map_app. change (map upper dash) with dash.
    rewrite <- !app_assoc. cbn [map]. rewrite app_nil_r.
    by repeat match goal with H : hex true _ _ = map upper _ |- _ => rewrite H; clear H end.
Qed.

(** [UuidFromString] reads the documented form. *)
Definition canonical_runtime `{!UuidRuntime} : Prop := forall s u, text_value s = Some u -> UuidFromString s = Some u.

(** C38: with a runtime that reads the documented text form (8-4-4-4-12 hexadecimal digits in either case: the
    three integers and the bytes of the structure), parsing what the unparse functions print gives back the
    identifier, whatever its variant; the text has 36 characters; and a text of that form parses, to sixteen bytes that are printed as the same
    text in upper case. *)
Theorem uuid_parse_unparse `{!UuidRuntime} (uu old : uuid_t) (text : cstr) :
  canonical_runtime -> wf_bytes uu -> text_value text <> None ->
  wpdk_uuid_parse (wpdk_uuid_unparse uu) old = (0, uu) /\
  wpdk_uuid_parse (wpdk_uuid_unparse_lower uu) old = (0, uu) /\
  length (wpdk_uuid_unparse uu) = 36%nat /\
  let '(rc, bytes) := wpdk_uuid_parse text old in rc = 0 /\ wf_bytes bytes /\ wpdk_uuid_unparse bytes = map upper text.
Proof.
  intros Hr Hu Ht. unfold wpdk_uuid_parse, wpdk_uuid_unparse, wpdk_uuid_unparse_upper, wpdk_uuid_unparse_lower.
  rewrite !(Hr _ (bytes_to_uuid uu)), bytes_uuid_bytes by auto using text_value_unparse, bytes_to_uuid_wf. split_and!; [done..| |].
  - unfold unparse_format, hex_pair. by rewrite !length_app, !length_hex.
  - destruct (text_value text) as [u|] eqn:E; [|done]. rewrite (Hr _ _ E). destruct (unparse_text_value _ _ E) as [Hw Hp].
    split_and!; [done|by apply uuid_to_bytes_wf|by rewrite uuid_bytes_uuid].
Qed.

(** A runtime that reads exactly the documented form. *)
Module SimpleRuntime.
#[export] Instance runtime : UuidRuntime := text_value.
Lemma simple_canonical : canonical_runtime.
Proof. intros s u H. exact H. Qed.
End SimpleRuntime.

Definition sample : uuid_t := [0x12; 0x34; 0x56; 0x78; 0x9a; 0xbc; 0x4d; 0xef; 0x80; 1; 2; 3; 4; 5; 6; 7].
Lemma sample_wf : wf_bytes sample.
Proof. split; [done|]. repeat constructor; unfold is_byte; lia. Qed.

Lemma uuid_parse_unparse_witness :
  let _ := SimpleRuntime.runtime in
  wpdk_uuid_unparse sample = lit "12345678-9ABC-4DEF-8001-020304050607" /\
  wpdk_uuid_parse (wpdk_uuid_unparse sample) [] = (0, sample) /\
  let '(rc, bytes) := wpdk_uuid_parse (lit "00112233-4455-6677-c899-aAbBcCdDeEfF") [] in
  rc = 0 /\ wf_bytes bytes /\ wpdk_uuid_unparse bytes = lit "00112233-4455-6677-C899-AABBCCDDEEFF".
Proof.
  split; [vm_compute; reflexivity|].
  destruct (uuid_parse_unparse sample [] (lit "00112233-4455-6677-c899-aAbBcCdDeEfF") SimpleRuntime.simple_canonical sample_wf) as (H1 & _ & _ & H2);
    [vm_compute; discriminate|]. split; [exact H1|exact H2].
Defined.

Lemma uuid_compare_order_witness :
  wpdk_uuid_compare sample wpdk_uuid_clear = 1 /\ wpdk_uuid_compare wpdk_uuid_clear sample = - 1.
Proof.
  assert (wf_bytes wpdk_uuid_clear) as H by (split; [done|repeat constructor; unfold is_byte; lia]).
  pose proof (uuid_compare_order sample wpdk_uuid_clear sample sample_wf H sample_wf) as (_ & E & _).
  assert (wpdk_uuid_compare sample wpdk_uuid_clear = 1) as E1 by (vm_compute; reflexivity).
  split; [exact E1|]. rewrite E, E1. reflexivity.
Defined.
End Uuid.
