(* ===== verification/Clock.v ===== *)
(** * Clock: clocks, time-outs and resource limits (src/src/time.c, src/src/resource.c)

    The performance counter and the system time are the class [ClockApi].  A
    [FILETIME] is the number of 100-nanosecond units since 1601, in 64 bits. *)

From S2P Require Import Prelude Errno.

Module Export Clock.
Local Open Scope Z_scope.

Definition CLOCK_REALTIME : Z := 0.
Definition CLOCK_MONOTONIC : Z := 1.
Definition CLOCK_MONOTONIC_RAW : Z := 2.

(** [struct timespec]: 64-bit seconds, nanoseconds in a long.  In [struct
    timeval] both are long. *)
Record timespec := Timespec { ts_sec : Z; ts_nsec : Z }.
Record utimeval := Utimeval { tvu_sec : Z; tvu_usec : Z }.

Class ClockApi (W : Type) := {
  QueryPerformanceFrequency : W -> Z;
  QueryPerformanceCounter : C W Z;
  GetSystemTimePreciseAsFileTime : C W Z;
  w_LastError : W -> Z
}.

(** errno, the static variable [freq] of [wpdk_clock_gettime], and Windows. *)
Record ksys (W : Type) := Ksys { ks_errno : Z; ks_freq : Z; ks_world : W }.
Arguments Ksys {W}. Arguments ks_errno {W}. Arguments ks_freq {W}. Arguments ks_world {W}.

#[export] Instance ksys_errno {W} : HasErrno (ksys W).
Proof.
  refine {| errno := ks_errno; set_errno := fun e s => Ksys e (ks_freq s) (ks_world s) |}. reflexivity.
Defined.
#[export] Instance ksys_last_error {W} `{!ClockApi W} : HasLastError (ksys W) := fun s => w_LastError (ks_world s).

Definition on_world {W A} (m : C W A) : C (ksys W) A :=
  fun s => let '(a, w) := m (ks_world s) in (a, Ksys (ks_errno s) (ks_freq s) w).

(** The distance of the two epochs, in units of 100 ns. *)
Definition unix_epoch : Z := 116444736000000000.

Section Ops.
Context {W : Type} `{!ClockApi W}.
Local Open Scope c_scope.
Local Abbreviation P := (C (ksys W)).

(** [None] is a return of -1; [has_tp] is [tp != NULL]. *)
Definition fail_none {A} (error : Z) : P (option A) := wpdk_posix_error error ;; ret None.

Definition wpdk_clock_gettime (clk_id : Z) (has_tp : bool) : P (option timespec) :=
  if negb has_tp then fail_none EINVAL
  else if (clk_id =? CLOCK_MONOTONIC) || (clk_id =? CLOCK_MONOTONIC_RAW) then
    let* freq := gets ks_freq in
    (if freq =? 0
     then modify (fun s => Ksys (ks_errno s) (QueryPerformanceFrequency (ks_world s)) (ks_world s))
     else ret tt) ;;
    let* freq := gets ks_freq in
    let* stamp := on_world QueryPerformanceCounter in
    ret (Some (Timespec (s32 (Z.quot stamp freq))
                 (s32 (Z.quot (s64 (Z.rem stamp freq * 1000000000)) freq))))
  else if clk_id =? CLOCK_REALTIME then
    let* now := on_world GetSystemTimePreciseAsFileTime in
    let v := u64 (now - unix_epoch) in
    ret (Some (Timespec (s32 (v / 10000000)) (s32 (v mod 10000000 * 100))))
  else fail_none EINVAL.

(** [has_tz] is [tzp != NULL]. *)
Definition wpdk_gettimeofday (has_tp has_tz : bool) : P (option utimeval) :=
  if negb has_tp || has_tz then fail_none EINVAL
  else
    let* t := wpdk_clock_gettime CLOCK_REALTIME true in
    match t with
    | Some t => ret (Some (Utimeval (s32 (ts_sec t)) (s32 (Z.quot (ts_nsec t) 1000))))
    | None => ret None
    end.

(** The arithmetic of [wpdk_abstime_to_msecs], in 64-bit [time_t]; the
    difference of the nanoseconds is a long. *)
Definition remaining_msecs (abstime now : timespec) : Z :=
  if ts_sec now <? ts_sec abstime then
    s64 (s64 (s64 (ts_sec abstime - ts_sec now) * 1000) +
         Z.quot (s32 (ts_nsec abstime - ts_nsec now)) 1000000)
  else if (ts_sec abstime =? ts_sec now) && (ts_nsec now <? ts_nsec abstime) then
    Z.quot (s32 (ts_nsec abstime - ts_nsec now)) 1000000
  else 0.

Definition wpdk_abstime_to_msecs (abstime : timespec) : P (option Z) :=
  let* now := wpdk_clock_gettime CLOCK_REALTIME true in
  match now with
  | None => ret None
  | Some now =>
      let msecs := remaining_msecs abstime now in
      if 1000000000 <=? msecs then fail_none EINVAL else ret (Some (u32 msecs))
  end.
End Ops.

(** ** resource.c *)
Definition RLIMIT_CORE : Z := 1.
Definition RLIMIT_NOFILE : Z := 2.
Definition RUSAGE_THREAD : Z := 1.
Record rlimit := Rlimit { rlim_cur : Z; rlim_max : Z }.
Record rusage := Rusage { ru_utime : utimeval; ru_stime : utimeval; ru_nvcsw : Z; ru_nivcsw : Z }.

Section Resource.
Context {W : Type} `{!ClockApi W}.
Local Open Scope c_scope.
Local Abbreviation P := (C (ksys W)).

Definition wpdk_getrlimit (resource : Z) (has_rlp : bool) : P (option rlimit) :=
  if negb has_rlp then fail_none EINVAL
  else if resource =? RLIMIT_CORE then ret (Some (Rlimit 0 0))
  else if resource =? RLIMIT_NOFILE then ret (Some (Rlimit 8192 8192))
  else fail_none EINVAL.

Definition wpdk_setrlimit (resource : Z) (rlp : option rlimit) : P Z :=
  match rlp with
  | None => wpdk_posix_error EINVAL
  | Some r =>
      if rlim_max r <? rlim_cur r then wpdk_posix_error EINVAL
      else if resource =? RLIMIT_CORE then ret 0
      else if resource =? RLIMIT_NOFILE then
        if 8192 <? rlim_max r then wpdk_posix_error EPERM else ret 0
      else wpdk_posix_error EINVAL
  end.

(** The conversion of a FILETIME to a [struct timeval]. *)
Definition rusage_time (v : Z) : utimeval := Utimeval (s32 (v / 10000000)) (s32 (v mod 10000000 * 100)).

(** [GetThreadTimes] is [None] when it fails, otherwise system and user time. *)
Definition wpdk_getrusage (who : Z) (has_usage : bool) (times : option (Z * Z)) : P (option rusage) :=
  if negb has_usage then fail_none EINVAL
  else if who =? RUSAGE_THREAD then
    match times with
    | None => wpdk_last_error ;; ret None
    | Some (system, user) => ret (Some (Rusage (rusage_time user) (rusage_time system) 0 0))
    end
  else fail_none EINVAL.
End Resource.

(** ** Time-outs *)

Definition nanos (t : timespec) : Z := ts_sec t * 1000000000 + ts_nsec t.
Definition valid_time (t : timespec) : Prop :=
  0 <= ts_sec t < 2 ^ 53 /\ 0 <= ts_nsec t < 1000000000.

Lemma remaining_spec abstime now : valid_time abstime -> valid_time now ->
  0 <= remaining_msecs abstime now /\
  (nanos abstime <= nanos now -> remaining_msecs abstime now = 0) /\
  (nanos now < nanos abstime ->
   Z.abs (nanos abstime - nanos now - remaining_msecs abstime now * 1000000) < 1000000).
Proof.
  intros [Ha Hna] [Hn Hnn]. unfold nanos, remaining_msecs.
  pose proof (swrap_id 32 (ts_nsec abstime - ts_nsec now) ltac:(lia) ltac:(unfold in_s; lia)) as ->.
  pose proof (Z.quot_rem (ts_nsec abstime - ts_nsec now) 1000000 ltac:(lia)) as Hq.
  set (q := Z.quot (ts_nsec abstime - ts_nsec now) 1000000) in *.
  pose proof (Z.rem_bound_abs (ts_nsec abstime - ts_nsec now) 1000000 ltac:(lia)) as Hr.
  set (r := Z.rem (ts_nsec abstime - ts_nsec now) 1000000) in *.
  assert (0 < ts_nsec abstime - ts_nsec now -> 0 <= r) as Hpos by (intros; apply Z.rem_nonneg; lia).
  clearbody q r.
  destruct (Z.ltb_spec (ts_sec now) (ts_sec abstime)).
  - rewrite (swrap_id 64 (ts_sec abstime - ts_sec now)) by (lia || (unfold in_s; lia)).
    rewrite (swrap_id 64 ((ts_sec abstime - ts_sec now) * 1000)) by (lia || (unfold in_s; lia)).
    rewrite swrap_id by (lia || (unfold in_s; lia)). lia.
  - destruct (Z.eqb_spec (ts_sec abstime) (ts_sec now)), (Z.ltb_spec (ts_nsec now) (ts_nsec abstime)); cbn [andb]; lia.
Qed.

Section Props.
Context {W : Type} `{!ClockApi W}.

(** The time the system clock shows, when it lies between 1970 and 2038. *)
Definition clock_range (now : Z) : Prop := unix_epoch <= now < unix_epoch + 2 ^ 31 * 10000000.

Lemma realtime_run (s : ksys W) :
  wpdk_clock_gettime CLOCK_REALTIME true s =
    let '(now, w) := GetSystemTimePreciseAsFileTime (ks_world s) in
    let v := u64 (now - unix_epoch) in
    (Some (Timespec (s32 (v / 10000000)) (s32 (v mod 10000000 * 100))), Ksys (ks_errno s) (ks_freq s) w).
Proof.
  unfold wpdk_clock_gettime. cbn [negb orb Z.eqb CLOCK_REALTIME CLOCK_MONOTONIC CLOCK_MONOTONIC_RAW].
  rewrite bind_run. unfold on_world. by destruct (GetSystemTimePreciseAsFileTime _).
Qed.

Lemma realtime_value now : clock_range now ->
  let v := u64 (now - unix_epoch) in
  let t := Timespec (s32 (v / 10000000)) (s32 (v mod 10000000 * 100)) in
  nanos t = (now - unix_epoch) * 100 /\ 0 <= ts_nsec t < 1000000000 /\ 0 <= ts_sec t < 2 ^ 31.
Proof.
  intros Hn. unfold clock_range, unix_epoch in *. cbv zeta.
  rewrite (uwrap_id 64) by (unfold in_u; lia). set (v := now - 116444736000000000) in *.
  pose proof (Z.div_mod v 10000000 ltac:(lia)). pose proof (Z.mod_pos_bound v 10000000 ltac:(lia)).
  set (q := v / 10000000) in *. set (r := v mod 10000000) in *. clearbody q r.
  rewrite !(swrap_id 32) by (lia || (unfold in_s; lia)). unfold nanos. cbn [ts_sec ts_nsec]. lia.
Qed.

(** Between 1970 and 2038 [clock_gettime(CLOCK_REALTIME)] returns the system
    time exactly, to its resolution of 100 ns, with the nanoseconds below one
    second; [gettimeofday] returns it in microseconds, rounded down. *)
Theorem realtime_exact (s : ksys W) (now : Z) (w : W) :
  GetSystemTimePreciseAsFileTime (ks_world s) = (now, w) -> clock_range now ->
  exists t u, fst (wpdk_clock_gettime CLOCK_REALTIME true s) = Some t /\
    nanos t = (now - unix_epoch) * 100 /\ 0 <= ts_nsec t < 1000000000 /\
    fst (wpdk_gettimeofday true false s) = Some u /\
    tvu_sec u * 1000000 + tvu_usec u = nanos t / 1000 /\ 0 <= tvu_usec u < 1000000.
Proof.
  intros Hw Hr. destruct (realtime_value now Hr) as (Hv & Hns & Hs). cbv zeta in *.
  set (t := Timespec _ _) in *. exists t.
  exists (Utimeval (s32 (ts_sec t)) (s32 (Z.quot (ts_nsec t) 1000))).
  unfold wpdk_gettimeofday. cbn [negb orb]. rewrite bind_run, realtime_run, Hw. cbv zeta. fold t.
  split; [done|]. split; [done|]. split; [done|]. split; [done|]. cbn [tvu_sec tvu_usec].
  clearbody t. rewrite Z.quot_div_nonneg by lia.
  pose proof (Z.div_mod (ts_nsec t) 1000 ltac:(lia)). pose proof (Z.mod_pos_bound (ts_nsec t) 1000 ltac:(lia)).
  rewrite !(swrap_id 32) by (lia || (unfold in_s; lia)). split; [|lia]. unfold nanos.
  replace (ts_sec t * 1000000000 + ts_nsec t) with (ts_nsec t + ts_sec t * 1000000 * 1000) by lia.
  rewrite Z.div_add by lia. lia.
Qed.

(** The delay computed for an absolute time-out is the time left to within
    a millisecond, 0 once the time has passed; a delay of 10^9 ms or more is
    refused with EINVAL. *)
Theorem abstime_delay (abstime : timespec) (s : ksys W) (now : Z) (w : W) :
  GetSystemTimePreciseAsFileTime (ks_world s) = (now, w) -> clock_range now -> valid_time abstime ->
  let left := nanos abstime - (now - unix_epoch) * 100 in
  let '(r, s') := wpdk_abstime_to_msecs abstime s in
  match r with
  | Some msecs => 0 <= msecs < 1000000000 /\ (left <= 0 -> msecs = 0) /\
                  (0 < left -> Z.abs (left - msecs * 1000000) < 1000000)
  | None => 999999999 * 1000000 < left /\ errno s' = EINVAL
  end.
Proof.
  intros Hw Hr Ha. destruct (realtime_value now Hr) as (Hv & Hns & Hs). cbv zeta in *.
  unfold wpdk_abstime_to_msecs. rewrite bind_run, realtime_run, Hw. cbv zeta. cbn [fst snd].
  set (t := Timespec _ _) in *. clearbody t.
  destruct (remaining_spec abstime t Ha ltac:(split; [lia|done])) as (H0 & Hz & Hp). rewrite Hv in Hz, Hp.
  set (m := remaining_msecs abstime t) in *. clearbody m.
  destruct (Z.leb_spec 1000000000 m).
  - cbn. split; [|done]. assert (~ nanos abstime <= (now - unix_epoch) * 100) by lia. lia.
  - unfold ret. rewrite uwrap_id by (unfold in_u; lia). lia.
Qed.

(** The microseconds of [getrusage] are nanoseconds: half a second of
    user time is reported as 500,000,000 microseconds. *)
Example rusage_nanoseconds (s : ksys W) :
  fst (wpdk_getrusage RUSAGE_THREAD true (Some (0, 5000000)) s) =
    Some (Rusage (Utimeval 0 500000000) (Utimeval 0 0) 0 0).
Proof. reflexivity. Qed.
End Props.

Section Witnesses.
#[local] Instance fixed_clock : ClockApi Z := {|
  QueryPerformanceFrequency _ := 10000000; QueryPerformanceCounter := fun w => (w, w + 1);
  GetSystemTimePreciseAsFileTime := fun w => (w, w + 1); w_LastError _ := 0 |}.

(** One second and 1.5 ms after the epoch. *)
Definition instant : Z := unix_epoch + 10015000.

Lemma realtime_exact_witness :
  exists t u, fst (wpdk_clock_gettime CLOCK_REALTIME true (Ksys 0 0 instant)) = Some t /\
    nanos t = 1001500000 /\ fst (wpdk_gettimeofday true false (Ksys 0 0 instant)) = Some u /\
    tvu_sec u * 1000000 + tvu_usec u = 1001500.
Proof.
  destruct (realtime_exact (W:=Z) (ClockApi0:=fixed_clock) (Ksys 0 0 instant) instant (instant + 1) eq_refl ltac:(unfold clock_range, instant; lia))
    as (t & u & H1 & H2 & _ & H3 & H4 & _).
  exists t, u. split; [exact H1|]. split; [rewrite H2; reflexivity|]. split; [exact H3|].
  rewrite H4, H2. reflexivity.
Defined.

Lemma abstime_delay_witness :
  fst (wpdk_abstime_to_msecs (Timespec 3 0) (Ksys 0 0 instant)) = Some 1999 /\
  Z.abs (3000000000 - 1001500000 - 1999 * 1000000) < 1000000.
Proof.
  pose proof (abstime_delay (W:=Z) (ClockApi0:=fixed_clock) (Timespec 3 0) (Ksys 0 0 instant) instant (instant + 1) eq_refl
    ltac:(unfold clock_range, instant; lia) ltac:(split; cbn; lia)) as H. cbv zeta in H.
  assert (wpdk_abstime_to_msecs (Timespec 3 0) (Ksys 0 0 instant) = (Some 1999, Ksys 0 0 (instant + 1))) as E
    by (vm_compute; reflexivity).
  rewrite E in H. split; [rewrite E; reflexivity|]. apply H. vm_compute. reflexivity.
Defined.
End Witnesses.
End Clock.
