(* ===== verification/Semaphore.v ===== *)
(** * Semaphore: POSIX semaphores (src/src/semaphore.c, src/inc/semaphore.h)

    A [sem_t] holds the handle of a Windows semaphore, the class [SemApi]; its
    laws describe a call that runs alone. *)

From S2P Require Import Prelude Errno Clock.

Module Export Semaphore.
Local Open Scope Z_scope.

(** [sem_t]: the handle, 0 is NULL. *)
Record sem_t := Sem { sem_h : Z }.

Definition INFINITE : Z := 2 ^ 32 - 1.

Class SemApi (W : Type) := {
  (** initial and maximal count; 0 on failure *)
  CreateSemaphore : Z -> Z -> C W Z;
  (** handle and increment; 0 on failure *)
  ReleaseSemaphore : Z -> Z -> C W Z;
  WaitForSingleObject : Z -> Z -> C W Z;
  CloseHandle : Z -> C W unit
}.

(** The counts of the open semaphores, and what the documentation says of the
    calls: a release fails when the count would exceed the maximum, a wait takes
    one when it can and a finite wait times out when it cannot. *)
Class SemLaws (W : Type) `{!SemApi W} := {
  sem_counts : W -> gmap Z Z;
  create_law : forall v w, 0 <= v <= INT_MAX -> let '(h, w') := CreateSemaphore v INT_MAX w in
    (h = 0 /\ sem_counts w' = sem_counts w) \/
    (h <> 0 /\ sem_counts w !! h = None /\ sem_counts w' = <[h := v]> (sem_counts w));
  release_law : forall h n w, sem_counts w !! h = Some n ->
    let '(rc, w') := ReleaseSemaphore h 1 w in
    if n <? INT_MAX then rc <> 0 /\ sem_counts w' = <[h := n + 1]> (sem_counts w)
    else rc = 0 /\ sem_counts w' = sem_counts w;
  wait_law : forall h n ms w, sem_counts w !! h = Some n ->
    let '(rc, w') := WaitForSingleObject h ms w in
    if 0 <? n then rc = WAIT_OBJECT_0 /\ sem_counts w' = <[h := n - 1]> (sem_counts w)
    else ms <> INFINITE -> rc = WAIT_TIMEOUT /\ sem_counts w' = sem_counts w;
  close_law : forall h w, sem_counts (snd (CloseHandle h w)) = delete h (sem_counts w)
}.

Section Ops.
Context {W : Type} `{!ClockApi W, !SemApi W}.
Local Open Scope c_scope.
Local Abbreviation P := (C (ksys W)).

(** [has_sem] is [sem != NULL]; the semaphore as the call leaves it, [None] when
    it is not written. *)
Definition wpdk_sem_init (has_sem : bool) (pshared value : Z) : P (Z * option sem_t) :=
  let fail (m : P Z) := let* rc := m in ret (rc, None) in
  if negb has_sem || (INT_MAX <? value) then fail (wpdk_posix_error EINVAL)
  else if negb (pshared =? 0) then fail (wpdk_posix_error ENOSYS)
  else
    let* h := on_world (CreateSemaphore value INT_MAX) in
    if h =? 0 then let* rc := wpdk_last_error in ret (rc, Some (Sem h)) else ret (0, Some (Sem h)).

(** The guard [!sem || !sem->h]; [None] is a null pointer. *)
Definition with_sem {A} (sem : option sem_t) (error : P A) (body : sem_t -> P A) : P A :=
  match sem with
  | None => error
  | Some s => if sem_h s =? 0 then error else body s
  end.

Definition wpdk_sem_destroy (sem : option sem_t) : P (Z * option sem_t) :=
  with_sem sem (let* rc := wpdk_posix_error EINVAL in ret (rc, sem)) (fun s =>
    on_world (CloseHandle (sem_h s)) ;; ret (0, Some (Sem 0))).

Definition wpdk_sem_post (sem : option sem_t) : P Z :=
  with_sem sem (wpdk_posix_error EINVAL) (fun s =>
    let* rc := on_world (ReleaseSemaphore (sem_h s) 1) in
    if rc =? 0 then wpdk_last_error else ret 0).

(** [rc] is an int, and so are the labels of the switch. *)
Definition wpdk_wait_sem (sem : option sem_t) (msecs : Z) : P Z :=
  with_sem sem (wpdk_posix_error EINVAL) (fun s =>
    let* rc := on_world (WaitForSingleObject (sem_h s) msecs) in
    let rc := s32 rc in
    if rc =? s32 WAIT_FAILED then wpdk_last_error
    else if rc =? WAIT_ABANDONED then ret 0
    else if rc =? WAIT_OBJECT_0 then ret 0
    else if rc =? WAIT_TIMEOUT then wpdk_posix_error EAGAIN
    else wpdk_posix_error EINVAL).

Definition wpdk_sem_wait (sem : option sem_t) : P Z := wpdk_wait_sem sem INFINITE.
Definition wpdk_sem_trywait (sem : option sem_t) : P Z := wpdk_wait_sem sem 0.
Definition wpdk_sem_timedwait (sem : option sem_t) (abs_timeout : timespec) : P Z :=
  let* ms := wpdk_abstime_to_msecs abs_timeout in
  match ms with
  | None => ret (-1)
  | Some msecs => wpdk_wait_sem sem msecs
  end.
End Ops.

(** ** A counter *)

Inductive sem_call := SPost | STryWait | SWait.

(** The specification: the value returned and the new count; [None] when the
    caller has to wait. *)
Definition spec_call (c : sem_call) (n : Z) : option (Z * Z) :=
  match c with
  | SPost => Some (if n <? INT_MAX then (0, n + 1) else (-1, n))
  | STryWait => Some (if 0 <? n then (0, n - 1) else (-1, n))
  | SWait => if 0 <? n then Some (0, n - 1) else None
  end.
Fixpoint spec_run (cs : list sem_call) (n : Z) : option (list Z * Z) :=
  match cs with
  | [] => Some ([], n)
  | c :: cs => '(r, n) ← spec_call c n; '(rs, n) ← spec_run cs n; Some (r :: rs, n)
  end.

Section Props.
Context {W : Type} `{!ClockApi W, !SemApi W, !SemLaws W}.
Local Abbreviation P := (C (ksys W)).

Definition run_sem (s : sem_t) (c : sem_call) : P Z :=
  match c with
  | SPost => wpdk_sem_post (Some s)
  | STryWait => wpdk_sem_trywait (Some s)
  | SWait => wpdk_sem_wait (Some s)
  end.
Fixpoint run_sems (s : sem_t) (cs : list sem_call) : P (list Z) :=
  match cs with
  | [] => ret []
  | c :: cs => (let* r := run_sem s c in let* rs := run_sems s cs in ret (r :: rs))%c
  end.

Definition counts (p : ksys W) : gmap Z Z := sem_counts (ks_world p).

Lemma post_run s n p : sem_h s <> 0 -> counts p !! sem_h s = Some n ->
  let '(r, q) := wpdk_sem_post (Some s) p in
  r = (if n <? INT_MAX then 0 else -1) /\
  counts q = <[sem_h s := if n <? INT_MAX then n + 1 else n]> (counts p).
Proof.
  intros Hs Hn. unfold wpdk_sem_post, with_sem. rewrite (proj2 (Z.eqb_neq _ _) Hs), bind_run.
  unfold on_world, counts in *. pose proof (release_law _ _ _ Hn) as H.
  destruct (ReleaseSemaphore _ _ _) as [rc w]. cbn [fst snd].
  destruct (n <? INT_MAX); destruct H as [H1 H2].
  - rewrite (proj2 (Z.eqb_neq _ _) H1). done.
  - subst rc. cbn. split; [done|]. by rewrite H2, insert_id.
Qed.

Lemma wait_run s n ms p : sem_h s <> 0 -> counts p !! sem_h s = Some n -> 0 < n \/ ms <> INFINITE ->
  let '(r, q) := wpdk_wait_sem (Some s) ms p in
  r = (if 0 <? n then 0 else -1) /\ (0 < n \/ errno q = EAGAIN) /\
  counts q = <[sem_h s := if 0 <? n then n - 1 else n]> (counts p).
Proof.
  intros Hs Hn Hms. unfold wpdk_wait_sem, with_sem. rewrite (proj2 (Z.eqb_neq _ _) Hs), bind_run.
  unfold on_world, counts in *. pose proof (wait_law _ _ ms _ Hn) as H.
  destruct (WaitForSingleObject _ _ _) as [rc w]. cbn [fst snd].
  destruct (Z.ltb_spec 0 n).
  - destruct H as [-> H2]. split_and!; [done|by left|exact H2].
  - destruct (H ltac:(destruct Hms; [lia|done])) as [-> H2].
    split_and!; [done|by right|]. rewrite insert_id by done. exact H2.
Qed.

Lemma call_refines s n c r n' p : sem_h s <> 0 -> counts p !! sem_h s = Some n ->
  spec_call c n = Some (r, n') ->
  let '(r', q) := run_sem s c p in r' = r /\ counts q = <[sem_h s := n']> (counts p).
Proof.
  intros Hs Hn. destruct c; cbn [spec_call run_sem].
  - pose proof (post_run s n p Hs Hn) as H. destruct (wpdk_sem_post _ p) as [r' q].
    destruct H as [-> ->]. by destruct (n <? INT_MAX); intros [= <- <-].
  - pose proof (wait_run s n 0 p Hs Hn) as H. unfold wpdk_sem_trywait.
    destruct (wpdk_wait_sem _ _ p) as [r' q]. destruct H as (-> & _ & ->); [by right|].
    by destruct (0 <? n); intros [= <- <-].
  - pose proof (wait_run s n INFINITE p Hs Hn) as H. unfold wpdk_sem_wait.
    destruct (Z.ltb_spec 0 n); [|done].
    destruct (wpdk_wait_sem _ _ p) as [r' q]. destruct H as (-> & _ & ->); [by left|]. by intros [= <- <-].
Qed.

Lemma run_refines s cs : forall n rs n' p, sem_h s <> 0 -> counts p !! sem_h s = Some n ->
  spec_run cs n = Some (rs, n') ->
  let '(rs', q) := run_sems s cs p in rs' = rs /\ counts q = <[sem_h s := n']> (counts p).
Proof.
  induction cs as [|c cs IH]; intros n rs n' p Hs Hn; cbn [spec_run run_sems].
  { intros [= <- <-]. cbn. by rewrite insert_id. }
  destruct (spec_call c n) as [[r m]|] eqn:Ec; [|done]. cbn.
  destruct (spec_run cs m) as [[rs1 n1]|] eqn:Er; [|done]. cbn. intros [= <- <-].
  rewrite bind_run. pose proof (call_refines s n c r m p Hs Hn Ec) as H.
  destruct (run_sem s c p) as [r1 q1]. destruct H as [-> Hq]. cbn [fst snd]. rewrite bind_run.
  pose proof (IH m rs1 n1 q1 Hs ltac:(rewrite Hq; apply lookup_insert_eq) Er) as H.
  destruct (run_sems s cs q1) as [rs2 q2]. destruct H as [-> Hq2]. cbn.
  by rewrite Hq2, Hq, insert_insert_eq.
Qed.

(** C22: a semaphore is a counter between 0 and INT_MAX.  [sem_init] either fails
    and changes no semaphore or creates one with the given count, and then every
    sequence of posts and waits that the counter allows returns what the counter
    says, leaves its count, and touches no other semaphore. *)
Theorem semaphore_counter (p : ksys W) (value : Z) (cs : list sem_call) (rs : list Z) (n : Z) :
  0 <= value <= INT_MAX -> spec_run cs value = Some (rs, n) ->
  let '((rc, sem), q) := wpdk_sem_init true 0 value p in
  (rc = -1 /\ counts q = counts p) \/
  exists s, rc = 0 /\ sem = Some s /\ counts p !! sem_h s = None /\
    fst (run_sems s cs q) = rs /\ counts (snd (run_sems s cs q)) = <[sem_h s := n]> (counts p).
Proof.
  intros Hv Hr. unfold wpdk_sem_init. rewrite (proj2 (Z.ltb_ge _ _)) by lia. cbn [negb orb Z.eqb].
  rewrite bind_run. unfold on_world. pose proof (create_law value (ks_world p) Hv) as H.
  destruct (CreateSemaphore _ _ _) as [h w]. cbn [fst snd].
  destruct H as [[-> H]|(Hh & Hf & H)]; [cbn; by left|].
  rewrite (proj2 (Z.eqb_neq _ _) Hh). unfold ret. right. exists (Sem h). cbn [sem_h].
  pose proof (run_refines (Sem h) cs value rs n (Ksys (ks_errno p) (ks_freq p) w) Hh) as Hrun.
  unfold counts in *. cbn [ks_world sem_h] in *. rewrite H in Hrun.
  specialize (Hrun ltac:(apply lookup_insert_eq) Hr).
  destruct (run_sems _ _ _) as [rs' q]. destruct Hrun as [-> Hq]. cbn [fst snd].
  rewrite insert_insert_eq in Hq. by rewrite Hq.
Qed.
End Props.

(** ** Windows semaphores as counts *)
Module SimpleSem.
Definition w : Type := gmap Z Z.
#[export] Instance clock : ClockApi w := {|
  QueryPerformanceFrequency _ := 10000000; QueryPerformanceCounter := ret 0;
  GetSystemTimePreciseAsFileTime := ret unix_epoch; w_LastError _ := 298 |}.
Definition create (v _ : Z) : C w Z := fun m =>
  let h := fresh ({[0]} ∪ dom m) in (h, <[h := v]> m).
Definition release (h i : Z) : C w Z := fun m : gmap Z Z =>
  match m !! h with
  | Some n => if n <? INT_MAX then (1, <[h := n + i]> m) else (0, m)
  | None => (0, m)
  end.
Definition wait (h ms : Z) : C w Z := fun m : gmap Z Z =>
  match m !! h with
  | Some n => if 0 <? n then (WAIT_OBJECT_0, <[h := n - 1]> m) else (WAIT_TIMEOUT, m)
  | None => (WAIT_FAILED, m)
  end.
#[export] Instance api : SemApi w := {|
  CreateSemaphore := create; ReleaseSemaphore := release; WaitForSingleObject := wait;
  CloseHandle h := fun m : gmap Z Z => (tt, delete h m) |}.
#[export] Instance laws : SemLaws w.
Proof.
  refine {| sem_counts := fun m : w => (m : gmap Z Z) |}.
  - intros v m _. cbn. unfold create. set (h := fresh _). right.
    assert (h ∉ {[0]} ∪ dom m) as Hf by apply is_fresh.
    split_and!; [set_solver|apply not_elem_of_dom; set_solver|done].
  - intros h n m Hn. cbn. unfold release. rewrite Hn. by destruct (n <? INT_MAX).
  - intros h n ms m Hn. cbn. unfold wait. rewrite Hn. by destruct (0 <? n).
  - done.
Defined.
End SimpleSem.
Import SimpleSem.

Lemma semaphore_counter_witness :
  let '((rc, sem), q) := wpdk_sem_init (W := w) true 0 1 (Ksys 0 0 ∅) in
  (rc = -1 /\ counts q = ∅) \/
  exists s, rc = 0 /\ fst (run_sems s [SWait; STryWait; SPost; SPost] q) = [0; -1; 0; 0].
Proof.
  pose proof (semaphore_counter (W := w) (Ksys 0 0 ∅) 1 [SWait; STryWait; SPost; SPost] [0; -1; 0; 0] 2
    ltac:(unfold INT_MAX; lia) eq_refl) as H.
  destruct (wpdk_sem_init true 0 1 (Ksys 0 0 ∅)) as [[rc sem] q].
  destruct H as [H|(s & H1 & _ & _ & H2 & _)]; [by left|right; exists s; by split].
Defined.
End Semaphore.
