(* ===== verification/Timed.v ===== *)
(** * Timed: waits with an absolute time (src/src/pthread.c, semaphore.c and time.c together)

    [pthread_cond_timedwait] and [sem_timedwait] convert the absolute time with
    [wpdk_abstime_to_msecs] and hand the delay to Windows.  The class [TimedLaws] says what
    Windows documents of a wait: one that times out has taken the delay, up to the resolution
    of the system clock.  The theorem is about the whole calls: the delay they pass on, what
    they return and when. *)

From S2P Require Import Prelude Errno CString PathMap Proc Clock Semaphore Pthread.

Module Export Timed.
Local Open Scope Z_scope.

(** The time the system clock shows, in units of 100 ns, its resolution, and what a wait does to it. *)
Class TimedLaws (W : Type) `{!ClockApi W, !WinError W, !ThreadApi W, !SemApi W, !SemLaws W} := {
  now : W -> Z;
  resolution : Z;
  clock_law : forall w, let '(t, w') := GetSystemTimePreciseAsFileTime w in t = now w /\ now w <= now w' /\ sem_counts w' = sem_counts w;
  sleep_law : forall c m ms w, let '(rc, w') := SleepConditionVariableCS c m ms w in
    now w <= now w' /\ (rc = 0 -> w_GetLastError w' = ERROR_TIMEOUT -> now w + ms * 10000 - resolution <= now w');
  object_law : forall h ms w, let '(rc, w') := WaitForSingleObject h ms w in
    now w <= now w' /\ (rc = WAIT_TIMEOUT -> now w + ms * 10000 - resolution <= now w')
}.

Section Waits.
Context {W : Type} `{!ClockApi W, !WinError W, !ThreadApi W, !SemApi W, !SemLaws W}.

(** A function of time.c called from pthread.c: they share errno and Windows.  The conversion reads CLOCK_REALTIME,
    which does not use the static [freq]. *)
Definition in_time_c {A} (m : C (ksys W) A) : C (proc W) A := fun p =>
  let '(a, s) := m (Ksys (pr_errno p) 0 (world p)) in
  (a, Proc (ks_errno s) (pr_ready p) (pr_fds p) (pr_addr p) (pr_epolls p) (pr_paths p) (ks_world s)).

Definition cond_timedwait (cond mutex : Z) (abstime : timespec) : C (proc W) Z :=
  wpdk_pthread_cond_timedwait (in_time_c (wpdk_abstime_to_msecs abstime)) cond mutex.

(** The nanoseconds since 1970 the clock shows. *)
Context {TL : TimedLaws W}.
Definition clock_nanos (w : W) : Z := (now w - unix_epoch) * 100.

(** The conversion, as both callers use it: the delay, or the error. *)
Lemma delay_run abstime s : clock_range (now (ks_world s)) -> valid_time abstime ->
  let left := nanos abstime - clock_nanos (ks_world s) in
  exists r s', wpdk_abstime_to_msecs abstime s = (r, s') /\ now (ks_world s) <= now (ks_world s') /\ counts s' = counts s /\
  match r with
  | Some ms => 0 <= ms < 1000000000 /\ left - 1000000 < ms * 1000000 /\ (0 < ms -> ms * 1000000 < left + 1000000)
  | None => 999999999 * 1000000 < left /\ ks_errno s' = EINVAL
  end.
Proof.
  intros Hr Ha. pose proof (clock_law (ks_world s)) as Hc. destruct (GetSystemTimePreciseAsFileTime (ks_world s)) as [t w] eqn:E.
  destruct Hc as (-> & Hm & Hk). pose proof (abstime_delay abstime s (now (ks_world s)) w E Hr Ha) as H. cbv zeta in *. fold (clock_nanos (ks_world s)) in H.
  assert (ks_world (snd (wpdk_abstime_to_msecs abstime s)) = w) as Hw.
  { unfold wpdk_abstime_to_msecs. rewrite bind_run, realtime_run, E. cbv zeta. cbn [fst snd]. by destruct (1000000000 <=? _). }
  destruct (wpdk_abstime_to_msecs abstime s) as [r s']. cbn [snd] in Hw. exists r, s'. unfold counts. rewrite Hw. split_and!; [done|done|done|].
  destruct r as [ms|]; [|exact H]. destruct H as (H1 & H2 & H3). destruct (Z.le_gt_cases (nanos abstime - clock_nanos (ks_world s)) 0); [rewrite H2 by done; lia|]. lia.
Qed.

(** The earliest time, in nanoseconds, at which a wait until [abstime] times out. *)
Definition earliest (abstime : timespec) : Z := nanos abstime - 1000000 - resolution * 100.

(** A wait that begins after the conversion and takes the delay ends, at the earliest, a millisecond and the resolution of
    the clock before the time. *)
Lemma waited_until abstime ms (w0 w1 w2 : W) : nanos abstime - clock_nanos w0 - 1000000 < ms * 1000000 ->
  now w0 <= now w1 -> now w1 + ms * 10000 - resolution <= now w2 -> earliest abstime < clock_nanos w2.
Proof. unfold clock_nanos, earliest. lia. Qed.

(** The time is too far away, or close enough for the conversion: both hold within one millisecond of the limit. *)
Definition too_far (abstime : timespec) (w : W) : Prop := 999999999 * 1000000 < nanos abstime - clock_nanos w.
Definition in_reach (abstime : timespec) (w : W) : Prop := nanos abstime - clock_nanos w < 1000000000 * 1000000.
(** A delay of [ms] milliseconds ends at the time, rounded to a millisecond; it is 0 when the time has passed. *)
Definition right_delay (abstime : timespec) (w : W) (ms : Z) : Prop :=
  let left := nanos abstime - clock_nanos w in
  0 <= ms /\ left - 1000000 < ms * 1000000 /\ (0 < ms -> ms * 1000000 < left + 1000000).

Lemma cond_timedwait_run cond mutex abstime (p : proc W) : cond <> 0 -> mutex <> 0 -> clock_range (now (world p)) -> valid_time abstime ->
  let '(rc, p') := cond_timedwait cond mutex abstime p in
  (too_far abstime (world p) /\ rc = EINVAL) \/
  (in_reach abstime (world p) /\ exists ms w1, now (world p) <= now w1 /\ right_delay abstime (world p) ms /\
    let '(ok, w2) := SleepConditionVariableCS cond mutex ms w1 in
    world p' = w2 /\
    if (ok =? 0) && (w_GetLastError w2 =? ERROR_TIMEOUT) then rc = ETIMEDOUT /\ earliest abstime < clock_nanos w2 else rc = 0).
Proof.
  intros Hc Hm Hr Ha. destruct (delay_run abstime (Ksys (pr_errno p) 0 (world p)) Hr Ha) as (r & s' & E & Hn & _ & H). cbn [ks_world] in *.
  unfold cond_timedwait, wpdk_pthread_cond_timedwait. rewrite bind_run. unfold in_time_c. rewrite E. destruct r as [ms|]; [|cbn; destruct H as [H ->]; auto].
  destruct H as (H1 & H2 & H3). cbn [fst snd]. unfold wpdk_cond_wait. rewrite (proj2 (Z.eqb_neq cond 0)), (proj2 (Z.eqb_neq mutex 0)) by done. cbn [orb].
  rewrite bind_run, lift_run. cbn [world]. pose proof (sleep_law cond mutex ms (ks_world s')) as Hs.
  destruct (SleepConditionVariableCS cond mutex ms (ks_world s')) as [ok w2] eqn:Ew. cbn [fst snd]. destruct Hs as [Hs1 Hs2].
  assert (in_reach abstime (world p)) as Hin by (unfold in_reach; lia).
  destruct (Z.eqb_spec ok 0) as [->|Hok]; cbn [negb].
  - unfold GetLastError, proc_last_error. cbn [world ret]. destruct (Z.eqb_spec (w_GetLastError w2) ERROR_TIMEOUT) as [Et|Et]; right; (split; [done|]);
      exists ms, (ks_world s'); (split; [done|]); (split; [split_and!; [lia|lia|exact H3]|]); rewrite Ew; (split; [done|]).
    + rewrite Et, !Z.eqb_refl. cbn [andb]. split; [cbn [world]; by rewrite Et, Z.eqb_refl|]. apply (waited_until abstime ms (world p) (ks_world s')); [lia|done|auto].
    + cbn [world]. by rewrite (proj2 (Z.eqb_neq _ _) Et), andb_false_r.
  - right. split; [done|]. exists ms, (ks_world s'). split; [done|]. split; [split_and!; [lia|lia|exact H3]|]. rewrite Ew. split; [done|].
    by rewrite (proj2 (Z.eqb_neq _ _) Hok).
Qed.

Lemma sem_timedwait_run (sem : sem_t) n abstime (s : ksys W) : sem_h sem <> 0 -> counts s !! sem_h sem = Some n -> clock_range (now (ks_world s)) -> valid_time abstime ->
  let '(rc, s') := wpdk_sem_timedwait (Some sem) abstime s in
  (too_far abstime (ks_world s) /\ rc = -1 /\ ks_errno s' = EINVAL /\ counts s' = counts s) \/
  (in_reach abstime (ks_world s) /\
   if 0 <? n then rc = 0 /\ counts s' = <[sem_h sem := n - 1]> (counts s)
   else rc = -1 /\ ks_errno s' = EAGAIN /\ counts s' = counts s /\ earliest abstime < clock_nanos (ks_world s')).
Proof.
  intros Hh Hn Hr Ha. destruct (delay_run abstime s Hr Ha) as (r & s1 & E & Ht & Hk & H). unfold wpdk_sem_timedwait. rewrite bind_run, E.
  destruct r as [ms|]; [|cbn; unfold too_far; naive_solver]. cbn [fst snd]. rewrite <- Hk in Hn. pose proof (wait_law (sem_h sem) n ms (ks_world s1) Hn) as Hw.
  pose proof (object_law (sem_h sem) ms (ks_world s1)) as Ho. destruct (WaitForSingleObject (sem_h sem) ms (ks_world s1)) as [rc w2] eqn:Ew.
  assert (wpdk_wait_sem (Some sem) ms s1 = if 0 <? n then (0, Ksys (ks_errno s1) (ks_freq s1) w2) else (-1, Ksys EAGAIN (ks_freq s1) w2)) as ->.
  { unfold wpdk_wait_sem, with_sem. rewrite (proj2 (Z.eqb_neq _ _) Hh), bind_run. unfold on_world. rewrite Ew. cbn [fst snd].
    destruct (0 <? n); [by destruct Hw as [-> _]|]. by destruct (Hw ltac:(unfold Semaphore.INFINITE; lia)) as [-> _]. }
  assert (in_reach abstime (ks_world s)) as Hin by (unfold in_reach; lia).
  unfold counts in *. destruct (Z.ltb_spec 0 n) as [Hp|Hp]; cbn [ks_world ks_errno]; right; (split; [done|]).
  - destruct Hw as [_ ->]. by rewrite Hk.
  - destruct (Hw ltac:(unfold Semaphore.INFINITE; lia)) as [-> ->]. rewrite Hk. split_and!; [done..|].
    apply (waited_until abstime ms (ks_world s) (ks_world s1)); [lia|done|by apply Ho].
Qed.

(** C23: a wait until an absolute time, between 1970 and 2038.  [pthread_cond_timedwait] refuses a time at least 1000000000 ms
    away with EINVAL, and none that is at most 999999999 ms away.  Otherwise it waits once, with a delay that ends within a millisecond of the time,
    and returns ETIMEDOUT exactly when that wait timed out, and 0 when it ended in another way; it does not time out earlier than a millisecond and the
    resolution of the clock before the time.  [sem_timedwait] refuses the same times; otherwise it takes one from a
    count that is not 0, and fails with EAGAIN and the count unchanged when it is, not earlier than that either. *)
Theorem timed_waits (abstime : timespec) (cond mutex : Z) (p : proc W) (sem : sem_t) (n : Z) (s : ksys W) :
  valid_time abstime -> cond <> 0 -> mutex <> 0 -> clock_range (now (world p)) ->
  sem_h sem <> 0 -> counts s !! sem_h sem = Some n -> clock_range (now (ks_world s)) ->
  (let '(rc, p') := cond_timedwait cond mutex abstime p in
   (too_far abstime (world p) /\ rc = EINVAL) \/
   (in_reach abstime (world p) /\ exists ms w1, now (world p) <= now w1 /\ right_delay abstime (world p) ms /\
     let '(ok, w2) := SleepConditionVariableCS cond mutex ms w1 in
     world p' = w2 /\
     if (ok =? 0) && (w_GetLastError w2 =? ERROR_TIMEOUT) then rc = ETIMEDOUT /\ earliest abstime < clock_nanos w2 else rc = 0)) /\
  (let '(rc, s') := wpdk_sem_timedwait (Some sem) abstime s in
   (too_far abstime (ks_world s) /\ rc = -1 /\ ks_errno s' = EINVAL /\ counts s' = counts s) \/
   (in_reach abstime (ks_world s) /\
    if 0 <? n then rc = 0 /\ counts s' = <[sem_h sem := n - 1]> (counts s)
    else rc = -1 /\ ks_errno s' = EAGAIN /\ counts s' = counts s /\ earliest abstime < clock_nanos (ks_world s'))).
Proof. intros. split; [by apply cond_timedwait_run|by apply sem_timedwait_run]. Qed.
End Waits.

(** Less than a millisecond left is no time left. *)
Example delay_rounds_down : remaining_msecs (Timespec 1 2499900) (Timespec 1 1500000) = 0.
Proof. reflexivity. Qed.

(** ** A system whose only time is spent waiting: the clock, the semaphores and the last error *)
Module TimedSim.
Record w := World { tm : Z; sems : gmap Z Z; err : Z }.
#[export] Instance clock : ClockApi w := {|
  QueryPerformanceFrequency _ := 10000000; QueryPerformanceCounter := ret 0;
  GetSystemTimePreciseAsFileTime x := (tm x, World (tm x + 1) (sems x) (err x)); w_LastError := err |}.
#[export] Instance last_error : WinError w := err.
(** Nobody wakes the thread; the clock advances in ticks of 15 ms, and a wait can end up to a tick early. *)
Definition sleep (ms : Z) (x : w) : w := World (tm x + Z.max 0 (ms * 10000 - 150000)) (sems x) ERROR_TIMEOUT.
Definition wait_object (h ms : Z) (x : w) : Z * w :=
  match sems x !! h with
  | Some n => if 0 <? n then (WAIT_OBJECT_0, World (tm x) (<[h := n - 1]> (sems x)) (err x)) else (WAIT_TIMEOUT, sleep ms x)
  | None => (WAIT_FAILED, x)
  end.
#[export] Instance threads_api : ThreadApi w := {|
  SleepConditionVariableCS _ _ ms x := (0, sleep ms x);
  EnterCriticalSection _ := ret tt; TryEnterCriticalSection _ := ret 1; LeaveCriticalSection _ := ret tt;
  DeleteCriticalSection _ := ret tt; InitializeCriticalSectionAndSpinCount _ _ := ret 1; init_mutex _ := ret tt;
  InitializeSynchronizationBarrier _ _ _ := ret 1; DeleteSynchronizationBarrier _ := ret tt;
  EnterSynchronizationBarrier _ := ret 1; InitializeConditionVariable _ := ret tt; WakeConditionVariable _ := ret tt;
  WakeAllConditionVariable _ := ret tt; OpenThread _ t := ret t;
  Pthread.CloseHandle _ := ret tt; SetThreadAffinityMask _ _ := ret 0; description_api _ := false;
  SetThreadDescription _ _ := ret 0; GetThreadDescription _ := ret (0, []);
  TlsAlloc := ret 1; TlsFree _ := ret 1; TlsGetValue _ := ret 0; TlsSetValue _ _ := ret 1 |}.
#[export] Instance sem_api : SemApi w := {|
  CreateSemaphore v _ x := let h := fresh ({[0]} ∪ dom (sems x)) in (h, World (tm x) (<[h := v]> (sems x)) (err x));
  ReleaseSemaphore h i x := match sems x !! h with
    | Some n => if n <? INT_MAX then (1, World (tm x) (<[h := n + i]> (sems x)) (err x)) else (0, x)
    | None => (0, x) end;
  WaitForSingleObject := wait_object;
  Semaphore.CloseHandle h x := (tt, World (tm x) (delete h (sems x)) (err x)) |}.
#[export] Instance sem_laws : SemLaws w.
Proof.
  refine {| sem_counts := sems |}.
  - intros v x _. cbn. set (h := fresh _). right. assert (h ∉ {[0]} ∪ dom (sems x)) as Hf by apply is_fresh.
    split_and!; [set_solver|apply not_elem_of_dom; set_solver|done].
  - intros h n x Hn. cbn. rewrite Hn. by destruct (n <? INT_MAX).
  - intros h n ms x Hn. cbn. unfold wait_object. rewrite Hn. by destruct (0 <? n).
  - done.
Defined.
#[export] Instance timed_laws : TimedLaws w.
Proof.
  refine {| now := tm; resolution := 150000 |}.
  - intros x. cbn. split_and!; [done|lia|done].
  - intros c m ms x. cbn. lia.
  - intros h ms x. cbn. unfold wait_object. destruct (sems x !! h) as [n|]; [|cbn; split; [lia|done]].
    destruct (0 <? n); cbn; split; try lia; done.
Defined.
(** One second and 1.5 ms after the epoch, with semaphore 7 at 0. *)
Definition w0 : w := World (unix_epoch + 10015000) {[7 := 0]} 0.
End TimedSim.
Import TimedSim.

Lemma timed_waits_witness :
  fst (cond_timedwait (W := w) 64 96 (Timespec 3 0) (proc0 w0)) = ETIMEDOUT /\
  now (world (snd (cond_timedwait (W := w) 64 96 (Timespec 3 0) (proc0 w0)))) = unix_epoch + 29855001 /\
  let '(rc, s') := wpdk_sem_timedwait (W := w) (Some (Sem 7)) (Timespec 3 0) (Ksys 0 0 w0) in
   (too_far (Timespec 3 0) w0 /\ rc = -1 /\ ks_errno s' = EINVAL /\ counts s' = counts (Ksys 0 0 w0)) \/
   (in_reach (Timespec 3 0) w0 /\ rc = -1 /\ ks_errno s' = EAGAIN /\ counts s' = counts (Ksys 0 0 w0) /\
    earliest (W := w) (Timespec 3 0) < clock_nanos (ks_world s')).
Proof.
  split_and!; [vm_compute; reflexivity..|].
  apply (timed_waits (W := w) (Timespec 3 0) 64 96 (proc0 w0) (Sem 7) 0 (Ksys 0 0 w0));
    [split; cbn; lia|done|done|unfold clock_range, now, w0; cbn; lia|done|vm_compute; reflexivity|unfold clock_range, now, w0; cbn; lia].
Defined.
End Timed.
