(* ===== verification/Signal.v ===== *)
(** * Signal: signal sets, actions and delivery (src/src/signal.c, src/inc/signal.h)

    The actions are kept in a table of our own; the C runtime is only told to
    call [wpdk_signal_handler], the default or nothing.  The C runtime's
    [signal] and its delivery are modelled by the disposition of each signal:
    it is reset to the default before a handler is called.  The critical
    section makes each function one step. *)

From S2P Require Import Prelude Errno.

Module Export Signal.
Local Open Scope Z_scope.

(** The numbers of the Windows C runtime. *)
Definition NSIG : Z := 23.
Definition SIGINT : Z := 2.
Definition SIGILL : Z := 4.
Definition SIGFPE : Z := 8.
Definition SIGSEGV : Z := 11.
Definition SIGTERM : Z := 15.
Definition SIGABRT : Z := 22.
Definition SA_SIGINFO : Z := 1.
Definition SA_RESETHAND : Z := 2.

(** A handler: [SIG_DFL], [SIG_IGN], or the address of a function; [Wpdk] is
    [wpdk_signal_handler] itself, [SigErr] is [SIG_ERR]. *)
Inductive sighandler_t := SIG_DFL | SIG_IGN | SigErr | Wpdk | User (f : Z).
#[export] Instance sighandler_eq_dec : EqDecision sighandler_t.
Proof. solve_decision. Defined.

(** [struct sigaction]; the two handlers share their storage. *)
Record sigaction := Sigaction { sa_handler : sighandler_t; sa_mask : Z; sa_flags : Z }.
Definition wpdk_sig_default : sigaction := Sigaction SIG_DFL 0 0.

(** errno, [wpdk_signals], and the C runtime's disposition of each signal. *)
Record sig_state := SigState {
  sg_errno : Z; wpdk_signals : list sigaction; disposition : Z -> sighandler_t
}.
#[export] Instance sig_errno : HasErrno sig_state.
Proof.
  refine {| errno := sg_errno; set_errno := fun e s => SigState e (wpdk_signals s) (disposition s) |}.
  reflexivity.
Defined.
Local Abbreviation P := (C sig_state).
Local Open Scope c_scope.

(** ** Sets: [None] is a null pointer; the result and the bits as they are left *)

Definition bad_signo (signo : Z) : bool := (signo <? 1) || (NSIG <=? signo).
Definition with_set (set : option Z) (f : Z -> Z) : P (Z * option Z) :=
  match set with
  | None => let* rc := wpdk_posix_error EINVAL in ret (rc, None)
  | Some bits => ret (0, Some (f bits))
  end.

Definition wpdk_sigemptyset (set : option Z) : P (Z * option Z) := with_set set (fun _ => 0).
Definition wpdk_sigfillset (set : option Z) : P (Z * option Z) :=
  with_set set (fun _ => u32 (Z.shiftl 1 (NSIG - 1) - 1)).
Definition wpdk_sigaddset (set : option Z) (signo : Z) : P (Z * option Z) :=
  if bad_signo signo then let* rc := wpdk_posix_error EINVAL in ret (rc, set)
  else with_set set (fun bits => Z.lor bits (Z.shiftl 1 (signo - 1))).
Definition wpdk_sigdelset (set : option Z) (signo : Z) : P (Z * option Z) :=
  if bad_signo signo then let* rc := wpdk_posix_error EINVAL in ret (rc, set)
  else with_set set (fun bits => u32 (Z.land bits (Z.lnot (Z.shiftl 1 (signo - 1))))).
Definition wpdk_sigismember (set : option Z) (signo : Z) : P Z :=
  match set with
  | None => wpdk_posix_error EINVAL
  | Some bits =>
      if bad_signo signo then wpdk_posix_error EINVAL
      else ret (if Z.land bits (Z.shiftl 1 (signo - 1)) =? 0 then 0 else 1)
  end.

(** ** Actions *)

Definition action (st : sig_state) (sig : Z) : sigaction := nth (Z.to_nat sig) (wpdk_signals st) wpdk_sig_default.
Definition set_action (sig : Z) (a : sigaction) (st : sig_state) : sig_state :=
  SigState (sg_errno st) (<[Z.to_nat sig := a]> (wpdk_signals st)) (disposition st).
Definition set_disposition (sig : Z) (h : sighandler_t) (st : sig_state) : sig_state :=
  SigState (sg_errno st) (wpdk_signals st) (fun s => if s =? sig then h else disposition st s).

(** The signals whose disposition the code sets; the C runtime's [signal] accepts
    them and returns the disposition before. *)
Definition runtime_signal (sig : Z) : bool :=
  (sig =? SIGABRT) || (sig =? SIGFPE) || (sig =? SIGILL) || (sig =? SIGINT) || (sig =? SIGSEGV) || (sig =? SIGTERM).
Definition signal (sig : Z) (h : sighandler_t) : P sighandler_t := fun st =>
  if runtime_signal sig then (disposition st sig, set_disposition sig h st) else (SigErr, st).

(** [act] is [None] for a null pointer; [oact], if not null, gets the second
    result, which is [None] when the call fails before it is written. *)
Definition wpdk_sigaction (sig : Z) (act : option sigaction) : P (Z * option sigaction) :=
  if bad_signo sig then let* rc := wpdk_posix_error EINVAL in ret (rc, None)
  else
    let* old := gets (fun st => action st sig) in
    match act with
    | None => ret (0, Some old)
    | Some a =>
        modify (set_action sig a) ;;
        if runtime_signal sig then
          let handler := if bool_decide (sa_handler a = SIG_DFL) || bool_decide (sa_handler a = SIG_IGN)
                         then sa_handler a else Wpdk in
          let* r := signal sig handler in
          ret (if bool_decide (r = SigErr) then -1 else 0, Some old)
        else ret (0, Some old)
    end.

Definition wpdk_signal (sig : Z) (handler : sighandler_t) : P sighandler_t :=
  let* '(rc, oact) := wpdk_sigaction sig (Some (Sigaction handler 0 SA_RESETHAND)) in
  ret (if rc =? -1 then SigErr else match oact with Some o => sa_handler o | None => SIG_DFL end).

(** What a delivery does to the program. *)
Inductive delivery :=
  | Nothing
  | Terminates
  | Calls (h : sighandler_t) (sig : Z)             (** [sa_handler(sig)] *)
  | CallsInfo (h : sighandler_t) (sig : Z).        (** [sa_sigaction(sig, &info, &context)] *)

(** The warning about a failure to re-instate is not an effect on the state. *)
Definition wpdk_signal_handler (sig : Z) : P delivery :=
  if bad_signo sig then ret Nothing
  else
    let* act := gets (fun st => action st sig) in
    (if negb (Z.land (sa_flags act) SA_RESETHAND =? 0) then modify (set_action sig wpdk_sig_default)
     else let* _ := signal sig Wpdk in ret tt) ;;
    if Z.land (sa_flags act) SA_SIGINFO =? 0 then
      match sa_handler act with
      | SIG_IGN => ret Nothing
      | SIG_DFL => ret Terminates
      | h => ret (Calls h sig)
      end
    else ret (CallsInfo (sa_handler act) sig).

(** How the C runtime delivers a signal that occurs or is raised. *)
Definition deliver (sig : Z) : P delivery :=
  let* h := gets (fun st => disposition st sig) in
  match h with
  | SIG_IGN => ret Nothing
  | Wpdk => modify (set_disposition sig SIG_DFL) ;; wpdk_signal_handler sig
  | User f => modify (set_disposition sig SIG_DFL) ;; ret (Calls h sig)
  | _ => ret Terminates
  end.

(** [raise] of the C runtime. *)
Definition raise (sig : Z) : P (Z * delivery) :=
  if runtime_signal sig then let* d := deliver sig in ret (0, d)
  else let* rc := wpdk_posix_error EINVAL in ret (rc, Nothing).

Definition wpdk_pthread_sigmask (oset : option Z) : P (Z * option Z) :=
  let* r := match oset with Some _ => wpdk_sigemptyset oset | None => ret (0, None) end in
  ret (0, snd r).

(** [self] is [wpdk_getpid()]; [event] whether the event of the other process
    could be opened and set. *)
Definition wpdk_kill (self pid sig : Z) (event : bool) : P (Z * delivery) :=
  if (pid =? 0) || (pid =? -1) || (pid =? self) || (- pid =? self) then
    if sig =? 0 then ret (0, Nothing) else raise sig
  else if event then ret (0, Nothing)
  else let* rc := wpdk_posix_error ENOSYS in ret (rc, Nothing).

(** The signals other processes can send. *)
Definition wpdk_siglist : list Z := [SIGINT; SIGTERM].
Local Close Scope c_scope.

(** ** Sets of signals *)

Definition in_set (bits signo : Z) : bool := Z.testbit bits (signo - 1).
Definition valid_signo (signo : Z) : Prop := 1 <= signo < NSIG.
Definition valid_bits (bits : Z) : Prop := 0 <= bits < 2 ^ 32.

Lemma bad_signo_false signo : valid_signo signo -> bad_signo signo = false.
Proof. unfold valid_signo, bad_signo. intros. apply orb_false_iff. rewrite Z.ltb_ge, Z.leb_gt. lia. Qed.

Lemma ismember_run bits signo st : valid_signo signo ->
  wpdk_sigismember (Some bits) signo st = (if in_set bits signo then 1 else 0, st).
Proof.
  intros H. unfold wpdk_sigismember. rewrite (bad_signo_false _ H). unfold in_set, valid_signo in *.
  rewrite Z.shiftl_1_l, land_pow2_eqb by lia. by destruct (Z.testbit _ _).
Qed.

Lemma testbit_pow2 s t : valid_signo s -> valid_signo t -> Z.testbit (Z.shiftl 1 (s - 1)) (t - 1) = bool_decide (t = s).
Proof.
  unfold valid_signo. intros. rewrite Z.shiftl_1_l, Z.pow2_bits_eqb by lia.
  destruct (Z.eqb_spec (s - 1) (t - 1)); case_bool_decide; lia || done.
Qed.

(** The functions on signal sets are those of sets of the signals 1 to
    NSIG - 1: empty and full set, insertion, removal and membership, and the bits
    stay a 32-bit value. *)
Theorem sigset_is_a_set (bits s t : Z) (st : sig_state) :
  valid_bits bits -> valid_signo s -> valid_signo t ->
  let member b := fst (wpdk_sigismember (Some b) t st) in
  let as_int (b : bool) := if b then 1 else 0 in
  exists e f a d,
    fst (wpdk_sigemptyset (Some bits) st) = (0, Some e) /\ member e = 0 /\
    fst (wpdk_sigfillset (Some bits) st) = (0, Some f) /\ member f = 1 /\
    fst (wpdk_sigaddset (Some bits) s st) = (0, Some a) /\ member a = as_int (bool_decide (t = s) || (member bits =? 1)) /\
    fst (wpdk_sigdelset (Some bits) s st) = (0, Some d) /\ member d = as_int (negb (bool_decide (t = s)) && (member bits =? 1)) /\
    valid_bits a /\ valid_bits d.
Proof.
  intros Hb Hs Ht. cbv zeta.
  exists 0, (u32 (Z.shiftl 1 (NSIG - 1) - 1)), (Z.lor bits (Z.shiftl 1 (s - 1))),
    (u32 (Z.land bits (Z.lnot (Z.shiftl 1 (s - 1))))).
  unfold wpdk_sigaddset, wpdk_sigdelset. rewrite !(bad_signo_false s Hs), !ismember_run by done. cbn [fst].
  unfold in_set, valid_signo, valid_bits in *.
  pose proof (uwrap_range 32 (Z.land bits (Z.lnot (Z.shiftl 1 (s - 1)))) ltac:(lia)) as Hd.
  split_and!; try done.
  - rewrite Z.bits_0. done.
  - change (u32 (Z.shiftl 1 (NSIG - 1) - 1)) with (Z.ones 22). unfold NSIG in *.
    by rewrite Z.ones_spec_low by lia.
  - rewrite Z.lor_spec, testbit_pow2, orb_comm by done. by destruct (bool_decide _), (Z.testbit bits _).
  - unfold uwrap. rewrite Z.mod_pow2_bits_low by (unfold NSIG in *; lia).
    rewrite Z.land_spec, Z.lnot_spec, testbit_pow2 by (done || lia). by destruct (bool_decide _), (Z.testbit bits _).
  - apply Z.lor_nonneg. rewrite Z.shiftl_nonneg. lia.
  - rewrite Z.shiftl_1_l. apply Z.log2_lt_cancel. rewrite Z.log2_lor by (try apply Z.pow_nonneg; lia).
    change (Z.log2 (2 ^ 32)) with 32. rewrite Z.log2_pow2 by (unfold NSIG in *; lia). apply Z.max_lub_lt; [|unfold NSIG in *; lia].
    destruct (Z.eq_dec bits 0) as [->|]; [cbn; lia|]. apply Z.log2_lt_pow2; lia.
  - apply Hd.
  - apply Hd.
Qed.

(** ** Delivery *)

Definition sig_ok (st : sig_state) : Prop := length (wpdk_signals st) = Z.to_nat NSIG.

(** The action is in the table and the C runtime calls us. *)
Definition installed (sig : Z) (a : sigaction) (st : sig_state) : Prop :=
  sig_ok st /\ action st sig = a /\ disposition st sig = Wpdk.

Definition others_kept (sig : Z) (st st' : sig_state) : Prop :=
  forall s, 0 <= s -> s <> sig -> action st' s = action st s /\ disposition st' s = disposition st s.

Lemma runtime_valid sig : runtime_signal sig = true -> valid_signo sig.
Proof.
  unfold runtime_signal, valid_signo, NSIG, SIGABRT, SIGFPE, SIGILL, SIGINT, SIGSEGV, SIGTERM.
  intros H. bool_prop. lia.
Qed.

Lemma action_set sig a s st : valid_signo sig -> 0 <= s -> sig_ok st ->
  action (set_action sig a st) s = if s =? sig then a else action st s.
Proof.
  unfold valid_signo, sig_ok, action, set_action. cbn. intros H Hs Hl. rewrite !nth_lookup.
  destruct (Z.eqb_spec s sig) as [->|]; [by rewrite list_lookup_insert_eq by lia|].
  by rewrite list_lookup_insert_ne by lia.
Qed.

Lemma set_action_ok sig a st : sig_ok st -> sig_ok (set_action sig a st).
Proof. unfold sig_ok, set_action. cbn. by rewrite length_insert. Qed.

Fixpoint deliver_times (n : nat) (sig : Z) (st : sig_state) : list delivery * sig_state :=
  match n with
  | O => ([], st)
  | S n => let '(d, st) := deliver sig st in
           let '(ds, st) := deliver_times n sig st in (d :: ds, st)
  end.

Definition call_of (a : sigaction) (sig : Z) : delivery :=
  if Z.land (sa_flags a) SA_SIGINFO =? 0 then Calls (sa_handler a) sig else CallsInfo (sa_handler a) sig.

Lemma sigaction_installs sig a f st : runtime_signal sig = true -> sig_ok st ->
  sa_handler a = User f -> disposition st sig <> SigErr ->
  let '((rc, old), st') := wpdk_sigaction sig (Some a) st in
  rc = 0 /\ old = Some (action st sig) /\ installed sig a st' /\ others_kept sig st st'.
Proof.
  intros Hr Hok Hf Hd. pose proof (runtime_valid _ Hr) as Hv. unfold wpdk_sigaction.
  rewrite (bad_signo_false _ Hv), !bind_run. cbn [gets modify fst snd]. rewrite Hr, Hf.
  do 2 (case_bool_decide; [done|]). cbn [orb]. rewrite bind_run. unfold signal. rewrite Hr. cbn [fst snd].
  rewrite bool_decide_eq_false_2 by done. unfold ret.
  split_and!; [done|done| |].
  - split_and!; [by apply set_action_ok| |cbn; by rewrite Z.eqb_refl].
    unfold valid_signo in Hv. change (action _ sig) with (action (set_action sig a st) sig).
    by rewrite action_set, Z.eqb_refl by (done || lia).
  - intros s Hs Hne. change (action _ s) with (action (set_action sig a st) s) at 1. rewrite action_set by done.
    cbn. by rewrite (proj2 (Z.eqb_neq _ _) Hne).
Qed.

(** A delivery calls the handler and, unless SA_RESETHAND is set, leaves it installed. *)
Lemma deliver_installed sig a f st : runtime_signal sig = true -> installed sig a st -> sa_handler a = User f ->
  let '(d, st') := deliver sig st in
  d = call_of a sig /\ others_kept sig st st' /\
  if Z.land (sa_flags a) SA_RESETHAND =? 0 then installed sig a st'
  else action st' sig = wpdk_sig_default /\ disposition st' sig = SIG_DFL.
Proof.
  intros Hr (Hok & Ha & Hd) Hf. pose proof (runtime_valid _ Hr) as Hv. unfold deliver.
  rewrite bind_run. cbn [gets fst snd]. rewrite Hd, bind_run. cbn [modify fst snd].
  unfold wpdk_signal_handler. rewrite (bad_signo_false _ Hv), bind_run. cbn [gets fst snd].
  change (action (set_disposition sig SIG_DFL st) sig) with (action st sig). rewrite Ha, bind_run.
  unfold call_of. rewrite Hf.
  destruct (Z.land (sa_flags a) SA_RESETHAND =? 0); cbn [negb].
  - unfold signal. rewrite bind_run, Hr. cbn [fst snd ret].
    assert (forall st', st' = set_disposition sig Wpdk (set_disposition sig SIG_DFL st) ->
      others_kept sig st st' /\ installed sig a st') as Hst.
    { intros st' ->. split; [intros s Hs Hne; cbn; by rewrite (proj2 (Z.eqb_neq _ _) Hne)|].
      split_and!; [done|done|cbn; by rewrite Z.eqb_refl]. }
    destruct (Z.land (sa_flags a) SA_SIGINFO =? 0); (split; [done|by apply Hst]).
  - cbn [modify snd].
    assert (forall st', st' = set_action sig wpdk_sig_default (set_disposition sig SIG_DFL st) ->
      others_kept sig st st' /\ action st' sig = wpdk_sig_default /\ disposition st' sig = SIG_DFL) as Hst.
    { unfold valid_signo in Hv. intros st' ->. split; [|split; [by rewrite action_set, Z.eqb_refl by (done || lia)|cbn; by rewrite Z.eqb_refl]].
      intros s Hs Hne. rewrite action_set by done. cbn. by rewrite (proj2 (Z.eqb_neq _ _) Hne). }
    destruct (Z.land (sa_flags a) SA_SIGINFO =? 0); (split; [done|by apply Hst]).
Qed.

Lemma deliver_many sig a f n : runtime_signal sig = true -> sa_handler a = User f ->
  Z.land (sa_flags a) SA_RESETHAND = 0 -> forall st, installed sig a st ->
  fst (deliver_times n sig st) = replicate n (call_of a sig) /\ installed sig a (snd (deliver_times n sig st)).
Proof.
  intros Hr Hf Hz. induction n as [|n IH]; intros st Hi; [done|]. cbn [deliver_times].
  pose proof (deliver_installed sig a f st Hr Hi Hf) as H. rewrite Hz in H.
  destruct (deliver sig st) as [d st']. destruct H as (-> & _ & Hi'). cbn in Hi'.
  destruct (IH st' Hi') as [E1 E2]. destruct (deliver_times n sig st'). cbn in *. by rewrite E1.
Qed.

(** C24: after [sigaction] with a handler, every delivery of the signal calls the
    handler the way its flags ask for; with SA_RESETHAND the first does, and the
    second takes the default action and ends the program.  The call returns the
    previous action and no other signal is affected. *)
Theorem signal_delivery (sig f : Z) (a : sigaction) (st : sig_state) (n : nat) :
  runtime_signal sig = true -> sig_ok st -> sa_handler a = User f -> disposition st sig <> SigErr ->
  let '((rc, old), st1) := wpdk_sigaction sig (Some a) st in
  rc = 0 /\ old = Some (action st sig) /\ others_kept sig st st1 /\
  if Z.land (sa_flags a) SA_RESETHAND =? 0
  then fst (deliver_times n sig st1) = replicate n (call_of a sig)
  else fst (deliver_times 2 sig st1) = [call_of a sig; Terminates].
Proof.
  intros Hr Hok Hf Hd. pose proof (sigaction_installs sig a f st Hr Hok Hf Hd) as H.
  destruct (wpdk_sigaction sig (Some a) st) as [[rc old] st1]. destruct H as (-> & -> & Hi & Ho).
  split_and!; [done..|]. destruct (Z.eqb_spec (Z.land (sa_flags a) SA_RESETHAND) 0) as [E|E].
  - by apply (deliver_many sig a f).
  - pose proof (deliver_installed sig a f st1 Hr Hi Hf) as H. rewrite (proj2 (Z.eqb_neq _ _) E) in H.
    cbn [deliver_times]. destruct (deliver sig st1) as [d st2]. destruct H as (-> & _ & _ & Hdf).
    unfold deliver, bind, gets. by rewrite Hdf.
Qed.

Definition sig_state0 : sig_state := SigState 0 (replicate (Z.to_nat NSIG) wpdk_sig_default) (fun _ => SIG_DFL).

Lemma sigset_is_a_set_witness :
  valid_bits 5 /\ exists a, fst (wpdk_sigaddset (Some 5) 2 sig_state0) = (0, Some a) /\
    fst (wpdk_sigismember (Some a) 3 sig_state0) = 1.
Proof.
  assert (valid_bits 5) as H by (unfold valid_bits; lia). split; [exact H|].
  destruct (sigset_is_a_set 5 2 3 sig_state0 H ltac:(unfold valid_signo, NSIG; lia) ltac:(unfold valid_signo, NSIG; lia))
    as (e & f & a & d & _ & _ & _ & _ & E1 & E2 & _).
  exists a. split; [exact E1|]. rewrite E2. reflexivity.
Defined.

Lemma signal_delivery_witness :
  fst (deliver_times 3 SIGTERM (snd (wpdk_sigaction SIGTERM (Some (Sigaction (User 7) 0 0)) sig_state0))) =
    replicate 3 (Calls (User 7) SIGTERM).
Proof.
  pose proof (signal_delivery SIGTERM 7 (Sigaction (User 7) 0 0) sig_state0 3 eq_refl eq_refl eq_refl ltac:(discriminate)) as H.
  destruct (wpdk_sigaction SIGTERM (Some (Sigaction (User 7) 0 0)) sig_state0) as [[rc old] st1]. apply H.
Defined.
End Signal.
