(* ===== verification/Fnmatch.v ===== *)
(** * Fnmatch: the pattern matcher of src/src/fnmatch.c

    The loop of [fnmatch] over the rest of the pattern and an index into the
    string, its recursion for [*], and [rangematch] for bracket expressions.  The
    pattern and the string are the characters before their terminators.  Reading
    the string beyond its terminator is the outcome [None], as is running out of
    rounds; [fnmatch_total] shows that neither happens.  The reference is the
    relation [matches], which says what a pattern means without saying how to
    search: [fnmatch_correct] proves the code equivalent to it. *)

From S2P Require Import Prelude CString.
From Stdlib Require Import Ascii.

Module Export Fnmatch.
Local Open Scope nat_scope.

Definition FNM_NOMATCH : Z := 1.
Definition FNM_NOESCAPE : Z := 1.
Definition FNM_PATHNAME : Z := 2.
Definition FNM_PERIOD : Z := 4.
Definition FNM_LEADING_DIR : Z := 8.
Definition FNM_CASEFOLD : Z := 16.
Definition FNM_PREFIX_DIRS : Z := 32.

(** The test [flags & f]. *)
Definition has (flags f : Z) : bool := negb (Z.land flags f =? 0)%Z.

Definition bslash : ascii := "\"%char.
Definition uchar (c : ascii) : nat := nat_of_ascii c.
Definition fold (flags : Z) (c : ascii) : ascii := if has flags FNM_CASEFOLD then tolower c else c.
(** The condition under which a backslash quotes. *)
Definition quotes (flags : Z) (c : ascii) : bool := eqc c bslash && negb (has flags FNM_NOESCAPE).

(** The loop of [rangematch]: [ok] and the pattern behind the bracket, or [None]
    for the null pointer.  Where [pattern] is at its terminator the source reads
    one character beyond it into [c2] and does not use it. *)
Fixpoint range_loop (fuel : nat) (pattern : cstr) (test : ascii) (flags : Z) (ok : bool) : option (bool * cstr) :=
  match fuel with
  | O => None
  | S fuel =>
    let c := char_at pattern 0 in
    let pattern := drop 1 pattern in
    if eqc c "]"%char then Some (ok, pattern)
    else
      let '(c, pattern) := if quotes flags c then (char_at pattern 0, drop 1 pattern) else (c, pattern) in
      if eqc c NUL then None
      else
        let c := fold flags c in
        let c2 := char_at pattern 1 in
        if eqc (char_at pattern 0) "-"%char && negb (eqc c2 NUL) && negb (eqc c2 "]"%char) then
          let pattern := drop 2 pattern in
          let '(c2, pattern) := if quotes flags c2 then (char_at pattern 0, drop 1 pattern) else (c2, pattern) in
          if eqc c2 NUL then None
          else
            let c2 := fold flags c2 in
            let ok := if (uchar c <=? uchar test) && (uchar test <=? uchar c2) then true else ok in
            range_loop fuel pattern test flags ok
        else range_loop fuel pattern test flags (if eqc c test then true else ok)
  end.

Definition rangematch (pattern : cstr) (test : ascii) (flags : Z) : option cstr :=
  let negate := eqc (char_at pattern 0) "!"%char || eqc (char_at pattern 0) "^"%char in
  let pattern := if negate then drop 1 pattern else pattern in
  match range_loop (S (length pattern)) pattern (fold flags test) flags false with
  | Some (ok, pattern) => if Bool.eqb ok negate then None else Some pattern
  | None => None
  end.

(** [while (c == '*') c = *++pattern] *)
Fixpoint skip_stars (pattern : cstr) : cstr :=
  match pattern with
  | c :: p => if eqc c "*"%char then skip_stars p else pattern
  | [] => []
  end.

(** The search of the general case of [*]; [try] is the recursive call. *)
Fixpoint star_loop (try : cstr -> option Z) (string : cstr) (flags : Z) : option Z :=
  match string with
  | [] => Some FNM_NOMATCH
  | test :: rest =>
    match try string with
    | None => None
    | Some r =>
      if (r =? 0)%Z then Some 0%Z
      else if eqc test slash && has flags FNM_PATHNAME then Some FNM_NOMATCH
      else star_loop try rest flags
    end
  end.

(** A period that a wildcard may not match. *)
Definition hidden (stringstart : cstr) (i : nat) (flags : Z) : bool :=
  eqc (char_at stringstart i) "."%char && has flags FNM_PERIOD &&
  ((i =? 0) || has flags FNM_PATHNAME && eqc (char_at stringstart (i - 1)) slash).

(** The loop of [fnmatch]: [string] is [stringstart + i]. *)
Fixpoint fnmatch_loop (fuel : nat) (pattern stringstart : cstr) (i : nat) (flags : Z) : option Z :=
  match fuel with
  | O => None
  | S fuel =>
    if length stringstart <? i then None
    else
    let x := char_at stringstart i in
    let c := char_at pattern 0 in
    let pattern := drop 1 pattern in
    if eqc c NUL then
      Some (if has flags FNM_LEADING_DIR && eqc x slash then 0%Z
            else if eqc x NUL then 0%Z else FNM_NOMATCH)
    else if eqc c "?"%char then
      if eqc x NUL then Some FNM_NOMATCH
      else if eqc x slash && has flags FNM_PATHNAME then Some FNM_NOMATCH
      else if hidden stringstart i flags then Some FNM_NOMATCH
      else fnmatch_loop fuel pattern stringstart (S i) flags
    else if eqc c "*"%char then
      let pattern := skip_stars pattern in
      let c := char_at pattern 0 in
      let string := drop i stringstart in
      if hidden stringstart i flags then Some FNM_NOMATCH
      else if eqc c NUL then
        if has flags FNM_PATHNAME then
          Some (if has flags FNM_LEADING_DIR || bool_decide (strchr string slash = None) then 0%Z else FNM_NOMATCH)
        else Some 0%Z
      else if eqc c slash && has flags FNM_PATHNAME then
        match strchr string slash with
        | None => Some FNM_NOMATCH
        | Some j => fnmatch_loop fuel pattern stringstart (i + j) flags
        end
      else star_loop (fun s => fnmatch_loop fuel pattern s 0 (Z.ldiff flags FNM_PERIOD)) string flags
    else if eqc c "["%char then
      if eqc x NUL then Some FNM_NOMATCH
      else if eqc x slash && has flags FNM_PATHNAME then Some FNM_NOMATCH
      else match rangematch pattern x flags with
           | None => Some FNM_NOMATCH
           | Some pattern => fnmatch_loop fuel pattern stringstart (S i) flags
           end
    else
      let '(c, pattern) :=
        if quotes flags c then
          if eqc (char_at pattern 0) NUL then (bslash, pattern) else (char_at pattern 0, drop 1 pattern)
        else (c, pattern) in
      if eqc c x || has flags FNM_CASEFOLD && eqc (tolower c) (tolower x) then
        fnmatch_loop fuel pattern stringstart (S i) flags
      else if has flags FNM_PREFIX_DIRS && eqc x NUL &&
              (eqc c slash && negb (i =? 0) || (i =? 1) && eqc (char_at stringstart 0) slash) then Some 0%Z
      else Some FNM_NOMATCH
  end.

Definition fnmatch (pattern string : cstr) (flags : Z) : option Z :=
  fnmatch_loop (S (length pattern)) pattern string 0 flags.

Example fnmatch_ex1 : fnmatch (lit "*.[ch]") (lit "fnmatch.c") 0 = Some 0%Z.
Proof. reflexivity. Qed.
Example fnmatch_ex2 : fnmatch (lit "src/*/[!a-f]*") (lit "src/x/lib.c") FNM_PATHNAME = Some 0%Z.
Proof. reflexivity. Qed.
Example fnmatch_ex3 : fnmatch (lit "a*b") (lit "a/b") FNM_PATHNAME = Some FNM_NOMATCH.
Proof. reflexivity. Qed.
Example fnmatch_ex4 : fnmatch (lit "[]a]") (lit "]") 0 = Some FNM_NOMATCH.
Proof. reflexivity. Qed.

(** ** Termination and bounds *)

Lemma char_at_nul s i : NUL ∉ s -> eqc (char_at s i) NUL = true <-> length s <= i.
Proof.
  intros Hs. split.
  - intros H. destruct (eqc_spec (char_at s i) NUL) as [E|]; [|done]. destruct (decide (length s <= i)) as [|Hlt]; [done|].
    exfalso. apply Hs. unfold char_at in E. rewrite <- E. apply list_elem_of_In, nth_In. lia.
  - intros H. unfold char_at. by rewrite nth_overflow.
Qed.

Lemma skip_stars_length p : length (skip_stars p) <= length p.
Proof. induction p as [|c p IH]; cbn; [done|]. destruct (eqc c _); cbn; lia. Qed.

Lemma range_loop_length fuel : forall p test flags ok ok' rest,
  range_loop fuel p test flags ok = Some (ok', rest) -> length rest < length p.
Proof.
  induction fuel as [|fuel IH]; intros [|c p] test flags ok ok' rest H; [done|done|done|].
  cbn [range_loop] in H. cbn [char_at nth drop] in H.
  repeat split_if_in H; try done; simplify_eq; try (apply IH in H); rewrite ?length_drop in *; cbn in *; lia.
Qed.

Lemma rangematch_length p test flags rest : rangematch p test flags = Some rest -> length rest < length p.
Proof.
  unfold rangematch. intros H. repeat split_if_in H; simplify_eq.
  all: destruct (range_loop _ _ _ _ _) as [[ok p']|] eqn:E1; simplify_eq; split_if_in H; simplify_eq;
    apply range_loop_length in E1; rewrite ?length_drop in E1; lia.
Qed.

Definition decided (r : option Z) : Prop := r = Some 0%Z \/ r = Some FNM_NOMATCH.

Lemma star_loop_decided try s flags : (forall s, decided (try s)) -> decided (star_loop try s flags).
Proof.
  intros Ht. induction s as [|x s IH]; cbn [star_loop]; [by right|].
  destruct (Ht (x :: s)) as [->| ->]; cbn; [by left|]. split_if; [by right|done].
Qed.

(** A character that is not the terminator is within the string. *)
Lemma not_nul_lt s i : eqc (char_at s i) NUL = false -> i < length s.
Proof.
  intros H. destruct (decide (i < length s)); [done|]. unfold char_at in H. by rewrite nth_overflow in H by lia.
Qed.

Lemma tolower_nul c : tolower c = NUL -> c = NUL.
Proof. destruct c as [[] [] [] [] [] [] [] []]; vm_compute; congruence. Qed.

(** The character and the rest of the pattern after a possible backslash. *)
Definition literal (flags : Z) (c : ascii) (pattern : cstr) : ascii * cstr :=
  if quotes flags c then
    if eqc (char_at pattern 0) NUL then (bslash, pattern) else (char_at pattern 0, drop 1 pattern)
  else (c, pattern).
(** The characters a literal matches. *)
Definition same (flags : Z) (c x : ascii) : bool := eqc c x || has flags FNM_CASEFOLD && eqc (tolower c) (tolower x).

Lemma literal_facts flags c p : eqc c NUL = false ->
  eqc (fst (literal flags c p)) NUL = false /\ length (snd (literal flags c p)) <= length p.
Proof.
  intros Hc. unfold literal. destruct (quotes flags c); cbn; [|done].
  destruct (eqc (char_at p 0) NUL) eqn:E; cbn; [done|]. rewrite length_drop. split; [done|lia].
Qed.

Lemma same_nul flags c x : eqc c NUL = false -> same flags c x = true -> eqc x NUL = false.
Proof.
  intros Hc Hs. destruct (eqc_spec x NUL) as [->|]; [|done]. destruct (eqc_spec c NUL) as [|Hn]; [done|].
  unfold same in Hs. bool_prop. destruct Hs as [Hs|Hs].
  - by destruct (eqc_spec c NUL).
  - bool_prop. destruct (eqc_spec (tolower c) (tolower NUL)) as [E|]; [|done]. by apply tolower_nul in E.
Qed.

Lemma fnmatch_loop_decided fuel : forall p ss i flags,
  length p < fuel -> i <= length ss -> decided (fnmatch_loop fuel p ss i flags).
Proof.
  induction fuel as [|fuel IH]; intros p ss i flags Hp Hi; [lia|]. cbn [fnmatch_loop].
  rewrite (proj2 (Nat.ltb_ge _ _) Hi). fold (literal flags (char_at p 0) (drop 1 p)).
  pose proof (literal_facts flags (char_at p 0) (drop 1 p)) as Hlit.
  destruct (literal flags _ _) as [c q]. cbn in Hlit. fold (same flags c (char_at ss i)).
  pose proof (skip_stars_length (drop 1 p)) as Hstars.
  destruct (eqc (char_at p 0) NUL) eqn:E0; [unfold decided; repeat split_if; auto|].
  apply not_nul_lt in E0. assert (length (drop 1 p) < fuel) by (rewrite length_drop; lia).
  assert (eqc (char_at ss i) NUL = false -> S i <= length ss) as Hnext by (intros ?%not_nul_lt; lia).
  repeat match goal with
  | |- decided (Some _) => unfold decided; repeat split_if; auto
  | |- decided (fnmatch_loop _ _ _ _ _) => apply IH
  | |- decided (star_loop _ _ _) => apply star_loop_decided; intros s; apply IH
  | H : rangematch _ _ _ = Some _ |- _ => apply rangematch_length in H
  | H : strchr _ _ = Some _ |- _ => apply strchr_Some in H as (? & _); rewrite length_drop in *
  | H : same _ _ _ = true |- S _ <= _ => apply Hnext; eapply same_nul; [apply Hlit; done|exact H]
  | |- S _ <= _ => apply Hnext; done
  | |- _ < _ => lia
  | |- _ <= _ => lia
  | _ => split_if
  end.
Qed.

(** C33: for every pattern, string and flags the matcher terminates with 0 or
    FNM_NOMATCH, within a number of rounds given by the length of the pattern, and
    never reads the string beyond its terminator. *)
Theorem fnmatch_total (pattern string : cstr) (flags : Z) :
  fnmatch pattern string flags = Some 0%Z \/ fnmatch pattern string flags = Some FNM_NOMATCH.
Proof. apply fnmatch_loop_decided; lia. Qed.

(** ** What a pattern means *)

Section Meaning.
Context (flags : Z).

(** A character of a bracket expression, quoted or plain, and what follows it. *)
Inductive elem : cstr -> ascii -> cstr -> Prop :=
  | elem_plain c p : quotes flags c = false -> elem (c :: p) c p
  | elem_quoted c p : quotes flags bslash = true -> elem (bslash :: c :: p) c p.

(** [-d] with [d] not the closing bracket makes a range of the character before it. *)
Definition starts_range (p : cstr) : Prop := exists d q, p = "-"%char :: d :: q /\ d <> "]"%char.

(** The rest of a bracket expression, as the ranges it lists, and what follows. *)
Inductive body : cstr -> list (ascii * ascii) -> cstr -> Prop :=
  | body_close p : body ("]"%char :: p) [] p
  | body_single p c q its rest : head p <> Some "]"%char -> elem p c q -> ~ starts_range q ->
      body q its rest -> body p ((c, c) :: its) rest
  | body_range p c d q c2 q' its rest : head p <> Some "]"%char -> elem p c ("-"%char :: d :: q) -> d <> "]"%char ->
      elem (d :: q) c2 q' -> body q' its rest -> body p ((c, c2) :: its) rest.

Definition in_range (x : ascii) (r : ascii * ascii) : bool :=
  (uchar (fold flags r.1) <=? uchar (fold flags x)) && (uchar (fold flags x) <=? uchar (fold flags r.2)).

(** A whole bracket expression accepts [x]. *)
Inductive bracket : cstr -> ascii -> cstr -> Prop :=
  | bracket_plain p x its rest : head p <> Some "!"%char -> head p <> Some "^"%char ->
      body p its rest -> existsb (in_range x) its = true -> bracket p x rest
  | bracket_negated n p x its rest : n = "!"%char \/ n = "^"%char ->
      body p its rest -> existsb (in_range x) its = false -> bracket (n :: p) x rest.

(** A character a wildcard may match. *)
Definition wild (x : ascii) : Prop := ~ (x = slash /\ has flags FNM_PATHNAME = true).

Inductive matches : cstr -> cstr -> Prop :=
  | m_end : matches [] []
  | m_dir s : has flags FNM_LEADING_DIR = true -> matches [] (slash :: s)
  | m_any p x s : wild x -> matches p s -> matches ("?"%char :: p) (x :: s)
  | m_star p u s : Forall wild u -> matches p s -> matches ("*"%char :: p) (u ++ s)
  | m_bracket p x q s : wild x -> bracket p x q -> matches q s -> matches ("["%char :: p) (x :: s)
  | m_quoted c p x s : quotes flags bslash = true -> same flags c x = true -> matches p s ->
      matches (bslash :: c :: p) (x :: s)
  | m_last x s : quotes flags bslash = true -> same flags bslash x = true -> matches [] s ->
      matches [bslash] (x :: s)
  | m_char c p x s : c ∉ ["?"; "*"; "["]%char -> quotes flags c = false -> same flags c x = true -> matches p s ->
      matches (c :: p) (x :: s).
End Meaning.

(** ** Bracket expressions *)

Lemma eqc_true a b : eqc a b = true <-> a = b.
Proof. destruct (eqc_spec a b); naive_solver. Qed.
Lemma eqc_false a b : eqc a b = false <-> a <> b.
Proof. destruct (eqc_spec a b); naive_solver. Qed.

Ltac chars := repeat match goal with
  | H : eqc _ _ = true |- _ => apply eqc_true in H
  | H : eqc _ _ = false |- _ => apply eqc_false in H end.

(** The two ways the loop uses a character of the expression. *)
Lemma elem_read flags p c q : NUL ∉ p -> elem flags p c q ->
  c <> NUL /\ (NUL ∉ q) /\ p <> [] /\ length q < length p /\
  (if quotes flags (char_at p 0) then (char_at (drop 1 p) 0, drop 1 (drop 1 p)) else (char_at p 0, drop 1 p)) = (c, q).
Proof.
  intros Hn H. revert Hn. destruct H as [c p Hq|c p Hq]; rewrite ?not_elem_of_cons; intros Hn; cbn [char_at nth drop length].
  - rewrite Hq. destruct Hn as [? ?]. split_and!; [by apply not_eq_sym|done|done|lia|done].
  - rewrite Hq. destruct Hn as (_ & ? & ?). split_and!; [by apply not_eq_sym|done|done|lia|done].
Qed.

Lemma elem_of_read flags p c q : p <> [] ->
  (if quotes flags (char_at p 0) then (char_at (drop 1 p) 0, drop 1 (drop 1 p)) else (char_at p 0, drop 1 p)) = (c, q) ->
  c <> NUL -> elem flags p c q.
Proof.
  destruct p as [|x p]; [done|]. intros _ H Hc. cbn [char_at nth drop] in H.
  destruct (quotes flags x) eqn:Eq.
  - assert (x = bslash) as -> by (unfold quotes in Eq; bool_prop; by chars).
    destruct p as [|y p]; [by simplify_eq|]. cbn in H. simplify_eq. by constructor.
  - simplify_eq. by constructor.
Qed.

Lemma starts_range_test q : NUL ∉ q ->
  starts_range q <-> eqc (char_at q 0) "-"%char && negb (eqc (char_at q 1) NUL) && negb (eqc (char_at q 1) "]"%char) = true.
Proof.
  intros Hn. rewrite !andb_true_iff, !negb_true_iff, !eqc_false, eqc_true. split.
  - intros (d & q' & -> & Hd). rewrite !not_elem_of_cons in Hn. cbn. naive_solver.
  - intros [[H1 H2] H3]. destruct q as [|a [|d q]]; [done|done|]. cbn in *. subst. by exists d, q.
Qed.

Lemma in_range_single flags x c : in_range flags x (c, c) = eqc (fold flags c) (fold flags x).
Proof.
  unfold in_range. cbn [fst snd]. apply eq_true_iff_eq. rewrite andb_true_iff, !Nat.leb_le, eqc_true. split; [|intros ->; lia].
  intros [? ?]. assert (uchar (fold flags c) = uchar (fold flags x)) as E by lia. unfold uchar in E.
  by rewrite <- (ascii_nat_embedding (fold flags c)), E, ascii_nat_embedding.
Qed.

Lemma head_char (p : cstr) c : c <> NUL -> head p <> Some c <-> eqc (char_at p 0) c = false.
Proof. intros Hc. rewrite eqc_false. destruct p as [|a p]; cbn; [naive_solver|]. split; congruence. Qed.

(** One round of the loop on a bracket expression. *)
Lemma range_loop_single flags p c q fuel x ok :
  (NUL ∉ p) -> head p <> Some "]"%char -> elem flags p c q -> ~ starts_range q ->
  range_loop (S fuel) p (fold flags x) flags ok = range_loop fuel q (fold flags x) flags (in_range flags x (c, c) || ok).
Proof.
  intros Hn Hh He Hs. destruct (elem_read _ _ _ _ Hn He) as (Hc & Hnq & Hp & _ & E). cbn [range_loop].
  rewrite (proj1 (head_char p "]"%char ltac:(done)) Hh), E, (proj2 (eqc_false _ _) Hc).
  rewrite starts_range_test, not_true_iff_false in Hs by done. rewrite Hs, in_range_single. by destruct (eqc _ _).
Qed.

Lemma range_loop_range flags p c d q c2 q' fuel x ok :
  (NUL ∉ p) -> head p <> Some "]"%char -> elem flags p c ("-"%char :: d :: q) -> d <> "]"%char -> elem flags (d :: q) c2 q' ->
  range_loop (S fuel) p (fold flags x) flags ok = range_loop fuel q' (fold flags x) flags (in_range flags x (c, c2) || ok).
Proof.
  intros Hn Hh He Hd He2. destruct (elem_read _ _ _ _ Hn He) as (Hc & Hnq & Hp & _ & E). cbn [range_loop].
  rewrite (proj1 (head_char p "]"%char ltac:(done)) Hh), E, (proj2 (eqc_false _ _) Hc).
  rewrite (proj1 (starts_range_test _ Hnq)) by (by exists d, q). rewrite not_elem_of_cons in Hnq.
  destruct (elem_read _ _ _ _ (proj2 Hnq) He2) as (Hc2 & _ & _ & _ & E2). cbn [char_at nth drop] in E2 |- *.
  rewrite E2, (proj2 (eqc_false _ _) Hc2). unfold in_range. cbn [fst snd]. by destruct (_ && _).
Qed.

Lemma range_loop_body flags x p its rest : body flags p its rest -> forall fuel ok, NUL ∉ p -> length p < fuel ->
  range_loop fuel p (fold flags x) flags ok = Some (existsb (in_range flags x) its || ok, rest).
Proof.
  induction 1 as [p|p c q its rest Hh He Hs Hb IH|p c d q c2 q' its rest Hh He Hd He2 Hb IH]; intros [|fuel] ok Hn Hf; try lia.
  - done.
  - rewrite (range_loop_single _ _ _ _ _ _ _ Hn Hh He Hs). destruct (elem_read _ _ _ _ Hn He) as (_ & Hnq & _ & Hl & _).
    rewrite IH by (done || lia). cbn [existsb]. by rewrite <- orb_assoc, (orb_comm (existsb _ _)), <- orb_assoc, (orb_comm ok).
  - rewrite (range_loop_range _ _ _ _ _ _ _ _ _ _ Hn Hh He Hd He2). destruct (elem_read _ _ _ _ Hn He) as (_ & Hnq & _ & Hl & _).
    rewrite not_elem_of_cons in Hnq. destruct (elem_read _ _ _ _ (proj2 Hnq) He2) as (_ & Hnq' & _ & Hl' & _). cbn in Hl, Hl'.
    rewrite IH by (done || lia). cbn [existsb]. by rewrite <- orb_assoc, (orb_comm (existsb _ _)), <- orb_assoc, (orb_comm ok).
Qed.

Lemma body_of_range_loop flags x fuel : forall p ok ok' rest, NUL ∉ p ->
  range_loop fuel p (fold flags x) flags ok = Some (ok', rest) -> exists its, body flags p its rest.
Proof.
  induction fuel as [|fuel IH]; intros p ok ok' rest Hn H; [done|].
  assert (p <> []) as Hp by (intros ->; done). cbn [range_loop] in H.
  destruct (eqc (char_at p 0) "]"%char) eqn:E0.
  { chars. destruct p as [|c p]; [done|]. cbn in *. simplify_eq. eexists. constructor. }
  assert (head p <> Some "]"%char) as Hh by (by apply head_char).
  destruct (if quotes flags (char_at p 0) then _ else _) as [c q] eqn:E1.
  destruct (eqc c NUL) eqn:E2; [done|]. chars. pose proof (elem_of_read _ _ _ _ Hp E1 E2) as He.
  destruct (elem_read _ _ _ _ Hn He) as (_ & Hnq & _). destruct (_ && negb (eqc _ "]"%char)) eqn:E3.
  - apply (starts_range_test q Hnq) in E3 as (d & q' & -> & Hd). cbn [char_at nth drop] in H.
    destruct (if quotes flags d then _ else _) as [c2 q''] eqn:E4. destruct (eqc c2 NUL) eqn:E5; [done|]. chars.
    assert (elem flags (d :: q') c2 q'') as He2 by (by apply elem_of_read).
    rewrite not_elem_of_cons in Hnq. destruct (elem_read _ _ _ _ (proj2 Hnq) He2) as (_ & Hnq' & _).
    apply IH in H as [its Hb]; [|done]. eexists. by eapply body_range.
  - assert (~ starts_range q) as Hs by (by rewrite starts_range_test, E3).
    apply IH in H as [its Hb]; [|done]. eexists. by eapply body_single.
Qed.

Lemma body_suffix flags p its rest : body flags p its rest -> NUL ∉ p -> NUL ∉ rest.
Proof.
  induction 1 as [p|p c q its rest Hh He Hs Hb IH|p c d q c2 q' its rest Hh He Hd He2 Hb IH]; intros Hn.
  - by apply not_elem_of_cons in Hn as [_ ?].
  - apply IH. by destruct (elem_read _ _ _ _ Hn He) as (_ & ? & _).
  - apply IH. destruct (elem_read _ _ _ _ Hn He) as (_ & Hnq & _). rewrite not_elem_of_cons in Hnq.
    by destruct (elem_read _ _ _ _ (proj2 Hnq) He2) as (_ & ? & _).
Qed.

Lemma rangematch_bracket flags p x rest : NUL ∉ p ->
  rangematch p x flags = Some rest <-> bracket flags p x rest.
Proof.
  intros Hn. unfold rangematch. set (neg := eqc (char_at p 0) "!"%char || eqc (char_at p 0) "^"%char).
  set (q := if neg then drop 1 p else p). assert (NUL ∉ q) as Hnq.
  { unfold q. destruct neg; [|done]. destruct p; [done|]. by apply not_elem_of_cons in Hn as [_ ?]. }
  assert (bracket flags p x rest <-> exists its, body flags q its rest /\ existsb (in_range flags x) its = negb neg) as ->.
  { unfold q, neg. split.
    - intros [p' x' its rest' H1 H2 Hb Hi|n p' x' its rest' Hx Hb Hi].
      + exists its. apply head_char in H1; [|done]. apply head_char in H2; [|done]. by rewrite H1, H2.
      + exists its. destruct Hx as [->| ->]; done.
    - destruct (_ || _) eqn:E.
      + intros (its & Hb & Hi). destruct p as [|n p]; [done|]. cbn in E, Hb. bool_prop.
        eapply bracket_negated; [destruct E; chars; (by left) || by right|done|done].
      + intros (its & Hb & Hi). bool_prop. apply (bracket_plain _ _ _ its); [by apply head_char|by apply head_char|done|done]. }
  split.
  - destruct (range_loop _ _ _ _ _) as [[ok p']|] eqn:E; [|done]. destruct (Bool.eqb ok neg) eqn:En; [done|].
    intros [= ->]. destruct (body_of_range_loop _ _ _ _ _ _ _ Hnq E) as [its Hb]. exists its. split; [done|].
    rewrite (range_loop_body _ _ _ _ _ Hb), orb_false_r in E by (done || lia). simplify_eq.
    by destruct (existsb _ _), neg.
  - intros (its & Hb & Hi). rewrite (range_loop_body _ _ _ _ _ Hb) by (done || lia). rewrite orb_false_r, Hi.
    by destruct neg.
Qed.

Lemma bracket_nul flags p x q : NUL ∉ p -> bracket flags p x q -> NUL ∉ q.
Proof.
  intros Hp H. destruct H as [p x its rest H1 H2 Hb _|n p x its rest _ Hb _].
  - by apply body_suffix in Hb.
  - apply body_suffix in Hb; [done|]. by apply not_elem_of_cons in Hp as [_ ?].
Qed.

Lemma bracket_det flags p x q q' : NUL ∉ p -> bracket flags p x q -> bracket flags p x q' -> q' = q.
Proof. intros Hp H1%rangematch_bracket H2%rangematch_bracket; [congruence|done|done]. Qed.

Lemma literal_nul flags c p : NUL ∉ p -> NUL ∉ snd (literal flags c p).
Proof.
  intros Hp. unfold literal. destruct (quotes flags c); [|done]. destruct (eqc _ NUL); [done|]. cbn.
  intros H. apply Hp. rewrite <- (take_drop 1 p). apply elem_of_app. by right.
Qed.

(** ** Reading a pattern from its first character *)

Section Cases.
Context (flags : Z).

Lemma matches_nil s : matches flags [] s <-> s = [] \/ has flags FNM_LEADING_DIR = true /\ head s = Some slash.
Proof.
  split.
  - inversion 1; subst; auto.
  - intros [->|[Hl Hs]]; [constructor|]. destruct s as [|x s]; [done|]. cbn in Hs. simplify_eq. by constructor.
Qed.

Ltac cases := inversion 1; subst; try done;
  match goal with H : _ ∉ _ |- _ => exfalso; apply H; set_solver | _ => idtac end.

Lemma matches_any p s : matches flags ("?"%char :: p) s <-> exists x s', s = x :: s' /\ wild flags x /\ matches flags p s'.
Proof. split; [cases; eauto|]. intros (x & s' & -> & ? & ?). by constructor. Qed.

Lemma matches_star p s :
  matches flags ("*"%char :: p) s <-> exists u s', s = u ++ s' /\ Forall (wild flags) u /\ matches flags p s'.
Proof. split; [cases; eauto|]. intros (u & s' & -> & ? & ?). by constructor. Qed.

Lemma matches_bracket p s : matches flags ("["%char :: p) s <->
  exists x q s', s = x :: s' /\ wild flags x /\ bracket flags p x q /\ matches flags q s'.
Proof. split; [cases; eauto 8|]. intros (x & q & s' & -> & ? & ? & ?). by econstructor. Qed.

Lemma matches_literal c p s : c ∉ ["?"; "*"; "["]%char -> NUL ∉ p -> matches flags (c :: p) s <->
  exists x s', s = x :: s' /\ same flags (fst (literal flags c p)) x = true /\ matches flags (snd (literal flags c p)) s'.
Proof.
  intros Hc Hp. unfold literal. destruct (quotes flags c) eqn:Eq.
  - assert (c = bslash) as -> by (unfold quotes in Eq; bool_prop; by chars). destruct p as [|d p].
    + cbn. split; [inversion 1; subst; eauto; congruence|]. intros (x & s' & -> & ? & ?). by constructor.
    + rewrite not_elem_of_cons in Hp. cbn [char_at nth drop]. rewrite (proj2 (eqc_false d NUL)) by naive_solver. cbn.
      split; [inversion 1; subst; eauto; congruence|]. intros (x & s' & -> & ? & ?). by constructor.
  - cbn. split; [|intros (x & s' & -> & ? & ?); by constructor]. inversion 1; subst; eauto; try congruence;
      exfalso; apply Hc; set_solver.
Qed.

Lemma matches_skip p s : matches flags ("*"%char :: p) s <-> matches flags ("*"%char :: skip_stars p) s.
Proof.
  induction p as [|c p IH]; cbn; [done|]. destruct (eqc c _) eqn:E; [|done]. chars. subst. rewrite <- IH. rewrite matches_star. split.
  - intros (u & s' & -> & Hu & (v & s'' & -> & Hv & H)%matches_star). rewrite app_assoc. constructor; [|done]. by apply Forall_app.
  - intros H. exists [], s. split_and!; [done|constructor|done].
Qed.

Lemma skip_stars_head p : head (skip_stars p) <> Some "*"%char.
Proof. induction p as [|c p IH]; cbn; [done|]. destruct (eqc c _) eqn:E; [done|]. chars. cbn. congruence. Qed.

Lemma skip_stars_nul p : NUL ∉ p -> NUL ∉ skip_stars p.
Proof. induction p as [|c p IH]; cbn; [done|]. intros Hn. destruct (eqc c _); [|done]. apply IH. set_solver. Qed.

(** Anything but a star needs a character. *)
Lemma matches_needs p s : p <> [] -> head p <> Some "*"%char -> matches flags p s -> s <> [].
Proof. intros Hp Hh H. destruct H; try done. Qed.

Lemma wild_slash x : has flags FNM_PATHNAME = true -> wild flags x <-> x <> slash.
Proof. unfold wild. naive_solver. Qed.
Lemma wild_test x : eqc x slash && has flags FNM_PATHNAME = false <-> wild flags x.
Proof. unfold wild. rewrite andb_false_iff, eqc_false. destruct (has _ _); naive_solver. Qed.

Lemma star_loop_finds try s : (forall s, decided (try s)) ->
  star_loop try s flags = Some 0%Z <->
  exists u s', s = u ++ s' /\ Forall (wild flags) u /\ s' <> [] /\ try s' = Some 0%Z.
Proof.
  intros Ht. induction s as [|x s IH]; cbn [star_loop].
  { split; [done|]. intros (u & s' & E & _ & Hn & _). by destruct u, s'. }
  destruct (Ht (x :: s)) as [E|E]; rewrite E; cbn [Z.eqb FNM_NOMATCH].
  { split; [|done]. intros _. exists [], (x :: s). split_and!; [done|constructor|done|done]. }
  destruct (_ && _) eqn:Ew.
  - split; [done|]. intros ([|y u] & s' & E' & Hu & _ & H'); cbn in E'; subst; [congruence|]. simplify_eq.
    apply Forall_cons in Hu as [Hu _]. apply wild_test in Hu. congruence.
  - apply wild_test in Ew. rewrite IH. split.
    + intros (u & s' & -> & Hu & Hs). exists (x :: u), s'. split_and!; [done|by constructor|apply Hs|apply Hs].
    + intros ([|y u] & s' & E' & Hu & Hs); cbn in E'; subst; [destruct Hs as [_ Hs]; by rewrite E in Hs|]. simplify_eq.
      apply Forall_cons in Hu as [_ Hu]. by exists u, s'.
Qed.

(** A star before a slash, when wildcards do not match slashes. *)
Lemma wild_prefix u s : has flags FNM_PATHNAME = true -> Forall (wild flags) u -> head s = Some slash ->
  strchr (u ++ s) slash = Some (length u).
Proof.
  intros Hp Hu Hs. induction Hu as [|x u Hx Hu IH]; cbn.
  - destruct s as [|y s]; [done|]. cbn in *. simplify_eq. done.
  - apply wild_slash in Hx; [|done]. by rewrite (proj2 (eqc_false _ _) Hx), IH.
Qed.

(** The string from the current position. *)
Lemma drop_end (ss : cstr) i : NUL ∉ ss -> i <= length ss ->
  (eqc (char_at ss i) NUL = true /\ drop i ss = []) \/
  (eqc (char_at ss i) NUL = false /\ i < length ss /\ drop i ss = char_at ss i :: drop (S i) ss).
Proof.
  intros Hn Hi. destruct (eqc (char_at ss i) NUL) eqn:E; [left|right].
  - split; [done|]. apply char_at_nul in E; [|done]. by apply drop_ge.
  - apply not_nul_lt in E. split_and!; [done|done|]. unfold char_at.
    destruct (lookup_lt_is_Some_2 ss i) as [x Hx]; [done|]. rewrite nth_lookup, Hx. by apply drop_S.
Qed.

Context (Hperiod : has flags FNM_PERIOD = false) (Hprefix : has flags FNM_PREFIX_DIRS = false).

Lemma no_period : Z.ldiff flags FNM_PERIOD = flags.
Proof.
  unfold has in Hperiod. bool_prop. apply Z.bits_inj'. intros n Hn. rewrite Z.ldiff_spec.
  pose proof (f_equal (fun z => Z.testbit z n) Hperiod) as H. cbn beta in H. rewrite Z.land_spec, Z.bits_0 in H.
  by destruct (Z.testbit flags n), (Z.testbit FNM_PERIOD n).
Qed.

Lemma nothing_hidden ss i : hidden ss i flags = false.
Proof. unfold hidden. by rewrite Hperiod, andb_false_r. Qed.

(** The branches of [*], for a pattern [p] without a star in front. *)
Section Star.
Context (p : cstr) (Hp : NUL ∉ p) (Hh : head p <> Some "*"%char).

Lemma star_at_end s : p = [] ->
  (if has flags FNM_PATHNAME then
     Some (if has flags FNM_LEADING_DIR || bool_decide (strchr s slash = None) then 0%Z else FNM_NOMATCH)
   else Some 0%Z) = Some 0%Z <-> matches flags ("*"%char :: p) s.
Proof.
  intros ->. rewrite matches_star. destruct (has flags FNM_PATHNAME) eqn:Epn.
  - destruct (has flags FNM_LEADING_DIR || _) eqn:E.
    + split; [|done]. intros _. destruct (strchr s slash) as [j|] eqn:Ej.
      * rewrite orb_false_r in E. destruct (strchr_Some _ _ _ Ej) as (Hj & Hl & Hn).
        exists (take j s), (drop j s). split_and!; [by rewrite take_drop| |].
        -- apply Forall_forall. intros x Hx. apply wild_slash; [done|]. by intros ->.
        -- apply matches_nil. right. by rewrite (drop_S _ _ _ Hl).
      * exists s, []. split_and!; [by rewrite app_nil_r| |constructor].
        apply Forall_forall. intros x Hx. apply wild_slash; [done|]. intros ->. by apply strchr_None in Ej.
    + split; [done|]. bool_prop. intros (u & s' & -> & Hu & [->|[? _]]%matches_nil); [|congruence].
      exfalso. apply bool_decide_eq_false in H0. apply H0. rewrite app_nil_r. apply strchr_None. intros Hx.
      rewrite Forall_forall in Hu. apply Hu in Hx. by apply wild_slash in Hx.
  - split; [|done]. intros _. exists s, []. split_and!; [by rewrite app_nil_r| |constructor].
    apply Forall_forall. intros x _ [_ ?]. congruence.
Qed.

Lemma star_at_slash s : p <> [] -> head p = Some slash -> has flags FNM_PATHNAME = true ->
  matches flags ("*"%char :: p) s <-> exists j, strchr s slash = Some j /\ matches flags p (drop j s).
Proof.
  intros Hne Hs Hpn. rewrite matches_star. split.
  - intros (u & s' & -> & Hu & Hm). exists (length u). rewrite drop_app_length. split; [|done]. apply wild_prefix; [done|done|].
    destruct p as [|c q]; [done|]. cbn in Hs. simplify_eq.
    apply matches_literal in Hm as (x & s'' & -> & Hx & _);
      [|by apply (bool_decide_unpack _)|by apply not_elem_of_cons in Hp as [_ ?]].
    change (literal flags slash q) with (slash, q) in Hx. cbn [head fst snd] in *. f_equal. unfold same in Hx. bool_prop.
    destruct Hx as [Hx|Hx]; [by apply eqc_true in Hx|]. apply andb_true_iff in Hx as [_ Hx%eqc_true]. revert Hx. clear. destruct x as [[] [] [] [] [] [] [] []]; vm_compute; congruence.
  - intros (j & Hj & Hm). exists (take j s), (drop j s). split_and!; [by rewrite take_drop| |done].
    destruct (strchr_Some _ _ _ Hj) as (_ & _ & Hn). apply Forall_forall. intros x Hx. apply wild_slash; [done|]. by intros ->.
Qed.

Lemma star_general try s : p <> [] -> (forall s, decided (try s)) ->
  (forall u s', s = u ++ s' -> try s' = Some 0%Z <-> matches flags p s') ->
  star_loop try s flags = Some 0%Z <-> matches flags ("*"%char :: p) s.
Proof.
  intros Hne Ht Hm. rewrite star_loop_finds by done. rewrite matches_star. split.
  - intros (u & s' & E & Hu & _ & H). exists u, s'. split_and!; [done|done|]. by apply (Hm u).
  - intros (u & s' & E & Hu & H). exists u, s'. split_and!; [done|done|by eapply matches_needs|]. by apply (Hm u).
Qed.
End Star.

(** The first character of the pattern decided. *)
Ltac first_char c p :=
  cbn [fnmatch_loop]; change (char_at (c :: p) 0) with c; change (drop 1 (c :: p)) with p;
  rewrite (proj2 (Nat.ltb_ge _ _)) by done.

(** The case of a star, against an induction hypothesis for shorter patterns. *)
Lemma fnmatch_star fuel p ss i :
  (forall p ss i, length p < fuel -> i <= length ss -> NUL ∉ p -> NUL ∉ ss ->
     fnmatch_loop fuel p ss i flags = Some 0%Z <-> matches flags p (drop i ss)) ->
  length p < fuel -> i <= length ss -> (NUL ∉ p) -> NUL ∉ ss ->
  fnmatch_loop (S fuel) ("*"%char :: p) ss i flags = Some 0%Z <-> matches flags ("*"%char :: p) (drop i ss).
Proof.
  intros IH Hf Hi Hp Hs. rewrite matches_skip. first_char "*"%char p. rewrite nothing_hidden, no_period.
  change (eqc "*" NUL) with false. change (eqc "*" "?") with false. change (eqc "*" "*") with true. cbn match.
  pose proof (skip_stars_length p). pose proof (skip_stars_head p). pose proof (skip_stars_nul p Hp) as Hn.
  set (q := skip_stars p) in *. destruct (eqc (char_at q 0) NUL) eqn:E0.
  { apply char_at_nul in E0; [|done]. apply star_at_end; [done|done|]. destruct q; [done|cbn in E0; lia]. }
  assert (q <> []) as Hne by (intros ->; done).
  destruct (eqc (char_at q 0) slash && has flags FNM_PATHNAME) eqn:E1.
  - bool_prop. chars. assert (head q = Some slash) as Hh by (destruct q; [done|cbn in *; congruence]).
    rewrite (star_at_slash q Hn) by done. destruct (strchr (drop i ss) slash) as [j|] eqn:Ej.
    + pose proof (strchr_Some _ _ _ Ej) as (Hj & _). rewrite length_drop in Hj. rewrite IH by (done || lia).
      rewrite <- drop_drop. split; [intros; by exists j|]. by intros (? & [= <-] & ?).
    + split; [done|]. by intros (? & ? & _).
  - apply star_general; [done|done|intros s; apply fnmatch_loop_decided; lia|].
    intros u s' E. rewrite IH; [by rewrite drop_0|lia|lia|done|].
    intros Hx. apply Hs. rewrite <- (take_drop i ss), E. apply elem_of_app. right. apply elem_of_app. by right.
Qed.

Lemma fnmatch_loop_matches fuel : forall p ss i,
  length p < fuel -> i <= length ss -> NUL ∉ p -> NUL ∉ ss ->
  fnmatch_loop fuel p ss i flags = Some 0%Z <-> matches flags p (drop i ss).
Proof.
  induction fuel as [|fuel IH]; intros p ss i Hf Hi Hp Hs; [lia|]. destruct p as [|c p].
  { rewrite matches_nil. cbn [fnmatch_loop]. rewrite (proj2 (Nat.ltb_ge _ _) Hi).
    change (eqc (char_at [] 0) NUL) with true. cbn match.
    destruct (drop_end ss i Hs Hi) as [(E & Hd)|(E & _ & Hd)]; rewrite Hd, E.
    - split; [by left|]. by destruct (_ && _).
    - split; [|intros [?|[Hl Hh]]; [done|]; cbn in Hh; simplify_eq; by rewrite Hl, Hh]. destruct (_ && _) eqn:E1; [|done].
      intros _. right. bool_prop. chars. cbn. split; [done|congruence]. }
  destruct (decide (c = "*"%char)) as [->|Hstar].
  { cbn in Hf. apply not_elem_of_cons in Hp as [_ ?]. apply fnmatch_star; auto. lia. }
  pose proof Hp as Hp'. apply not_elem_of_cons in Hp as [Hc Hp]. apply not_eq_sym, eqc_false in Hc. cbn in Hf.
  apply eqc_false in Hstar. first_char c p. rewrite Hc, Hstar, nothing_hidden, Hprefix. cbn [andb].
  destruct (drop_end ss i Hs Hi) as [(E & Hd)|(E & Hlt & Hd)]; rewrite Hd.
  - assert (~ matches flags (c :: p) []) as Hno.
    { intros H%matches_needs; [done|done|]. apply eqc_false in Hstar. cbn. congruence. }
    split; [|done]. intros H. exfalso. revert H. rewrite E. fold (literal flags c p).
    pose proof (literal_facts flags c p Hc) as [Hl _]. destruct (literal flags c p) as [c' q]. cbn [fst] in Hl.
    fold (same flags c' (char_at ss i)). destruct (same _ _ _) eqn:Es; [|by repeat split_if].
    apply same_nul in Es; [congruence|done].
  - rewrite E. set (x := char_at ss i) in *. destruct (eqc c "?"%char) eqn:E1; [|destruct (eqc c "["%char) eqn:E2].
    + apply eqc_true in E1 as ->. rewrite matches_any. destruct (_ && _) eqn:Ew.
      * split; [done|]. intros (? & ? & [= <- <-] & Hw & _). apply wild_test in Hw. congruence.
      * apply wild_test in Ew. rewrite IH by (done || lia). split; [by eauto|]. by intros (? & ? & [= <- <-] & _ & ?).
    + apply eqc_true in E2 as ->. rewrite matches_bracket. destruct (_ && _) eqn:Ew.
      * split; [done|]. intros (? & ? & ? & [= <- <-] & Hw & _). apply wild_test in Hw. congruence.
      * apply wild_test in Ew. destruct (rangematch p x flags) as [q|] eqn:Er.
        -- pose proof (rangematch_length _ _ _ _ Er). apply rangematch_bracket in Er; [|done].
           rewrite IH; [|lia|lia|exact (bracket_nul _ _ _ _ Hp Er)|done]. split; [by eauto 8|].
           intros (? & q' & ? & [= <- <-] & _ & Hb & ?). by rewrite <- (bracket_det _ _ _ _ _ Hp Er Hb).
        -- split; [done|]. intros (? & q' & ? & [= <- <-] & _ & Hb & _). apply rangematch_bracket in Hb; [|done]. congruence.
    + rewrite matches_literal; [|chars; rewrite !not_elem_of_cons; split_and!; [done|done|done|apply not_elem_of_nil]|done].
      fold (literal flags c p). pose proof (literal_facts flags c p Hc) as [_ Hl]. pose proof (literal_nul flags c p Hp) as Hn.
      destruct (literal flags c p) as [c' q]. cbn [fst snd] in *. fold (same flags c' x). destruct (same flags c' x) eqn:Es.
      * rewrite IH by (done || lia). split; [by eauto|]. by intros (? & ? & [= <- <-] & _ & ?).
      * split; [done|]. intros (? & ? & [= <- <-] & ? & _). congruence.
Qed.
End Cases.

(** C11: without FNM_PERIOD and FNM_PREFIX_DIRS (any of the other flags, case
    folding, path names, no escapes and leading directories, may be set) the
    matcher answers 0 exactly for the strings the pattern denotes: its collapsing
    of stars, its shortcuts for a trailing star and for a star before a slash, and
    its backtracking search lose no match and invent none. *)
Theorem fnmatch_correct (pattern string : cstr) (flags : Z) :
  NUL ∉ pattern -> NUL ∉ string -> has flags FNM_PERIOD = false -> has flags FNM_PREFIX_DIRS = false ->
  (fnmatch pattern string flags = Some 0%Z <-> matches flags pattern string) /\
  (fnmatch pattern string flags = Some FNM_NOMATCH <-> ~ matches flags pattern string).
Proof.
  intros Hp Hs H1 H2.
  assert (fnmatch pattern string flags = Some 0%Z <-> matches flags pattern string) as E.
  { unfold fnmatch. rewrite fnmatch_loop_matches by (done || lia). by rewrite drop_0. }
  split; [done|]. rewrite <- E.
  destruct (fnmatch_loop_decided (S (length pattern)) pattern string 0 flags) as [R|R]; [lia|lia| |];
    fold (fnmatch pattern string flags) in R; rewrite R; by split.
Qed.

Lemma fnmatch_correct_witness :
  (fnmatch (lit "*/[a-c]?.h") (lit "inc/b2.h") FNM_PATHNAME = Some 0%Z <->
     matches FNM_PATHNAME (lit "*/[a-c]?.h") (lit "inc/b2.h")) /\
  (fnmatch (lit "*/[a-c]?.h") (lit "inc/b2.h") FNM_PATHNAME = Some FNM_NOMATCH <->
     ~ matches FNM_PATHNAME (lit "*/[a-c]?.h") (lit "inc/b2.h")).
Proof.
  apply (fnmatch_correct (lit "*/[a-c]?.h") (lit "inc/b2.h") FNM_PATHNAME);
    [by apply (bool_decide_unpack _)|by apply (bool_decide_unpack _)|reflexivity|reflexivity].
Defined.

(** ** Hidden files *)

(** With FNM_PERIOD a period at the start of the string is matched by no
    wildcard at the start of the pattern; but the flag is dropped from the search
    behind a star, so that behind one a wildcard does match the period at the start
    of a path component, which it does not match without the star. *)
Theorem fnmatch_period (p s : cstr) (flags : Z) :
  has flags FNM_PERIOD = true ->
  fnmatch ("?"%char :: p) ("."%char :: s) flags = Some FNM_NOMATCH /\
  fnmatch ("*"%char :: p) ("."%char :: s) flags = Some FNM_NOMATCH /\
  fnmatch (lit "ab/?c") (lit "ab/.c") (Z.lor FNM_PERIOD FNM_PATHNAME) = Some FNM_NOMATCH /\
  fnmatch (lit "*b/?c") (lit "ab/.c") (Z.lor FNM_PERIOD FNM_PATHNAME) = Some 0%Z.
Proof.
  intros H. split_and!; [| |reflexivity|reflexivity]; unfold fnmatch; cbn [fnmatch_loop length]; unfold hidden; rewrite H; reflexivity.
Qed.

Lemma fnmatch_period_witness :
  fnmatch ("?"%char :: lit "bashrc") (lit ".bashrc") FNM_PERIOD = Some FNM_NOMATCH.
Proof. exact (proj1 (fnmatch_period (lit "bashrc") (lit "bashrc") FNM_PERIOD eq_refl)). Defined.
End Fnmatch.
