(* ===== verification/Stdio.v ===== *)
(** * Stdio: reading lines and stream wrappers, src/src/stdio.c

    [wpdk_getdelim] over an explicit buffer: the block [*lineptr] points to is the
    list of its bytes, a write outside it is the outcome [None].  The input is the
    bytes left on the stream and whether it ends in end-of-file or an error.  The
    other functions forward to the C runtime, the class [StdioApi]. *)

From S2P Require Import Prelude Errno CString PathMap Proc Sockets Epolls Files.

Module Export Stdio.
Local Open Scope Z_scope.

Definition BUFSIZ : Z := 512.
Definition EOF : Z := -1.

(** ** getdelim *)

(** The bytes left, and [feof] (rather than [ferror]) behind them. *)
Record stream := Stream { pending : list Z; ends_eof : bool }.

Definition getc (s : stream) : Z * stream :=
  match pending s with
  | [] => (EOF, s)
  | c :: rest => (c, Stream rest (ends_eof s))
  end.

(** [*lineptr], [*n], the stream and errno. *)
Record line_state := LineState { lineptr : option (list Z); cap : Z; input : stream; line_errno : Z }.

Section Getdelim.
(** [realloc]: whether it succeeds for a size, and the bytes it leaves undefined. *)
Context (realloc_ok : Z -> bool) (junk : Z).

Definition realloc (buf : option (list Z)) (size : Z) : option (list Z) :=
  if realloc_ok size then Some (take (Z.to_nat size) (default [] buf ++ replicate (Z.to_nat size) junk)) else None.

(** [buf[i] = c]: [None] outside the block or for a null pointer. *)
Definition store (buf : option (list Z)) (i : Z) (c : Z) : option (option (list Z)) :=
  match buf with
  | Some b => if (0 <=? i) && (i <? Z.of_nat (length b)) then Some (Some (<[Z.to_nat i := c]> b)) else None
  | None => None
  end.

(** Room for another character: the condition of the source and the new size. *)
Definition needs_room (buf : option (list Z)) (len n : Z) : bool :=
  bool_decide (buf = None) || (n <=? uwrap 64 (len + 2)).
Definition new_size (buf : option (list Z)) (n : Z) : Z :=
  if bool_decide (buf <> None) && negb (n =? 0) then uwrap 64 (n * 2) else BUFSIZ.

(** The loop: [buf], [len] and [ch] are the locals; the result is the value
    returned and the state left. *)
Fixpoint getdelim_loop (fuel : nat) (delim : Z) (len ch : Z) (st : line_state) : option (Z * line_state) :=
  match fuel with
  | O => None
  | S fuel =>
    let finish st :=
      b ← store (lineptr st) len 0; Some (len, LineState b (cap st) (input st) (line_errno st)) in
    if ch =? delim then finish st
    else
      let grown :=
        if needs_room (lineptr st) len (cap st) then
          let newlen := new_size (lineptr st) (cap st) in
          match realloc (lineptr st) newlen with
          | Some b => Some (LineState (Some b) newlen (input st) (line_errno st))
          | None => None
          end
        else Some st in
      match grown with
      | None => Some (-1, st)
      | Some st =>
        let '(ch, s) := getc (input st) in
        let st := LineState (lineptr st) (cap st) s (line_errno st) in
        if ch =? EOF then
          if ends_eof s && negb (len =? 0) then finish st else Some (-1, st)
        else
          b ← store (lineptr st) len ch;
          getdelim_loop fuel delim (uwrap 64 (len + 1)) ch (LineState b (cap st) s (line_errno st))
      end
  end.

(** [args_ok]: none of the three pointers is null. *)
Definition wpdk_getdelim (args_ok : bool) (delim : Z) (st : line_state) : option (Z * line_state) :=
  if negb args_ok then Some (-1, LineState (lineptr st) (cap st) (input st) EINVAL)
  else getdelim_loop (S (S (length (pending (input st))))) delim 0 0 st.

Definition wpdk_getline (args_ok : bool) : line_state -> option (Z * line_state) := wpdk_getdelim args_ok 10.
End Getdelim.

Example getline_ex :
  (fun '(r, st) => (r, take 4 (default [] (lineptr st)), cap st, pending (input st))) <$>
    wpdk_getline (fun _ => true) 7 true (LineState (Some [0]) 1 (Stream [97; 98; 10; 99] true) 0) =
  Some (3, [97; 98; 10; 0], 8, [99]).
Proof. vm_compute. reflexivity. Qed.
(** A null character as the delimiter ends the loop before it reads anything, and
    writes through the null pointer. *)
Example getdelim_nul :
  wpdk_getdelim (fun _ => true) 7 true 0 (LineState None 0 (Stream [97; 0] true) 0) = None.
Proof. reflexivity. Qed.

(** ** What getdelim returns *)

(** The line and what follows it; whether the delimiter was found. *)
Fixpoint split_line (delim : Z) (l : list Z) : list Z * list Z * bool :=
  match l with
  | [] => ([], [], false)
  | c :: l => if c =? delim then ([c], l, true)
              else let '(line, rest, found) := split_line delim l in (c :: line, rest, found)
  end.

Lemma split_line_app delim l : let '(line, rest, found) := split_line delim l in
  l = line ++ rest /\ (found = false -> rest = []) /\ (found = true -> line <> []).
Proof.
  induction l as [|c l IH]; cbn; [done|]. destruct (c =? delim); [done|].
  destruct (split_line delim l) as [[line rest] found]. destruct IH as (-> & ? & ?). done.
Qed.

Definition is_byte (c : Z) : Prop := 0 <= c < 256.

(** The buffer and its size agree. *)
Definition wf_line (st : line_state) : Prop :=
  match lineptr st with Some b => Z.of_nat (length b) = cap st | None => True end.

Section Spec.
Context (realloc_ok : Z -> bool) (junk delim : Z).
Abbreviation loop := (getdelim_loop realloc_ok junk).

(** An allocation of a size the call may ask for, after [len] characters, fails. *)
Definition no_memory (len : Z) : Prop := exists z, z <= Z.max BUFSIZ (2 * (len + 2)) /\ realloc_ok z = false.

(** The buffer holds the characters read so far, with room for the terminator. *)
Definition holds (pre : list Z) (st : line_state) : Prop :=
  match lineptr st with
  | None => pre = []
  | Some b => Z.of_nat (length b) = cap st /\ take (length pre) b = pre /\ (pre = [] \/ Z.of_nat (length pre) + 1 <= cap st)
  end.

Lemma grow_run pre st : holds pre st -> Z.of_nat (length pre) < 2 ^ 62 ->
  let len := Z.of_nat (length pre) in
  (needs_room (lineptr st) len (cap st) = false /\ exists b, lineptr st = Some b /\ len + 2 < cap st) \/
  (needs_room (lineptr st) len (cap st) = true /\
   (realloc realloc_ok junk (lineptr st) (new_size (lineptr st) (cap st)) = None /\ no_memory len \/
    exists b, realloc realloc_ok junk (lineptr st) (new_size (lineptr st) (cap st)) = Some b /\
      Z.of_nat (length b) = new_size (lineptr st) (cap st) /\ len + 2 <= new_size (lineptr st) (cap st) /\ take (length pre) b = pre)).
Proof.
  intros Hh Hl len. unfold needs_room. rewrite uwrap_id by (unfold in_u; lia).
  assert (forall buf size, 0 <= size -> (match buf with Some b => take (length pre) b = pre | None => pre = [] end) ->
    len + 2 <= size -> size <= Z.max BUFSIZ (2 * (len + 2)) ->
    realloc realloc_ok junk buf size = None /\ no_memory len \/
    exists b, realloc realloc_ok junk buf size = Some b /\ Z.of_nat (length b) = size /\ len + 2 <= size /\ take (length pre) b = pre) as Hre.
  { intros buf size Hs Hb Hsz Hmax. unfold realloc. destruct (realloc_ok size) eqn:E; [right|left; split; [done|by exists size]].
    eexists. split_and!; [done| |done|].
    - rewrite length_take, length_app, length_replicate. lia.
    - rewrite take_take, Nat.min_l by lia. destruct buf as [b|]; unfold default, id; cbn; [|by rewrite Hb].
      rewrite take_app_le; [done|]. apply (f_equal length) in Hb. rewrite length_take in Hb. lia. }
  destruct (lineptr st) as [b|] eqn:Eb; unfold holds in Hh; rewrite Eb in Hh.
  - destruct Hh as (H1 & H2 & H3). rewrite bool_decide_eq_false_2 by done. cbn [orb].
    destruct (Z.leb_spec (cap st) (len + 2)); [|left; split; [done|]; exists b; split; [done|lia]].
    right. split; [done|]. assert (len + 2 <= new_size (Some b) (cap st)) as Hns.
    { unfold new_size. rewrite (bool_decide_eq_true_2 (Some b <> None)) by done. cbn [andb].
      destruct (Z.eqb_spec (cap st) 0) as [E|E]; cbn [negb].
      - unfold BUFSIZ, len. destruct H3 as [->|H3]; cbn; lia.
      - rewrite uwrap_id by (unfold in_u, len in *; lia). destruct H3 as [->|H3]; unfold len in *; cbn in *; lia. }
    apply Hre; [lia|done|done|]. unfold new_size. destruct (_ && _); [|lia]. unfold uwrap. rewrite Z.mod_small; [lia|].
    unfold len in *. lia.
  - right. rewrite bool_decide_eq_true_2 by done. split; [done|]. subst pre.
    assert (new_size None (cap st) = BUFSIZ) as ->.
    { unfold new_size. by rewrite (bool_decide_eq_false_2 (None <> None)) by (intros H; by apply H). }
    apply Hre; [done|done|done|lia].
Qed.

Lemma store_run b i c : 0 <= i < Z.of_nat (length b) -> store (Some b) i c = Some (Some (<[Z.to_nat i := c]> b)).
Proof. intros [H1 H2]. unfold store. by rewrite (proj2 (Z.leb_le _ _) H1), (proj2 (Z.ltb_lt _ _) H2). Qed.

(** The line is in the buffer, followed by a terminator. *)
Definition line_in (line : list Z) (st : line_state) : Prop :=
  exists b, lineptr st = Some b /\ Z.of_nat (length b) = cap st /\ take (S (length line)) b = line ++ [0].

Lemma take_insert_snoc (b pre : list Z) c : (length pre < length b)%nat -> take (length pre) b = pre ->
  take (S (length pre)) (<[length pre := c]> b) = pre ++ [c].
Proof.
  intros Hl Hp. rewrite insert_take_drop by done. rewrite Hp, take_app_ge by lia.
  by replace (S (length pre) - length pre)%nat with 1%nat by lia.
Qed.

(** What a call leaves: an allocation failed, or the line, or nothing was left. *)
Definition getdelim_post (pre : list Z) (s : stream) (r : Z) (st : line_state) : Prop :=
  wf_line st /\
  let '(line, rest, found) := split_line delim (pending s) in
  ((r = -1 /\ no_memory (Z.of_nat (length (pre ++ line)))) \/
   if found || ends_eof s && negb (bool_decide (pre ++ line = []))
   then r = Z.of_nat (length (pre ++ line)) /\ line_in (pre ++ line) st /\ input st = Stream rest (ends_eof s)
   else r = -1 /\ input st = Stream [] (ends_eof s)).

Lemma terminate_run pre st : holds pre st -> lineptr st <> None -> Z.of_nat (length pre) + 1 <= cap st ->
  exists b, store (lineptr st) (Z.of_nat (length pre)) 0 = Some (Some b) /\
    Z.of_nat (length b) = cap st /\ take (S (length pre)) b = pre ++ [0].
Proof.
  unfold holds. destruct (lineptr st) as [b|]; [|done]. intros (H1 & H2 & _) _ Hc. rewrite store_run by lia.
  eexists. split; [done|]. rewrite Nat2Z.id. split; [by rewrite length_insert|]. apply take_insert_snoc; [lia|done].
Qed.

Lemma getdelim_loop_run fuel : forall pre ch st, holds pre st -> Forall is_byte (pending (input st)) ->
  Z.of_nat (length pre + length (pending (input st))) < 2 ^ 62 -> (S (length (pending (input st))) < fuel)%nat -> ch <> delim ->
  exists r st', loop fuel delim (Z.of_nat (length pre)) ch st = Some (r, st') /\ getdelim_post pre (input st) r st'.
Proof.
  induction fuel as [|fuel IH]; intros pre ch st Hh Hby Hlen Hf Hch; [lia|]. cbn [getdelim_loop].
  rewrite (proj2 (Z.eqb_neq _ _) Hch). set (len := Z.of_nat (length pre)).
  assert (wf_line st) as Hwf by (unfold wf_line, holds in *; destruct (lineptr st); [apply Hh|done]).
  match goal with |- context [match ?g with None => _ | Some _ => _ end] => set (grown := g) end.
  assert ((grown = None /\ no_memory len) \/
    exists st1, grown = Some st1 /\ holds pre st1 /\ lineptr st1 <> None /\ len + 2 <= cap st1 /\ input st1 = input st) as Hg.
  { unfold grown, len in *. destruct (grow_run pre st Hh ltac:(lia)) as [(-> & b & Hb & Hc)|(-> & Hr)].
    - right. exists st. fold len in Hc. split_and!; try done; [congruence|lia].
    - destruct Hr as [(-> & Hz)|(b & -> & H1 & H2 & H3)]; [by left|]. right. eexists. split; [done|].
      split_and!; try done. unfold holds. cbn [lineptr cap]. split_and!; [done|done|]. right. lia. }
  clearbody grown. destruct Hg as [(-> & Hz)|(st1 & -> & Hh1 & Hp1 & Hc1 & Hi1)].
  { exists (-1), st. split; [done|]. split; [done|]. destruct (split_line _ _) as [[line rest] found]. left. split; [done|].
    destruct Hz as (z & Hz & E). exists z. split; [|done]. rewrite length_app. unfold len in Hz. lia. }
  assert (wf_line st1) as Hwf1 by (unfold wf_line, holds in *; destruct (lineptr st1); [apply Hh1|done]).
  rewrite Hi1. destruct (input st) as [pend eof] eqn:Ein. cbn [pending ends_eof getc] in *. unfold getc. cbn [pending ends_eof].
  destruct pend as [|c rest].
  - rewrite Z.eqb_refl. cbn [ends_eof lineptr cap].
    destruct (terminate_run pre st1 Hh1 Hp1 ltac:(lia)) as (b & Hs & Hb1 & Hb2).
    assert (negb (len =? 0) = negb (bool_decide (pre ++ [] = []))) as ->.
    { rewrite app_nil_r. f_equal. destruct pre; [done|]. unfold len. rewrite bool_decide_eq_false_2 by done. apply Z.eqb_neq. cbn. lia. }
    unfold getdelim_post. cbn [pending ends_eof split_line]. cbn [orb].
    destruct (eof && negb (bool_decide (pre ++ [] = []))).
    + fold len in Hs. rewrite Hs. cbn [mbind option_bind]. eexists _, _. split; [done|]. split; [done|]. right. rewrite app_nil_r.
      split_and!; [done|by exists b|done].
    + eexists _, _. split; [done|]. split; [done|]. right. done.
  - apply Forall_cons in Hby as [Hc Hby]. cbn [length] in Hlen, Hf.
    rewrite (proj2 (Z.eqb_neq c EOF)) by (unfold EOF, is_byte in *; lia).
    cbn [lineptr cap]. destruct (lineptr st1) as [b|] eqn:Eb; [|done]. unfold holds in Hh1. rewrite Eb in Hh1. destruct Hh1 as (H1 & H2 & H3).
    rewrite store_run by (unfold len in *; lia). cbn [mbind option_bind]. unfold len. rewrite Nat2Z.id.
    rewrite uwrap_id by (unfold in_u; lia). replace (Z.of_nat (length pre) + 1) with (Z.of_nat (length (pre ++ [c]))) by (rewrite length_app; cbn; lia).
    set (st2 := LineState _ _ _ _).
    assert (holds (pre ++ [c]) st2) as Hh2.
    { unfold holds. cbn. rewrite length_insert, length_app. cbn [length]. replace (length pre + 1)%nat with (S (length pre)) by lia.
      split_and!; [done|apply take_insert_snoc; [lia|done]|right; lia]. }
    assert (length (pre ++ [c]) = S (length pre)) as Hpc by (rewrite length_app; cbn; lia).
    destruct (Z.eq_dec c delim) as [->|Hne].
    + destruct fuel as [|fuel]; [lia|]. cbn [getdelim_loop]. rewrite Z.eqb_refl.
      destruct (terminate_run (pre ++ [delim]) st2 Hh2) as (b' & -> & Hb1 & Hb2); [done|cbn; lia|]. cbn [mbind option_bind].
      eexists _, _. split; [done|]. split; [done|]. cbn [pending split_line ends_eof]. rewrite Z.eqb_refl. cbn [orb]. right.
      split_and!; [done|by exists b'|done].
    + destruct (IH (pre ++ [c]) c st2 Hh2) as (r & st' & -> & W & P); try done; [cbn; lia|cbn; lia|]. eexists _, _. split; [done|].
      split; [done|]. cbn [input st2 pending ends_eof] in P. cbn [pending split_line ends_eof].
      rewrite (proj2 (Z.eqb_neq _ _) Hne). destruct (split_line delim rest) as [[line rest'] found].
      by rewrite <- app_assoc in P.
Qed.
End Spec.

(** C37: for a delimiter that is not NUL and a buffer of the size given with it,
    [getdelim] never writes outside the buffer (null and too small buffers, and
    failing allocations included); unless an allocation fails (of at most BUFSIZ bytes, or twice the line
    and two) it returns the number of
    characters up to and including the delimiter, or up to the end of the file, with
    those characters and a terminator in the buffer and the stream behind them, and
    -1 when nothing was left or a read failed. *)
Theorem getdelim_correct (realloc_ok : Z -> bool) (junk delim : Z) (st : line_state) :
  delim <> 0 -> wf_line st -> Forall is_byte (pending (input st)) -> Z.of_nat (length (pending (input st))) < 2 ^ 62 ->
  exists r st', wpdk_getdelim realloc_ok junk true delim st = Some (r, st') /\
    getdelim_post realloc_ok delim [] (input st) r st'.
Proof.
  intros Hd Hwf Hby Hl. apply (getdelim_loop_run realloc_ok junk delim _ [] 0 st); [|done|cbn; lia|lia|by apply not_eq_sym].
  unfold holds, wf_line in *. destruct (lineptr st) as [b|]; [|done]. split_and!; [done|done|by left].
Qed.

Lemma getdelim_correct_witness : exists r st',
  wpdk_getdelim (fun _ => true) 7 true 10 (LineState (Some [0]) 1 (Stream [97; 98; 10; 99] true) 0) = Some (r, st') /\
  getdelim_post (fun _ => true) 10 [] (Stream [97; 98; 10; 99] true) r st'.
Proof.
  apply (getdelim_correct (fun _ => true) 7 10 (LineState (Some [0]) 1 (Stream [97; 98; 10; 99] true) 0)).
  - lia.
  - reflexivity.
  - repeat constructor; lia.
  - cbn. lia.
Defined.

(** ** Reading a whole file *)

(** The lines of a file, each with its newline; the last may have none. *)
Inductive lines : list Z -> list (list Z) -> Prop :=
  | lines_nil : lines [] []
  | lines_last body : 10 ∉ body -> body <> [] -> lines body [body]
  | lines_cons body rest ls : 10 ∉ body -> lines rest ls -> lines (body ++ 10 :: rest) ((body ++ [10]) :: ls).

Lemma split_line_shape l : let '(line, rest, found) := split_line 10 l in
  if found then exists body, line = body ++ [10] /\ (10 ∉ body) /\ l = body ++ 10 :: rest else line = l /\ 10 ∉ l.
Proof.
  induction l as [|c l IH]; cbn; [split; [done|apply not_elem_of_nil]|]. destruct (Z.eqb_spec c 10) as [->|Hc].
  - exists []. split_and!; [done|apply not_elem_of_nil|done].
  - destruct (split_line 10 l) as [[line rest] found]. destruct found.
    + destruct IH as (body & -> & Hb & ->). exists (c :: body). split_and!; [done| |done]. apply not_elem_of_cons. split; [lia|done].
    + destruct IH as [-> Hb]. split; [done|]. apply not_elem_of_cons. split; [lia|done].
Qed.

(** [while ((r = getline(&line, &n, fp)) != -1)], with the lines read. *)
Fixpoint read_lines (junk : Z) (fuel : nat) (st : line_state) : option (list (list Z)) :=
  match fuel with
  | O => None
  | S fuel =>
    '(r, st) ← wpdk_getline (fun _ => true) junk true st;
    if r =? -1 then Some []
    else ls ← read_lines junk fuel st; Some (take (Z.to_nat r) (default [] (lineptr st)) :: ls)
  end.

Lemma read_lines_run junk fuel : forall st, wf_line st -> Forall is_byte (pending (input st)) -> ends_eof (input st) = true ->
  Z.of_nat (length (pending (input st))) < 2 ^ 62 -> (length (pending (input st)) < fuel)%nat ->
  exists ls, read_lines junk fuel st = Some ls /\ lines (pending (input st)) ls.
Proof.
  induction fuel as [|fuel IH]; intros st Hwf Hby He Hl Hf; [lia|]. cbn [read_lines]. unfold wpdk_getline, wpdk_getdelim. cbn [negb].
  destruct (getdelim_loop_run (fun _ => true) junk 10 (S (S (length (pending (input st))))) [] 0 st) as (r & st1 & E & Hw1 & Hp); try done; [|lia|].
  { unfold holds, wf_line in *. destruct (lineptr st) as [b|]; [|done]. split_and!; [done|done|by left]. }
  change (Z.of_nat (length [])) with 0 in E. rewrite E. cbn [mbind option_bind].
  pose proof (split_line_shape (pending (input st))) as Hs.
  pose proof (split_line_app 10 (pending (input st))) as Ha. destruct (split_line 10 (pending (input st))) as [[line rest] found].
  destruct Hp as [[_ (z & _ & Hz)]|Hp]; [done|].
  rewrite He in Hp. cbn [app andb] in Hp. destruct Ha as (Ha & Hr & Hl2).
  destruct (found || negb (bool_decide (line = []))) eqn:Ef.
  - destruct Hp as (-> & (b & Hb & Hb1 & Hb2) & Hi). rewrite (proj2 (Z.eqb_neq _ _)) by lia. rewrite Hb. change (default [] (Some b)) with b.
    assert (line <> []) as Hne.
    { destruct found; [by apply Hl2|]. cbn in Ef. bool_prop. by apply bool_decide_eq_false in Ef. }
    destruct (IH st1) as (ls & -> & Hls); [done| |by rewrite Hi| |  |].
    + rewrite Hi. cbn. rewrite Ha in Hby. by apply Forall_app in Hby as [_ ?].
    + rewrite Hi. cbn. rewrite Ha, length_app in Hl. lia.
    + rewrite Hi. cbn. rewrite Ha, length_app in Hf. destruct line; [done|cbn in Hf; lia].
    + cbn [mbind option_bind]. rewrite Nat2Z.id.
      assert (take (length line) b = line) as ->.
      { apply (f_equal (take (length line))) in Hb2. rewrite take_take, Nat.min_l, take_app_length in Hb2 by lia. done. }
      eexists. split; [done|]. rewrite Hi in Hls. cbn in Hls. destruct found.
      * destruct Hs as (body & -> & Hbd & ->). by constructor.
      * destruct Hs as [-> Hbd]. rewrite (Hr eq_refl) in Hls. inversion Hls as [|? ? ?|body ? ? ? ? Hx]; [by constructor|done|]. by destruct body.
  - destruct Hp as [-> _]. exists []. split; [done|]. bool_prop. subst found. apply bool_decide_eq_true in H0 as ->.
    destruct Hs as [<- _]. constructor.
Qed.

(** Reading a file with [getline] until it returns -1 terminates and yields
    its lines: put together they are the file, each ends at its newline, and only
    the last may lack one; the buffer is reused and grown from call to call. *)
Theorem getline_reads_lines (junk : Z) (st : line_state) :
  wf_line st -> Forall is_byte (pending (input st)) -> ends_eof (input st) = true ->
  Z.of_nat (length (pending (input st))) < 2 ^ 62 ->
  exists ls, read_lines junk (S (length (pending (input st)))) st = Some ls /\
    lines (pending (input st)) ls /\ concat ls = pending (input st).
Proof.
  intros Hwf Hby He Hl. destruct (read_lines_run junk (S (length (pending (input st)))) st) as (ls & E & H); try done; [lia|].
  exists ls. split_and!; [done|done|]. clear -H. induction H as [|body|body rest ls _ _ IH]; cbn; [done|by rewrite app_nil_r|].
  by rewrite IH, <- app_assoc.
Qed.

Lemma getline_reads_lines_witness : exists ls,
  read_lines 0 5 (LineState None 0 (Stream [97; 10; 10; 98] true) 0) = Some ls /\
  lines [97; 10; 10; 98] ls /\ concat ls = [97; 10; 10; 98].
Proof.
  apply (getline_reads_lines 0 (LineState None 0 (Stream [97; 10; 10; 98] true) 0)); [exact I|repeat constructor; lia|reflexivity|cbn; lia].
Defined.

(** ** Streams *)

(** The stream functions of the runtime; a FILE is its address, [None] NULL. *)
Class StdioApi (W : Type) := {
  crt_fopen : path_ptr -> cstr -> C W (option Z * option Z);
  crt_fdopen : Z -> cstr -> C W (option Z * option Z);
  crt_dup : Z -> C W (Z * option Z);
  crt_vfprintf : Z -> cstr -> C W (Z * option Z);
  crt_fclose : Z -> C W (Z * option Z);
  crt_fileno : Z -> C W (Z * option Z)
}.

(** Documented: [_dup] returns a new descriptor; [_fdopen] gives a stream its
    descriptor, [fclose] closes it with the stream; writing changes neither. *)
Class StdioLaws (W : Type) `{!StdioApi W} := {
  open_fds : W -> gset Z;
  file_fd : W -> gmap Z Z;
  dup_law : forall fd w, let '((n, _), w') := crt_dup fd w in file_fd w' = file_fd w /\
    (n = -1 /\ open_fds w' = open_fds w \/ n <> -1 /\ (n ∉ open_fds w) /\ open_fds w' = open_fds w ∪ {[n]});
  fdopen_law : forall fd mode w, let '((f, _), w') := crt_fdopen fd mode w in open_fds w' = open_fds w /\
    match f with None => file_fd w' = file_fd w | Some f => file_fd w !! f = None /\ file_fd w' = <[f := fd]> (file_fd w) end;
  vfprintf_law : forall f fmt w, let '(_, w') := crt_vfprintf f fmt w in open_fds w' = open_fds w /\ file_fd w' = file_fd w;
  fclose_law : forall f w fd, file_fd w !! f = Some fd -> let '(_, w') := crt_fclose f w in
    open_fds w' = open_fds w ∖ {[fd]} /\ file_fd w' = delete f (file_fd w)
}.

Section Streams.
Context {W : Type} `{!Winsock W, !WinError W, !FileApi W, !StdioApi W}.
Local Open Scope c_scope.
Local Abbreviation P := (C (proc W)).

(** A call that returns a pointer. *)
Definition crt_ptr (m : C W (option Z * option Z)) : P (option Z) :=
  let* '(r, e) := lift m in
  match e with Some e => set_errno_c e ;; ret r | None => ret r end.

Definition wpdk_fopen (filename : option cstr) (mode : cstr) : P (option Z) :=
  let* path := map_arg filename in
  match path with
  | None => wpdk_posix_error EINVAL ;; ret None
  | Some path => crt_ptr (crt_fopen path mode)
  end.

Definition wpdk_fdopen (fildes : Z) (mode : cstr) : P (option Z) := crt_ptr (crt_fdopen fildes mode).

Definition wpdk_vdprintf (fd : Z) (format : cstr) : P Z :=
  let* newfd := crt (crt_dup fd) in
  if newfd =? -1 then wpdk_posix_error EBADF
  else
    let* fp := crt_ptr (crt_fdopen newfd (lit "r+")) in
    match fp with
    | None => ret (-1)
    | Some fp =>
      let* rc := crt (crt_vfprintf fp format) in
      let* error := gets errno in
      crt (crt_fclose fp) ;;
      set_errno_c error ;; ret rc
    end.

(** dprintf of the header, with the formatted text. *)
Definition dprintf : Z -> cstr -> P Z := wpdk_vdprintf.

Definition wpdk_fileno (stream : option Z) : P Z :=
  match stream with None => wpdk_posix_error EINVAL | Some f => crt (crt_fileno f) end.

Lemma crt_ptr_run (m : C W (option Z * option Z)) (p : proc W) :
  fst (crt_ptr m p) = fst (fst (m (world p))) /\ world (snd (crt_ptr m p)) = snd (m (world p)) /\
  errno (snd (crt_ptr m p)) = default (errno p) (snd (fst (m (world p)))).
Proof. unfold crt_ptr. rewrite bind_run, lift_run. cbn [fst snd]. destruct (fst (m (world p))) as [r [e|]]; by destruct p. Qed.

(** [vdprintf] leaves the open descriptors as they were and errno as formatting
    left it, except that the duplicate stays open when no stream can be made of it. *)
Theorem vdprintf_descriptors `{!StdioLaws W} (fd : Z) (format : cstr) (p : proc W) :
  let '(rc, p') := wpdk_vdprintf fd format p in
  open_fds (world p') = open_fds (world p) /\ file_fd (world p') = file_fd (world p) \/
  exists newfd, rc = -1 /\ (newfd ∉ open_fds (world p)) /\ open_fds (world p') = open_fds (world p) ∪ {[newfd]}.
Proof.
  unfold wpdk_vdprintf. rewrite bind_run. destruct (crt_run (crt_dup fd) p) as (E1 & E2 & _).
  pose proof (dup_law fd (world p)) as D. destruct (crt_dup fd (world p)) as [[n en] w1]. cbn [fst snd] in E1, E2. rewrite E1. cbn [fst].
  set (p1 := snd (crt (crt_dup fd) p)) in *. destruct D as [Df D]. destruct (Z.eqb_spec n (-1)) as [->|Hn].
  { destruct D as [[_ D]|[? _]]; [|done]. unfold wpdk_posix_error. cbn. left. rewrite E2. by split. }
  destruct D as [[? _]|(_ & Hnew & D)]; [done|]. rewrite bind_run.
  destruct (crt_ptr_run (crt_fdopen n (lit "r+")) p1) as (F1 & F2 & _). pose proof (fdopen_law n (lit "r+") (world p1)) as G.
  destruct (crt_fdopen n (lit "r+") (world p1)) as [[f ef] w2]. cbn [fst snd] in F1, F2. rewrite F1. set (p2 := snd (crt_ptr _ p1)) in *.
  rewrite E2 in G. destruct G as [Go Gf]. destruct f as [f|].
  2:{ cbn. right. exists n. rewrite F2. split_and!; [done|done|by rewrite Go]. }
  rewrite bind_run. destruct (crt_run (crt_vfprintf f format) p2) as (_ & V2 & _). pose proof (vfprintf_law f format (world p2)) as V.
  destruct (crt_vfprintf f format (world p2)) as [rv w3]. cbn [fst snd] in V2. set (p3 := snd (crt (crt_vfprintf f format) p2)) in *.
  set (rc := fst (crt (crt_vfprintf f format) p2)). rewrite bind_run. cbn [fst snd gets]. rewrite bind_run.
  destruct (crt_run (crt_fclose f) p3) as (_ & C2 & _). set (p4 := snd (crt (crt_fclose f) p3)) in *.
  rewrite F2 in V. destruct V as [Vo Vf], Gf as [Gn Gf].
  assert (file_fd (world p3) !! f = Some n) as Hf by (rewrite V2, Vf, Gf; apply lookup_insert_eq).
  pose proof (fclose_law f (world p3) n Hf) as K. destruct (crt_fclose f (world p3)) as [rk w4]. cbn [fst snd] in C2. destruct K as [Ko Kf].
  cbn. left. rewrite C2, Ko, Kf, V2, Vo, Vf, Go, Gf, D. split.
  - set_solver.
  - rewrite Df in Gn |- *. by rewrite delete_insert_id.
Qed.
End Streams.
End Stdio.
