(* ===== verification/Stdlib_c.v ===== *)
(** * Stdlib_c: src/src/stdlib.c

    The allocator wrappers over a heap of blocks, the 31-bit random numbers, the
    checks of the number parsers, and [wpdk_mkstemp] with its retry loop.  Which
    address [_aligned_malloc] returns, if any, is a parameter; the file functions
    of the runtime are the classes [FileApi] and [TempApi]. *)

From S2P Require Import Prelude Errno CString PathMap Proc Sockets Epolls Files.

Module Export Stdlib_c.
Local Open Scope Z_scope.

(** ** Allocation *)

(** Allocated blocks: the bytes of each, by address. *)
Abbreviation heap := (gmap Z (list Z)).

Definition default_alignment : Z := 16.
Definition sizeof_int : Z := 4.

Section Alloc.
(** [choose h size alignment] is the address [_aligned_malloc] returns; new memory
    holds [junk]. *)
Context (choose : heap -> Z -> Z -> option Z) (junk : Z).

Definition aligned_malloc (size alignment : Z) (h : heap) : option Z * heap :=
  match choose h size alignment with
  | Some p => (Some p, <[p := replicate (Z.to_nat size) junk]> h)
  | None => (None, h)
  end.
Definition aligned_free (p : option Z) (h : heap) : heap :=
  match p with Some p => delete p h | None => h end.
(** [_aligned_realloc]: a new block with the contents kept as far as they fit. *)
Definition aligned_realloc (p : option Z) (size alignment : Z) (h : heap) : option Z * heap :=
  match choose h size alignment with
  | None => (None, h)
  | Some q =>
    let old := match p with Some p => default [] (h !! p) | None => [] end in
    (Some q, <[q := take (Z.to_nat size) (old ++ replicate (Z.to_nat size) junk)]> (aligned_free p h))
  end.

Definition wpdk_calloc (nelem elsize : Z) (h : heap) : option Z * heap :=
  let size := uwrap 64 (nelem * elsize) in
  let size := if size =? 0 then sizeof_int else size in
  let '(cp, h) := aligned_malloc size default_alignment h in
  match cp with
  | Some p => (Some p, <[p := replicate (Z.to_nat size) 0]> h)
  | None => (None, h)
  end.
Definition wpdk_free (ptr : option Z) : heap -> heap := aligned_free ptr.
Definition wpdk_malloc (size : Z) : heap -> option Z * heap :=
  aligned_malloc (if size =? 0 then sizeof_int else size) default_alignment.
Definition wpdk_realloc (ptr : option Z) (size : Z) : heap -> option Z * heap :=
  aligned_realloc ptr (if size =? 0 then sizeof_int else size) default_alignment.

(** The result and what [*memptr] becomes, if it is written; [has_ptr] is
    [memptr != NULL]. *)
Definition wpdk_posix_memalign (has_ptr : bool) (alignment size : Z) (h : heap) : Z * option (option Z) * heap :=
  if negb has_ptr || (size =? 0) then (EINVAL, None, h)
  else
    let '(p, h) := aligned_malloc (if size =? 0 then sizeof_int else size) alignment h in
    (match p with None => ENOMEM | Some _ => 0 end, Some p, h).

Lemma malloc_run size alignment h :
  (aligned_malloc size alignment h = (None, h) /\ choose h size alignment = None) \/
  exists p, choose h size alignment = Some p /\ aligned_malloc size alignment h = (Some p, <[p := replicate (Z.to_nat size) junk]> h).
Proof. unfold aligned_malloc. destruct (choose h size alignment) as [p|]; [right; by exists p|by left]. Qed.

(** A block of [calloc] is zeroed and, when the product of the arguments
    fits in 64 bits, holds all its elements; when it does not fit, the block holds
    only the remainder and is smaller than asked for; other blocks keep their
    contents, and a failed allocation changes nothing. *)
Theorem calloc_block (nelem elsize : Z) (h : heap) :
  0 <= nelem < 2 ^ 64 -> 0 <= elsize < 2 ^ 64 ->
  let '(r, h') := wpdk_calloc nelem elsize h in
  match r with
  | None => h' = h
  | Some p => exists b, h' = <[p := b]> h /\ Forall (fun c => c = 0) b /\
      (nelem * elsize < 2 ^ 64 -> nelem * elsize <= Z.of_nat (length b)) /\
      (2 ^ 64 <= nelem * elsize -> Z.of_nat (length b) < nelem * elsize)
  end.
Proof.
  intros Hn He. unfold wpdk_calloc. set (size := if uwrap 64 (nelem * elsize) =? 0 then sizeof_int else uwrap 64 (nelem * elsize)).
  pose proof (uwrap_range 64 (nelem * elsize) ltac:(lia)) as [R1 R2].
  assert (0 < size < 2 ^ 64) as Hs by (unfold size, sizeof_int; destruct (Z.eqb_spec (uwrap 64 (nelem * elsize)) 0); lia).
  destruct (malloc_run size default_alignment h) as [[-> _]|(p & _ & ->)]; [done|].
  exists (replicate (Z.to_nat size) 0). rewrite insert_insert_eq, length_replicate, Z2Nat.id by lia. split_and!; [done| | |].
  - apply Forall_forall. intros c Hc. by apply elem_of_replicate in Hc as [-> _].
  - intros H. unfold size. rewrite uwrap_id by (unfold in_u; nia). unfold sizeof_int. destruct (Z.eqb_spec (nelem * elsize) 0); lia.
  - intros H. lia.
Qed.

(** [realloc] gives a block of the size asked for (four bytes for a size of
    zero) with the old contents as far as they fit, and leaves the other blocks
    alone; a failing [realloc] changes nothing. *)
Theorem realloc_keeps (p : Z) (old : list Z) (size : Z) (h : heap) :
  h !! p = Some old -> 0 <= size ->
  let '(r, h') := wpdk_realloc (Some p) size h in
  let n := Z.to_nat (if size =? 0 then sizeof_int else size) in
  match r with
  | None => h' = h
  | Some q => exists b, h' !! q = Some b /\ length b = n /\ take (n `min` length old) b = take n old /\
      forall a, a <> p -> a <> q -> h' !! a = h !! a
  end.
Proof.
  intros Hp Hs. unfold wpdk_realloc, aligned_realloc. set (sz := if size =? 0 then sizeof_int else size).
  destruct (choose h sz default_alignment) as [q|]; [|done]. rewrite Hp. cbn [default]. eexists. split_and!.
  - apply lookup_insert_eq.
  - rewrite length_take, length_app, length_replicate. lia.
  - unfold default, id. cbn. rewrite take_take. rewrite take_app_le by lia. rewrite Nat.min_l by lia.
    destruct (Nat.min_spec (Z.to_nat sz) (length old)) as [[H ->]|[H ->]]; [done|]. by rewrite !take_ge by lia.
  - intros a H1 H2. unfold aligned_free. by rewrite lookup_insert_ne, lookup_delete_ne by congruence.
Qed.
End Alloc.

(** ** Random numbers *)

(** From three values of the runtime's [rand], which has 15 bits. *)
Definition random_of (v1 v2 v3 : Z) : Z :=
  let r1 := Z.land v1 0x7fff in
  let r2 := Z.land v2 0x7fff in
  let r3 := Z.land v3 1 in
  Z.lor (Z.lor (Z.shiftl r1 16) (Z.shiftl r2 1)) r3.

Lemma random_sum v1 v2 v3 :
  random_of v1 v2 v3 = (v1 mod 2 ^ 15) * 2 ^ 16 + (v2 mod 2 ^ 15) * 2 + v3 mod 2.
Proof.
  unfold random_of. change 0x7fff with (Z.ones 15). change (Z.land v3 1) with (Z.land v3 (Z.ones 1)). rewrite !Z.land_ones, !Z.shiftl_mul_pow2 by lia.
  set (a := v1 mod 2 ^ 15). set (b := v2 mod 2 ^ 15). set (c := v3 mod 2 ^ 1).
  pose proof (Z.mod_pos_bound v1 (2 ^ 15) ltac:(lia)). pose proof (Z.mod_pos_bound v2 (2 ^ 15) ltac:(lia)).
  pose proof (Z.mod_pos_bound v3 (2 ^ 1) ltac:(lia)). fold a in H. fold b in H0. fold c in H1.
  assert (forall x y k, 0 <= k -> 0 <= y < 2 ^ k -> Z.lor (x * 2 ^ k) y = x * 2 ^ k + y) as Hor.
  { intros x y k Hk Hy. rewrite <- Z.add_lor_land. assert (Z.land (x * 2 ^ k) y = 0) as ->; [|lia].
    apply Z.bits_inj'. intros i Hi. rewrite Z.land_spec, Z.bits_0. destruct (Z.lt_ge_cases i k).
    - rewrite Z.mul_pow2_bits_low by lia. done.
    - destruct (Z.eq_dec y 0) as [->|]; [by rewrite Z.bits_0, andb_false_r|].
      rewrite (Z.bits_above_log2 y); [by rewrite andb_false_r|lia|]. apply Z.log2_lt_pow2; [lia|]. eapply Z.lt_le_trans; [apply Hy|]. apply Z.pow_le_mono_r; lia. }
  rewrite (Hor a (b * 2 ^ 1) 16) by lia.
  replace (a * 2 ^ 16 + b * 2 ^ 1) with ((a * 2 ^ 15 + b) * 2 ^ 1) by lia. rewrite (Hor _ c 1) by lia. unfold c. change (2 ^ 1) with 2. lia.
Qed.

(** [random] returns 31-bit numbers, and every one of them for exactly one
    triple of 15-bit, 15-bit and 1-bit draws: it is as uniform as [rand] is. *)
Theorem random_31_bits :
  (forall v1 v2 v3, 0 <= random_of v1 v2 v3 < 2 ^ 31) /\
  forall r, 0 <= r < 2 ^ 31 -> exists v1 v2 v3, (0 <= v1 < 2 ^ 15 /\ 0 <= v2 < 2 ^ 15 /\ 0 <= v3 < 2) /\ random_of v1 v2 v3 = r /\
    forall w1 w2 w3, 0 <= w1 < 2 ^ 15 -> 0 <= w2 < 2 ^ 15 -> 0 <= w3 < 2 -> random_of w1 w2 w3 = r -> w1 = v1 /\ w2 = v2 /\ w3 = v3.
Proof.
  split.
  - intros v1 v2 v3. rewrite random_sum. pose proof (Z.mod_pos_bound v1 (2 ^ 15) ltac:(lia)).
    pose proof (Z.mod_pos_bound v2 (2 ^ 15) ltac:(lia)). pose proof (Z.mod_pos_bound v3 2 ltac:(lia)). lia.
  - intros r Hr. exists (r / 2 ^ 16), (r / 2 mod 2 ^ 15), (r mod 2).
    assert (0 <= r / 2 ^ 16 < 2 ^ 15) as H1 by (split; [apply Z.div_pos; lia|apply Z.div_lt_upper_bound; lia]).
    pose proof (Z.mod_pos_bound (r / 2) (2 ^ 15) ltac:(lia)) as H2. pose proof (Z.mod_pos_bound r 2 ltac:(lia)) as H3.
    assert (r / 2 ^ 16 * 2 ^ 16 + r / 2 mod 2 ^ 15 * 2 + r mod 2 = r) as E.
    { replace (r / 2 ^ 16) with (r / 2 / 2 ^ 15) by (rewrite Z.div_div; [done|lia|lia]).
      pose proof (Z.div_mod (r / 2) (2 ^ 15) ltac:(lia)). pose proof (Z.div_mod r 2 ltac:(lia)). lia. }
    split_and!; try lia.
    + rewrite random_sum, (Z.mod_small (r / 2 ^ 16)), (Z.mod_small (r / 2 mod 2 ^ 15)), (Z.mod_small (r mod 2) 2) by lia. exact E.
    + intros w1 w2 w3 W1 W2 W3. rewrite random_sum, (Z.mod_small w1), (Z.mod_small w2), (Z.mod_small w3) by lia. intros E'. lia.
Qed.

Section Calls.
Context {W : Type} `{!Winsock W, !WinError W, !FileApi W}.
Local Open Scope c_scope.
Local Abbreviation P := (C (proc W)).

(** [_mktemp] and the random source of the runtime. *)
Class TempApi := {
  crt_mktemp : cstr -> C W (option cstr * option Z);
  crt_rand : C W Z;
  crt_srand : Z -> C W unit;
  crt_strtol : cstr -> Z -> C W (Z * option Z);
  crt_strtoll : cstr -> Z -> C W (Z * option Z)
}.
Context `{!TempApi}.

Definition wpdk_random : P Z :=
  let* v1 := lift crt_rand in let* v2 := lift crt_rand in let* v3 := lift crt_rand in ret (random_of v1 v2 v3).
Definition wpdk_rand : P Z := wpdk_random.
Definition wpdk_rand_r (seedp : Z) : P Z := wpdk_random.
Definition wpdk_srand (seed : Z) : P unit := lift (crt_srand seed).
Definition wpdk_srandom (seed : Z) : P unit := lift (crt_srand seed).

Definition wpdk_strtol (str : cstr) (base : Z) : P Z :=
  if (base =? 1) || (36 <? base) then wpdk_posix_error EINVAL ;; ret 0 else crt (crt_strtol str base).
Definition wpdk_strtoll (str : cstr) (base : Z) : P Z :=
  if (base =? 1) || (36 <? base) then wpdk_posix_error EINVAL ;; ret 0 else crt (crt_strtoll str base).

(** ** mkstemp *)

Definition O_EXCL : Z := 0x400.

(** [wpdk_copy_path(buf, sizeof(buf), path)] *)
Definition copy_path (path : cstr) : P (option cstr) :=
  let* p := get in
  let '(r, paths) := wpdk_copy_path (w_env (world p)) [] PATH_MAX (Some path) (pr_paths p) in
  modify (set_paths paths) ;; ret r.

Definition mktemp (path : cstr) : P (option cstr) :=
  let* '(r, e) := lift (crt_mktemp path) in
  match e with Some e => set_errno_c e ;; ret r | None => ret r end.

(** The retries: the descriptor or -1, and the template as it is left. *)
Fixpoint mkstemp_loop (n : nat) (template : cstr) : P (Z * cstr) :=
  match n with
  | O => let* r := wpdk_posix_error EEXIST in ret (r, template)
  | S n =>
    let* path := copy_path template in
    match path with
    | None => let* r := wpdk_posix_error EINVAL in ret (r, template)
    | Some path =>
      let* path := mktemp path in
      match path with
      | None => ret (-1, template)
      | Some path =>
        let* fd := crt (crt_open (PathStr path) (Z.lor (Z.lor (Z.lor O_CREAT O_EXCL) O_RDWR) _O_BINARY) (Z.lor S_IREAD S_IWRITE)) in
        if negb (fd =? -1) then
          let pathlen := length path in
          let tail := drop (pathlen - 6) path in
          if (6 <=? pathlen)%nat && (pathlen <? PATH_MAX)%nat && strcpy_s_ok 7 tail then
            ret (fd, take (length template - 6) template ++ tail)
          else
            crt (crt_close fd) ;; crt (crt_unlink (PathStr path)) ;;
            let* r := wpdk_posix_error EINVAL in ret (r, template)
        else
          let* e := gets errno in
          if negb (e =? EEXIST) then ret (-1, template) else mkstemp_loop n template
      end
    end
  end.

Definition wpdk_mkstemp (template : option cstr) : P (Z * option cstr) :=
  match template with
  | None => let* r := wpdk_posix_error EINVAL in ret (r, None)
  | Some t =>
    if (length t <? 6)%nat || (PATH_MAX <=? length t)%nat || negb (eqs (drop (length t - 6) t) (lit "XXXXXX"))
    then let* r := wpdk_posix_error EINVAL in ret (r, Some t)
    else let* '(r, t) := mkstemp_loop 26 t in ret (r, Some t)
  end.

Lemma mkstemp_loop_template n : forall t p, (6 <= length t)%nat ->
  let '((fd, t'), _) := mkstemp_loop n t p in
  (fd = -1 /\ t' = t) \/
  (length t' = length t /\ take (length t - 6) t' = take (length t - 6) t).
Proof.
  induction n as [|n IH]; intros t p Ht; cbn [mkstemp_loop]; [by left|]. rewrite bind_run.
  destruct (fst (copy_path t p)) as [path|]; [|by left]. rewrite bind_run. set (p1 := snd (copy_path t p)).
  destruct (fst (mktemp path p1)) as [path'|]; [|by left]. set (p2 := snd (mktemp path p1)). rewrite bind_run.
  set (open := crt _). set (p3 := snd (open p2)). destruct (Z.eqb_spec (fst (open p2)) (-1)) as [E|E]; cbn [negb].
  - rewrite bind_run. cbn [fst snd gets]. destruct (negb _); [by left|]. by apply IH.
  - destruct (_ && _) eqn:Ec.
    + cbn. right. bool_prop. split.
      * rewrite length_app, length_take, length_drop. lia.
      * rewrite take_app_le by (rewrite length_take; lia). rewrite take_take. f_equal. lia.
    + rewrite !bind_run. by left.
Qed.

(** A failing [mkstemp] (no template, a template not ending in XXXXXX, no
    name left after 26 attempts, an error of the runtime) returns -1 and leaves the
    template alone; otherwise it changes only the last six characters. *)
Theorem mkstemp_changes_suffix (t : cstr) (p : proc W) :
  let '((fd, t'), _) := wpdk_mkstemp (Some t) p in
  exists u, t' = Some u /\ ((fd = -1 /\ u = t) \/
    (length u = length t /\ take (length t - 6) u = take (length t - 6) t /\ drop (length t - 6) t = lit "XXXXXX")).
Proof.
  unfold wpdk_mkstemp. destruct (_ || _) eqn:E; [exists t; split; [done|by left]|]. bool_prop. rewrite bind_run.
  pose proof (mkstemp_loop_template 26 t p ltac:(lia)) as Hl. destruct (mkstemp_loop 26 t p) as [[fd t'] p']. cbn.
  exists t'. split; [done|]. destruct Hl as [?|[Hl1 Hl2]]; [by left|right]. split_and!; [done|done|].
  match goal with H : eqs _ _ = true |- _ => by apply bool_decide_eq_true in H end.
Qed.
End Calls.
Arguments TempApi W : clear implicits.

(** ** Witnesses *)

(** An allocator that hands out addresses in steps of a page. *)
Definition bump (h : heap) (size alignment : Z) : option Z := Some (4096 * Z.of_nat (S (base.size h))).

Lemma calloc_block_witness : exists b,
  snd (wpdk_calloc bump 7 3 5 ∅) = <[4096 := b]> ∅ /\ Forall (fun c => c = 0) b /\
  (3 * 5 < 2 ^ 64 -> 3 * 5 <= Z.of_nat (length b)) /\ (2 ^ 64 <= 3 * 5 -> Z.of_nat (length b) < 3 * 5).
Proof. exact (calloc_block bump 7 3 5 ∅ ltac:(lia) ltac:(lia)). Defined.

Lemma realloc_keeps_witness : exists b,
  (snd (wpdk_realloc bump 7 (Some 1) 2 (<[1 := [5; 6; 8]]> ∅))) !! 8192 = Some b /\ length b = 2%nat /\
  take 2 b = [5; 6] /\ forall a, a <> 1 -> a <> 8192 ->
    (snd (wpdk_realloc bump 7 (Some 1) 2 (<[1 := [5; 6; 8]]> ∅))) !! a = (<[1 := [5; 6; 8]]> ∅ : heap) !! a.
Proof. exact (realloc_keeps bump 7 1 [5; 6; 8] 2 (<[1 := [5; 6; 8]]> ∅) eq_refl ltac:(lia)). Defined.
End Stdlib_c.
