(* ===== verification/Dirent.v ===== *)
(** * Dirent: directory streams, src/src/dirent.c

    A DIR object holds a search handle of the runtime and the last entry found.
    The searches are the class [DirApi]; [DirLaws] states their documented
    behaviour: a search yields the entries of a listing one after the other. *)

From S2P Require Import Prelude Errno CString PathMap Proc Sockets Epolls Files.
From Stdlib Require Import Ascii.

Module Export Dirent.
Local Open Scope Z_scope.

Definition DT_REG : Z := 1.
Definition DT_DIR : Z := 2.
Definition _A_SUBDIR : Z := 0x10.
Definition sizeof_d_name : nat := 260.

(** What the code reads of [struct _finddata_t]. *)
Record finddata := Finddata { fi_name : cstr; fi_attrib : Z }.
Record dirent := Dirent_ { d_ino : Z; d_type : Z; d_name : cstr }.
Record DIR := Dir { d_h : Z; d_fd : Z; d_first : Z; d_info : finddata; d_entry : dirent; d_spec : cstr }.

(** [calloc(1, sizeof(struct _DIR))] *)
Definition dir0 : DIR := Dir 0 0 0 (Finddata [] 0) (Dirent_ 0 0 []) [].

Class DirApi (W : Type) := {
  dir_calloc : C W bool;
  CreateFile_dir : cstr -> C W Z;
  dir_CloseHandle : Z -> C W Z;
  crt_open_osfhandle : Z -> C W (Z * option Z);
  (** the handle or -1, what the structure holds then, and errno when it is set *)
  crt_findfirst : cstr -> finddata -> C W (Z * finddata * option Z);
  crt_findnext : Z -> finddata -> C W (Z * finddata * option Z);
  crt_findclose : Z -> C W (Z * option Z)
}.

Section Dirs.
Context {W : Type} `{!Winsock W, !WinError W, !FileApi W, !DirApi W}.
Local Open Scope c_scope.
Local Abbreviation P := (C (proc W)).

Definition crt_find (m : C W (Z * finddata * option Z)) : P (Z * finddata) :=
  let* '(r, i, e) := lift m in
  match e with Some e => set_errno_c e ;; ret (r, i) | None => ret (r, i) end.

(** [wpdk_closedir]; the object is freed. *)
Definition wpdk_closedir (dirp : option DIR) : P Z :=
  match dirp with
  | None => wpdk_posix_error EBADF
  | Some d =>
    (if d_fd d =? -1 then ret 0 else crt (crt_close (d_fd d))) ;;
    (if d_h d =? -1 then ret 0 else crt (crt_findclose (d_h d))) ;;
    ret 0
  end.

Definition dir_error (e : Z) : P (option DIR) := wpdk_posix_error e ;; ret None.

(** The search pattern for a directory. *)
Definition search_spec (spec : cstr) : cstr :=
  let c := char_at spec (length spec - 1) in
  spec ++ (if eqc c "/"%char || eqc c "\"%char then lit "*" else lit "\*").

Definition wpdk_opendir (dirname : option cstr) : P (option DIR) :=
  match dirname with
  | None | Some [] => dir_error EINVAL
  | Some name =>
    if (MAX_PATH <=? length name + 2)%nat then dir_error ENAMETOOLONG
    else
      let* ok := lift dir_calloc in
      if negb ok then dir_error ENOMEM
      else
        let* p := get in
        let '(spec, paths) := wpdk_copy_path (w_env (world p)) [] (PATH_MAX - 2) (Some name) (pr_paths p) in
        modify (set_paths paths) ;;
        match spec with
        | None => dir_error ENAMETOOLONG
        | Some spec =>
          let* h := lift (CreateFile_dir spec) in
          if h =? INVALID_HANDLE_VALUE then wpdk_last_error ;; ret None
          else
            let* fd := crt (crt_open_osfhandle h) in
            if fd =? -1 then
              let* error := gets errno in
              lift (dir_CloseHandle h) ;;
              wpdk_closedir (Some (Dir (d_h dir0) (-1) (d_first dir0) (d_info dir0) (d_entry dir0) spec)) ;;
              dir_error error
            else
              let spec := search_spec spec in
              let* '(sh, info) := crt_find (crt_findfirst spec (d_info dir0)) in
              if sh =? -1 then
                let* error := gets errno in
                wpdk_closedir (Some (Dir sh fd (d_first dir0) info (d_entry dir0) spec)) ;;
                dir_error error
              else ret (Some (Dir sh fd 1 info (d_entry dir0) spec))
        end
  end.

(** The entry of a found file; the name fits, as [finddata] holds no longer one. *)
Definition entry_of (i : finddata) : dirent :=
  Dirent_ 0 (if Z.land (fi_attrib i) _A_SUBDIR =? 0 then DT_REG else DT_DIR) (take sizeof_d_name (fi_name i)).

(** The entry or NULL, and the object as it is left. *)
Definition wpdk_readdir (dirp : option DIR) : P (option dirent * option DIR) :=
  let* error := gets errno in
  match dirp with
  | None => wpdk_posix_error EBADF ;; ret (None, None)
  | Some d =>
    if d_h d =? -1 then wpdk_posix_error EBADF ;; ret (None, Some d)
    else
      let* '(r, i) := (if d_first d =? 0 then crt_find (crt_findnext (d_h d) (d_info d)) else ret (0, d_info d)) in
      if (d_first d =? 0) && (r =? -1) then
        let* e := gets errno in
        (if e =? ENOENT then set_errno_c error else ret tt) ;;
        ret (None, Some (Dir (d_h d) (d_fd d) (d_first d) i (d_entry d) (d_spec d)))
      else ret (Some (entry_of i), Some (Dir (d_h d) (d_fd d) 0 i (entry_of i) (d_spec d)))
  end.

Definition wpdk_rewinddir (dirp : option DIR) : P (option DIR) :=
  match dirp with
  | None => ret None
  | Some d =>
    (if d_h d =? -1 then ret 0 else crt (crt_findclose (d_h d))) ;;
    let* '(h, i) := crt_find (crt_findfirst (d_spec d) (d_info d)) in
    ret (Some (Dir h (d_fd d) 1 i (d_entry d) (d_spec d)))
  end.

Definition wpdk_dirfd (dirp : option DIR) : P Z :=
  match dirp with
  | None => wpdk_posix_error EINVAL
  | Some d => if d_fd d =? -1 then wpdk_posix_error EINVAL else ret (d_fd d)
  end.
End Dirs.

(** Documented behaviour of the searches: [searches] are the entries each open
    search has left, [listing] what a search for a pattern finds. *)
Class DirLaws (W : Type) `{!DirApi W} := {
  searches : W -> gmap Z (list finddata);
  listing : W -> cstr -> list finddata;
  findfirst_law : forall spec i w, let '((h, j, e), w') := crt_findfirst spec i w in
    (forall s, listing w' s = listing w s) /\
    match listing w spec with
    | [] => h = -1 /\ searches w' = searches w
    | x :: rest => h <> -1 /\ j = x /\ e = None /\ searches w !! h = None /\ searches w' = <[h := rest]> (searches w)
    end;
  findnext_law : forall h i w l, searches w !! h = Some l -> let '((r, j, e), w') := crt_findnext h i w in
    (forall s, listing w' s = listing w s) /\
    match l with
    | [] => r = -1 /\ e = Some ENOENT /\ searches w' = searches w
    | x :: rest => r = 0 /\ j = x /\ e = None /\ searches w' = <[h := rest]> (searches w)
    end;
  findclose_law : forall h w, let '(_, w') := crt_findclose h w in
    (forall s, listing w' s = listing w s) /\ searches w' = delete h (searches w)
}.

Section Reading.
Context {W : Type} `{!Winsock W, !WinError W, !FileApi W, !DirApi W, !DirLaws W}.
Local Abbreviation P := (C (proc W)).

(** [while ((e = readdir(dirp)) != NULL)]: the entries read. *)
Fixpoint read_all (fuel : nat) (d : DIR) (p : proc W) : option (list dirent * DIR * proc W) :=
  match fuel with
  | O => None
  | S fuel =>
    match wpdk_readdir (Some d) p with
    | ((Some e, Some d), p) => '(es, d, p) ← read_all fuel d p; Some (e :: es, d, p)
    | ((None, Some d), p) => Some ([], d, p)
    | ((_, None), p) => None
    end
  end.

(** A stream at the start of its directory. *)
Definition fresh_dir (w : W) (d : DIR) : Prop := exists x rest,
  listing w (d_spec d) = x :: rest /\ d_first d = 1 /\ d_h d <> -1 /\ d_info d = x /\ searches w !! d_h d = Some rest.

Lemma crt_find_run (m : C W (Z * finddata * option Z)) (p : proc W) :
  fst (crt_find m p) = fst (fst (m (world p))) /\ world (snd (crt_find m p)) = snd (m (world p)) /\
  errno (snd (crt_find m p)) = default (errno p) (snd (fst (m (world p)))).
Proof.
  unfold crt_find. rewrite bind_run, lift_run. cbn [fst snd]. destruct (fst (m (world p))) as [[r i] [e|]]; by destruct p.
Qed.

(** One call on a stream that is not at its start. *)
Lemma readdir_next d p l : d_first d = 0 -> d_h d <> -1 -> searches (world p) !! d_h d = Some l ->
  exists p', match l with
  | [] => exists i, wpdk_readdir (Some d) p = ((None, Some (Dir (d_h d) (d_fd d) 0 i (d_entry d) (d_spec d))), p') /\ errno p' = errno p /\
      searches (world p') = searches (world p)
  | x :: rest => wpdk_readdir (Some d) p = ((Some (entry_of x), Some (Dir (d_h d) (d_fd d) 0 x (entry_of x) (d_spec d))), p') /\
      errno p' = errno p /\ searches (world p') !! d_h d = Some rest
  end.
Proof.
  intros Hf Hh Hs. unfold wpdk_readdir. rewrite bind_run. cbn [fst snd gets]. rewrite (proj2 (Z.eqb_neq _ _) Hh), Hf. cbn [Z.eqb].
  rewrite bind_run. destruct (crt_find_run (crt_findnext (d_h d) (d_info d)) p) as (E1 & E2 & E3).
  pose proof (findnext_law (d_h d) (d_info d) (world p) l Hs) as H.
  destruct (crt_findnext (d_h d) (d_info d) (world p)) as [[[r j] e] w']. cbn [fst snd] in E1, E2, E3. rewrite E1.
  set (p1 := snd (crt_find _ p)) in *. destruct H as [_ H]. destruct l as [|x rest].
  - destruct H as (-> & -> & H). cbn [Z.eqb Pos.eqb andb]. rewrite bind_run. cbn [fst snd gets]. rewrite E3. cbn [default from_option].
    rewrite Z.eqb_refl. eexists. exists j. rewrite bind_run. cbn [fst snd]. split_and!; [done|by destruct p1|].
    unfold set_errno_c, modify. cbn. destruct p1. cbn in *. by rewrite E2.
  - destruct H as (-> & -> & -> & H). cbn. exists p1. split_and!; [done|done|]. rewrite E2, H. apply lookup_insert_eq.
Qed.

Lemma read_all_next l : forall fuel d p, d_first d = 0 -> d_h d <> -1 -> searches (world p) !! d_h d = Some l -> (length l < fuel)%nat ->
  exists d' p', read_all fuel d p = Some (map entry_of l, d', p') /\ errno p' = errno p.
Proof.
  induction l as [|x l IH]; intros [|fuel] d p Hf Hh Hs Hl; cbn in Hl; try lia; cbn [read_all];
    destruct (readdir_next d p _ Hf Hh Hs) as (p1 & H).
  - destruct H as (i & -> & E & _). by eexists _, _.
  - destruct H as (-> & E & Hs1). destruct (IH fuel (Dir (d_h d) (d_fd d) 0 x (entry_of x) (d_spec d)) p1) as (d' & p' & -> & E'); try done; [lia|].
    eexists _, _. split; [done|]. congruence.
Qed.

(** Reading a directory stream that was opened or rewound with [readdir]
    until it returns NULL yields the entries of the directory's listing, each once
    and in order, and leaves errno as it was (the end is not an error). *)
Theorem readdir_lists (d : DIR) (p : proc W) :
  fresh_dir (world p) d ->
  exists d' p', read_all (S (length (listing (world p) (d_spec d)))) d p =
    Some (map entry_of (listing (world p) (d_spec d)), d', p') /\ errno p' = errno p.
Proof.
  intros (x & rest & -> & Hf & Hh & Hi & Hs). cbn [length map]. remember (S (length rest)) as n eqn:En. cbn [read_all].
  assert (wpdk_readdir (Some d) p = ((Some (entry_of x), Some (Dir (d_h d) (d_fd d) 0 x (entry_of x) (d_spec d))), p)) as ->.
  { unfold wpdk_readdir. rewrite bind_run. cbn [fst snd gets]. rewrite (proj2 (Z.eqb_neq _ _) Hh), Hf. by rewrite bind_run, <- Hi. }
  destruct (read_all_next rest n (Dir (d_h d) (d_fd d) 0 x (entry_of x) (d_spec d)) p) as (d' & p' & -> & E); try done; [lia|].
  by eexists _, _.
Qed.

Lemma findfirst_fresh spec i fd entry (p : proc W) :
  let r := crt_find (crt_findfirst spec i) p in
  listing (world p) spec <> [] ->
  fst (fst r) <> -1 /\ fresh_dir (world (snd r)) (Dir (fst (fst r)) fd 1 (snd (fst r)) entry spec) /\
  forall s, listing (world (snd r)) s = listing (world p) s.
Proof.
  intros r Hl. destruct (crt_find_run (crt_findfirst spec i) p) as (E1 & E2 & _). fold r in E1, E2.
  pose proof (findfirst_law spec i (world p)) as H. destruct (crt_findfirst spec i (world p)) as [[[h j] e] w']. cbn [fst snd] in E1, E2.
  rewrite E1, E2. cbn [fst snd]. destruct H as [Hls H]. destruct (listing (world p) spec) as [|x rest] eqn:El; [done|].
  destruct H as (Hh & -> & _ & _ & Hs). split_and!; [done| |done]. exists x, rest. cbn [d_spec d_first d_h d_info].
  rewrite Hls, El, Hs, lookup_insert_eq. done.
Qed.

(** Rewinding a stream of a non-empty directory brings it back to the start
    of the listing (so that reading yields all its entries again) and ends the
    search it had. *)
Theorem rewinddir_restarts (d : DIR) (p : proc W) :
  listing (world p) (d_spec d) <> [] ->
  let '(r, p') := wpdk_rewinddir (Some d) p in
  exists d', r = Some d' /\ fresh_dir (world p') d' /\ d_spec d' = d_spec d /\ d_fd d' = d_fd d /\
    listing (world p') (d_spec d) = listing (world p) (d_spec d) /\
    (d_h d <> -1 -> d_h d' <> d_h d -> searches (world p') !! d_h d = None).
Proof.
  intros Hl. unfold wpdk_rewinddir. rewrite bind_run.
  set (close := if d_h d =? -1 then ret 0 else crt (crt_findclose (d_h d))). set (p1 := snd (close p)).
  assert ((forall s, listing (world p1) s = listing (world p) s) /\ (d_h d <> -1 -> searches (world p1) !! d_h d = None)) as [L1 S1].
  { unfold p1, close. destruct (Z.eqb_spec (d_h d) (-1)) as [E|E]; [by split|].
    unfold crt. rewrite bind_run, lift_run. cbn [fst snd]. pose proof (findclose_law (d_h d) (world p)) as H.
    destruct (crt_findclose (d_h d) (world p)) as [[r e] w']. destruct H as [H1 H2]. cbn [fst snd].
    destruct e; cbn; (split; [done|]); intros _; rewrite H2; apply lookup_delete_eq. }
  rewrite bind_run. destruct (findfirst_fresh (d_spec d) (d_info d) (d_fd d) (d_entry d) p1) as (H1 & H2 & H3); [by rewrite L1|].
  pose proof (crt_find_run (crt_findfirst (d_spec d) (d_info d)) p1) as (F1 & F2 & _).
  pose proof (findfirst_law (d_spec d) (d_info d) (world p1)) as Hlaw.
  destruct (crt_find (crt_findfirst (d_spec d) (d_info d)) p1) as [[h i] p2]. cbn [fst snd] in *. cbn.
  eexists. split; [done|]. cbn. split_and!; [done|done|done|by rewrite H3, L1|]. intros Hh Hne. rewrite F2.
  destruct (crt_findfirst (d_spec d) (d_info d) (world p1)) as [[[h' j] e] w']. cbn [fst snd] in *. simplify_eq. destruct Hlaw as [_ Hlaw].
  destruct (listing (world p1) (d_spec d)); [by destruct Hlaw as [_ ->]; apply S1|].
  destruct Hlaw as (_ & _ & _ & _ & ->). rewrite lookup_insert_ne by done. by apply S1.
Qed.
End Reading.

(** ** A runtime that satisfies the laws *)

Module DirSim.
Record w := World { sims : gmap Z (list finddata); files : cstr -> list finddata }.
Definition new_handle (x : w) : Z := fresh (dom (sims x) ∪ {[-1]}).

#[export] Instance sim_dirs : DirApi w := {|
  dir_calloc x := (true, x);
  CreateFile_dir _ x := (7, x);
  dir_CloseHandle _ x := (1, x);
  crt_open_osfhandle _ x := ((3, None), x);
  crt_findfirst spec i x :=
    match files x spec with
    | [] => ((-1, i, Some ENOENT), x)
    | y :: rest => ((new_handle x, y, None), World (<[new_handle x := rest]> (sims x)) (files x))
    end;
  crt_findnext h i x :=
    match sims x !! h with
    | Some (y :: rest) => ((0, y, None), World (<[h := rest]> (sims x)) (files x))
    | _ => ((-1, i, Some ENOENT), x)
    end;
  crt_findclose h x := ((0, None), World (delete h (sims x)) (files x))
|}.

#[export] Instance sim_laws : DirLaws w.
Proof.
  refine {| searches := sims; listing := files |}.
  - intros spec i x. cbn. destruct (files x spec) as [|y rest]; cbn; [done|].
    pose proof (is_fresh (dom (sims x) ∪ {[-1]})) as Hf. unfold new_handle. split; [done|]. split_and!; try done.
    + intros E. apply Hf. rewrite E. set_solver.
    + apply not_elem_of_dom. set_solver.
  - intros h i x l Hl. cbn. rewrite Hl. by destruct l.
  - intros h x. done.
Defined.

Definition tree : list finddata := [Finddata (lit ".") 16; Finddata (lit "a.c") 32; Finddata (lit "lib") 16].
Definition d0 : DIR := Dir 5 3 1 (Finddata (lit ".") 16) (Dirent_ 0 0 []) (lit "src\*").
Definition p0 : proc w := proc0 (World {[5 := [Finddata (lit "a.c") 32; Finddata (lit "lib") 16]]} (fun _ => tree)).

Lemma fresh_d0 : fresh_dir (world p0) d0.
Proof. exists (Finddata (lit ".") 16), [Finddata (lit "a.c") 32; Finddata (lit "lib") 16]. by split_and!. Qed.
End DirSim.
Import DirSim.

Lemma readdir_lists_witness : exists d' p',
  read_all 4 DirSim.d0 DirSim.p0 = Some (map entry_of DirSim.tree, d', p') /\ errno p' = errno DirSim.p0.
Proof. exact (readdir_lists DirSim.d0 DirSim.p0 DirSim.fresh_d0). Defined.

Lemma rewinddir_restarts_witness : exists d', fst (wpdk_rewinddir (Some DirSim.d0) DirSim.p0) = Some d' /\
  fresh_dir (world (snd (wpdk_rewinddir (Some DirSim.d0) DirSim.p0))) d' /\ d_spec d' = lit "src\*" /\ d_fd d' = 3 /\
  DirSim.files (world (snd (wpdk_rewinddir (Some DirSim.d0) DirSim.p0))) (lit "src\*") = DirSim.tree /\
  (5 <> -1 -> d_h d' <> 5 -> DirSim.sims (world (snd (wpdk_rewinddir (Some DirSim.d0) DirSim.p0))) !! 5 = None).
Proof.
  assert (DirSim.files (world DirSim.p0) (d_spec DirSim.d0) <> []) as H by discriminate.
  exact (rewinddir_restarts DirSim.d0 DirSim.p0 H).
Defined.
End Dirent.
