(* ===== verification/Mman.v ===== *)
(** * Mman: memory mapping, src/src/mman.c

    [wpdk_mmap] and [wpdk_munmap] over the mapping functions of Windows, the class
    [MapApi]; the arithmetic on offsets and addresses is that of the source, at its
    widths.  [MapLaws] states the documented behaviour of views. *)

From S2P Require Import Prelude Errno CString PathMap Proc Sockets Epolls Files.

Module Export Mman.
Local Open Scope Z_scope.

(** [MAP_FAILED], as the address it is. *)
Definition MAP_FAILED : Z := 2 ^ 64 - 1.

(** The halves of a LARGE_INTEGER. *)
Definition HighPart (q : Z) : Z := swrap 32 (Z.shiftr q 32).
Definition LowPart (q : Z) : Z := uwrap 32 q.

Class MapApi (W : Type) := {
  (** [dwAllocationGranularity] *)
  granularity : W -> Z;
  (** a file mapping of the size with the given halves, [None] for NULL *)
  CreateFileMapping : Z -> Z -> Z -> C W (option Z);
  (** a view at the offset with the given halves, of a number of bytes *)
  MapViewOfFile : Z -> Z -> Z -> Z -> C W (option Z);
  UnmapViewOfFile : Z -> C W Z;
  map_CloseHandle : Z -> C W Z
}.

Section Ops.
Context {W : Type} `{!Winsock W, !WinError W, !FileApi W, !MapApi W}.
Local Open Scope c_scope.
Local Abbreviation P := (C (proc W)).

Definition wpdk_shm_open (name : option cstr) (oflag mode : Z) : P Z :=
  with_path name (fun path => crt (crt_open path oflag mode)).
Definition wpdk_shm_unlink (name : option cstr) : P Z :=
  with_path name (fun path => crt (crt_unlink path)).

Definition map_error (e : Z) : P Z := wpdk_posix_error e ;; ret MAP_FAILED.

(** The three values of the call: start, end and size of the view. *)
Definition view_start (g off : Z) : Z := swrap 64 (Z.quot off g * g).
Definition view_end (off len : Z) : Z := swrap 64 (off + len).
Definition view_size (g off len : Z) : Z := swrap 64 (view_end off len - view_start g off).

Definition wpdk_mmap (addr len prot flags fildes off : Z) : P Z :=
  if negb (addr =? 0) then map_error EINVAL
  else
    let* h := crt (crt_get_osfhandle fildes) in
    if h =? INVALID_HANDLE_VALUE then map_error EBADF
    else
      let* g := gets (fun p => granularity (world p)) in
      let start := view_start g off in
      let end_ := view_end off len in
      let size := view_size g off len in
      if negb (HighPart size =? 0) then map_error EINVAL
      else
        let* hMap := lift (CreateFileMapping h (uwrap 32 (HighPart end_)) (LowPart end_)) in
        let* rc := gets (fun p => w_GetLastError (world p)) in
        match hMap with
        | None => wpdk_windows_error (s32 rc) ;; ret MAP_FAILED
        | Some hMap =>
          let* pMap := lift (MapViewOfFile hMap (uwrap 32 (HighPart start)) (LowPart start) (LowPart size)) in
          let* rc := gets (fun p => w_GetLastError (world p)) in
          lift (map_CloseHandle hMap) ;;
          match pMap with
          | None => wpdk_windows_error (s32 rc) ;; ret MAP_FAILED
          | Some a => ret (uwrap 64 (a + (off - start)))
          end
        end.

Definition wpdk_munmap (addr len : Z) : P Z :=
  let* g := gets (fun p => granularity (world p)) in
  let* rc := lift (UnmapViewOfFile (Z.quot addr g * g)) in
  if rc =? 0 then wpdk_last_error else ret 0.

Definition wpdk_mprotect (addr len prot : Z) : P Z := ret 0.
End Ops.

(** A view: the file, the offset it starts at and its length (0: to the end). *)
Record view := View { v_file : Z; v_offset : Z; v_len : Z }.

(** Documented: mappings and views are objects of their own; a view is placed at a
    multiple of the granularity, below the end of the address space, and its offset
    must be one; unmapping needs the address the view was placed at. *)
Class MapLaws (W : Type) `{!FileApi W, !MapApi W} := {
  sections : W -> gmap Z Z;
  views : W -> gmap Z view;
  granularity_pos : forall w, 0 < granularity w < 2 ^ 32;
  osfhandle_law : forall fd w, let '(_, w') := crt_get_osfhandle fd w in
    granularity w' = granularity w /\ views w' = views w /\ sections w' = sections w;
  create_law : forall h hi lo w, let '(r, w') := CreateFileMapping h hi lo w in
    granularity w' = granularity w /\ views w' = views w /\
    match r with None => sections w' = sections w | Some m => sections w' = <[m := h]> (sections w) end;
  view_law : forall m hi lo n w f, sections w !! m = Some f -> let '(r, w') := MapViewOfFile m hi lo n w in
    granularity w' = granularity w /\ sections w' = sections w /\
    match r with
    | None => views w' = views w
    | Some a => 0 < a /\ a + n + granularity w < 2 ^ 64 /\ a mod granularity w = 0 /\ views w !! a = None /\
        (hi * 2 ^ 32 + lo) mod granularity w = 0 /\ views w' = <[a := View f (hi * 2 ^ 32 + lo) n]> (views w)
    end;
  unmap_law : forall a w, let '(r, w') := UnmapViewOfFile a w in
    match views w !! a with Some _ => r <> 0 /\ views w' = delete a (views w) | None => r = 0 /\ views w' = views w end;
  close_law : forall m w, let '(_, w') := map_CloseHandle m w in granularity w' = granularity w /\ views w' = views w
}.

(** ** Arithmetic of the views *)

Lemma swrap64_id z : - 2 ^ 63 <= z < 2 ^ 63 -> swrap 64 z = z.
Proof. intros H. apply swrap_id; [lia|]. unfold in_s. exact H. Qed.

Lemma view_values g off len : 0 < g < 2 ^ 32 -> 0 <= off -> 0 <= len -> off + len < 2 ^ 63 ->
  view_start g off = off - off mod g /\ view_end off len = off + len /\ view_size g off len = off mod g + len.
Proof.
  intros Hg Ho Hl Hs. pose proof (Z.mod_pos_bound off g ltac:(lia)) as Hm. pose proof (Z.div_mod off g ltac:(lia)) as Hd.
  pose proof (Z.div_pos off g Ho ltac:(lia)) as Hp.
  assert (view_start g off = off - off mod g) as E1.
  { unfold view_start. rewrite Z.quot_div_nonneg by lia. rewrite swrap64_id; [lia|]. nia. }
  assert (view_end off len = off + len) as E2 by (unfold view_end; apply swrap64_id; lia).
  split_and!; [done|done|]. unfold view_size. rewrite E1, E2, swrap64_id; lia.
Qed.

Lemma high_zero z : 0 <= z < 2 ^ 63 -> HighPart z = 0 -> z < 2 ^ 32 /\ LowPart z = z.
Proof.
  intros Hz H. unfold HighPart in H. rewrite Z.shiftr_div_pow2 in H by lia.
  assert (0 <= z / 2 ^ 32 < 2 ^ 31) by (split; [apply Z.div_pos; lia|apply Z.div_lt_upper_bound; lia]).
  rewrite swrap_id in H by (unfold in_s; lia). assert (z < 2 ^ 32).
  { destruct (Z.lt_ge_cases z (2 ^ 32)); [done|]. assert (1 <= z / 2 ^ 32) by (apply Z.div_le_lower_bound; lia). lia. }
  split; [done|]. unfold LowPart. apply uwrap_id. unfold in_u. lia.
Qed.

Lemma halves z : 0 <= z < 2 ^ 63 -> uwrap 32 (HighPart z) * 2 ^ 32 + LowPart z = z.
Proof.
  intros Hz. unfold HighPart, LowPart. rewrite Z.shiftr_div_pow2 by lia.
  assert (0 <= z / 2 ^ 32 < 2 ^ 31) by (split; [apply Z.div_pos; lia|apply Z.div_lt_upper_bound; lia]).
  rewrite swrap_id by (unfold in_s; lia). rewrite uwrap_id by (unfold in_u; lia). unfold uwrap.
  pose proof (Z.div_mod z (2 ^ 32) ltac:(lia)). lia.
Qed.

(** An address inside a view leads back to its base. *)
Lemma base_of g a d : 0 < g -> 0 <= a -> a mod g = 0 -> 0 <= d < g -> Z.quot (a + d) g * g = a.
Proof.
  intros Hg Ha Hm Hd. rewrite Z.quot_div_nonneg by lia. apply Z.mod_divide in Hm as [k ->]; [|lia].
  rewrite Z.div_add_l by lia. rewrite (Z.div_small d g) by lia. lia.
Qed.

Section Mapping.
Context {W : Type} `{!Winsock W, !WinError W, !FileApi W, !MapApi W, !MapLaws W}.

(** The view behind an address [mmap] returned. *)
Definition mapped (w w' : W) (a off len : Z) : Prop := exists base v,
  views w !! base = None /\ views w' = <[base := v]> (views w) /\
  base mod granularity w' = 0 /\ 0 <= base /\ granularity w' = granularity w /\
  v_offset v <= off /\ off + len = v_offset v + v_len v /\ a = base + (off - v_offset v) /\ off - v_offset v < granularity w'.

Lemma mmap_view_run (len prot flags fildes off : Z) (p : proc W) :
  0 <= off -> 0 <= len -> off + len < 2 ^ 63 ->
  let '(a, p') := wpdk_mmap 0 len prot flags fildes off p in
  (a = MAP_FAILED /\ views (world p') = views (world p)) \/ (a <> MAP_FAILED /\ mapped (world p) (world p') a off len).
Proof.
  intros Ho Hl Hs. unfold wpdk_mmap. change (negb (0 =? 0)) with false. cbn match. rewrite bind_run.
  destruct (crt_run (crt_get_osfhandle fildes) p) as (Eh & Ew & _). pose proof (osfhandle_law fildes (world p)) as H0.
  destruct (crt_get_osfhandle fildes (world p)) as [[h e] w0]. destruct H0 as (G0 & V0 & S0). cbn [fst snd] in Eh, Ew.
  set (q0 := crt (crt_get_osfhandle fildes) p) in *.
  rewrite Eh. clearbody q0. destruct (h =? INVALID_HANDLE_VALUE).
  { cbn. left. rewrite Ew. by split. }
  rewrite bind_run. cbn [fst snd gets]. rewrite Ew. destruct (view_values (granularity w0) off len (granularity_pos w0) Ho Hl Hs) as (E1 & E2 & E3).
  set (g := granularity w0) in *. destruct (negb (HighPart (view_size g off len) =? 0)) eqn:Ez.
  { cbn. left. rewrite Ew. by split. }
  bool_prop. pose proof (Z.mod_pos_bound off g (proj1 (granularity_pos w0))) as Hm. pose proof (Z.mod_le off g Ho (proj1 (granularity_pos w0))) as Hle.
  destruct (high_zero (view_size g off len)) as [Hsz Hlow]; [lia|done|].
  rewrite bind_run, lift_run, Ew. cbn [fst snd]. pose proof (create_law h (uwrap 32 (HighPart (view_end off len))) (LowPart (view_end off len)) w0) as H1.
  destruct (CreateFileMapping _ _ _ w0) as [[hm|] w1]; destruct H1 as (G1 & V1 & S1); rewrite bind_run; cbn [fst snd gets world].
  2:{ cbn. left. by rewrite V1, V0. }
  rewrite bind_run, lift_run. cbn [fst snd world]. assert (sections w1 !! hm = Some h) as Hsec by (rewrite S1; apply lookup_insert_eq).
  pose proof (view_law hm (uwrap 32 (HighPart (view_start g off))) (LowPart (view_start g off)) (LowPart (view_size g off len)) w1 h Hsec) as H2.
  rewrite (halves (view_start g off)) in H2 by lia. rewrite Hlow in H2 |- *.
  destruct (MapViewOfFile _ _ _ _ w1) as [r w2]. destruct H2 as (G2 & _ & H2). cbn [fst snd]. rewrite bind_run. cbn [fst snd gets].
  rewrite bind_run, lift_run. cbn [fst snd world]. pose proof (close_law hm w2) as H3. destruct (map_CloseHandle hm w2) as [rc w3].
  destruct H3 as [G3 V3]. cbn [fst snd]. destruct r as [a|]; cbn.
  2:{ left. by rewrite V3, H2, V1, V0. }
  destruct H2 as (Ha & Hb & Hma & Hnew & _ & V2). right. rewrite E1, E3 in *. rewrite G1 in *. fold g in Hma, Hb.
  assert (uwrap 64 (a + (off - (off - off mod g))) = a + off mod g) as ->.
  { rewrite uwrap_id; [lia|]. unfold in_u. lia. }
  split; [unfold MAP_FAILED; lia|]. exists a, (View h (off - off mod g) (off mod g + len)).
  rewrite V3, V2, V1, V0, G3, G2. fold g. cbn. rewrite V1, V0 in Hnew. split_and!; try done; try lia.
Qed.

(** [mmap] at a file offset that is not a multiple of the allocation
    granularity maps a view from the multiple below it, and returns the address in
    that view at which the bytes of the file from the offset on begin; the view
    ends with the requested length.  On failure no view is left. *)
Theorem mmap_view (len prot flags fildes off : Z) (p : proc W) :
  0 <= off -> 0 <= len -> off + len < 2 ^ 63 ->
  let '(a, p') := wpdk_mmap 0 len prot flags fildes off p in
  (a = MAP_FAILED /\ views (world p') = views (world p)) \/ (a <> MAP_FAILED /\ mapped (world p) (world p') a off len).
Proof. apply mmap_view_run. Qed.

(** C39: [munmap] of an address [mmap] returned removes exactly the view that
    [mmap] created and reports success, whatever length is given. *)
Theorem mmap_munmap (len prot flags fildes off len' : Z) (p : proc W) :
  0 <= off -> 0 <= len -> off + len < 2 ^ 63 ->
  let '(a, p1) := wpdk_mmap 0 len prot flags fildes off p in
  a <> MAP_FAILED ->
  let '(rc, p2) := wpdk_munmap a len' p1 in rc = 0 /\ views (world p2) = views (world p).
Proof.
  intros Ho Hl Hs. pose proof (mmap_view_run len prot flags fildes off p Ho Hl Hs) as H.
  destruct (wpdk_mmap 0 len prot flags fildes off p) as [a p1]. intros Hf. destruct H as [[? _]|[_ H]]; [done|].
  destruct H as (base & v & Hnew & Hv & Hm & Hb & Hg & Hvo & _ & -> & Hlt).
  unfold wpdk_munmap. rewrite bind_run. cbn [fst snd gets]. rewrite bind_run, lift_run. cbn [fst snd].
  rewrite base_of; [|apply granularity_pos|done|done|lia].
  pose proof (unmap_law base (world p1)) as H. rewrite Hv, lookup_insert_eq in H.
  destruct (UnmapViewOfFile base (world p1)) as [rc w']. destruct H as [Hr H]. cbn [fst snd].
  rewrite (proj2 (Z.eqb_neq _ _) Hr). cbn. split; [done|]. by rewrite H, delete_insert_id.
Qed.
End Mapping.

(** ** A system that satisfies the laws *)

Module MapSim.
Record w := World { w_sections : gmap Z Z; w_views : gmap Z view }.

#[export] Instance sim_error : WinError w := fun _ => 8.
#[export] Instance sim_files : FileApi w := {|
  crt_open _ _ _ x := ((3, None), x); crt_close _ x := ((0, None), x);
  crt_read _ _ _ x := ((0, None), x); crt_write _ _ _ x := ((0, None), x);
  crt_lseeki64 _ _ _ x := ((0, None), x); crt_telli64 _ x := ((0, None), x);
  crt_chsize_s _ _ x := ((0, None), x); crt_unlink _ x := ((0, None), x);
  crt_chmod _ _ x := ((0, None), x); crt_access _ _ x := ((0, None), x);
  crt_isatty _ x := ((0, None), x); crt_get_osfhandle fd x := ((fd + 100, None), x);
  FlushFileBuffers _ x := (1, x); GetFileSizeEx _ x := ((1, 0), x);
  LockFileEx _ _ _ _ _ x := (1, x); UnlockFileEx _ _ _ x := (1, x)
|}.

(** Views are placed at the first free one of three addresses. *)
Definition place (x : w) (n : Z) : option Z :=
  if decide (n < 2 ^ 32) then list_find (fun a => w_views x !! a = None) [65536; 131072; 196608] ≫= (fun y => Some (snd y)) else None.

#[export] Instance sim_maps : MapApi w := {|
  granularity _ := 65536;
  CreateFileMapping h _ _ x := (Some (h + 1000), World (<[h + 1000 := h]> (w_sections x)) (w_views x));
  MapViewOfFile m hi lo n x :=
    match w_sections x !! m, place x n with
    | Some f, Some a =>
        if decide (0 <= n /\ (hi * 2 ^ 32 + lo) mod 65536 = 0)
        then (Some a, World (w_sections x) (<[a := View f (hi * 2 ^ 32 + lo) n]> (w_views x))) else (None, x)
    | _, _ => (None, x)
    end;
  UnmapViewOfFile a x :=
    match w_views x !! a with Some _ => (1, World (w_sections x) (delete a (w_views x))) | None => (0, x) end;
  map_CloseHandle _ x := (1, x)
|}.

#[export] Instance sim_laws : MapLaws w.
Proof.
  refine {| sections := w_sections; views := w_views |}.
  - cbn. lia.
  - done.
  - done.
  - intros m hi lo n x f Hf. cbn. rewrite Hf. unfold place. destruct (decide (n < 2 ^ 32)) as [Hn|]; [|done].
    destruct (list_find _ _) as [[i a]|] eqn:El; cbn [mbind option_bind snd]; [|done].
    destruct (decide _) as [[H1 H2]|]; [|done]. apply list_find_Some in El as (Ea & Hfree & _). cbn.
    assert (a ∈ [65536; 131072; 196608]) as Hin by (by eapply list_elem_of_lookup_2).
    split_and!; try done; repeat (apply elem_of_cons in Hin as [->|Hin]; [lia || done|]); by apply not_elem_of_nil in Hin.
  - intros a x. cbn. by destruct (w_views x !! a).
  - done.
Defined.

Definition p0 : proc w := proc0 (World ∅ ∅).
End MapSim.
Import MapSim.

Lemma mmap_view_witness :
  (fst (wpdk_mmap 0 4096 3 1 5 70000 p0) = MAP_FAILED /\ w_views (world (snd (wpdk_mmap 0 4096 3 1 5 70000 p0))) = ∅) \/
  (fst (wpdk_mmap 0 4096 3 1 5 70000 p0) <> MAP_FAILED /\
   mapped (world p0) (world (snd (wpdk_mmap 0 4096 3 1 5 70000 p0))) (fst (wpdk_mmap 0 4096 3 1 5 70000 p0)) 70000 4096).
Proof. exact (mmap_view 4096 3 1 5 70000 p0 ltac:(lia) ltac:(lia) ltac:(lia)). Defined.

Lemma mmap_munmap_witness :
  fst (wpdk_munmap 70000 1 (snd (wpdk_mmap 0 4096 3 1 5 70000 p0))) = 0 /\
  w_views (world (snd (wpdk_munmap 70000 1 (snd (wpdk_mmap 0 4096 3 1 5 70000 p0))))) = ∅.
Proof.
  assert (fst (wpdk_mmap 0 4096 3 1 5 70000 p0) = 70000) as E by (vm_compute; reflexivity).
  assert (70000 <> MAP_FAILED) as Hne by (unfold MAP_FAILED; lia).
  pose proof (mmap_munmap 4096 3 1 5 70000 1 p0 ltac:(lia) ltac:(lia) ltac:(lia)) as H.
  destruct (wpdk_mmap 0 4096 3 1 5 70000 p0) as [a p1]. cbn [fst snd] in *. subst a. specialize (H Hne).
  destruct (wpdk_munmap 70000 1 p1) as [rc p2]. exact H.
Defined.
End Mman.
