(* ===== verification/Sched.v ===== *)
(** * Sched: the CPU sets of src/inc/sched.h

    A [cpuset_t] is an array of 64-bit signed words; the macros index it by
    processor number.  An access outside the array is the outcome [None].  The
    number of processors is a parameter: [CPU_SETSIZE] may come from the
    configuration of DPDK. *)

From S2P Require Import Prelude.

Module Export Sched.
Local Open Scope Z_scope.

Definition _BITS_PER_SET : Z := 8 * 8.
Definition _BIT_SET_MASK : Z := _BITS_PER_SET - 1.
Definition _NUM_SETS (b : Z) : Z := (b + _BIT_SET_MASK) / _BITS_PER_SET.
Definition _WHICH_SET (b : Z) : Z := uwrap 64 b / _BITS_PER_SET.
Definition _WHICH_BIT (b : Z) : Z := Z.land (uwrap 64 b) (_BITS_PER_SET - 1).
(** [1LL << _WHICH_BIT(b)] *)
Definition cpu_bit (b : Z) : Z := s64 (Z.shiftl 1 (_WHICH_BIT b)).

Abbreviation cpuset_t := (list Z).

Section Sets.
Context (CPU_SETSIZE : Z).
Local Abbreviation nsets := (Z.to_nat (_NUM_SETS CPU_SETSIZE)).

(** [f] applied to the word of [b]. *)
Definition update_word (f : Z -> Z) (b : Z) (s : cpuset_t) : option cpuset_t :=
  let i := Z.to_nat (_WHICH_SET b) in
  w ← s !! i; Some (<[i := f w]> s).

Definition CPU_SET (b : Z) : cpuset_t -> option cpuset_t := update_word (fun w => Z.lor w (cpu_bit b)) b.
Definition CPU_CLR (b : Z) : cpuset_t -> option cpuset_t := update_word (fun w => Z.land w (Z.lnot (cpu_bit b))) b.
Definition CPU_ISSET (b : Z) (s : cpuset_t) : option bool :=
  w ← s !! Z.to_nat (_WHICH_SET b); Some (negb (Z.land w (cpu_bit b) =? 0)).

(** A source operand of a macro: another set, or the destination itself. *)
Inductive operand := Dst | Src (s : cpuset_t).
Definition words (o : operand) (dst : cpuset_t) : cpuset_t := match o with Dst => dst | Src s => s end.

(** [for (_i = 0; _i < _NUM_SETS(CPU_SETSIZE); _i++) dst->_bits[_i] = f(_i)], where
    [f] reads arrays, the destination as it is in that round included. *)
Fixpoint assign_words (f : cpuset_t -> nat -> option Z) (i n : nat) (dst : cpuset_t) : option cpuset_t :=
  match n with
  | O => Some dst
  | S n => w ← f dst i; _ ← dst !! i; assign_words f (S i) n (<[i := w]> dst)
  end.

Definition CPU_ZERO : cpuset_t -> option cpuset_t := assign_words (fun _ _ => Some 0) 0 nsets.
Definition CPU_FILL : cpuset_t -> option cpuset_t := assign_words (fun _ _ => Some (-1)) 0 nsets.
Definition CPU_AND (src1 src2 : operand) : cpuset_t -> option cpuset_t :=
  assign_words (fun dst i => a ← words src1 dst !! i; b ← words src2 dst !! i; Some (Z.land a b)) 0 nsets.
Definition CPU_OR (src1 src2 : operand) : cpuset_t -> option cpuset_t :=
  assign_words (fun dst i => a ← words src1 dst !! i; b ← words src2 dst !! i; Some (Z.lor a b)) 0 nsets.
Definition CPU_NOT (src : operand) : cpuset_t -> option cpuset_t :=
  assign_words (fun dst i => a ← words src dst !! i; Some (Z.lxor a (-1))) 0 nsets.

(** The loop of [count_cpu] as it is: its index runs over the words, and is used as
    a processor number. *)
Fixpoint count_loop (i n : nat) (count : Z) (s : cpuset_t) : option Z :=
  match n with
  | O => Some count
  | S n => set ← CPU_ISSET (Z.of_nat i) s; count_loop (S i) n (if set : bool then count + 1 else count) s
  end.
Definition count_cpu (s : cpuset_t) : option Z := count_loop 0 nsets 0 s.
Definition CPU_COUNT : cpuset_t -> option Z := count_cpu.

(** ** Words *)

Lemma in_s_shiftr w : in_s 64 w <-> Z.shiftr w 63 = 0 \/ Z.shiftr w 63 = -1.
Proof.
  unfold in_s. rewrite Z.shiftr_div_pow2 by lia. pose proof (Z.div_mod w (2 ^ 63) ltac:(lia)).
  pose proof (Z.mod_pos_bound w (2 ^ 63) ltac:(lia)). split; [|lia]. intros.
  assert (-1 <= w / 2 ^ 63 <= 0) by nia. lia.
Qed.

Lemma in_s_lor a b : in_s 64 a -> in_s 64 b -> in_s 64 (Z.lor a b).
Proof. rewrite !in_s_shiftr, Z.shiftr_lor. by intros [-> | ->] [-> | ->]; [left|right|right|right]. Qed.
Lemma in_s_land a b : in_s 64 a -> in_s 64 b -> in_s 64 (Z.land a b).
Proof. rewrite !in_s_shiftr, Z.shiftr_land. by intros [-> | ->] [-> | ->]; [left|left|left|right]. Qed.
Lemma in_s_lxor a b : in_s 64 a -> in_s 64 b -> in_s 64 (Z.lxor a b).
Proof. rewrite !in_s_shiftr, Z.shiftr_lxor. by intros [-> | ->] [-> | ->]; [left|right|right|left]. Qed.
Lemma in_s_lnot a : in_s 64 a -> in_s 64 (Z.lnot a).
Proof. unfold in_s, Z.lnot. lia. Qed.

Lemma which_bit b : 0 <= b < 2 ^ 64 -> _WHICH_BIT b = b mod 64 /\ _WHICH_SET b = b / 64.
Proof.
  intros H. unfold _WHICH_BIT, _WHICH_SET. rewrite uwrap_id by done. split; [|done].
  change (_BITS_PER_SET - 1) with (Z.ones 6). by rewrite Z.land_ones by lia.
Qed.

(** The single bit of [1LL << k], the sign bit included. *)
Lemma cpu_bit_bits b i : 0 <= b < 2 ^ 64 -> 0 <= i < 64 -> Z.testbit (cpu_bit b) i = (i =? b mod 64).
Proof.
  intros Hb Hi. unfold cpu_bit. rewrite (proj1 (which_bit b Hb)).
  rewrite <- (Z.mod_pow2_bits_low _ 64) by lia. rewrite swrap_mod, Z.mod_pow2_bits_low by lia.
  rewrite Z.shiftl_1_l, Z.pow2_bits_eqb by (apply Z.mod_pos_bound; lia). apply Z.eqb_sym.
Qed.
Lemma cpu_bit_range b : in_s 64 (cpu_bit b).
Proof. apply swrap_range. lia. Qed.

(** [w & (1LL << k)] is zero exactly when bit [k] is clear. *)
Lemma land_cpu_bit w b : in_s 64 w -> 0 <= b < 2 ^ 64 -> negb (Z.land w (cpu_bit b) =? 0) = Z.testbit w (b mod 64).
Proof.
  intros Hw Hb. pose proof (Z.mod_pos_bound b 64 ltac:(lia)) as Hm. destruct (Z.eqb_spec (Z.land w (cpu_bit b)) 0) as [E|E]; cbn.
  - apply (f_equal (fun z => Z.testbit z (b mod 64))) in E. rewrite Z.land_spec, cpu_bit_bits, Z.eqb_refl, andb_true_r, Z.bits_0 in E by lia. done.
  - destruct (Z.testbit w (b mod 64)) eqn:Ht; [done|]. destruct E.
    assert (in_s 64 (Z.land w (cpu_bit b))) as Hr by (apply in_s_land; [done|apply cpu_bit_range]).
    rewrite <- (swrap_id 64 (Z.land w (cpu_bit b))) by (done || lia). rewrite <- (swrap_id 64 0) by (unfold in_s; lia).
    assert (Z.land w (cpu_bit b) mod 2 ^ 64 = 0) as E.
    { apply Z.bits_inj'. intros n Hn. rewrite Z.bits_0. destruct (Z.ltb_spec n 64).
      - rewrite Z.mod_pow2_bits_low, Z.land_spec, cpu_bit_bits by lia. destruct (Z.eqb_spec n (b mod 64)) as [->|]; [by rewrite Ht|by rewrite andb_false_r].
      - by rewrite Z.mod_pow2_bits_high by lia. }
    unfold swrap. rewrite <- Zplus_mod_idemp_l, E. done.
Qed.

(** ** Sets of processors *)

(** The processors an array has a bit for. *)
Definition universe : gset Z := list_to_set (seqZ 0 (64 * Z.of_nat nsets)).

Definition has_bit (s : cpuset_t) (b : Z) : bool :=
  match s !! Z.to_nat (b / 64) with Some w => Z.testbit w (b mod 64) | None => false end.
Definition cpus (s : cpuset_t) : gset Z := list_to_set (filter (fun b => has_bit s b = true) (seqZ 0 (64 * Z.of_nat nsets))).

Definition wf_cpus (s : cpuset_t) : Prop := length s = nsets /\ Forall (in_s 64) s.

Lemma elem_universe b : b ∈ universe <-> 0 <= b < 64 * Z.of_nat nsets.
Proof. unfold universe. rewrite elem_of_list_to_set, elem_of_seqZ. lia. Qed.
Lemma elem_cpus s b : b ∈ cpus s <-> b ∈ universe /\ has_bit s b = true.
Proof. unfold cpus. rewrite elem_of_list_to_set, list_elem_of_filter, elem_universe, elem_of_seqZ. split; [intros []|intros []]; split; done || lia. Qed.

Context (size_pos : 0 < CPU_SETSIZE < 2 ^ 32).

Lemma universe_index b : b ∈ universe -> 0 <= b < 2 ^ 64 /\ (Z.to_nat (b / 64) < nsets)%nat /\ 0 <= b mod 64 < 64.
Proof.
  rewrite elem_universe. intros H. unfold _NUM_SETS, _BIT_SET_MASK, _BITS_PER_SET in *.
  pose proof (Z.mod_pos_bound b 64 ltac:(lia)). pose proof (Z.div_mod b 64 ltac:(lia)).
  pose proof (Z.div_mod (CPU_SETSIZE + (8 * 8 - 1)) (8 * 8) ltac:(lia)) as E.
  pose proof (Z.mod_pos_bound (CPU_SETSIZE + (8 * 8 - 1)) (8 * 8) ltac:(lia)).
  set (q := (CPU_SETSIZE + (8 * 8 - 1)) / (8 * 8)) in *. set (d := b / 64) in *. split_and!; lia.
Qed.

Lemma word_of s b : wf_cpus s -> b ∈ universe -> exists w, s !! Z.to_nat (_WHICH_SET b) = Some w /\ in_s 64 w /\ has_bit s b = Z.testbit w (b mod 64).
Proof.
  intros [Hl Hf] Hb. apply universe_index in Hb as (Hb & Hi & _). rewrite (proj2 (which_bit b Hb)).
  destruct (lookup_lt_is_Some_2 s (Z.to_nat (b / 64)) ltac:(lia)) as [w Hw]. exists w.
  unfold has_bit. rewrite Hw. split_and!; [done| |done]. by apply (Forall_lookup_1 _ _ _ _ Hf Hw).
Qed.

Lemma isset_run s b : wf_cpus s -> b ∈ universe -> CPU_ISSET b s = Some (has_bit s b).
Proof.
  intros Hs Hb. destruct (word_of s b Hs Hb) as (w & Hw & Hr & ->). unfold CPU_ISSET. rewrite Hw. cbn.
  apply universe_index in Hb as (? & _). by rewrite land_cpu_bit.
Qed.

(** Two processors have the same word and the same bit only when they are equal. *)
Lemma same_place b c : 0 <= b -> 0 <= c -> Z.to_nat (b / 64) = Z.to_nat (c / 64) -> b mod 64 = c mod 64 -> b = c.
Proof.
  intros Hb Hc E1 E2. pose proof (Z.div_pos b 64 Hb ltac:(lia)). pose proof (Z.div_pos c 64 Hc ltac:(lia)).
  rewrite (Z.div_mod b 64), (Z.div_mod c 64) by lia. lia.
Qed.

(** An update of one word whose bits are [g] of the old ones. *)
Lemma update_run f g b s : wf_cpus s -> b ∈ universe ->
  (forall w, in_s 64 w -> in_s 64 (f w)) ->
  (forall w i, 0 <= i < 64 -> Z.testbit (f w) i = if i =? b mod 64 then g else Z.testbit w i) ->
  exists s', update_word f b s = Some s' /\ wf_cpus s' /\
    forall c, c ∈ universe -> has_bit s' c = if c =? b then g else has_bit s c.
Proof.
  intros Hs Hb Hf Hg. destruct (word_of s b Hs Hb) as (w & Hw & Hr & Eb). destruct Hs as [Hl Hall].
  unfold update_word. rewrite Hw. cbn. eexists. split; [done|]. apply universe_index in Hb as (Hb & Hi & Hm).
  rewrite (proj2 (which_bit b Hb)) in *. split; [split; [by rewrite length_insert|apply Forall_insert; auto]|].
  intros c Hc. apply universe_index in Hc as (Hc & Hci & Hcm). unfold has_bit.
  destruct (decide (Z.to_nat (b / 64) = Z.to_nat (c / 64))) as [E|E].
  - rewrite <- E, list_lookup_insert_eq, Hw by lia. rewrite Hg by lia.
    destruct (Z.eqb_spec (c mod 64) (b mod 64)) as [E'|E'].
    + rewrite (same_place c b), Z.eqb_refl by (congruence || lia). done.
    + destruct (Z.eqb_spec c b) as [->|]; congruence.
  - rewrite list_lookup_insert_ne by done. destruct (Z.eqb_spec c b) as [->|]; congruence.
Qed.

(** The loops over the words. *)
Lemma assign_run (f : cpuset_t -> nat -> option Z) (g : nat -> Z) n : forall i dst,
  (forall d d' j, d !! j = d' !! j -> f d j = f d' j) ->
  length dst = (i + n)%nat -> (forall j, (i <= j < i + n)%nat -> f dst j = Some (g j)) ->
  exists r, assign_words f i n dst = Some r /\ length r = length dst /\
    forall j, (j < length dst)%nat -> r !! j = if decide (j < i)%nat then dst !! j else Some (g j).
Proof.
  induction n as [|n IH]; intros i dst Hd Hl Hf; cbn [assign_words].
  - exists dst. split_and!; [done|done|]. intros j Hj. destruct (decide (j < i)%nat); [done|lia].
  - rewrite Hf by lia. cbn. destruct (lookup_lt_is_Some_2 dst i ltac:(lia)) as [x ->]. cbn.
    destruct (IH (S i) (<[i := g i]> dst)) as (r & -> & Hr & Hj); [done|rewrite length_insert; lia| |].
    { intros j Hj. rewrite <- (Hf j) by lia. apply Hd. rewrite list_lookup_insert_ne; [done|lia]. }
    rewrite length_insert in Hr, Hj. exists r. split_and!; [done|done|]. intros j Hlt. rewrite Hj by done.
    destruct (decide (j < S i)%nat), (decide (j < i)%nat); try lia.
    + rewrite list_lookup_insert_ne; [done|lia].
    + replace j with i by lia. rewrite list_lookup_insert_eq by lia. done.
    + done.
Qed.

(** A loop that stores in every word a function of the bits at the same place. *)
Lemma assign_bits f (g : nat -> Z) (h : Z -> bool) dst : wf_cpus dst ->
  (forall d d' j, d !! j = d' !! j -> f d j = f d' j) ->
  (forall j, (j < nsets)%nat -> f dst j = Some (g j) /\ in_s 64 (g j)) ->
  (forall b, b ∈ universe -> Z.testbit (g (Z.to_nat (b / 64))) (b mod 64) = h b) ->
  exists s', assign_words f 0 nsets dst = Some s' /\ wf_cpus s' /\ forall b, b ∈ universe -> has_bit s' b = h b.
Proof.
  intros [Hl Hall] Hd Hg Hh. destruct (assign_run f g nsets 0 dst Hd Hl) as (r & -> & Hr & Hj); [intros; apply Hg; lia|].
  exists r. split_and!; [done| |].
  - split; [congruence|]. apply Forall_lookup_2. intros j x Hx. pose proof (lookup_lt_Some _ _ _ Hx). rewrite Hj in Hx by lia.
    injection Hx as <-. apply Hg. lia.
  - intros b Hb. rewrite <- Hh by done. apply universe_index in Hb as (_ & Hi & _). unfold has_bit. rewrite Hj by lia. done.
Qed.

(** ** The operations of a program and what they mean *)

Inductive cpu_op :=
  | OpSet (b : Z) | OpClr (b : Z) | OpZero | OpFill
  | OpAnd (src1 src2 : operand) | OpOr (src1 src2 : operand) | OpNot (src : operand).

Definition run_op (op : cpu_op) : cpuset_t -> option cpuset_t :=
  match op with
  | OpSet b => CPU_SET b
  | OpClr b => CPU_CLR b
  | OpZero => CPU_ZERO
  | OpFill => CPU_FILL
  | OpAnd a b => CPU_AND a b
  | OpOr a b => CPU_OR a b
  | OpNot a => CPU_NOT a
  end.

Definition cpus_of (o : operand) (x : gset Z) : gset Z := match o with Dst => x | Src s => cpus s end.
Definition spec_op (op : cpu_op) (x : gset Z) : gset Z :=
  match op with
  | OpSet b => {[b]} ∪ x
  | OpClr b => x ∖ {[b]}
  | OpZero => ∅
  | OpFill => universe
  | OpAnd a b => cpus_of a x ∩ cpus_of b x
  | OpOr a b => cpus_of a x ∪ cpus_of b x
  | OpNot a => universe ∖ cpus_of a x
  end.

Definition wf_operand (o : operand) : Prop := match o with Dst => True | Src s => wf_cpus s end.
(** The contract of a caller: processors of the array, initialised sources. *)
Definition valid_op (op : cpu_op) : Prop :=
  match op with
  | OpSet b | OpClr b => b ∈ universe
  | OpZero | OpFill => True
  | OpAnd a b | OpOr a b => wf_operand a /\ wf_operand b
  | OpNot a => wf_operand a
  end.

Lemma words_wf o s : wf_operand o -> wf_cpus s -> wf_cpus (words o s).
Proof. by destruct o. Qed.
Lemma words_local o (d d' : cpuset_t) j : d !! j = d' !! j -> words o d !! j = words o d' !! j.
Proof. by destruct o. Qed.
Lemma cpus_words o s : cpus_of o (cpus s) = cpus (words o s).
Proof. by destruct o. Qed.

Lemma word_at s j : wf_cpus s -> (j < nsets)%nat -> s !! j = Some (s !!! j) /\ in_s 64 (s !!! j).
Proof.
  intros [Hl Hf] Hj. assert (s !! j = Some (s !!! j)) as E by (apply list_lookup_lookup_total_lt; lia).
  split; [done|]. by apply (Forall_lookup_1 _ _ _ _ Hf E).
Qed.
Lemma has_bit_total s b : wf_cpus s -> b ∈ universe -> has_bit s b = Z.testbit (s !!! Z.to_nat (b / 64)) (b mod 64).
Proof. intros Hs Hb. apply universe_index in Hb as (_ & Hi & _). unfold has_bit. by rewrite (proj1 (word_at s _ Hs Hi)). Qed.

(** Every operation computes its bits from the bits of its operands. *)
Definition op_bit (op : cpu_op) (s : cpuset_t) (b : Z) : bool :=
  match op with
  | OpSet c => if b =? c then true else has_bit s b
  | OpClr c => if b =? c then false else has_bit s b
  | OpZero => false
  | OpFill => true
  | OpAnd x y => has_bit (words x s) b && has_bit (words y s) b
  | OpOr x y => has_bit (words x s) b || has_bit (words y s) b
  | OpNot x => negb (has_bit (words x s) b)
  end.

Lemma run_op_bits op s : wf_cpus s -> valid_op op ->
  exists s', run_op op s = Some s' /\ wf_cpus s' /\ forall b, b ∈ universe -> has_bit s' b = op_bit op s b.
Proof.
  intros Hs. destruct op as [c|c| | |x y|x y|x]; cbn [valid_op run_op op_bit].
  - intros Hc. pose proof (universe_index c Hc) as (Hb & _). apply update_run; [done|done|intros; by apply in_s_lor, cpu_bit_range|].
    intros w i Hi. rewrite Z.lor_spec, cpu_bit_bits by done. destruct (i =? c mod 64); [apply orb_true_r|apply orb_false_r].
  - intros Hc. pose proof (universe_index c Hc) as (Hb & _). apply update_run; [done|done|intros; by apply in_s_land, in_s_lnot, cpu_bit_range|].
    intros w i Hi. rewrite Z.land_spec, Z.lnot_spec, cpu_bit_bits by lia. destruct (i =? c mod 64); [apply andb_false_r|apply andb_true_r].
  - intros _. apply (assign_bits _ (fun _ => 0)); [done|done|intros; split; [done|unfold in_s; lia]|intros; apply Z.bits_0].
  - intros _. apply (assign_bits _ (fun _ => -1)); [done|done|intros; split; [done|unfold in_s; lia]|].
    intros b Hb. apply Z.bits_m1. apply universe_index in Hb. lia.
  - intros [Hx Hy]. apply (words_wf x s) in Hx; [|done]. apply (words_wf y s) in Hy; [|done].
    apply (assign_bits _ (fun j => Z.land (words x s !!! j) (words y s !!! j))); [done| | |].
    + intros d d' j E. by rewrite (words_local x d d' j E), (words_local y d d' j E).
    + intros j Hj. rewrite (proj1 (word_at _ j Hx Hj)), (proj1 (word_at _ j Hy Hj)). split; [done|]. by apply in_s_land; apply word_at.
    + intros b Hb. by rewrite Z.land_spec, <- !has_bit_total.
  - intros [Hx Hy]. apply (words_wf x s) in Hx; [|done]. apply (words_wf y s) in Hy; [|done].
    apply (assign_bits _ (fun j => Z.lor (words x s !!! j) (words y s !!! j))); [done| | |].
    + intros d d' j E. by rewrite (words_local x d d' j E), (words_local y d d' j E).
    + intros j Hj. rewrite (proj1 (word_at _ j Hx Hj)), (proj1 (word_at _ j Hy Hj)). split; [done|]. by apply in_s_lor; apply word_at.
    + intros b Hb. by rewrite Z.lor_spec, <- !has_bit_total.
  - intros Hx. apply (words_wf x s) in Hx; [|done].
    apply (assign_bits _ (fun j => Z.lxor (words x s !!! j) (-1))); [done| | |].
    + intros d d' j E. by rewrite (words_local x d d' j E).
    + intros j Hj. rewrite (proj1 (word_at _ j Hx Hj)). split; [done|]. apply in_s_lxor; [by apply word_at|unfold in_s; lia].
    + intros b Hb. rewrite Z.lxor_spec, Z.bits_m1 by (apply universe_index in Hb; lia). rewrite <- has_bit_total by done. apply xorb_true_r.
Qed.

Lemma run_op_spec op s : wf_cpus s -> valid_op op ->
  exists s', run_op op s = Some s' /\ wf_cpus s' /\ cpus s' = spec_op op (cpus s).
Proof.
  intros Hs Hv. destruct (run_op_bits op s Hs Hv) as (s' & -> & Hs' & Hb). exists s'. split_and!; [done|done|].
  apply set_eq. intros b. rewrite elem_cpus.
  assert (b ∈ universe /\ has_bit s' b = true <-> b ∈ universe /\ op_bit op s b = true) as ->
    by (split; intros [? ?]; split; congruence || (by rewrite Hb in * )).
  destruct op as [c|c| | |x y|x y|x]; cbn [op_bit spec_op valid_op] in *; rewrite ?cpus_words.
  - rewrite elem_of_union, elem_of_singleton, elem_cpus. destruct (Z.eqb_spec b c) as [->|]; naive_solver.
  - rewrite elem_of_difference, elem_of_singleton, elem_cpus. destruct (Z.eqb_spec b c) as [->|]; naive_solver.
  - rewrite elem_of_empty. naive_solver.
  - naive_solver.
  - rewrite elem_of_intersection, !elem_cpus, andb_true_iff. naive_solver.
  - rewrite elem_of_union, !elem_cpus, orb_true_iff. naive_solver.
  - rewrite elem_of_difference, elem_cpus, negb_true_iff, <- not_true_iff_false. naive_solver.
Qed.

Fixpoint run_ops (ops : list cpu_op) (s : cpuset_t) : option cpuset_t :=
  match ops with [] => Some s | op :: ops => s ← run_op op s; run_ops ops s end.

(** C27: every series of the macros on processors of the array, the destination
    used as a source included, runs within the array and implements the operations
    on sets of processors, and [CPU_ISSET] tests membership. *)
Theorem cpuset_refines (ops : list cpu_op) (s : cpuset_t) :
  wf_cpus s -> Forall valid_op ops ->
  exists s', run_ops ops s = Some s' /\ wf_cpus s' /\
    cpus s' = foldl (fun x op => spec_op op x) (cpus s) ops /\
    forall b, b ∈ universe -> CPU_ISSET b s' = Some (bool_decide (b ∈ cpus s')).
Proof.
  intros Hs Hv. revert s Hs. induction Hv as [|op ops Hop _ IH]; intros s Hs; cbn [run_ops foldl].
  - exists s. split_and!; [done|done|done|]. intros b Hb. rewrite isset_run by done. f_equal.
    apply eq_true_iff_eq. rewrite bool_decide_eq_true, elem_cpus. naive_solver.
  - destruct (run_op_spec op s Hs Hop) as (s1 & -> & Hs1 & <-). by apply IH.
Qed.

Lemma count_loop_run s : wf_cpus s -> forall n i c, (i + n <= nsets)%nat ->
  count_loop i n c s = Some (c + Z.of_nat (length (filter (fun b => has_bit s b = true) (seqZ (Z.of_nat i) (Z.of_nat n))))).
Proof.
  intros Hs. induction n as [|n IH]; intros i c Hn; cbn [count_loop]; [by rewrite Z.add_0_r|].
  rewrite isset_run; [|done|rewrite elem_universe; lia]. cbn [mbind option_bind]. rewrite IH by lia.
  rewrite (seqZ_cons (Z.of_nat i)) by lia. rewrite filter_cons.
  replace (Z.succ (Z.of_nat i)) with (Z.of_nat (S i)) by lia. replace (Z.pred (Z.of_nat (S n))) with (Z.of_nat n) by lia.
  destruct (has_bit s (Z.of_nat i)) eqn:E; destruct (decide _); try done; cbn [length]; f_equal; lia.
Qed.

(** What [CPU_COUNT] counts: the members among the first [_NUM_SETS] processors
    only, as the loop bound is the number of words and not of processors. *)
Theorem count_cpu_counts_first (s : cpuset_t) :
  wf_cpus s ->
  CPU_COUNT s = Some (Z.of_nat (size (filter (fun b => b < _NUM_SETS CPU_SETSIZE) (cpus s)))).
Proof.
  intros Hs. unfold CPU_COUNT, count_cpu. rewrite count_loop_run by (done || lia). f_equal. rewrite Z.add_0_l. f_equal.
  rewrite <- (size_list_to_set (C := gset Z)); [|apply NoDup_filter, NoDup_seqZ].
  f_equal. apply set_eq. intros b. rewrite elem_of_list_to_set, list_elem_of_filter, elem_of_filter, elem_of_seqZ, elem_cpus, elem_universe.
  assert (0 <= _NUM_SETS CPU_SETSIZE) by (unfold _NUM_SETS, _BIT_SET_MASK, _BITS_PER_SET; apply Z.div_pos; lia).
  rewrite Z2Nat.id by done. split; [intros [? ?]|intros (? & ? & ?)]; split_and!; done || lia.
Qed.
End Sets.

(** With 128 processors, and 0, 1, 2 and 127 in the set. *)
Definition some_cpus : cpuset_t := [7; - 2 ^ 63].
Example count_some : CPU_COUNT 128 some_cpus = Some 2 /\ size (cpus 128 some_cpus) = 4%nat.
Proof. vm_compute. done. Qed.

Lemma wf_some_cpus : wf_cpus 128 some_cpus.
Proof. split; [reflexivity|]. repeat constructor; unfold in_s; lia. Qed.

Lemma cpuset_refines_witness : exists s',
  run_ops 128 [OpZero; OpSet 127; OpOr Dst (Src some_cpus); OpClr 1; OpNot Dst] some_cpus = Some s' /\ wf_cpus 128 s' /\
  cpus 128 s' = universe 128 ∖ ((({[127]} ∪ ∅) ∪ cpus 128 some_cpus) ∖ {[1]}) /\
  forall b, b ∈ universe 128 -> CPU_ISSET b s' = Some (bool_decide (b ∈ cpus 128 s')).
Proof.
  apply (cpuset_refines 128 ltac:(lia) [OpZero; OpSet 127; OpOr Dst (Src some_cpus); OpClr 1; OpNot Dst] some_cpus wf_some_cpus).
  repeat (apply Forall_cons_2 || apply Forall_nil_2); first [exact I|exact (conj I wf_some_cpus)|apply elem_universe; vm_compute; split; congruence].
Defined.

Lemma count_cpu_counts_first_witness :
  CPU_COUNT 128 some_cpus = Some (Z.of_nat (size (filter (fun b => b < _NUM_SETS 128) (cpus 128 some_cpus)))).
Proof. apply (count_cpu_counts_first 128 ltac:(lia) some_cpus wf_some_cpus). Defined.
End Sched.
