(* ===== verification/Strings_c.v ===== *)
(** * Strings_c: src/src/string.c and src/src/strings.c

    Comparison and search without regard to case, error messages, and
    [wpdk_strdup] on the heap of the allocator wrappers.  The caller's buffer of
    [wpdk_strerror_r] is the list of its [buflen] bytes; the messages of the C
    runtime ([strerror_s]) are a parameter. *)

From S2P Require Import Prelude Errno CString PathMap Proc Stdlib_c.
From Stdlib Require Import Ascii.

Module Export Strings_c.
Local Open Scope Z_scope.

Definition lower (s : cstr) : cstr := map tolower s.
Definition code (c : ascii) : Z := Z.of_nat (nat_of_ascii c).

(** [_strnicmp(a, b, n)]: the difference of the first characters that differ when
    both are made lower case, the terminator included; zero if none of the first
    [n] does. *)
Fixpoint strnicmp (a b : cstr) (n : nat) : Z :=
  match n with
  | O => 0
  | S n =>
    match a, b with
    | [], [] => 0
    | x :: a, y :: b => if eqc (tolower x) (tolower y) then strnicmp a b n else code (tolower x) - code (tolower y)
    | x :: _, [] => code (tolower x)
    | [], y :: _ => - code (tolower y)
    end
  end.
(** [_stricmp(a, b)] *)
Definition stricmp (a b : cstr) : Z := strnicmp a b (S (length a)).

Section Compare.
Context {S : Type} `{!HasErrno S}.

Definition wpdk_strcasecmp (s1 s2 : option cstr) : C S Z :=
  match s1, s2 with Some s1, Some s2 => ret (stricmp s1 s2) | _, _ => wpdk_posix_error EINVAL end.
Definition wpdk_strncasecmp (s1 s2 : option cstr) (n : nat) : C S Z :=
  match s1, s2 with Some s1, Some s2 => ret (strnicmp s1 s2 n) | _, _ => wpdk_posix_error EINVAL end.
End Compare.

(** [for (cp = haystack; *cp; cp++)]: the offset of [cp] when the loop returns it. *)
Fixpoint casestr_loop (cp needle : cstr) (off : nat) : option nat :=
  match cp with
  | [] => None
  | _ :: rest => if strnicmp cp needle (length needle) =? 0 then Some off else casestr_loop rest needle (S off)
  end.
Definition wpdk_strcasestr (haystack needle : option cstr) : option nat :=
  match haystack, needle with Some h, Some n => casestr_loop h n 0 | _, _ => None end.

(** ** Messages *)

(** [strncpy(buf, src, n)] on a buffer of at least [n] bytes: padded with NUL, and
    without a terminator when [src] has [n] characters or more. *)
Definition strncpy (buf : cstr) (src : cstr) (n : nat) : cstr :=
  take n (src ++ replicate n NUL) ++ drop n buf.

Definition messages : list (Z * cstr) := [
  (ESHUTDOWN, lit "The socket has been shut down");
  (ETOOMANYREFS, lit "Too many references to kernel object");
  (EHOSTDOWN, lit "Host is down");
  (EUSERS, lit "Too many users");
  (EDQUOT, lit "Disk quota exceeded");
  (ESTALE, lit "Stale file handle");
  (EREMOTE, lit "Item is not available locally");
  (EPROCLIM, lit "Too many processes")].

Fixpoint message_of (cases : list (Z * cstr)) (errnum : Z) : option cstr :=
  match cases with
  | [] => None
  | (e, m) :: cases => if errnum =? e then Some m else message_of cases errnum
  end.

Section Messages.
Context {S : Type} `{!HasErrno S}.
(** [strerror_s(buf, buflen, errnum)]: its result and the buffer. *)
Context (strerror_s : cstr -> nat -> Z -> Z * cstr).
Local Open Scope c_scope.

(** The result and the contents of the buffer. *)
Definition wpdk_strerror_r (errnum : Z) (buf : option cstr) (buflen : nat) : C S (Z * option cstr) :=
  match buf with
  | None => wpdk_posix_error EINVAL ;; ret (EINVAL, None)
  | Some b =>
    match message_of messages errnum with
    | Some m => ret (0, Some (strncpy b m buflen))
    | None => let '(rc, b) := strerror_s b buflen errnum in ret (rc, Some b)
    end
  end.

(** The pointer it returns is NULL or the buffer. *)
Definition wpdk_strerror_r_gnu (errnum : Z) (buf : option cstr) (buflen : nat) : C S (bool * option cstr) :=
  let* '(rc, b) := wpdk_strerror_r errnum buf buflen in
  ret ((rc =? 0) && match buf with Some _ => true | None => false end, b).
End Messages.

(** ** Duplication *)

(** The bytes of a string with its terminator, as the heap holds them. *)
Definition bytes (s : cstr) : list Z := map code s ++ [0].

Section Dup.
Context (choose : heap -> Z -> Z -> option Z) (junk : Z).

Definition wpdk_strdup (s : cstr) (h : heap) : option Z * heap :=
  let len := uwrap 64 (Z.of_nat (length s) + 1) in
  let '(cp, h) := wpdk_malloc choose junk len h in
  match cp with
  | Some p => (Some p, alter (fun b => bytes s ++ drop (Z.to_nat len) b) p h)
  | None => (None, h)
  end.
End Dup.

(** ** Properties *)

Lemma code_inj x y : code x = code y -> x = y.
Proof. unfold code. intros H. apply Nat2Z.inj in H. rewrite <- (ascii_nat_embedding x), <- (ascii_nat_embedding y). by f_equal. Qed.
Lemma code_nul x : code (tolower x) = 0 <-> x = NUL.
Proof. split; [|by intros ->]. destruct x as [[] [] [] [] [] [] [] []]; vm_compute; congruence. Qed.

(** Strings of C contain no NUL. *)
Abbreviation is_str s := (Forall (fun c => c <> NUL) s).

Lemma strnicmp_zero a b n : is_str a -> is_str b -> strnicmp a b n = 0 <-> take n (lower a) = take n (lower b).
Proof.
  intros Ha. revert b n. induction Ha as [|x a Hx _ IH]; intros b n Hb; destruct n as [|n]; [done| |done|].
  - destruct Hb as [|y b Hy Hb]; cbn; [done|]. split; [|done]. intros E. destruct Hy. apply code_nul. lia.
  - destruct Hb as [|y b Hy Hb]; cbn; [split; [|done]; intros E; destruct Hx; by apply code_nul|].
    destruct (eqc_spec (tolower x) (tolower y)) as [->|E].
    + rewrite (IH b n Hb). unfold lower. split; [by intros ->|by intros [= ->]].
    + split; [|by intros [= ? _]]. intros H. destruct E. apply code_inj. lia.
Qed.

Lemma starts_take s w : starts_with s w = true <-> take (length w) s = w.
Proof.
  revert s. induction w as [|y w IH]; intros s; [split; [by destruct s|by destruct s]|]. destruct s as [|x s]; cbn; [done|].
  rewrite andb_true_iff, IH. destruct (eqc_spec x y) as [->|]; [split; [by intros [_ ->]|by intros [= ->]]|naive_solver].
Qed.

Lemma casestr_run h n off : is_str h -> is_str n -> n <> [] ->
  casestr_loop h n off = Nat.add off <$> strstr (lower h) (lower n).
Proof.
  intros Hh Hn Hne. revert off. induction Hh as [|x h Hx Hh IH]; intros off.
  - destruct n as [|y n]; [done|]. done.
  - cbn [casestr_loop]. assert ((strnicmp (x :: h) n (length n) =? 0) = starts_with (lower (x :: h)) (lower n)) as E.
    { apply eq_true_iff_eq. rewrite Z.eqb_eq, strnicmp_zero, starts_take by (done || by constructor).
      unfold lower. rewrite length_map, (take_ge (map tolower n)) by (rewrite length_map; lia). done. }
    rewrite E. unfold lower in *. cbn [map strstr]. cbn [map] in E. destruct (starts_with _ _); [cbn; f_equal; lia|].
    rewrite IH. destruct (strstr _ _); cbn; [f_equal; lia|done].
Qed.

(** [wpdk_strcasestr] finds what [strstr] finds when both strings are made lower
    case: the first occurrence, or none; only for an empty string searched for
    nothing does it differ, returning NULL instead of the string. *)
Theorem strcasestr_is_strstr (haystack needle : cstr) :
  is_str haystack -> is_str needle ->
  wpdk_strcasestr (Some haystack) (Some needle) =
    if decide (haystack = [] /\ needle = []) then None else strstr (lower haystack) (lower needle).
Proof.
  intros Hh Hn. unfold wpdk_strcasestr. destruct (decide _) as [[-> ->]|Hd]; [done|].
  destruct needle as [|y n].
  - destruct haystack as [|x h]; [by destruct Hd|]. done.
  - rewrite casestr_run by done. by destruct (strstr _ _).
Qed.

Lemma strcasestr_is_strstr_witness :
  wpdk_strcasestr (Some (lit "Windows PDK")) (Some (lit "pdk")) = strstr (lower (lit "Windows PDK")) (lower (lit "pdk")).
Proof.
  apply (strcasestr_is_strstr (lit "Windows PDK") (lit "pdk")); apply (bool_decide_unpack _); vm_compute; exact I.
Defined.

(** [wpdk_strcasecmp] is zero exactly for strings that are equal but for case. *)
Theorem strcasecmp_equal {S : Type} `{!HasErrno S} (a b : cstr) (s : S) :
  is_str a -> is_str b ->
  snd (wpdk_strcasecmp (Some a) (Some b) s) = s /\
  (fst (wpdk_strcasecmp (Some a) (Some b) s) = 0 <-> lower a = lower b).
Proof.
  intros Ha Hb. cbn. split; [done|]. unfold stricmp. rewrite strnicmp_zero by done. unfold lower.
  rewrite (take_ge (map tolower a)) by (rewrite length_map; lia). split.
  - intros E. rewrite E. apply take_ge. apply (f_equal length) in E. rewrite length_take, !length_map in E. rewrite length_map. lia.
  - intros <-. rewrite take_ge; [done|]. rewrite length_map. lia.
Qed.

(** The string a buffer holds: the characters before its first NUL, if it has one. *)
Definition held (b : cstr) : option cstr := (fun i => take i b) <$> strchr b NUL.

(** What [strncpy] leaves in a buffer of exactly [n] bytes. *)
Lemma strncpy_held b m n : is_str m -> length b = n ->
  held (strncpy b m n) = if (length m <? n)%nat then Some m else None.
Proof.
  intros Hm Hl. unfold held, strncpy. rewrite drop_ge, app_nil_r by lia. destruct (Nat.ltb_spec (length m) n) as [H|H].
  - assert (take n (m ++ replicate n NUL) = m ++ NUL :: replicate (n - length m - 1) NUL) as ->.
    { replace n with (length m + S (n - length m - 1))%nat at 1 by lia. rewrite take_app_add, take_replicate.
      by replace (S (n - length m - 1) `min` n)%nat with (S (n - length m - 1)) by lia. }
    assert (strchr (m ++ NUL :: replicate (n - length m - 1) NUL) NUL = Some (length m)) as ->.
    { clear H. generalize (replicate (n - length m - 1) NUL). induction Hm as [|x m Hx _ IH]; intros r; cbn; [done|].
      destruct (eqc_spec x NUL); [done|]. by rewrite IH. }
    cbn. f_equal. apply take_app_length.
  - rewrite take_app_le by done. replace (strchr (take n m) NUL) with (@None nat); [done|]. symmetry. apply strchr_None.
    intros Hin. apply (proj1 (Forall_forall _ _) Hm NUL); [|done]. eapply elem_of_take in Hin as (i & Hi & _). by eapply list_elem_of_lookup_2.
Qed.

Lemma messages_str : Forall (fun p => is_str p.2) messages.
Proof. apply (bool_decide_unpack _). vm_compute. exact I. Qed.
Lemma message_in cases e m : message_of cases e = Some m -> (e, m) ∈ cases.
Proof.
  induction cases as [|[x y] cases IH]; cbn; [done|]. destruct (Z.eqb_spec e x) as [->|]; [intros [= ->]; left|intros; right; auto].
Qed.

(** For an error code the layer adds, [strerror_r] always reports success; its
    buffer holds the message when the message and its terminator fit, and
    otherwise the truncated message with no terminator: it then holds no string. *)
Theorem strerror_r_message {S : Type} `{!HasErrno S} (strerror_s : cstr -> nat -> Z -> Z * cstr)
    (errnum : Z) (m : cstr) (buf : cstr) (s : S) :
  message_of messages errnum = Some m ->
  exists b, wpdk_strerror_r strerror_s errnum (Some buf) (length buf) s = ((0, Some b), s) /\ length b = length buf /\
    held b = (if (length m <? length buf)%nat then Some m else None) /\
    take (length buf `min` length m) b = take (length buf) m.
Proof.
  intros Hm. unfold wpdk_strerror_r. rewrite Hm. eexists. split; [done|].
  assert (is_str m) as Hs by apply (proj1 (Forall_forall _ _) messages_str _ (message_in _ _ _ Hm)).
  split_and!; [|by apply strncpy_held|].
  - unfold strncpy. rewrite length_app, length_take, length_app, length_replicate, length_drop. lia.
  - unfold strncpy. rewrite drop_ge, app_nil_r, take_take by done.
    replace ((length buf `min` length m) `min` length buf)%nat with (length buf `min` length m)%nat by lia.
    destruct (Nat.min_spec (length buf) (length m)) as [[? ->]|[? ->]]; [by rewrite take_app_le by lia|].
    by rewrite take_app_length, take_ge by lia.
Qed.

Lemma strerror_r_message_witness : exists b,
  wpdk_strerror_r (fun b _ _ => (0, b)) EUSERS (Some (replicate 8 NUL)) 8 (proc0 tt) = ((0, Some b), proc0 tt) /\ length b = 8%nat /\
    held b = None /\ take 8 b = take 8 (lit "Too many users").
Proof. apply (strerror_r_message (fun b _ _ => (0, b)) EUSERS (lit "Too many users") (replicate 8 NUL) (proc0 tt) eq_refl). Defined.

(** [wpdk_strdup] gives a new block of exactly the bytes of the string and its terminator
    and leaves the other blocks alone. *)
Theorem strdup_copies (choose : heap -> Z -> Z -> option Z) (junk : Z) (s : cstr) (h : heap) :
  Z.of_nat (length s) + 1 < 2 ^ 64 ->
  let '(r, h') := wpdk_strdup choose junk s h in
  match r with None => h' = h | Some p => h' = <[p := bytes s]> h end.
Proof.
  intros Hl. unfold wpdk_strdup. rewrite uwrap_id by (unfold in_u; lia). unfold wpdk_malloc.
  rewrite (proj2 (Z.eqb_neq _ 0)) by lia.
  destruct (malloc_run choose junk (Z.of_nat (length s) + 1) default_alignment h) as [[-> _]|(p & _ & ->)]; [done|].
  rewrite alter_insert_eq. f_equal. rewrite drop_ge, app_nil_r by (rewrite length_replicate; lia). done.
Qed.
End Strings_c.
