(* ===== verification/Digest.v ===== *)
(** * Digest: src/src/md5.c

    The MD5 interface of OpenSSL on the functions of cryptdll.dll, which are loaded
    on the first [wpdk_MD5_Init].  The digest is computed in the library: its three
    functions are the class [Cryptdll], with [CryptdllLaws] saying that they compute
    some function of the data.  The outcome [None] is a fatal error or a call through
    a function pointer that has not been set. *)

From S2P Require Import Prelude Errno CString PathMap Proc.

Module Export Digest.
Local Open Scope Z_scope.

Definition MD5_CBLOCK : Z := 64.
Definition MD5_DIGEST_LENGTH : nat := 16.

(** [MD5_CTX]; [c_digest] is its field [digest]. *)
Record MD5_CTX := Md5Ctx { c_i : list Z; c_buf : list Z; c_in : list Z; c_digest : list Z }.
(** What [calloc] leaves. *)
Definition ctx0 : MD5_CTX := Md5Ctx [0; 0] [0; 0; 0; 0] (replicate 64 0) (replicate 16 0).

Class Cryptdll := {
  MD5Init : MD5_CTX -> MD5_CTX;
  MD5Update : MD5_CTX -> list Z -> Z -> MD5_CTX;
  MD5Final : MD5_CTX -> MD5_CTX;
  (** [LoadLibrary] finds the library; [GetProcAddress] finds the functions *)
  lib_found : bool;
  procs_found : bool * bool * bool
}.

(** The static variables, the contexts of [EVP_MD_CTX_create], and errno. *)
Record md5_state := Md5State {
  md5_pointers : bool;                     (** the three pointers are set *)
  md5_digest : list Z;                     (** the static buffer of [wpdk_MD5] *)
  md5_ctxs : gmap Z MD5_CTX;
  md5_errno : Z }.
#[export] Instance md5_has_errno : HasErrno md5_state.
Proof.
  refine {| errno := md5_errno;
            set_errno := fun e s => Md5State (md5_pointers s) (md5_digest s) (md5_ctxs s) e |}.
  reflexivity.
Defined.

Section Md5.
Context `{DLL : !Cryptdll}.
Local Abbreviation M A := (md5_state -> option (A * md5_state)).

Definition set_ctxs (f : gmap Z MD5_CTX -> gmap Z MD5_CTX) (s : md5_state) : md5_state :=
  Md5State (md5_pointers s) (md5_digest s) (f (md5_ctxs s)) (md5_errno s).

(** The callback runs once; it returns only with the three pointers set. *)
Definition wpdk_md5_initialise (s : md5_state) : option md5_state :=
  if negb lib_found then None
  else
    let '(i, u, f) := procs_found in
    if negb i || negb u || negb f then None
    else Some (Md5State true (md5_digest s) (md5_ctxs s) (md5_errno s)).

Definition wpdk_MD5_Init (c : MD5_CTX) : M (Z * MD5_CTX) := fun s =>
  s ← (if md5_pointers s then Some s else wpdk_md5_initialise s);
  Some ((1, MD5Init c), s).

(** [len] has 64 bits, the argument of the library 32. *)
Definition wpdk_MD5_Update (c : MD5_CTX) (data : list Z) (len : Z) : M (Z * MD5_CTX) := fun s =>
  if md5_pointers s then Some ((1, MD5Update c data (uwrap 32 len)), s) else None.

Definition wpdk_MD5_Transform (c : MD5_CTX) (b : list Z) : M MD5_CTX := fun s =>
  '((_, c), s) ← wpdk_MD5_Update c b MD5_CBLOCK s; Some (c, s).

(** The result, the sixteen bytes stored through [md], the context. *)
Definition wpdk_MD5_Final (c : MD5_CTX) : M (Z * list Z * MD5_CTX) := fun s =>
  if md5_pointers s then
    let c := MD5Final c in Some ((1, take MD5_DIGEST_LENGTH (c_digest c), c), s)
  else None.

(** What is stored in the buffer, which is [md] when [has_md] and else the static one. [n] is an
    [unsigned long], [garbage] the uninitialised context. *)
Definition wpdk_MD5 (garbage : MD5_CTX) (d : list Z) (n : Z) (has_md : bool) : M (list Z) := fun s =>
  '((_, c), s) ← wpdk_MD5_Init garbage s;
  '((_, c), s) ← wpdk_MD5_Update c d n s;
  '((_, out, _), s) ← wpdk_MD5_Final c s;
  Some (out, if has_md then s else Md5State (md5_pointers s) out (md5_ctxs s) (md5_errno s)).

(** [&wpdk_md5], the only type there is. *)
Inductive EVP_MD := Md5Type | OtherType.
Definition wpdk_EVP_md5 : EVP_MD := Md5Type.

(** [addr] is what [calloc] returns. *)
Definition wpdk_EVP_MD_CTX_create (addr : option Z) : M (option Z) := fun s =>
  match addr with
  | None => Some (None, snd (wpdk_posix_error ENOMEM s))
  | Some p => Some (Some p, set_ctxs <[p := ctx0]> s)
  end.

Definition wpdk_EVP_MD_CTX_destroy (ctx : option Z) : M unit := fun s =>
  Some (tt, match ctx with Some p => set_ctxs (delete p) s | None => s end).

Definition wpdk_EVP_DigestInit_ex (ctx : option Z) (type : EVP_MD) : M Z := fun s =>
  match ctx with
  | None => Some (0, snd (wpdk_posix_error EINVAL s))
  | Some p =>
    match type with
    | OtherType => Some (0, s)
    | Md5Type =>
      c ← md5_ctxs s !! p;
      '((rc, c), s) ← wpdk_MD5_Init c s;
      Some (if rc =? 1 then 1 else 0, set_ctxs <[p := c]> s)
    end
  end.

Definition wpdk_EVP_DigestUpdate (ctx : Z) (data : list Z) (len : Z) : M Z := fun s =>
  c ← md5_ctxs s !! ctx;
  '((rc, c), s) ← wpdk_MD5_Update c data len s;
  Some (rc, set_ctxs <[ctx := c]> s).

(** The result and the digest; [*s] is not written. *)
Definition wpdk_EVP_DigestFinal_ex (ctx : Z) : M (Z * list Z) := fun s =>
  c ← md5_ctxs s !! ctx;
  '((rc, md, c), s) ← wpdk_MD5_Final c s;
  Some ((rc, md), set_ctxs <[ctx := c]> s).
End Md5.

(** What the library computes: [digests c data] says that [c] is a context that has been
    given [data]; [hash] is the digest of it. *)
Class CryptdllLaws `{!Cryptdll} := {
  hash : list Z -> list Z;
  digests : MD5_CTX -> list Z -> Prop;
  hash_length : forall data, length (hash data) = MD5_DIGEST_LENGTH;
  init_law : forall c, digests (MD5Init c) [];
  update_law : forall c data d len, digests c data -> 0 <= len <= Z.of_nat (length d) ->
    digests (MD5Update c d len) (data ++ take (Z.to_nat len) d);
  final_law : forall c data, digests c data -> c_digest (MD5Final c) = hash data
}.

(** ** Programs that compute digests *)

(** The calls of a program, with any number of contexts; an update and the one-shot function pass the whole of their
    data.  [addr] is what calloc returns, [garbage] the uninitialised context of the one-shot function. *)
Inductive evp_call :=
  | EvpCreate (addr : option Z)
  | EvpDestroy (ctx : option Z)
  | EvpInit (ctx : option Z) (type : EVP_MD)
  | EvpUpdate (ctx : Z) (data : list Z)
  | EvpFinal (ctx : Z)
  | OneShot (garbage : MD5_CTX) (data : list Z) (has_md : bool).
(** What the call returns, and the digest it stores. *)
Inductive evp_result := Done | Context (p : option Z) | Status (rc : Z) | Digested (rc : Z) (md : list Z).

Section Streams.
Context `{DLL : !Cryptdll}.

Definition evp (c : evp_call) (s : md5_state) : option (evp_result * md5_state) :=
  match c with
  | EvpCreate addr => '(p, s) ← wpdk_EVP_MD_CTX_create addr s; Some (Context p, s)
  | EvpDestroy ctx => '(_, s) ← wpdk_EVP_MD_CTX_destroy ctx s; Some (Done, s)
  | EvpInit ctx type => '(rc, s) ← wpdk_EVP_DigestInit_ex ctx type s; Some (Status rc, s)
  | EvpUpdate p d => '(rc, s) ← wpdk_EVP_DigestUpdate p d (Z.of_nat (length d)) s; Some (Status rc, s)
  | EvpFinal p => '((rc, md), s) ← wpdk_EVP_DigestFinal_ex p s; Some (Digested rc md, s)
  | OneShot g d has_md => '(md, s) ← wpdk_MD5 g d (Z.of_nat (length d)) has_md s; Some (Digested 1 md, s)
  end.
(** [None]: a fatal error, a call through a NULL function pointer, or a context that is not there. *)
Fixpoint run_evp (calls : list evp_call) (s : md5_state) : option (list evp_result * md5_state) :=
  match calls with
  | [] => Some ([], s)
  | c :: calls => '(r, s) ← evp c s; '(rs, s) ← run_evp calls s; Some (r :: rs, s)
  end.

(** The library and its three functions are found. *)
Definition available : bool := lib_found && fst (fst procs_found) && snd (fst procs_found) && snd procs_found.

Context `{LAWS : !CryptdllLaws}.

(** The specification: whether the library is loaded, the contexts there are with the data each was given since
    it was initialised ([None] when it is not being used for a digest), and the static buffer. *)
Record streams := Streams { x_loaded : bool; x_data : gmap Z (option (list Z)); x_static : list Z }.
Definition x_set (p : Z) (d : option (list Z)) (x : streams) : streams := Streams (x_loaded x) (<[p := d]> (x_data x)) (x_static x).
Definition x_load (x : streams) : option streams :=
  if x_loaded x || available then Some (Streams true (x_data x) (x_static x)) else None.
(** The length of a piece has 32 bits. *)
Definition piece (d : list Z) : list Z := take (Z.to_nat (Z.of_nat (length d) `mod` 2 ^ 32)) d.

(** The digest is [None] when it is not one of data the program gave. *)
Definition spec_evp (c : evp_call) (x : streams) : option (evp_result + option (list Z) * Z) * streams :=
  match c with
  | EvpCreate None => (Some (inl (Context None)), x)
  | EvpCreate (Some p) => (Some (inl (Context (Some p))), x_set p None x)
  | EvpDestroy None => (Some (inl Done), x)
  | EvpDestroy (Some p) => (Some (inl Done), Streams (x_loaded x) (delete p (x_data x)) (x_static x))
  | EvpInit None _ | EvpInit _ OtherType => (Some (inl (Status 0)), x)
  | EvpInit (Some p) Md5Type =>
    match x_data x !! p, x_load x with Some _, Some x => (Some (inl (Status 1)), x_set p (Some []) x) | _, _ => (None, x) end
  | EvpUpdate p d =>
    match x_data x !! p with
    | Some o => if x_loaded x then (Some (inl (Status 1)), x_set p (data ← o; Some (data ++ piece d)) x) else (None, x)
    | None => (None, x)
    end
  | EvpFinal p =>
    match x_data x !! p with
    | Some o => if x_loaded x then (Some (inr (hash <$> o, 1)), x_set p None x) else (None, x)
    | None => (None, x)
    end
  | OneShot _ d has_md =>
    match x_load x with
    | Some x => (Some (inr (Some (hash (piece d)), 1)), if has_md then x else Streams (x_loaded x) (x_data x) (hash (piece d)))
    | None => (None, x)
    end
  end.

(** The contexts in memory hold the data of the specification. *)
Definition holds (o : option (option (list Z))) (c : option MD5_CTX) : Prop :=
  match o, c with
  | None, None | Some None, Some _ => True
  | Some (Some data), Some c => digests c data
  | _, _ => False
  end.
Record holds_data (s : md5_state) (x : streams) : Prop := {
  hd_loaded : md5_pointers s = x_loaded x;
  hd_static : md5_digest s = x_static x;
  hd_data : forall p, holds (x_data x !! p) (md5_ctxs s !! p) }.

(** The result is that of the specification; a digest of unknown data is any. *)
Definition meets (e : evp_result + option (list Z) * Z) (r : evp_result) : Prop :=
  match e with
  | inl r' => r = r'
  | inr (Some md, rc) => r = Digested rc md
  | inr (None, rc) => exists md, r = Digested rc md
  end.

Lemma holds_set s x p c o : holds_data s x -> holds (Some o) (Some c) -> holds_data (set_ctxs <[p := c]> s) (x_set p o x).
Proof.
  intros [Hl Hs Hd] Hc. split; [done|done|]. intros q. cbn. destruct (decide (p = q)) as [<-|E]; [by rewrite !lookup_insert_eq|].
  by rewrite !lookup_insert_ne.
Qed.

(** Initialising loads the library when it is not loaded; it is fatal when that fails. *)
Lemma md5_init_run c s x : holds_data s x -> match x_load x with
  | Some x' => exists s', wpdk_MD5_Init c s = Some ((1, MD5Init c), s') /\ holds_data s' x' /\ md5_pointers s' = true /\ md5_ctxs s' = md5_ctxs s
  | None => wpdk_MD5_Init c s = None
  end.
Proof.
  intros [Hl Hs Hd]. unfold wpdk_MD5_Init, x_load, wpdk_md5_initialise, available. rewrite <- Hl. destruct (md5_pointers s) eqn:E; cbn [orb].
  { exists s. split; [done|]. split; [by split|done]. }
  destruct lib_found; [|done]. destruct procs_found as [[[] []] []]; cbn; try done. eexists. split; [done|]. split; [by split|done].
Qed.

Lemma md5_update_run c data d s : md5_pointers s = true -> exists c',
  wpdk_MD5_Update c d (Z.of_nat (length d)) s = Some ((1, c'), s) /\ (digests c data -> digests c' (data ++ piece d)).
Proof.
  intros Hp. unfold wpdk_MD5_Update. rewrite Hp. eexists. split; [done|]. intros Hc. apply update_law; [done|].
  unfold uwrap. pose proof (Z.mod_pos_bound (Z.of_nat (length d)) (2 ^ 32) ltac:(lia)).
  pose proof (Z.mod_le (Z.of_nat (length d)) (2 ^ 32) ltac:(lia) ltac:(lia)). lia.
Qed.

Lemma md5_final_run c data s : md5_pointers s = true -> exists md c',
  wpdk_MD5_Final c s = Some ((1, md, c'), s) /\ (digests c data -> md = hash data).
Proof.
  intros Hp. unfold wpdk_MD5_Final. rewrite Hp. do 2 eexists. split; [done|]. intros Hc. rewrite (final_law _ _ Hc), take_ge; [done|].
  by rewrite hash_length.
Qed.

Lemma evp_spec c s x : holds_data s x -> match spec_evp c x with
  | (Some e, x') => exists r s', evp c s = Some (r, s') /\ meets e r /\ holds_data s' x'
  | (None, _) => evp c s = None
  end.
Proof.
  intros Hx. pose proof (hd_loaded _ _ Hx) as Hl. destruct c as [[p|]|[p|]|[p|] []|p d|p|g d has_md]; cbn [evp spec_evp].
  - do 2 eexists. split; [done|]. split; [done|]. by apply holds_set.
  - do 2 eexists. split; [done|]. split; [done|]. by destruct Hx.
  - do 2 eexists. split; [done|]. split; [done|]. destruct Hx as [? Hs Hd]. split; [done|done|]. intros q. cbn.
    destruct (decide (p = q)) as [<-|E]; [by rewrite !lookup_delete_eq|by rewrite !lookup_delete_ne].
  - by do 2 eexists.
  - pose proof (hd_data _ _ Hx p) as Hp. unfold wpdk_EVP_DigestInit_ex. destruct (x_data x !! p) as [o|], (md5_ctxs s !! p) as [c|]; cbn; try done; [|by destruct o].
    pose proof (md5_init_run c s x Hx) as H. destruct (x_load x) as [x'|]; [|by rewrite H]. destruct H as (s' & -> & Hx' & _). cbn.
    do 2 eexists. split; [done|]. split; [done|]. apply holds_set; [done|apply init_law].
  - by do 2 eexists.
  - do 2 eexists. split; [done|]. split; [done|]. by destruct Hx.
  - do 2 eexists. split; [done|]. split; [done|]. by destruct Hx.
  - pose proof (hd_data _ _ Hx p) as Hp. unfold wpdk_EVP_DigestUpdate. destruct (x_data x !! p) as [o|], (md5_ctxs s !! p) as [c|]; cbn; try done; [|by destruct o].
    rewrite <- Hl. destruct (md5_pointers s) eqn:E; [|unfold wpdk_MD5_Update; by rewrite E].
    destruct (md5_update_run c (default [] o) d s E) as (c' & -> & Hc). cbn. do 2 eexists. split; [done|]. split; [done|]. apply holds_set; [done|].
    destruct o; [by apply Hc|done].
  - pose proof (hd_data _ _ Hx p) as Hp. unfold wpdk_EVP_DigestFinal_ex. destruct (x_data x !! p) as [o|], (md5_ctxs s !! p) as [c|]; cbn; try done; [|by destruct o].
    rewrite <- Hl. destruct (md5_pointers s) eqn:E; [|unfold wpdk_MD5_Final; by rewrite E].
    destruct (md5_final_run c (default [] o) s E) as (md & c' & -> & Hc). cbn. do 2 eexists. split; [done|]. split; [|by apply holds_set].
    destruct o; cbn; [by rewrite Hc|by eexists].
  - unfold wpdk_MD5. pose proof (md5_init_run g s x Hx) as H. destruct (x_load x) as [x'|]; [|by rewrite H]. destruct H as (s1 & -> & Hx' & Hp & _). cbn.
    destruct (md5_update_run (MD5Init g) [] d s1 Hp) as (c1 & -> & Hu). cbn. destruct (md5_final_run c1 (piece d) s1 Hp) as (md & c2 & -> & Hf). cbn.
    rewrite Hf by apply Hu, init_law. do 2 eexists. split; [done|]. split; [done|]. destruct has_md; [done|]. by destruct Hx'.
Qed.

(** The results of a program by the specification; [None] from the first call that cannot return on. *)
Fixpoint spec_run (calls : list evp_call) (x : streams) : option (list (evp_result + option (list Z) * Z) * streams) :=
  match calls with
  | [] => Some ([], x)
  | c :: calls =>
    match spec_evp c x with
    | (Some e, x) => '(es, x) ← spec_run calls x; Some (e :: es, x)
    | (None, _) => None
    end
  end.

(** C29: the digest functions refine streams of data.  For every program of calls, on any number of
    contexts and in any order, and whether or not cryptdll.dll and its functions are found: each call returns what the specification
    says.  A context delivers the digest of exactly the data it was given since it was initialised, with each
    piece cut to its length modulo 4 GiB, whatever happens to the other contexts; the one-shot function disturbs none and fills the static buffer only
    without one of the caller.  A program fails exactly where the specification says: at the first initialisation without the library, at an update
    or final before the library was loaded, or on a context that was not created or is destroyed. *)
Theorem evp_streams (calls : list evp_call) (s : md5_state) (x : streams) : holds_data s x ->
  match spec_run calls x with
  | Some (es, x') => exists rs s', run_evp calls s = Some (rs, s') /\ Forall2 meets es rs /\ holds_data s' x'
  | None => run_evp calls s = None
  end.
Proof.
  revert s x. induction calls as [|c calls IH]; intros s x Hx; cbn [spec_run run_evp]; [exists [], s; by split_and!|].
  pose proof (evp_spec c s x Hx) as H. destruct (spec_evp c x) as [[e|] x']; [|by rewrite H].
  destruct H as (r & s' & -> & Hr & Hx'). cbn. specialize (IH s' x' Hx'). destruct (spec_run calls x') as [[es x2]|]; cbn; [|by rewrite IH].
  destruct IH as (rs & s2 & -> & Hrs & Hx2). exists (r :: rs), s2. split_and!; [done|by constructor|done].
Qed.
End Streams.

(** ** A library that satisfies the laws

    A stand-in that keeps the data in the context; its digest is the first sixteen bytes. *)
Module DigestSim.
Definition pad (l : list Z) : list Z := take 16 (l ++ replicate 16 0).
#[export] Instance sim_dll : Cryptdll := {|
  MD5Init c := Md5Ctx [] [] [] (c_digest c);
  MD5Update c d len := Md5Ctx [] [] (c_in c ++ take (Z.to_nat len) d) (c_digest c);
  MD5Final c := Md5Ctx [] [] [] (pad (c_in c));
  lib_found := true; procs_found := (true, true, true) |}.
#[export] Instance sim_laws : CryptdllLaws.
Proof.
  refine {| hash := pad; digests := fun c data => c_in c = data |}; try done.
  - intros data. unfold pad. rewrite length_take, length_app, length_replicate. unfold MD5_DIGEST_LENGTH. lia.
  - intros c data d len <- _. done.
  - by intros c data <-.
Defined.
Definition s0 : md5_state := Md5State false [] ∅ 0.
Definition x0 : streams := Streams false ∅ [].
Definition prog0 : list evp_call :=
  [EvpCreate (Some 1); EvpInit (Some 1) Md5Type; EvpUpdate 1 [7]; EvpCreate (Some 2); EvpInit (Some 2) Md5Type; EvpUpdate 2 [5; 6];
   OneShot ctx0 [9] false; EvpUpdate 1 [8]; EvpFinal 2; EvpDestroy (Some 2); EvpFinal 1].
End DigestSim.
Import DigestSim.

Lemma evp_streams_witness : exists rs s', run_evp prog0 s0 = Some (rs, s') /\
  drop 6 rs = [Digested 1 (pad [9]); Status 1; Digested 1 (pad [5; 6]); Done; Digested 1 (pad [7; 8])] /\ md5_digest s' = pad [9].
Proof.
  pose proof (evp_streams prog0 s0 x0 ltac:(by split)) as H. destruct (spec_run prog0 x0) as [[es x']|] eqn:E; [|by vm_compute in E].
  destruct H as (rs & s' & E' & _ & _). exists rs, s'. split; [done|]. vm_compute in E'. by injection E' as <- <-.
Defined.
End Digest.
