(* ===== verification/Ifaddrs.v ===== *)
(** * Ifaddrs: src/src/ifaddrs.c and src/src/ioctl.c

    The list of interface addresses and the flags of an interface.  An adapter is
    what the code reads of [IP_ADAPTER_ADDRESSES]; [GetAdaptersAddresses] and the
    allocator are the class [IfApi].  The linked list a caller receives is the list
    of its nodes from the head, each with the block it lies in. *)

From S2P Require Import Prelude Errno CString PathMap Proc Sockets.
From stdpp Require Import pretty.

Module Export Ifaddrs.
Local Open Scope Z_scope.

Definition IF_NAMESIZE : nat := 16.
Definition SIOCSIFFLAGS : Z := 1.
Definition SIOCGIFFLAGS : Z := 2.
Definition AF_INET : Z := 2.
Definition AF_INET6 : Z := 23.
Definition IFF_UP : Z := 1.
Definition IFF_LOOPBACK : Z := 4.
Definition IfOperStatusUp : Z := 1.
Definition IF_TYPE_SOFTWARE_LOOPBACK : Z := 24.
(** [sizeof(struct ifaddrs)]: four members of a 64-bit layout. *)
Definition sizeof_ifaddrs : Z := 32.

(** [IP_ADAPTER_UNICAST_ADDRESS]: the family and the bytes of the address. *)
Record unicast := Unicast { ua_family : Z; ua_bytes : list Z }.
Record adapter := Adapter {
  OperStatus : Z; IfType : Z; IfIndex : Z; Ipv6IfIndex : Z; FirstUnicastAddress : list unicast }.

Record ifaddrs := IfAddrs { ifa_block : Z; ifa_name : cstr; ifa_flags : Z; ifa_addr : list Z }.

Class IfApi (W : Type) := {
  (** for a buffer of [len] bytes: the result, the size needed, the adapters *)
  GetAdaptersAddresses : option Z -> Z -> C W (Z * Z * list adapter);
  if_realloc : option Z -> Z -> C W (option Z);
  if_calloc : Z -> C W (option Z);
  if_free : Z -> C W unit
}.

Section Ops.
Context {W : Type} `{!Winsock W, !IfApi W}.
Local Open Scope c_scope.
Local Abbreviation P := (C (proc W)).

(** [free(p)], which accepts NULL. *)
Definition free_block (p : option Z) : P unit := match p with Some p => lift (if_free p) | None => ret tt end.

(** The loop has no bound: [fuel] rounds of it, [None] when they are not enough.  The
    buffer that is returned, with the adapters in it; [Some None] is a reported failure. *)
Fixpoint get_adapters (fuel : nat) (buf : option Z) (len : Z) : P (option (option (Z * list adapter))) :=
  match fuel with
  | O => ret None
  | S fuel =>
    let* '(rc, len, list) := lift (GetAdaptersAddresses buf len) in
    if rc =? ERROR_SUCCESS then ret (Some ((fun b => (b, list)) <$> buf))
    else if negb (rc =? ERROR_BUFFER_OVERFLOW) then
      free_block buf ;; wpdk_windows_error (s32 rc) ;; ret (Some None)
    else
      let* buf' := lift (if_realloc buf len) in
      match buf' with
      | None => free_block buf ;; wpdk_posix_error ENOMEM ;; ret (Some None)
      | Some b => get_adapters fuel (Some b) len
      end
  end.
Definition wpdk_get_adapters (fuel : nat) : P (option (option (Z * list adapter))) := get_adapters fuel None 0.

(** The name and the flags of an interface; [None] is false. *)
Definition wpdk_get_if_info (ipa : adapter) (family : Z) : option (cstr * Z) :=
  if negb (family =? AF_INET) && negb (family =? AF_INET6) then None
  else
    let pflags := 0 in
    let pflags := if OperStatus ipa =? IfOperStatusUp then Z.lor pflags IFF_UP else pflags in
    let pflags := if IfType ipa =? IF_TYPE_SOFTWARE_LOOPBACK then Z.lor pflags IFF_LOOPBACK else pflags in
    let index := s32 (if family =? AF_INET6 then Ipv6IfIndex ipa else IfIndex ipa) in
    let name := lit (if Z.land pflags IFF_LOOPBACK =? 0 then "en" else "lo") ++ lit (pretty index) in
    (** [sprintf_s] empties a buffer the text does not fit in *)
    Some (if (length name <? IF_NAMESIZE)%nat then name else [], pflags).

Fixpoint wpdk_freeifaddrs (ifa : list ifaddrs) : P unit :=
  match ifa with
  | [] => ret tt
  | x :: next => lift (if_free (ifa_block x)) ;; wpdk_freeifaddrs next
  end.

(** The inner loop: [inl] is the list so far when memory ran out. *)
Fixpoint collect_addrs (ipa : adapter) (addrs : list unicast) (iflist : list ifaddrs) : P (list ifaddrs + list ifaddrs) :=
  match addrs with
  | [] => ret (inr iflist)
  | addr :: addrs =>
    match wpdk_get_if_info ipa (ua_family addr) with
    | None => collect_addrs ipa addrs iflist
    | Some (name, flags) =>
      let len := sizeof_ifaddrs + Z.of_nat (length (ua_bytes addr)) + Z.of_nat IF_NAMESIZE in
      let* ifa := lift (if_calloc len) in
      match ifa with
      | None => ret (inl iflist)
      | Some p => collect_addrs ipa addrs (IfAddrs p name (uwrap 32 flags) (ua_bytes addr) :: iflist)
      end
    end
  end.
Fixpoint collect_adapters (adapters : list adapter) (iflist : list ifaddrs) : P (list ifaddrs + list ifaddrs) :=
  match adapters with
  | [] => ret (inr iflist)
  | ipa :: adapters =>
    let* r := collect_addrs ipa (FirstUnicastAddress ipa) iflist in
    match r with inl l => ret (inl l) | inr l => collect_adapters adapters l end
  end.

(** The result and the list stored in [*ifap]; [None] when the rounds are not enough. *)
Definition wpdk_getifaddrs (fuel : nat) (has_ifap : bool) : P (option (Z * option (list ifaddrs))) :=
  if negb has_ifap then ret (Some (EINVAL, None))
  else
    let* r := wpdk_get_adapters fuel in
    match r with
    | None => ret None
    | Some None => ret (Some (-1, None))
    | Some (Some (buf, adapters)) =>
      let* l := collect_adapters adapters [] in
      match l with
      | inl iflist =>
        wpdk_freeifaddrs iflist ;;
        free_block (Some buf) ;;
        let* rc := wpdk_posix_error ENOMEM in ret (Some (rc, None))
      | inr iflist => free_block (Some buf) ;; ret (Some (0, Some iflist))
      end
    end.

(** The first address whose interface has the name. *)
Fixpoint find_addr (ipa : adapter) (addrs : list unicast) (ifr_name : cstr) : option Z :=
  match addrs with
  | [] => None
  | addr :: addrs =>
    match wpdk_get_if_info ipa (ua_family addr) with
    | None => find_addr ipa addrs ifr_name
    | Some (name, flags) => if eqs ifr_name name then Some flags else find_addr ipa addrs ifr_name
    end
  end.
Fixpoint find_if (adapters : list adapter) (ifr_name : cstr) : option Z :=
  match adapters with
  | [] => None
  | ipa :: adapters =>
    match find_addr ipa (FirstUnicastAddress ipa) ifr_name with
    | Some flags => Some flags
    | None => find_if adapters ifr_name
    end
  end.

(** The result and what [ifr_flags] becomes, if it is written. *)
Definition wpdk_getifflags (fuel : nat) (ifr_name : cstr) : P (option (Z * option Z)) :=
  let* r := wpdk_get_adapters fuel in
  match r with
  | None => ret None
  | Some None => ret (Some (-1, None))
  | Some (Some (buf, adapters)) =>
    match find_if adapters ifr_name with
    | Some flags => free_block (Some buf) ;; ret (Some (0, Some flags))
    | None => free_block (Some buf) ;; let* rc := wpdk_posix_error EINVAL in ret (Some (rc, None))
    end
  end.

(** The third argument is the name in the [struct ifreq], [None] for NULL. *)
Definition wpdk_ioctl (fuel : nat) (fd request : Z) (ifr : option cstr) : P (option (Z * option Z)) :=
  if (request =? SIOCGIFFLAGS) || (request =? SIOCSIFFLAGS) then
    if negb (wpdk_is_socket fd) then let* rc := wpdk_posix_error EBADF in ret (Some (rc, None))
    else
      match ifr with
      | None => let* rc := wpdk_posix_error EINVAL in ret (Some (rc, None))
      | Some name =>
        if request =? SIOCSIFFLAGS then ret (Some (0, None)) else wpdk_getifflags fuel name
      end
  else let* rc := wpdk_posix_error EINVAL in ret (Some (rc, None)).
End Ops.

(** ** What the system promises

    [net] are the adapters, [need] the bytes their description takes, [blocks] the blocks
    that are allocated.  Documented: a buffer that is large enough is filled, for another
    the size is returned; allocation returns a block that is not in use, and a [realloc]
    that succeeds replaces one block. *)
Class IfLaws (W : Type) `{!IfApi W} := {
  net : W -> list adapter;
  need : W -> Z;
  blocks : W -> gset Z;
  need_pos : forall w, 0 < need w;
  adapters_law : forall buf len w, let '(rc, len', l, w') := GetAdaptersAddresses buf len w in
    net w' = net w /\ need w' = need w /\ blocks w' = blocks w /\
    ((rc = ERROR_SUCCESS /\ l = net w /\ buf <> None /\ need w <= len) \/
     (rc = ERROR_BUFFER_OVERFLOW /\ len' = need w /\ len < need w) \/
     (rc <> ERROR_SUCCESS /\ rc <> ERROR_BUFFER_OVERFLOW));
  realloc_law : forall p len w, (forall q, p = Some q -> q ∈ blocks w) -> let '(r, w') := if_realloc p len w in
    net w' = net w /\ need w' = need w /\
    match r with
    | None => blocks w' = blocks w
    | Some b => let old := match p with Some q => (blocks w ∖ {[q]}) | None => blocks w end in
        (b ∉ old) /\ blocks w' = ({[b]} ∪ old)
    end;
  calloc_law : forall len w, let '(r, w') := if_calloc len w in
    net w' = net w /\ need w' = need w /\
    match r with None => blocks w' = blocks w | Some b => (b ∉ blocks w) /\ blocks w' = ({[b]} ∪ blocks w) end;
  free_law : forall b w, b ∈ blocks w -> let '(_, w') := if_free b w in
    net w' = net w /\ need w' = need w /\ blocks w' = (blocks w ∖ {[b]})
}.

Section Spec.
Context {W : Type} `{!Winsock W, IA : !IfApi W, IL : !IfLaws W}.

(** Between two states: the network is the same, and exactly the blocks of the list are
    new. *)
Definition same_net (w w' : W) : Prop := net w' = net w /\ need w' = need w.
Definition node_blocks (l : list ifaddrs) : gset Z := list_to_set (map ifa_block l).
Definition owns (w w' : W) (l : list ifaddrs) : Prop :=
  same_net w w' /\ NoDup (map ifa_block l) /\ node_blocks l ## blocks w /\ blocks w' = node_blocks l ∪ blocks w.

(** The reference: name, flags and address for every address of a supported family. *)
Definition entry (x : ifaddrs) : cstr * Z * list Z := (ifa_name x, ifa_flags x, ifa_addr x).
Definition addr_entry (ipa : adapter) (a : unicast) : option (cstr * Z * list Z) :=
  (fun '(n, f) => (n, uwrap 32 f, ua_bytes a)) <$> wpdk_get_if_info ipa (ua_family a).
Definition entries (l : list adapter) : list (cstr * Z * list Z) :=
  concat (map (fun ipa => omap (addr_entry ipa) (FirstUnicastAddress ipa)) l).

Lemma free_run b (p : proc W) : b ∈ blocks (world p) ->
  let p' := snd (lift (if_free b) p) in same_net (world p) (world p') /\ blocks (world p') = blocks (world p) ∖ {[b]}.
Proof.
  intros Hb. rewrite lift_run. cbn. pose proof (free_law b (world p) Hb) as H. destruct (if_free b (world p)) as [u w]. cbn. destruct H as (? & ? & ?).
  by split_and!.
Qed.

(** Freeing the list gives back exactly its blocks. *)
Lemma freeifaddrs_run l : forall w (p : proc W), owns w (world p) l ->
  let p' := snd (wpdk_freeifaddrs l p) in same_net w (world p') /\ blocks (world p') = blocks w.
Proof.
  induction l as [|x l IH]; intros w p (Hn & Hnd & Hdj & Hb); cbn [wpdk_freeifaddrs].
  - split; [done|]. cbn. unfold node_blocks in Hb. rewrite Hb. cbn. set_solver.
  - rewrite bind_run. apply IH. cbn [map] in Hnd. apply NoDup_cons in Hnd as [Hx Hnd]. unfold node_blocks in *. cbn [map list_to_set] in *.
    destruct (free_run (ifa_block x) p) as [[E1 E2] E3]; [rewrite Hb; set_solver|]. destruct Hn as [N1 N2].
    split_and!; [by split; congruence|done|set_solver|]. rewrite E3, Hb.
    assert (ifa_block x ∉@{gset Z} list_to_set (map ifa_block l)) by (by rewrite elem_of_list_to_set). set_solver.
Qed.

Lemma owns_cons w w1 w2 l x : owns w w1 l -> same_net w1 w2 ->
  (ifa_block x ∉ blocks w1) -> blocks w2 = {[ifa_block x]} ∪ blocks w1 -> owns w w2 (x :: l).
Proof.
  intros ([N1 N2] & Hnd & Hdj & Hb) [N3 N4] Hx Hb2. unfold node_blocks in *.
  split_and!; [split; congruence|cbn; apply NoDup_cons; split; [|done]|unfold node_blocks; cbn; set_solver|unfold node_blocks; cbn; rewrite Hb2, Hb; set_solver].
  intros Hin. apply Hx. rewrite Hb. apply elem_of_union_l. by rewrite elem_of_list_to_set.
Qed.

(** A round of the collection adds the entry of its address. *)
Lemma collect_addrs_run ipa addrs : forall w iflist (p : proc W), owns w (world p) iflist ->
  match collect_addrs ipa addrs iflist p with
  | (inl l, p') => owns w (world p') l
  | (inr l, p') => owns w (world p') l /\ map entry l = reverse (omap (addr_entry ipa) addrs) ++ map entry iflist
  end.
Proof.
  induction addrs as [|a addrs IH]; intros w iflist p Ho; cbn [collect_addrs omap list_omap]; [by cbn|].
  assert (addr_entry ipa a = (fun '(n, f) => (n, uwrap 32 f, ua_bytes a)) <$> wpdk_get_if_info ipa (ua_family a)) as Ea by done.
  destruct (wpdk_get_if_info ipa (ua_family a)) as [[name flags]|]; cbn in Ea; rewrite Ea; [|by apply IH].
  rewrite bind_run, lift_run. cbn [fst snd].
  set (len := sizeof_ifaddrs + Z.of_nat (length (ua_bytes a)) + Z.of_nat IF_NAMESIZE).
  pose proof (calloc_law len (world p)) as Hc. destruct (if_calloc len (world p)) as [r w1]. cbn [fst snd].
  destruct Hc as (C1 & C2 & C3). destruct r as [b|].
  - destruct C3 as [Hnew Hb1].
    assert (owns w w1 (IfAddrs b name (uwrap 32 flags) (ua_bytes a) :: iflist)) as Ho' by (by eapply owns_cons).
    match goal with |- context [collect_addrs ipa addrs ?l ?q] => specialize (IH w l q Ho') end.
    destruct (collect_addrs ipa addrs _ _) as [[l|l] p']; [done|].
    destruct IH as [? ->]. split; [done|]. by rewrite reverse_cons, <- app_assoc.
  - destruct Ho as ([N1 N2] & Hnd & Hdj & Hb). cbn. split_and!; [by split; congruence|done|done|by rewrite C3].
Qed.

Lemma collect_adapters_run adapters : forall w iflist (p : proc W), owns w (world p) iflist ->
  match collect_adapters adapters iflist p with
  | (inl l, p') => owns w (world p') l
  | (inr l, p') => owns w (world p') l /\ map entry l = reverse (entries adapters) ++ map entry iflist
  end.
Proof.
  induction adapters as [|ipa adapters IH]; intros w iflist p Ho; cbn [collect_adapters]; [by cbn|]. rewrite bind_run.
  pose proof (collect_addrs_run ipa (FirstUnicastAddress ipa) w iflist p Ho) as H.
  destruct (collect_addrs ipa (FirstUnicastAddress ipa) iflist p) as [[l|l] p1]; cbn [fst snd]; [done|]. destruct H as [H E].
  specialize (IH w l p1 H). destruct (collect_adapters adapters l p1) as [[l'|l'] p']; [done|]. destruct IH as [? ->]. split; [done|].
  unfold entries. cbn [map concat]. by rewrite reverse_app, E, <- app_assoc.
Qed.

(** Two rounds of the loop are enough: the first learns the size. *)
Lemma get_adapters_run fuel (p : proc W) : (2 <= fuel)%nat ->
  let '(r, p') := wpdk_get_adapters fuel p in same_net (world p) (world p') /\
  ((r = Some None /\ blocks (world p') = blocks (world p)) \/
   exists b, r = Some (Some (b, net (world p))) /\ (b ∉ blocks (world p)) /\ blocks (world p') = {[b]} ∪ blocks (world p)).
Proof.
  intros Hf. destruct fuel as [|[|fuel]]; [lia|lia|]. unfold wpdk_get_adapters. remember (S fuel) as f eqn:Ef. cbn [get_adapters].
  rewrite bind_run, lift_run. cbn [fst snd]. pose proof (adapters_law None 0 (world p)) as H.
  destruct (GetAdaptersAddresses None 0 (world p)) as [[[rc len] l] w1]. cbn [fst snd]. destruct H as (N1 & N2 & B1 & Hrc).
  destruct Hrc as [(_ & _ & ? & _)|[(-> & -> & _)|[R1 R2]]]; [done| |].
  2:{ rewrite (proj2 (Z.eqb_neq _ _) R1), (proj2 (Z.eqb_neq _ _) R2). cbn. split; [done|by left]. }
  cbn [Z.eqb ERROR_BUFFER_OVERFLOW ERROR_SUCCESS Pos.eqb negb]. rewrite bind_run, lift_run. cbn [fst snd world].
  pose proof (realloc_law None (need (world p)) w1 ltac:(done)) as H. destruct (if_realloc None (need (world p)) w1) as [[b|] w2]; cbn [fst snd].
  2:{ destruct H as (? & ? & ?). cbn. split; [split; congruence|left; split; congruence]. }
  destruct H as (N3 & N4 & Hb & B2). rewrite Ef. cbn [get_adapters]. rewrite bind_run, lift_run. cbn [fst snd world].
  pose proof (adapters_law (Some b) (need (world p)) w2) as H.
  destruct (GetAdaptersAddresses (Some b) (need (world p)) w2) as [[[rc len'] l'] w3]. cbn [fst snd]. destruct H as (N5 & N6 & B3 & Hrc).
  destruct Hrc as [(-> & -> & _ & _)|[(_ & _ & Hlt)|[R1 R2]]].
  - cbn. split; [split; congruence|right]. exists b. split_and!; [|congruence|congruence]. do 3 f_equal. congruence.
  - rewrite N4, N2 in Hlt. lia.
  - rewrite (proj2 (Z.eqb_neq _ _) R1), (proj2 (Z.eqb_neq _ _) R2). cbn [negb free_block].
    rewrite bind_run, lift_run. cbn [fst snd world]. pose proof (free_law b w3 ltac:(rewrite B3, B2; set_solver)) as H.
    destruct (if_free b w3) as [u w4]. destruct H as (? & ? & H). cbn. split; [split; congruence|left; split; [done|]].
    rewrite H, B3, B2, B1. rewrite B1 in Hb. set_solver.
Qed.

Lemma getifaddrs_run fuel (p : proc W) : (2 <= fuel)%nat ->
  let '(r, p') := wpdk_getifaddrs fuel true p in
  (r = Some (-1, None) /\ same_net (world p) (world p') /\ blocks (world p') = blocks (world p)) \/
  exists l, r = Some (0, Some l) /\ map entry l = reverse (entries (net (world p))) /\ owns (world p) (world p') l.
Proof.
  intros Hf. unfold wpdk_getifaddrs. cbn [negb]. rewrite bind_run. pose proof (get_adapters_run fuel p Hf) as H.
  destruct (wpdk_get_adapters fuel p) as [r p1]. cbn [fst snd]. destruct H as [[N1 N2] [[-> Hb]|(b & -> & Hnew & Hb)]].
  { cbn. left. by split_and!. }
  rewrite bind_run. assert (owns (world p1) (world p1) []) as Ho by (split_and!; [done|constructor|set_solver|set_solver]).
  pose proof (collect_adapters_run (net (world p)) (world p1) [] p1 Ho) as H. destruct (collect_adapters (net (world p)) [] p1) as [[l|l] p2]; cbn [fst snd].
  - rewrite bind_run. destruct (freeifaddrs_run l (world p1) p2 H) as [[N3 N4] Hb3]. set (p3 := snd (wpdk_freeifaddrs l p2)) in *.
    cbn [free_block]. rewrite bind_run. destruct (free_run b p3) as [[N5 N6] Hb4]; [rewrite Hb3, Hb; set_solver|].
    rewrite bind_run, posix_error_spec. cbn [fst snd ret]. left. split_and!; [done|split; cbn; congruence|]. cbn. rewrite Hb4, Hb3, Hb. set_solver.
  - destruct H as [([N3 N4] & Hnd & Hdj & Hb2) E]. cbn [free_block]. rewrite bind_run. cbn [ret].
    destruct (free_run b p2) as [[N5 N6] Hb3]; [rewrite Hb2, Hb; set_solver|]. right. exists l. rewrite app_nil_r in E.
    split; [done|]. split; [done|]. rewrite Hb in Hdj. unfold owns. split_and!; [split; congruence|done|set_solver|]. rewrite Hb3, Hb2, Hb. set_solver.
Qed.

(** C26: [getifaddrs] returns one entry for each IPv4 and IPv6 address of the system, the
    last adapter first, in blocks of its own; it keeps no other memory, on failure none at all,
    and [freeifaddrs] gives back exactly the blocks of the list. *)
Theorem getifaddrs_lists (fuel : nat) (p : proc W) :
  (2 <= fuel)%nat ->
  let '(r, p') := wpdk_getifaddrs fuel true p in
  (r = Some (-1, None) /\ blocks (world p') = blocks (world p)) \/
  exists l, r = Some (0, Some l) /\ map entry l = reverse (entries (net (world p))) /\
    owns (world p) (world p') l /\ blocks (world (snd (wpdk_freeifaddrs l p'))) = blocks (world p).
Proof.
  intros Hf. pose proof (getifaddrs_run fuel p Hf) as H. destruct (wpdk_getifaddrs fuel true p) as [r p'].
  destruct H as [(? & _ & ?)|(l & -> & E & Ho)]; [by left|right]. exists l. split_and!; [done|done|done|]. by apply freeifaddrs_run.
Qed.
End Spec.

(** ** Names *)

Lemma lit_length s : length (lit s) = String.length s.
Proof. unfold lit. induction s as [|c s IH]; cbn; [done|]. by rewrite IH. Qed.
Lemma lit_inj s t : lit s = lit t -> s = t.
Proof. unfold lit. intros H. by rewrite <- (String.string_of_list_ascii_of_string s), <- (String.string_of_list_ascii_of_string t), H. Qed.

(** A number below [10 ^ k] prints with at most [k] digits. *)
Lemma pretty_go_length k : forall x s, (x < 10 ^ N.of_nat k)%N -> (String.length (pretty_N_go x s) <= k + String.length s)%nat.
Proof.
  induction k as [|k IH]; intros x s Hx.
  - replace x with 0%N by (cbn in Hx; lia). by rewrite pretty_N_go_0.
  - destruct (decide (x = 0)%N) as [->|Hx0]; [rewrite pretty_N_go_0; lia|]. rewrite pretty_N_go_step by lia.
    etrans; [apply IH|cbn; lia]. apply N.Div0.div_lt_upper_bound. rewrite Nat2N.inj_succ, N.pow_succ_r' in Hx. lia.
Qed.

Lemma pretty_length z : in_s 32 z -> (String.length (pretty z) <= 11)%nat.
Proof.
  assert (forall x, (x < 10 ^ 10)%N -> (String.length (pretty x) <= 10)%nat) as Hp.
  { intros x Hx. unfold pretty, pretty_N. destruct (decide _); [cbn; lia|]. etrans; [by apply (pretty_go_length 10)|cbn; lia]. }
  intros [H1 H2]. destruct z as [|x|x].
  - cbn. lia.
  - pose proof (Hp (N.pos x) ltac:(lia)). by apply le_S.
  - pose proof (Hp (N.pos x) ltac:(lia)). by apply le_n_S.
Qed.

Definition supported (family : Z) : bool := (family =? AF_INET) || (family =? AF_INET6).
Definition index_of (ipa : adapter) (family : Z) : Z := if family =? AF_INET6 then Ipv6IfIndex ipa else IfIndex ipa.

(** The names are a prefix of two letters and the index; they always fit. *)
Lemma if_info_name ipa family : match wpdk_get_if_info ipa family with
  | None => supported family = false
  | Some (name, flags) => supported family = true /\ exists pre, length pre = 2%nat /\ name = pre ++ lit (pretty (s32 (index_of ipa family)))
  end.
Proof.
  unfold wpdk_get_if_info, supported. cbv zeta. destruct (family =? AF_INET), (family =? AF_INET6) eqn:E6; cbn [negb andb orb]; try done.
  all: split; [done|]; unfold index_of; rewrite E6.
  all: match goal with |- context [lit (if ?b then _ else _)] => exists (lit (if b then "en" else "lo")); split; [by destruct b|] end.
  all: match goal with |- context [pretty (s32 ?i)] => pose proof (pretty_length (s32 i) (swrap_range 32 i ltac:(lia))) end.
  all: rewrite (proj2 (Nat.ltb_lt _ _)); [done|]; rewrite length_app, !lit_length; unfold IF_NAMESIZE.
  all: match goal with |- context [String.length (if ?b then _ else _)] => destruct b; cbn; lia end.
Qed.

(** Documented: an index identifies an interface. *)
Definition indexes_unique (l : list adapter) : Prop :=
  forall a b f g, a ∈ l -> b ∈ l -> supported f = true -> supported g = true ->
    (in_u 32 (index_of a f) /\ in_u 32 (index_of b g)) /\ (index_of a f = index_of b g -> a = b).

Lemma s32_inj x y : in_u 32 x -> in_u 32 y -> s32 x = s32 y -> x = y.
Proof.
  intros Hx Hy H. apply (f_equal (fun z => z mod 2 ^ 32)) in H. rewrite !swrap_mod in H by lia.
  unfold in_u in *. by rewrite !Z.mod_small in H by lia.
Qed.

Definition info_flags (ipa : adapter) : Z :=
  let f := if OperStatus ipa =? IfOperStatusUp then Z.lor 0 IFF_UP else 0 in
  if IfType ipa =? IF_TYPE_SOFTWARE_LOOPBACK then Z.lor f IFF_LOOPBACK else f.
Lemma if_info_flags ipa family name flags : wpdk_get_if_info ipa family = Some (name, flags) -> flags = info_flags ipa.
Proof. unfold wpdk_get_if_info. destruct (_ && _); [done|]. by intros [= _ <-]. Qed.

(** With unique indexes a name has one set of flags. *)
Lemma names_unique l a b f g name x y : indexes_unique l -> a ∈ l -> b ∈ l ->
  wpdk_get_if_info a f = Some (name, x) -> wpdk_get_if_info b g = Some (name, y) -> x = y.
Proof.
  intros Hu Ha Hb E1 E2. pose proof (if_info_name a f) as H1. pose proof (if_info_name b g) as H2. rewrite E1 in H1. rewrite E2 in H2.
  destruct H1 as (S1 & p1 & L1 & N1), H2 as (S2 & p2 & L2 & N2). destruct (Hu a b f g Ha Hb S1 S2) as [[R1 R2] He].
  apply if_info_flags in E1 as ->. apply if_info_flags in E2 as ->. rewrite N1 in N2. apply app_inj_1 in N2 as [_ N2]; [|lia].
  apply lit_inj, (inj pretty), s32_inj in N2; [|done|done]. by rewrite (He N2).
Qed.

Lemma find_addr_spec ipa name addrs : match find_addr ipa addrs name with
  | Some f => exists a, a ∈ addrs /\ wpdk_get_if_info ipa (ua_family a) = Some (name, f)
  | None => forall a f, a ∈ addrs -> wpdk_get_if_info ipa (ua_family a) <> Some (name, f)
  end.
Proof.
  induction addrs as [|a addrs IH]; cbn [find_addr]; [intros a f H; by apply elem_of_nil in H|].
  destruct (wpdk_get_if_info ipa (ua_family a)) as [[n f]|] eqn:E.
  - destruct (eqs name n) eqn:En.
    + apply bool_decide_eq_true in En as ->. exists a. split; [left|done].
    + apply bool_decide_eq_false in En. destruct (find_addr ipa addrs name) as [f'|].
      * destruct IH as (b & Hb & Eb). exists b. split; [by right|done].
      * intros b f' Hb. apply elem_of_cons in Hb as [->|Hb]; [rewrite E; congruence|by apply IH].
  - destruct (find_addr ipa addrs name) as [f'|].
    + destruct IH as (b & Hb & Eb). exists b. split; [by right|done].
    + intros b f' Hb. apply elem_of_cons in Hb as [->|Hb]; [rewrite E; congruence|by apply IH].
Qed.
Lemma find_if_spec name l : match find_if l name with
  | Some f => exists ipa a, ipa ∈ l /\ a ∈ FirstUnicastAddress ipa /\ wpdk_get_if_info ipa (ua_family a) = Some (name, f)
  | None => forall ipa a f, ipa ∈ l -> a ∈ FirstUnicastAddress ipa -> wpdk_get_if_info ipa (ua_family a) <> Some (name, f)
  end.
Proof.
  induction l as [|ipa l IH]; cbn [find_if]; [intros x a f H; by apply elem_of_nil in H|].
  pose proof (find_addr_spec ipa name (FirstUnicastAddress ipa)) as H. destruct (find_addr ipa _ name) as [f|].
  { destruct H as (a & Ha & E). exists ipa, a. split_and!; [left|done|done]. }
  destruct (find_if l name) as [f|].
  - destruct IH as (x & a & Hx & Ha & E). exists x, a. split_and!; [by right|done|done].
  - intros x a f Hx Ha. apply elem_of_cons in Hx as [->|Hx]; [by apply H|by apply IH].
Qed.

Lemma entries_elem l e : e ∈ entries l -> exists ipa a f, ipa ∈ l /\ a ∈ FirstUnicastAddress ipa /\
  wpdk_get_if_info ipa (ua_family a) = Some (e.1.1, f) /\ e.1.2 = uwrap 32 f.
Proof.
  unfold entries. intros H. apply list_elem_of_In, in_concat in H as (x & Hl & Hx). apply list_elem_of_In in Hx. apply list_elem_of_In, list_elem_of_fmap in Hl as (ipa & -> & Hi).
  apply list_elem_of_omap in Hx as (a & Ha & E). unfold addr_entry in E.
  destruct (wpdk_get_if_info ipa (ua_family a)) as [[n f]|] eqn:Ei; [|done]. injection E as <-. by exists ipa, a, f.
Qed.

Section Ioctl.
Context {W : Type} `{!Winsock W, IA : !IfApi W, IL : !IfLaws W}.

(** The flags [getifaddrs] reports for an interface are those [ioctl] with SIOCGIFFLAGS
    returns for its name, on any socket; it fails only when the adapters cannot be read, and
    keeps no memory. *)
Theorem ioctl_agrees (fuel : nat) (fd : Z) (p : proc W) (l : list ifaddrs) (x : ifaddrs) :
  (2 <= fuel)%nat -> indexes_unique (net (world p)) -> wpdk_is_socket fd = true ->
  fst (wpdk_getifaddrs fuel true p) = Some (0, Some l) -> x ∈ l ->
  let p1 := snd (wpdk_getifaddrs fuel true p) in
  let '(r, p2) := wpdk_ioctl fuel fd SIOCGIFFLAGS (Some (ifa_name x)) p1 in
  blocks (world p2) = blocks (world p1) /\
  (r = Some (-1, None) \/ exists flags, r = Some (0, Some flags) /\ ifa_flags x = uwrap 32 flags).
Proof.
  intros Hf Hu Hs Hr Hx. pose proof (getifaddrs_run fuel p Hf) as H. destruct (wpdk_getifaddrs fuel true p) as [r p1]. cbn [fst snd] in *.
  destruct H as [[-> _]|(l' & -> & E & [N1 N2] & _)]; [done|]. injection Hr as ->.
  unfold wpdk_ioctl. cbn [Z.eqb SIOCGIFFLAGS SIOCSIFFLAGS Pos.eqb orb]. rewrite Hs. cbn [negb]. unfold wpdk_getifflags. rewrite bind_run.
  pose proof (get_adapters_run fuel p1 Hf) as H. destruct (wpdk_get_adapters fuel p1) as [r p2]. cbn [fst snd].
  destruct H as [_ [[-> Hb]|(b & -> & Hnew & Hb)]]; [cbn; by split; [|left]|]. rewrite N1.
  assert (entry x ∈ entries (net (world p))) as He by (rewrite <- elem_of_reverse, <- E; by apply list_elem_of_fmap_2).
  apply entries_elem in He as (ipa & a & f & Hi & Ha & Ei & Ef). cbn in Ei, Ef.
  pose proof (find_if_spec (ifa_name x) (net (world p))) as Hfind. destruct (find_if (net (world p)) (ifa_name x)) as [flags|]; [|by destruct (Hfind ipa a f)].
  destruct Hfind as (ipb & a' & Hi' & Ha' & E'). cbn [free_block]. rewrite bind_run. cbn [ret].
  destruct (free_run b p2) as [_ Hb3]; [rewrite Hb; set_solver|]. split; [rewrite Hb3, Hb; set_solver|].
  right. exists flags. split; [done|]. rewrite Ef. f_equal. by eapply (names_unique (net (world p)) ipa ipb).
Qed.
End Ioctl.

(** ** A system that satisfies the laws *)

Module IfSim.
Record w := World { w_net : list adapter; w_blocks : gset Z }.
Definition new_block (x : w) : Z := fresh (w_blocks x).
#[export] Instance sim_if : IfApi w := {|
  GetAdaptersAddresses buf len x :=
    match buf with
    | Some _ => if 1000 <=? len then ((0, len, w_net x), x) else ((111, 1000, []), x)
    | None => if len <? 1000 then ((111, 1000, []), x) else ((87, len, []), x)
    end;
  if_realloc p len x := (Some (new_block x), World (w_net x) ({[new_block x]} ∪ match p with Some q => w_blocks x ∖ {[q]} | None => w_blocks x end));
  if_calloc len x := (Some (new_block x), World (w_net x) ({[new_block x]} ∪ w_blocks x));
  if_free b x := (tt, World (w_net x) (w_blocks x ∖ {[b]})) |}.
#[export] Instance sim_laws : IfLaws w.
Proof.
  refine {| net := w_net; need := fun _ => 1000; blocks := w_blocks |}.
  - done.
  - intros buf len x. cbn. destruct buf; [destruct (Z.leb_spec 1000 len)|destruct (Z.ltb_spec len 1000)]; cbn.
    all: split; [done|split; [done|split; [done|]]].
    + left. split_and!; done || lia.
    + right. left. split_and!; done || lia.
    + right. left. split_and!; done || lia.
    + right. right. done.
  - intros p len x _. cbn. pose proof (is_fresh (w_blocks x)). split; [done|split; [done|]]. destruct p; set_solver.
  - intros len x. cbn. pose proof (is_fresh (w_blocks x)). done.
  - done.
Defined.
Definition lan : adapter := Adapter 1 6 4 4 [Unicast 2 [192; 168; 0; 9]; Unicast 17 []; Unicast 23 [254; 128]].
Definition loop : adapter := Adapter 1 24 1 1 [Unicast 2 [127; 0; 0; 1]].
Definition p0 : proc w := proc0 (World [lan; loop] ∅).
End IfSim.
Import IfSim.

Lemma unique_sim : indexes_unique (net (world p0)).
Proof.
  intros a b f g Ha Hb Hf Hg. cbn in Ha, Hb. rewrite !elem_of_cons in Ha, Hb.
  destruct Ha as [->|[->|H]], Hb as [->|[->|H']]; try (by apply elem_of_nil in H); try (by apply elem_of_nil in H').
  all: unfold index_of, in_u; destruct (f =? AF_INET6), (g =? AF_INET6); cbn; (split; [lia|done || lia]).
Qed.

Example entries_sim : entries [lan; loop] = [(lit "en4", 1, [192; 168; 0; 9]); (lit "en4", 1, [254; 128]); (lit "lo1", 5, [127; 0; 0; 1])].
Proof. vm_compute. reflexivity. Qed.

Lemma getifaddrs_lists_witness : let '(r, p') := wpdk_getifaddrs 2 true p0 in
  (r = Some (-1, None) /\ blocks (world p') = blocks (world p0)) \/
  exists l, r = Some (0, Some l) /\ map entry l = reverse (entries (net (world p0))) /\
    owns (world p0) (world p') l /\ blocks (world (snd (wpdk_freeifaddrs l p'))) = blocks (world p0).
Proof. exact (getifaddrs_lists 2 p0 (le_n 2)). Defined.

Definition ifs : list ifaddrs := default [] (fst (wpdk_getifaddrs 2 true p0) ≫= snd).
Definition if0 : ifaddrs := IfAddrs 2 (lit "lo1") 5 [127; 0; 0; 1].
Definition first_if : ifaddrs := hd if0 ifs.
Lemma ifs_run : fst (wpdk_getifaddrs 2 true p0) = Some (0, Some ifs).
Proof. vm_compute. reflexivity. Qed.
Lemma first_in : first_if ∈ ifs.
Proof. unfold first_if. assert (ifs <> []) by (vm_compute; discriminate). destruct ifs; [done|left]. Qed.

Lemma ioctl_agrees_witness :
  let p1 := snd (wpdk_getifaddrs 2 true p0) in
  let '(r, p2) := wpdk_ioctl 2 0x10000 SIOCGIFFLAGS (Some (ifa_name first_if)) p1 in
  blocks (world p2) = blocks (world p1) /\
  (r = Some (-1, None) \/ exists flags, r = Some (0, Some flags) /\ ifa_flags first_if = uwrap 32 flags).
Proof. exact (ioctl_agrees 2 0x10000 p0 ifs first_if (le_n 2) unique_sim eq_refl ifs_run first_in). Defined.
End Ifaddrs.
