(* ===== verification/Netdb.v ===== *)
(** * Netdb: src/src/netdb.c

    Name resolution starts the socket layer and forwards to Winsock; the messages
    of [gai_strerror] are copied and cached in a static table, since the function of
    Winsock returns a buffer it reuses. *)

From S2P Require Import Prelude Errno CString PathMap Proc Sockets.

Module Export Netdb.
Local Open Scope Z_scope.

(** The codes of ws2tcpip.h, and the two netdb.c defines. *)
Definition EAI_AGAIN : Z := WSATRY_AGAIN.
Definition EAI_BADFLAGS : Z := WSAEINVAL.
Definition EAI_FAIL : Z := WSANO_RECOVERY.
Definition EAI_FAMILY : Z := WSAEAFNOSUPPORT.
Definition EAI_MEMORY : Z := WSA_NOT_ENOUGH_MEMORY.
Definition EAI_NONAME : Z := WSAHOST_NOT_FOUND.
Definition EAI_SERVICE : Z := WSATYPE_NOT_FOUND.
Definition EAI_SOCKTYPE : Z := WSAESOCKTNOSUPPORT.
Definition EAI_NOSECURENAME : Z := 11032.
Definition EAI_IPSECPOLICY : Z := 11033.

(** [struct gai_error]: a message that is NULL has not been asked for. *)
Record gai_error := GaiError { ge_ecode : Z; ge_message : option cstr }.

Definition unknown : cstr := lit "Unknown GAI error".
Definition gai_errors : list gai_error := [
  GaiError ERROR_SUCCESS None; GaiError EAI_AGAIN None; GaiError EAI_BADFLAGS None;
  GaiError EAI_FAIL None; GaiError EAI_FAMILY None; GaiError EAI_MEMORY None;
  GaiError EAI_NONAME None; GaiError EAI_SERVICE None; GaiError EAI_SOCKTYPE None;
  GaiError EAI_NOSECURENAME None; GaiError EAI_IPSECPOLICY None; GaiError (-1) (Some unknown)].

Section Resolve.
Context {W A : Type} `{!Winsock W}.
Local Open Scope c_scope.
Local Abbreviation P := (C (proc W)).

(** [getaddrinfo] of Winsock: its result and the list it stores. *)
Definition wpdk_getaddrinfo (getaddrinfo : C W (Z * option A)) : P (Z * option A) :=
  let* ok := wpdk_socket_startup in
  if ok =? 0 then
    wpdk_last_wsa_error ;;
    let* e := gets errno in
    ret (if e =? ENOMEM then EAI_MEMORY else EAI_FAIL, None)
  else lift getaddrinfo.

Definition wpdk_freeaddrinfo (freeaddrinfo : A -> C W unit) (ai : A) : P unit := lift (freeaddrinfo ai).
End Resolve.

Section Messages.
(** [gai_strerror] of Winsock. *)
Context (gai_strerror : Z -> cstr).

(** The loop stops at the code or at the last entry, whose code is -1. *)
Fixpoint find_gai (ecode : Z) (t : list gai_error) : nat :=
  match t with
  | [] => 0
  | g :: t => if ge_ecode g =? -1 then 0 else if ge_ecode g =? ecode then 0 else S (find_gai ecode t)
  end.

(** A thread is between the two tests of the message; [strdup_ok] says whether the copy can be
    allocated.  The pair is the first test: a message, or the entry to fill. *)
Definition gai_lookup (ecode : Z) (t : list gai_error) : option cstr * nat :=
  let i := find_gai ecode t in (t !! i ≫= ge_message, i).

(** The part that holds the lock, and what follows. *)
Definition gai_fill (ecode : Z) (i : nat) (strdup_ok : bool) (t : list gai_error) : cstr * list gai_error :=
  let t := match t !! i with
           | Some (GaiError c None) => if strdup_ok then <[i := GaiError c (Some (gai_strerror ecode))]> t else t
           | _ => t
           end in
  (default unknown (t !! i ≫= ge_message), t).

Definition wpdk_gai_strerror (ecode : Z) (strdup_ok : bool) (t : list gai_error) : cstr * list gai_error :=
  match gai_lookup ecode t with
  | (Some m, _) => (m, t)
  | (None, i) => gai_fill ecode i strdup_ok t
  end.

(** ** Interleaved calls

    Threads take the first step without the lock and the second with it; each is atomic. *)
Inductive call :=
  | Idle
  | Filling (ecode : Z) (i : nat)
  | Returned (ecode : Z) (m : cstr) (nomem : bool).   (** [nomem]: its copy could not be allocated *)

Inductive gai_step : list gai_error * list call -> list gai_error * list call -> Prop :=
  | step_hit t cs k ecode m i : cs !! k = Some Idle -> gai_lookup ecode t = (Some m, i) ->
      gai_step (t, cs) (t, <[k := Returned ecode m false]> cs)
  | step_miss t cs k ecode i : cs !! k = Some Idle -> gai_lookup ecode t = (None, i) ->
      gai_step (t, cs) (t, <[k := Filling ecode i]> cs)
  | step_fill t cs k ecode i ok m t' : cs !! k = Some (Filling ecode i) -> gai_fill ecode i ok t = (m, t') ->
      gai_step (t, cs) (t', <[k := Returned ecode m (negb ok && bool_decide (t !! i ≫= ge_message = None))]> cs).

(** The entry of a code holds nothing, or the message of its code. *)
Definition entry_ok (g g0 : gai_error) : Prop :=
  ge_ecode g = ge_ecode g0 /\
  if ge_ecode g0 =? -1 then ge_message g = Some unknown
  else ge_message g = None \/ ge_message g = Some (gai_strerror (ge_ecode g0)).
Definition table_ok (t : list gai_error) : Prop := Forall2 entry_ok t gai_errors.

(** Success and the errors of getaddrinfo, by their numbers in ws2tcpip.h. *)
Definition gai_codes : list Z := [0; 11002; 10022; 11003; 10047; 8; 11001; 10109; 10044; 11032; 11033].
Definition known (ecode : Z) : bool := bool_decide (ecode ∈ gai_codes).
(** The message of a known code, except when it could not be copied; the fixed text for the other codes. *)
Definition answer_ok (ecode : Z) (m : cstr) (nomem : bool) : Prop :=
  m = if known ecode && negb nomem then gai_strerror ecode else unknown.
Definition call_ok (t : list gai_error) (c : call) : Prop :=
  match c with
  | Idle => True
  | Filling ecode i => i = find_gai ecode gai_errors /\ known ecode = true
  | Returned ecode m nomem => answer_ok ecode m nomem
  end.

Lemma find_gai_codes ecode t t0 : Forall2 entry_ok t t0 -> find_gai ecode t = find_gai ecode t0.
Proof. induction 1 as [|g g0 t t0 [E _] _ IH]; cbn; [done|]. by rewrite E, IH. Qed.

(** Where the loop stops. *)
Lemma find_gai_spec ecode : exists g0, gai_errors !! find_gai ecode gai_errors = Some g0 /\
  ((known ecode = true /\ ge_ecode g0 = ecode /\ ecode <> -1) \/ (known ecode = false /\ g0 = GaiError (-1) (Some unknown))).
Proof.
  unfold known. destruct (bool_decide_reflect (ecode ∈ gai_codes)) as [H|H].
  - unfold gai_codes in H. rewrite !elem_of_cons in H. destruct_or?; subst; try (by apply elem_of_nil in H); eexists; (split; [done|left; done]).
  - exists (GaiError (-1) (Some unknown)). split; [|by right].
    assert (find_gai ecode gai_errors = 11%nat) as ->; [|done].
    unfold gai_codes in H. rewrite !not_elem_of_cons in H. destruct_and?. unfold gai_errors. cbn [find_gai ge_ecode].
    repeat match goal with |- context [if ?x =? ecode then _ else _] => rewrite (proj2 (Z.eqb_neq x ecode)) by (cbv; cbv in *; congruence) end.
    done.
Qed.

Lemma lookup_entry t ecode : table_ok t -> exists g g0, t !! find_gai ecode t = Some g /\
  gai_errors !! find_gai ecode gai_errors = Some g0 /\ entry_ok g g0.
Proof.
  intros Ht. destruct (find_gai_spec ecode) as (g0 & E & _). rewrite (find_gai_codes ecode t gai_errors Ht).
  destruct (Forall2_lookup_r _ _ _ _ _ Ht E) as (g & Eg & Hg). by exists g, g0.
Qed.

Lemma lookup_ok t ecode : table_ok t -> match gai_lookup ecode t with
  | (Some m, _) => answer_ok ecode m false
  | (None, i) => i = find_gai ecode gai_errors /\ known ecode = true
  end.
Proof.
  intros Ht. destruct (lookup_entry t ecode Ht) as (g & g0 & Eg & E0 & Hc & Hm). unfold gai_lookup. rewrite Eg. cbn [mbind option_bind].
  destruct (find_gai_spec ecode) as (g1 & E1 & Hk). rewrite E0 in E1. injection E1 as <-.
  destruct Hk as [(Hk & Hce & Hne)|[Hk ->]].
  - rewrite Hce, (proj2 (Z.eqb_neq _ _) Hne) in Hm. destruct Hm as [->| ->]; [|unfold answer_ok; by rewrite Hk]. split; [by apply find_gai_codes|done].
  - cbn in Hm. rewrite Hm. unfold answer_ok. by rewrite Hk.
Qed.

Lemma fill_ok t ecode i ok m t' : table_ok t -> i = find_gai ecode gai_errors -> known ecode = true ->
  gai_fill ecode i ok t = (m, t') -> table_ok t' /\ answer_ok ecode m (negb ok && bool_decide (t !! i ≫= ge_message = None)) /\
  forall j x, t !! j ≫= ge_message = Some x -> t' !! j ≫= ge_message = Some x.
Proof.
  intros Ht -> Hk. destruct (lookup_entry t ecode Ht) as (g & g0 & Eg & E0 & Hc & Hm). rewrite (find_gai_codes _ _ _ Ht) in Eg.
  destruct (find_gai_spec ecode) as (g1 & E1 & [(_ & Hce & Hne)|[Hk' _]]); [|congruence]. rewrite E0 in E1. injection E1 as <-.
  rewrite Hce, (proj2 (Z.eqb_neq _ _) Hne) in Hm. unfold gai_fill. rewrite Eg. destruct g as [c [x|]]; cbn in Hc, Hm.
  - rewrite Eg. cbn. intros [= <- <-]. split_and!; [done| |done]. unfold answer_ok. rewrite Hk, andb_false_r. cbn.
    destruct Hm as [|[= ->]]; done.
  - destruct ok.
    + rewrite list_lookup_insert_eq by (by eapply lookup_lt_Some). cbn. intros [= <- <-]. split_and!.
      * assert (entry_ok (GaiError c (Some (gai_strerror ecode))) g0) as He
          by (split; [done|]; rewrite Hce, (proj2 (Z.eqb_neq _ _) Hne); by right).
        pose proof (Forall2_insert _ _ _ _ _ (find_gai ecode gai_errors) Ht He) as H. by rewrite (list_insert_id _ _ _ E0) in H.
      * unfold answer_ok. by rewrite Hk.
      * intros j x Hj. destruct (decide (j = find_gai ecode gai_errors)) as [->|]; [by rewrite Eg in Hj|by rewrite list_lookup_insert_ne].
    + rewrite Eg. cbn. intros [= <- <-]. split_and!; [done| |done]. unfold answer_ok. by rewrite Hk.
Qed.

(** A message once published stays. *)
Definition published (t t' : list gai_error) : Prop :=
  forall j x, t !! j ≫= ge_message = Some x -> t' !! j ≫= ge_message = Some x.

Lemma step_ok t cs t' cs' : gai_step (t, cs) (t', cs') -> table_ok t -> Forall (call_ok t) cs ->
  table_ok t' /\ Forall (call_ok t') cs' /\ published t t'.
Proof.
  intros Hst Ht Hcs. assert (forall c, call_ok t c -> call_ok t' c) as Hmono by (by intros []).
  inversion Hst as [? ? k ecode m i Hk Hl|? ? k ecode i Hk Hl|? ? k ecode i ok m ? Hk Hf]; subst.
  - pose proof (lookup_ok t' ecode Ht) as H. rewrite Hl in H. split_and!; [done|by apply Forall_insert|intros j x Hj; exact Hj].
  - pose proof (lookup_ok t' ecode Ht) as H. rewrite Hl in H. split_and!; [done|by apply Forall_insert|intros j x Hj; exact Hj].
  - destruct (Forall_lookup_1 _ _ _ _ Hcs Hk) as [-> Hkn].
    destruct (fill_ok t ecode _ ok m t' Ht eq_refl Hkn Hf) as (? & ? & ?). split_and!; [done| |done].
    apply Forall_insert; [|done]. by eapply Forall_impl.
Qed.

End Messages.

End Netdb.
