(* ===== verification/Stat.v ===== *)
(** * Stat: src/src/stat.c

    Creating files and directories, their status and mode.  The functions of the
    C runtime that [FileApi] does not have are the class [StatApi]. *)

From S2P Require Import Prelude Errno CString PathMap Proc Sockets Epolls Files.

Module Export Stat.
Local Open Scope Z_scope.

Definition S_IFMT : Z := 0xF000.
Definition S_IFREG : Z := 0x8000.
Definition S_IFDIR : Z := 0x4000.
Definition S_IFCHR : Z := 0x2000.
Definition S_IFBLK : Z := 0x3000.
Definition FILE_ATTRIBUTE_DIRECTORY : Z := 0x10.
Definition _O_EXCL : Z := 0x400.
Definition O_RDONLY : Z := 0.

Definition S_ISREG (m : Z) : bool := Z.land m S_IFMT =? S_IFREG.
Definition S_ISDIR (m : Z) : bool := Z.land m S_IFMT =? S_IFDIR.
Definition S_ISCHR (m : Z) : bool := Z.land m S_IFMT =? S_IFCHR.
Definition S_ISBLK (m : Z) : bool := Z.land m S_IFMT =? S_IFBLK.
Definition S_ISLNK (m : Z) : bool := false.
Definition S_ISSOCK (m : Z) : bool := false.

(** What the code touches of [struct _stat64]; the other members are [st_rest]. *)
Record stat64 := Stat64 { st_mode : Z; st_rest : Z }.

Class StatApi (W : Type) := {
  crt_stat64 : path_ptr -> C W (Z * stat64 * option Z);
  crt_fstat64 : Z -> C W (Z * stat64 * option Z);
  crt_mkdir : path_ptr -> C W (Z * option Z);
  (** the result and [dwFileAttributes] *)
  GetFileInformationByHandle : Z -> C W (Z * Z)
}.

Section Ops.
Context {W : Type} `{!Winsock W, !WinError W, !FileApi W, !StatApi W}.
Local Open Scope c_scope.
Local Abbreviation P := (C (proc W)).

(** The mode of the runtime for one of POSIX. *)
Definition runtime_mode (mode : Z) : Z :=
  let omode := if Z.land mode S_IR_ANY =? 0 then 0 else S_IREAD in
  if Z.land mode S_IW_ANY =? 0 then omode else Z.lor omode S_IWRITE.

Definition wpdk_mknod (pathname : option cstr) (mode dev : Z) : P Z :=
  if negb (S_ISREG mode) || negb (dev =? 0) then wpdk_posix_error ENOSYS
  else
    with_path pathname (fun path =>
      let* fd := crt (crt_open path (Z.lor (Z.lor O_CREAT _O_EXCL) O_RDONLY) (runtime_mode mode)) in
      if fd <? 0 then ret (-1) else crt (crt_close fd) ;; ret 0).

(** A call that fills a [struct _stat64]. *)
Definition crt_status (m : C W (Z * stat64 * option Z)) : P (Z * stat64) :=
  let* '(r, st, e) := lift m in
  match e with Some e => set_errno_c e ;; ret (r, st) | None => ret (r, st) end.

(** The result and the buffer, if it was filled; [has_buf] is [stbuf != NULL]. *)
Definition wpdk_stat64 (pathname : option cstr) (has_buf : bool) : P (Z * option stat64) :=
  match pathname with
  | None => let* rc := wpdk_posix_error EINVAL in ret (rc, None)
  | Some _ =>
    if negb has_buf then let* rc := wpdk_posix_error EINVAL in ret (rc, None)
    else
      let* path := map_arg pathname in
      match path with
      | None => let* rc := wpdk_posix_error EINVAL in ret (rc, None)
      | Some path =>
        let* '(rc, st) := crt_status (crt_stat64 path) in
        ret (if rc =? 0 then 0 else -1, Some st)
      end
  end.

(** [mingw] is the build with __MINGW32__, which corrects the type of directories. *)
Definition wpdk_fstat64 (mingw : bool) (fildes : Z) (has_buf : bool) : P (Z * option stat64) :=
  if negb has_buf then let* rc := wpdk_posix_error EINVAL in ret (rc, None)
  else
    let* '(rc, st) := crt_status (crt_fstat64 fildes) in
    let* st :=
      (if mingw && (rc =? 0) then
         let* h := crt (crt_get_osfhandle fildes) in
         if h =? INVALID_HANDLE_VALUE then ret st
         else
           let* '(ok, attributes) := lift (GetFileInformationByHandle h) in
           if ok =? 0 then ret st
           else if Z.land attributes FILE_ATTRIBUTE_DIRECTORY =? 0 then ret st
           else ret (Stat64 (Z.lor (Z.land (st_mode st) (Z.lnot S_IFMT)) S_IFDIR) (st_rest st))
       else ret st) in
    ret (if rc =? 0 then 0 else -1, Some st).

Definition chmod_mode (pmode : Z) : Z :=
  let mode := if Z.land pmode S_IREAD =? 0 then 0 else S_IREAD in
  if Z.land pmode S_IWRITE =? 0 then mode else Z.lor mode S_IWRITE.
Definition wpdk_chmod (filename : option cstr) (pmode : Z) : P Z :=
  with_path filename (fun path => crt (crt_chmod path (chmod_mode pmode))).

Definition wpdk_mkdir (pathname : option cstr) (mode : Z) : P Z :=
  with_path pathname (fun path => crt (crt_mkdir path)).
End Ops.

(** ** Modes *)

(** The bits of stat.h are those of POSIX, nine different ones; the types of files exclude each other; [chmod] gives a
    file the same access as [mknod] and [open] exactly when the group and others have no permission that
    the owner lacks. *)
Theorem mode_bits (m : Z) :
  (S_IRWXU, S_IRWXG, S_IRWXO) = (448, 56, 7) /\
  [S_IRUSR; S_IWUSR; S_IXUSR; S_IRGRP; S_IWGRP; S_IXGRP; S_IROTH; S_IWOTH; S_IXOTH] = map (Z.pow 2) [8; 7; 6; 5; 4; 3; 2; 1; 0] /\
  Z.b2z (S_ISDIR m) + Z.b2z (S_ISCHR m) + Z.b2z (S_ISREG m) + Z.b2z (S_ISBLK m) + Z.b2z (S_ISLNK m) + Z.b2z (S_ISSOCK m) <= 1 /\
  (chmod_mode m = runtime_mode m <->
   (Z.land m S_IREAD = 0 -> Z.land m S_IR_ANY = 0) /\ (Z.land m S_IWRITE = 0 -> Z.land m S_IW_ANY = 0)).
Proof.
  split_and!; [done|done| |].
  - unfold S_ISDIR, S_ISCHR, S_ISREG, S_ISBLK, S_ISLNK, S_ISSOCK.
    destruct (Z.eqb_spec (Z.land m S_IFMT) S_IFDIR) as [->|]; [done|]. destruct (Z.eqb_spec (Z.land m S_IFMT) S_IFCHR) as [->|]; [done|].
    destruct (Z.eqb_spec (Z.land m S_IFMT) S_IFREG) as [->|]; [done|]. by destruct (Z.land m S_IFMT =? S_IFBLK).
  - assert (forall a b : Z, Z.land m (Z.lor a b) = 0 -> Z.land m a = 0) as Hsub.
    { intros a b. rewrite Z.land_lor_distr_r. intros H%Z.lor_eq_0_iff. tauto. }
    assert (Z.land m S_IR_ANY = 0 -> Z.land m S_IREAD = 0) as HR by (unfold S_IR_ANY; rewrite <- Z.lor_assoc; apply Hsub).
    assert (Z.land m S_IW_ANY = 0 -> Z.land m S_IWRITE = 0) as HW by (unfold S_IW_ANY; rewrite <- Z.lor_assoc; apply Hsub).
    unfold chmod_mode, runtime_mode.
    destruct (Z.eqb_spec (Z.land m S_IREAD) 0), (Z.eqb_spec (Z.land m S_IWRITE) 0), (Z.eqb_spec (Z.land m S_IR_ANY) 0), (Z.eqb_spec (Z.land m S_IW_ANY) 0);
      try tauto; split; (discriminate || tauto || (intros [? ?]; tauto)).
Qed.

(** ** mknod

    Documented: [_open] with [_O_CREAT|_O_EXCL] creates a file that does not exist, with the
    mode given, and returns a new descriptor; [_close] of an open descriptor closes it. *)
Class MknodLaws (W : Type) `{!FileApi W} := {
  fds : W -> gset Z;
  modes : W -> gmap cstr Z;
  create_excl : forall s mode w, let '((fd, _), w') := crt_open (PathStr s) (Z.lor (Z.lor O_CREAT _O_EXCL) O_RDONLY) mode w in
    (fd = -1 /\ fds w' = fds w /\ modes w' = modes w) \/
    (0 <= fd /\ (fd ∉ fds w) /\ fds w' = ({[fd]} ∪ fds w) /\ modes w !! s = None /\ modes w' = <[s := mode]> (modes w));
  close_law : forall fd w, fd ∈ fds w -> let '(_, w') := crt_close fd w in fds w' = (fds w ∖ {[fd]}) /\ modes w' = modes w
}.

Section Mknod.
Context {W : Type} `{!Winsock W, WE : !WinError W, FA : !FileApi W, SA : !StatApi W, ML : !MknodLaws W}.

Lemma map_arg_world (pathname : option cstr) (p : proc W) : world (snd (map_arg pathname p)) = world p.
Proof. unfold map_arg. rewrite bind_run. cbn [fst snd get]. destruct (wpdk_get_path _ _ _ _ _) as [[r b] paths]. done. Qed.

(** [mknod] leaves the descriptors of the process as they were; it changes no file but,
    when it succeeds, the one at the translated path, which did not exist and is created with
    the read and write permissions asked for. *)
Theorem mknod_creates (pathname : option cstr) (mode dev : Z) (p : proc W) :
  fst (map_arg pathname p) <> Some PathDangling -> fst (map_arg pathname p) <> Some PathNull ->
  let '(rc, p') := wpdk_mknod pathname mode dev p in
  fds (world p') = fds (world p) /\
  ((rc = -1 /\ modes (world p') = modes (world p)) \/
   (rc = 0 /\ S_ISREG mode = true /\ exists s, fst (map_arg pathname p) = Some (PathStr s) /\
    modes (world p) !! s = None /\ modes (world p') = <[s := runtime_mode mode]> (modes (world p)))).
Proof.
  intros Hd Hn. unfold wpdk_mknod. destruct (S_ISREG mode) eqn:Hr; [|cbn; split; [done|by left]].
  destruct (dev =? 0); [|cbn; split; [done|by left]]. cbn [negb orb]. unfold with_path. rewrite bind_run.
  pose proof (map_arg_world pathname p) as Hw. destruct (map_arg pathname p) as [r p1]. cbn [fst snd] in *.
  destruct r as [[|s|]|]; [done| |done|cbn; rewrite Hw; split; [done|by left]].
  rewrite bind_run. destruct (crt_run (crt_open (PathStr s) (Z.lor (Z.lor O_CREAT _O_EXCL) O_RDONLY) (runtime_mode mode)) p1) as (E1 & E2 & _).
  pose proof (create_excl s (runtime_mode mode) (world p1)) as H.
  destruct (crt_open (PathStr s) _ (runtime_mode mode) (world p1)) as [[fd e] w1]. cbn [fst snd] in E1, E2. rewrite E1. cbn [fst].
  set (p2 := snd (crt _ p1)) in *. rewrite Hw in H. destruct H as [(-> & Hf & Hm)|(Hge & Hnew & Hf & Hs & Hm)].
  - cbn. rewrite E2. split; [done|by left].
  - destruct (Z.ltb_spec fd 0); [lia|]. rewrite bind_run. cbn [ret].
    destruct (crt_run (crt_close fd) p2) as (_ & C2 & _). set (p3 := snd (crt (crt_close fd) p2)) in *.
    pose proof (close_law fd (world p2) ltac:(rewrite E2, Hf; set_solver)) as Hc. destruct (crt_close fd (world p2)) as [rc w2]. cbn [fst snd] in C2.
    destruct Hc as [H1 H2]. rewrite C2, H1, H2, E2, Hf, Hm. split; [set_solver|right]. split_and!; [done|done|]. by exists s.
Qed.

(** A directory stays one: when the file behind a descriptor is a directory, [fstat] of the
    MinGW build reports one, and keeps the permission bits. *)
Theorem fstat_directory (fildes : Z) (p : proc W) (m rest h a : Z) (w1 w2 w3 : W) :
  crt_fstat64 fildes (world p) = ((0, Stat64 m rest, None), w1) ->
  crt_get_osfhandle fildes w1 = ((h, None), w2) -> h <> INVALID_HANDLE_VALUE ->
  GetFileInformationByHandle h w2 = ((1, a), w3) -> Z.land a FILE_ATTRIBUTE_DIRECTORY <> 0 ->
  exists st p', wpdk_fstat64 true fildes true p = ((0, Some st), p') /\ S_ISDIR (st_mode st) = true /\
    Z.land (st_mode st) (Z.lnot S_IFMT) = Z.land m (Z.lnot S_IFMT).
Proof.
  intros E1 E2 Hh E3 Ha. unfold wpdk_fstat64, crt_status, crt, lift. cbn [negb]. autounfold with wpdk_unfold. rewrite E1. cbn. rewrite E2. cbn.
  rewrite (proj2 (Z.eqb_neq _ _) Hh). cbn. rewrite E3. cbn. rewrite (proj2 (Z.eqb_neq _ _) Ha). cbn. eexists _, _. split; [done|]. cbn [st_mode]. unfold S_ISDIR.
  rewrite !Z.land_lor_distr_l, <- !Z.land_assoc. rewrite (Z.land_comm (Z.lnot S_IFMT) S_IFMT), Z.land_lnot_diag, Z.land_0_r, Z.land_diag. split; [done|].
  by rewrite Z.lor_0_r.
Qed.
End Mknod.

(** ** A system that satisfies the laws *)

Module StatSim.
Record w := World { w_fds : gset Z; w_modes : gmap cstr Z }.
(** Descriptors 3 and up. *)
Definition new_fd (x : w) : Z := 3 + Z.of_nat (scan (fun i => bool_decide (3 + Z.of_nat i ∉ w_fds x)) (S (size (w_fds x)))).
Definition ok (z : Z) : C w (Z * option Z) := ret (z, None).

#[export] Instance sim_winsock : Winsock w := {|
  w_WSAGetLastError _ := 0; w_WSASetLastError _ x := x; WSAStartup := ret 0; WSACleanup := ret 0;
  w_socket _ _ _ := ret INVALID_SOCKET; closesocket _ := ret 0; ioctlsocket_FIONBIO _ _ := ret 0;
  w_accept _ _ _ := ret INVALID_SOCKET; w_bind _ _ _ := ret 0; w_connect _ _ _ := ret 0;
  w_getpeername _ _ _ := ret 0; w_getsockname _ _ _ := ret 0; w_getsockopt _ _ _ _ _ := ret 0;
  w_setsockopt _ _ _ _ _ := ret 0; w_listen _ _ := ret 0; w_shutdown _ _ := ret 0; w_recv _ _ n _ := ret n;
  w_recvfrom _ _ n _ _ _ := ret n; w_send _ _ n _ := ret n; w_sendto _ _ n _ _ _ := ret n;
  WSARecv _ _ _ f := ret (0, 1, f); WSASend _ _ _ _ := ret (0, 1); w_select _ r x := ret (0, r, x);
  w_calloc _ _ := ret None; w_free _ := ret tt; w_env _ := env_tmp |}.
#[export] Instance sim_files : FileApi w := {|
  crt_open path _ mode x :=
    match path with
    | PathStr s =>
      if decide (w_modes x !! s = None) then
        if decide (new_fd x ∉ w_fds x) then ((new_fd x, None), World ({[new_fd x]} ∪ w_fds x) (<[s := mode]> (w_modes x)))
        else ((-1, Some EMFILE), x)
      else ((-1, Some EEXIST), x)
    | _ => ((-1, Some EINVAL), x)
    end;
  crt_close fd x := ((0, None), World (w_fds x ∖ {[fd]}) (w_modes x));
  crt_read _ _ _ := ok 0; crt_write _ _ _ := ok 0; crt_lseeki64 _ _ _ := ok 0; crt_telli64 _ := ok 0;
  crt_chsize_s _ _ := ok 0; crt_unlink _ := ok 0; crt_chmod _ _ := ok 0; crt_access _ _ := ok 0; crt_isatty _ := ok 0;
  crt_get_osfhandle fd := ok fd; FlushFileBuffers _ := ret 1; GetFileSizeEx _ := ret (1, 0);
  LockFileEx _ _ _ _ _ := ret 1; UnlockFileEx _ _ _ := ret 1 |}.
#[export] Instance sim_laws : MknodLaws w.
Proof.
  refine {| fds := w_fds; modes := w_modes |}.
  - intros s mode x. cbn [crt_open sim_files]. destruct (decide (w_modes x !! s = None)); [|by left].
    destruct (decide (new_fd x ∉ w_fds x)); [right|by left]. split_and!; [unfold new_fd; lia|done..].
  - done.
Defined.
Definition p0 : proc w := proc0 (World {[0; 1; 2]} ∅).
End StatSim.
Import StatSim.

Lemma mknod_creates_witness : let '(rc, p') := wpdk_mknod (Some (lit "/tmp/a")) 0x81a4 0 p0 in
  fds (world p') = fds (world p0) /\
  ((rc = -1 /\ modes (world p') = modes (world p0)) \/
   (rc = 0 /\ S_ISREG 0x81a4 = true /\ exists s, fst (map_arg (Some (lit "/tmp/a")) p0) = Some (PathStr s) /\
    modes (world p0) !! s = None /\ modes (world p') = <[s := runtime_mode 0x81a4]> (modes (world p0)))).
Proof. apply (mknod_creates (Some (lit "/tmp/a")) 0x81a4 0 p0); vm_compute; discriminate. Defined.

Example mknod_run : fst (wpdk_mknod (Some (lit "/tmp/a")) 0x81a4 0 p0) = 0.
Proof. vm_compute. reflexivity. Qed.
End Stat.
