(* ===== verification/Misc.v ===== *)
(** * Misc: the small parts

    Terminals (src/src/termios.c), the password database (src/src/pwd.c), regular
    expressions (src/src/regex.c), waiting for children (src/src/wait.c), the log
    (src/src/syslog.c) and byte order (src/src/inet.c).  Most are fixed answers;
    WPDK_UNIMPLEMENTED() does nothing in a normal build. *)

From S2P Require Import Prelude Errno CString PathMap Proc Sockets Epolls Files Unistd.

Module Export Misc.
Local Open Scope Z_scope.

(** ** Terminals *)

Definition TCSANOW : Z := 1.
Definition TCSADRAIN : Z := 2.
Definition TCSAFLUSH : Z := 4.
Definition NCCS : nat := 16.

Record termios := Termios { c_iflag : Z; c_oflag : Z; c_cflag : Z; c_lflag : Z; c_cc : list Z }.
Definition termios_zero : termios := Termios 0 0 0 0 (replicate NCCS 0).

Section Terminals.
Context {W : Type} `{!Winsock W, !WinError W, !FileApi W, !SysApi W}.
Local Open Scope c_scope.
Local Abbreviation P := (C (proc W)).

Definition wpdk_tcsetattr (fildes optional_actions : Z) (termios_p : option termios) : P Z :=
  match termios_p with
  | None => wpdk_posix_error EINVAL
  | Some _ =>
    let* tty := wpdk_isatty fildes in
    if tty =? 0 then ret (-1)
    else if (optional_actions =? TCSANOW) || (optional_actions =? TCSADRAIN) || (optional_actions =? TCSAFLUSH)
    then ret 0 else wpdk_posix_error EINVAL
  end.

(** The result and the structure, if it was written; [has_ptr] is [termios_p != NULL]. *)
Definition wpdk_tcgetattr (fildes : Z) (has_ptr : bool) : P (Z * option termios) :=
  if negb has_ptr then let* rc := wpdk_posix_error EINVAL in ret (rc, None)
  else
    let* tty := wpdk_isatty fildes in
    ret (if tty =? 0 then (-1, None) else (0, Some termios_zero)).
End Terminals.

(** ** The password database

    Two static records; a caller holds a pointer to one of them. *)

Record passwd := Passwd { pw_name : cstr; pw_uid : Z; pw_gid : Z; pw_dir : cstr; pw_shell : cstr }.
Inductive pw_ptr := PwRoot | PwGuest.
Record pw_state := PwState { pw_root : passwd; pw_guest : passwd }.
Definition pw_state0 : pw_state := PwState
  (Passwd (lit "root") 0 0 (lit "/root") (lit "/bin/bash"))
  (Passwd (lit "guest") 1000 1000 (lit "/home/guest") (lit "/bin/bash")).
Definition pw_read (p : pw_ptr) (s : pw_state) : passwd := match p with PwRoot => pw_root s | PwGuest => pw_guest s end.

Definition wpdk_getpwuid (uid : Z) (s : pw_state) : pw_ptr * pw_state :=
  if uid =? 0 then (PwRoot, s)
  else
    let g := pw_guest s in
    (PwGuest, PwState (pw_root s) (Passwd (pw_name g) uid (pw_gid g) (pw_dir g) (pw_shell g))).

(** ** Regular expressions, children, the log *)

Definition REG_NOMATCH : Z := 1.
Definition REG_ESPACE : Z := 2.
Definition wpdk_regcomp (pattern : cstr) (cflags : Z) : Z := REG_ESPACE.
Definition wpdk_regexec (string : cstr) (nmatch eflags : Z) : Z := REG_NOMATCH.
Definition wpdk_regfree : unit := tt.
(** The result and the buffer. *)
Definition wpdk_regerror (errcode : Z) (errbuf : option (list Z)) (errbuf_size : Z) : Z * option (list Z) :=
  (0, match errbuf with Some b => Some (if 0 <? errbuf_size then <[0%nat := 0]> b else b) | None => None end).

Section Children.
Context {S : Type} `{!HasErrno S}.
Definition wpdk_wait : C S Z := wpdk_posix_error ENOSYS.
Definition wpdk_waitpid (pid options : Z) : C S Z := wpdk_posix_error ENOSYS.
Definition wpdk_openlog (ident : cstr) (option facility : Z) : C S unit := ret tt.
Definition wpdk_syslog (priority : Z) (format : cstr) : C S unit := ret tt.
Definition wpdk_closelog : C S unit := ret tt.
End Children.

(** ** Byte order

    Winsock's functions exchange the bytes of an integer on the little-endian machines it
    runs on. *)

Fixpoint to_bytes (n : nat) (x : Z) : list Z := match n with O => [] | S n => x mod 256 :: to_bytes n (x / 256) end.
Fixpoint of_bytes (l : list Z) : Z := match l with [] => 0 | b :: l => b + 256 * of_bytes l end.
Definition swap_bytes (n : nat) (x : Z) : Z := of_bytes (rev (to_bytes n x)).

Definition wpdk_htonl (hostlong : Z) : Z := swap_bytes 4 hostlong.
Definition wpdk_htons (hostshort : Z) : Z := swap_bytes 2 hostshort.
Definition wpdk_ntohl (netlong : Z) : Z := swap_bytes 4 netlong.
Definition wpdk_ntohs (netshort : Z) : Z := swap_bytes 2 netshort.

Section Addresses.
(** [inet_pton] of Winsock for [AF_INET]: the result and the address. *)
Context (inet_pton : cstr -> Z * option Z).
Definition wpdk_inet_pton (src : cstr) : Z * option Z := inet_pton src.
Definition wpdk_inet_aton (cp : cstr) : Z * option Z := wpdk_inet_pton cp.
(** [inet_addr] and [inet_ntoa] of Winsock, and [inet_ntop], which stores the text when it fits the buffer. *)
Context (inet_addr : cstr -> Z) (inet_ntoa : Z -> cstr) (inet_ntop : Z -> list Z -> Z -> option cstr).
Definition wpdk_inet_addr (cp : cstr) : Z := inet_addr cp.
Definition wpdk_inet_ntoa (addr : Z) : cstr := inet_ntoa addr.
Definition wpdk_inet_ntop (af : Z) (src : list Z) (size : Z) : option cstr := inet_ntop af src size.
End Addresses.

(** ** Properties *)

Lemma to_bytes_length n x : length (to_bytes n x) = n.
Proof. revert x. induction n as [|n IH]; intros x; cbn; [done|]. by rewrite IH. Qed.
Lemma to_bytes_range n x : Forall (fun b => 0 <= b < 256) (to_bytes n x).
Proof. revert x. induction n as [|n IH]; intros x; cbn; constructor; [apply Z.mod_pos_bound; lia|apply IH]. Qed.
Lemma of_to_bytes n x : 0 <= x < 256 ^ Z.of_nat n -> of_bytes (to_bytes n x) = x.
Proof.
  revert x. induction n as [|n IH]; intros x Hx; [cbn in *; lia|]. cbn [to_bytes of_bytes].
  rewrite Nat2Z.inj_succ, Z.pow_succ_r in Hx by lia. rewrite IH.
  - pose proof (Z.div_mod x 256 ltac:(lia)). lia.
  - split; [apply Z.div_pos; lia|apply Z.div_lt_upper_bound; lia].
Qed.
Lemma to_of_bytes l : Forall (fun b => 0 <= b < 256) l -> to_bytes (length l) (of_bytes l) = l.
Proof.
  induction 1 as [|b l Hb _ IH]; cbn [length to_bytes of_bytes]; [done|].
  rewrite (Z.mul_comm 256), Z.mod_add, Z.div_add, Z.mod_small, Z.div_small by lia. by rewrite Z.add_0_l, IH.
Qed.
Lemma of_bytes_range l : Forall (fun b => 0 <= b < 256) l -> 0 <= of_bytes l < 256 ^ Z.of_nat (length l).
Proof.
  induction 1 as [|b l Hb _ IH]; cbn [length of_bytes]; [cbn; lia|]. rewrite Nat2Z.inj_succ, Z.pow_succ_r by lia. lia.
Qed.

Lemma swap_swap n x : 0 <= x < 256 ^ Z.of_nat n -> swap_bytes n (swap_bytes n x) = x /\ 0 <= swap_bytes n x < 256 ^ Z.of_nat n.
Proof.
  intros Hx. unfold swap_bytes. set (l := to_bytes n x). assert (length (rev l) = n) as Hl by (by unfold l; rewrite length_rev, to_bytes_length).
  assert (Forall (fun b => 0 <= b < 256) (rev l)) as Hr by (apply Forall_rev, to_bytes_range).
  split.
  - rewrite <- Hl at 1. rewrite (to_of_bytes (rev l) Hr), rev_involutive. by apply of_to_bytes.
  - rewrite <- Hl. by apply of_bytes_range.
Qed.

(** Converting to network order and back, 32 or 16 bits, gives the value, and
    converted values stay in the range of their type; the bytes of a 32-bit value are
    exchanged end for end. *)
Theorem byte_order_roundtrip (l s : Z) :
  in_u 32 l -> in_u 16 s ->
  (wpdk_ntohl (wpdk_htonl l) = l /\ in_u 32 (wpdk_htonl l)) /\ (wpdk_ntohs (wpdk_htons s) = s /\ in_u 16 (wpdk_htons s)) /\
  to_bytes 4 (wpdk_htonl l) = rev (to_bytes 4 l).
Proof.
  intros Hl Hs. split_and!; try (by apply swap_swap).
  unfold wpdk_htonl, swap_bytes. rewrite <- (to_bytes_length 4 l) at 1. rewrite <- length_rev. apply to_of_bytes, Forall_rev, to_bytes_range.
Qed.

(** The record of a user other than root is shared: a later call for another user changes what
    the pointer of an earlier one shows. *)
Theorem getpwuid_shared (u v : Z) (s : pw_state) :
  u <> 0 -> v <> 0 ->
  let '(p, s1) := wpdk_getpwuid u s in let '(q, s2) := wpdk_getpwuid v s1 in
  p = q /\ pw_uid (pw_read p s1) = u /\ pw_uid (pw_read p s2) = v /\ pw_root s2 = pw_root s.
Proof.
  intros Hu Hv. unfold wpdk_getpwuid. rewrite (proj2 (Z.eqb_neq _ _) Hu). cbn. by rewrite (proj2 (Z.eqb_neq _ _) Hv).
Qed.
End Misc.
