(* ===== verification/SignalWorker.v ===== *)
(** * SignalWorker: signals between processes (src/src/signal.c)

    [wpdk_kill] signals another process through a named event; the worker thread of
    that process creates the events, waits for them and calls the handler.  The kernel's
    events are a map from names to whether the event is set: they are shared by all
    processes.  A handler that is the default calls exit: the process is gone, and its
    events with its handles. *)

From S2P Require Import Prelude Errno CString Ifaddrs Signal.
From Stdlib Require Import Ascii.
From stdpp Require Import pretty.

Module Export SignalWorker.
Local Open Scope Z_scope.

(** [SIGNAL_EVENT] with its two numbers. *)
Definition event_name (pid sig : Z) : cstr :=
  lit "Global\WPDK_" ++ lit (pretty pid) ++ "_"%char :: lit (pretty sig).

(** The named events of the system. *)
Abbreviation events_t := (gmap cstr bool).

(** [CreateEvent(NULL, TRUE, FALSE, buf)]: opens the event when it exists; [None] when it cannot be created. *)
Definition CreateEvent (ok : bool) (name : cstr) (ev : events_t) : option cstr * events_t :=
  if ok then (Some name, match ev !! name with Some _ => ev | None => <[name := false]> ev end) else (None, ev).

(** The first loop: the handles and the signals, in step. *)
Fixpoint create_events (ok : Z -> bool) (self : Z) (sigs : list Z) (ev : events_t) : list (cstr * Z) * events_t :=
  match sigs with
  | [] => ([], ev)
  | sig :: sigs =>
    match CreateEvent (ok sig) (event_name self sig) ev with
    | (None, ev) => create_events ok self sigs ev
    | (Some h, ev) => let '(l, ev) := create_events ok self sigs ev in ((h, sig) :: l, ev)
    end
  end.

(** [WaitForMultipleObjectsEx]: the lowest index of a set event; [None] while it blocks. *)
Definition wait_events (hs : list (cstr * Z)) (ev : events_t) : option nat :=
  let i := scan (fun i => match hs !! i with Some (h, _) => default false (ev !! h) | None => false end) (length hs) in
  if (i <? length hs)%nat then Some i else None.

(** A round of the second loop; [None] when the wait blocks. *)
Definition worker_round (hs : list (cstr * Z)) (ev : events_t) (st : sig_state) : option (delivery * events_t * sig_state) :=
  match wait_events hs ev with
  | None => None
  | Some rc =>
    match hs !! rc with
    | Some (h, sig) => let '(d, st) := wpdk_signal_handler sig st in Some (d, <[h := false]> ev, st)
    | None => None
    end
  end.

(** What WaitForMultipleObjectsEx returns: an event of the list, that an APC was run, or WAIT_FAILED. *)
Inductive wait_result := Signalled (rc : nat) | Alerted | WaitFailed.
#[export] Instance wait_result_eq : EqDecision wait_result.
Proof. solve_decision. Defined.

(** How the worker is left: in its loop, behind it, or gone with its process. *)
Inductive worker_end := Running | Ended | Exited.
#[export] Instance worker_end_eq : EqDecision worker_end.
Proof. solve_decision. Defined.
Definition exits (d : delivery) : bool := match d with Terminates => true | _ => false end.

(** The second loop, on the results of the successive waits.  The deliveries come in order. *)
Fixpoint worker_loop (hs : list (cstr * Z)) (waits : list wait_result) (ev : events_t) (st : sig_state) :
    list (Z * delivery) * worker_end * events_t * sig_state :=
  match waits with
  | [] => ([], Running, ev, st)
  | WaitFailed :: _ => ([], Ended, ev, st)
  | Alerted :: waits => worker_loop hs waits ev st
  | Signalled rc :: waits =>
    match hs !! rc with
    | Some (h, sig) =>
      let '(d, st) := wpdk_signal_handler sig st in
      if exits d then ([(sig, d)], Exited, <[h := false]> ev, st)
      else let '(ds, e, ev, st) := worker_loop hs waits (<[h := false]> ev) st in ((sig, d) :: ds, e, ev, st)
    | None => worker_loop hs waits ev st
    end
  end.
(** Its handles are closed; an event without a handle is gone. *)
Definition close_handles (hs : list (cstr * Z)) (ev : events_t) : events_t := foldr (fun h e => delete (fst h) e) ev hs.
(** The whole worker.  Windows closes the handles of a process that is gone. *)
Definition wpdk_signal_worker (ok : Z -> bool) (self : Z) (waits : list wait_result) (ev : events_t) (st : sig_state) :
    list (Z * delivery) * worker_end * events_t * sig_state :=
  let '(hs, ev) := create_events ok self wpdk_siglist ev in
  let '(ds, e, ev, st) := match hs with [] => ([], Ended, ev, st) | _ => worker_loop hs waits ev st end in
  (ds, e, if decide (e = Running) then ev else close_handles hs ev, st).

(** The branch of [wpdk_kill] for another process: the result and the events; [set_ok] is the result of SetEvent. *)
Definition kill_event (pid sig : Z) (set_ok : bool) (ev : events_t) : bool * events_t :=
  let name := event_name (if 0 <? pid then pid else s32 (- pid)) sig in
  match ev !! name with
  | Some _ => if set_ok then (true, <[name := true]> ev) else (false, ev)
  | None => (false, ev)
  end.
(** The whole of [wpdk_kill]: the events are used only for another process. *)
Definition send (self pid sig : Z) (set_ok : bool) (ev : events_t) (st : sig_state) : (Z * delivery) * events_t * sig_state :=
  if (pid =? 0) || (pid =? -1) || (pid =? self) || (- pid =? self) then
    let '(r, st) := wpdk_kill self pid sig false st in (r, ev, st)
  else
    let '(sent, ev) := kill_event pid sig set_ok ev in
    let '(r, st) := wpdk_kill self pid sig sent st in (r, ev, st).

(** ** Names *)

Lemma digit_not_underscore x : pretty_N_char x <> "_"%char.
Proof. unfold pretty_N_char. by repeat case_match. Qed.
Lemma lit_cons c s : lit (String.String c s) = c :: lit s.
Proof. done. Qed.
Lemma pretty_go_no_underscore x : forall s, ("_"%char ∉ lit s) -> "_"%char ∉ lit (pretty_N_go x s).
Proof.
  induction (N.lt_wf_0 x) as [x _ IH]. intros s Hs. destruct (decide (x = 0)%N) as [->|Hx]; [by rewrite pretty_N_go_0|].
  rewrite pretty_N_go_step by lia. apply IH; [apply N.div_lt; lia|]. rewrite lit_cons. apply not_elem_of_cons. split; [|done].
  intros E. by apply (digit_not_underscore (x `mod` 10)%N).
Qed.
Lemma pretty_no_underscore (z : Z) : "_"%char ∉ lit (pretty z).
Proof.
  assert (forall x : N, "_"%char ∉ lit (pretty x)) as H.
  { intros x. unfold pretty, pretty_N. destruct (decide _); [|apply pretty_go_no_underscore]; (apply (bool_decide_unpack _); vm_compute; exact I). }
  destruct z as [|x|x]; [apply (bool_decide_unpack _); vm_compute; exact I|apply (H (N.pos x))|].
  change (lit (pretty (Z.neg x))) with ("-"%char :: lit (pretty (N.pos x))). apply not_elem_of_cons. split; [discriminate|apply H].
Qed.

Lemma split_at (c : ascii) l l' r r' : (c ∉ l) -> (c ∉ l') -> l ++ c :: r = l' ++ c :: r' -> l = l' /\ r = r'.
Proof.
  revert l'. induction l as [|x l IH]; intros [|x' l'] H H' E; cbn in E.
  - by injection E as <-.
  - injection E as <- _. destruct H'. by left.
  - injection E as -> _. destruct H. by left.
  - injection E as -> E. apply not_elem_of_cons in H as [_ H]. apply not_elem_of_cons in H' as [_ H'].
    by destruct (IH l' H H' E) as [-> ->].
Qed.

Lemma event_name_inj p s q t : event_name p s = event_name q t -> p = q /\ s = t.
Proof.
  unfold event_name. intros E. apply app_inv_head in E. apply split_at in E as [E1 E2]; [|apply pretty_no_underscore..].
  split; [apply (inj pretty); by apply lit_inj|apply (inj pretty); by apply lit_inj].
Qed.

(** ** The worker *)

(** The second loop until the wait blocks or the process exits (the flag); [None] when [fuel] rounds are not enough. *)
Fixpoint worker_run (fuel : nat) (hs : list (cstr * Z)) (ev : events_t) (st : sig_state) :
    option (list (Z * delivery) * bool * events_t * sig_state) :=
  match fuel with
  | O => None
  | S fuel =>
    match wait_events hs ev with
    | None => Some ([], false, ev, st)
    | Some rc =>
      '(d, ev, st) ← worker_round hs ev st;
      let sig := default 0 (snd <$> hs !! rc) in
      if exits d then Some ([(sig, d)], true, close_handles hs ev, st)
      else
        '(ds, gone, ev, st) ← worker_run fuel hs ev st;
        Some ((sig, d) :: ds, gone, ev, st)
    end
  end.

(** The reference: the handler called for each signal in turn, until one exits. *)
Fixpoint handle_all (sigs : list Z) (st : sig_state) : list (Z * delivery) * bool * sig_state :=
  match sigs with
  | [] => ([], false, st)
  | sig :: sigs =>
    let '(d, st) := wpdk_signal_handler sig st in
    if exits d then ([(sig, d)], true, st)
    else let '(ds, gone, st) := handle_all sigs st in ((sig, d) :: ds, gone, st)
  end.

Definition is_set (ev : events_t) (h : cstr * Z) : bool := default false (ev !! fst h).
Definition pending (hs : list (cstr * Z)) (ev : events_t) : list (cstr * Z) := List.filter (is_set ev) hs.

Lemma wait_spec hs ev : match wait_events hs ev with
  | None => pending hs ev = []
  | Some i => exists h sig, hs !! i = Some (h, sig) /\ is_set ev (h, sig) = true /\
      pending (take i hs) ev = []
  end.
Proof.
  unfold wait_events. set (P := fun i => _). pose proof (scan_le P (length hs)) as Hle.
  assert (forall n, (n <= scan P (length hs))%nat -> pending (take n hs) ev = []) as Hb.
  { intros n Hn. unfold pending. rewrite (List.filter_ext_in _ (fun _ => false)); [apply List.filter_false|]. intros x Hx. apply list_elem_of_In, list_elem_of_lookup in Hx as (j & Hj).
    apply lookup_take_Some in Hj as [Hj Hlt]. pose proof (scan_before P (length hs) j ltac:(lia)) as H. unfold P in H. rewrite Hj in H. by destruct x. }
  destruct (Nat.ltb_spec (scan P (length hs)) (length hs)) as [Hlt|Hge].
  - pose proof (scan_found P (length hs) Hlt) as H. unfold P in H at 1. destruct (hs !! scan P (length hs)) as [[h sig]|]; [|done].
    exists h, sig. split_and!; [done|done|by apply Hb].
  - specialize (Hb (length hs) Hge). by rewrite take_ge in Hb by lia.
Qed.

Lemma pending_app l k ev : pending (l ++ k) ev = pending l ev ++ pending k ev.
Proof. apply List.filter_app. Qed.
Lemma pending_reset hs ev h : (h ∉ map fst hs) -> pending hs (<[h := false]> ev) = pending hs ev.
Proof.
  intros Hn. apply List.filter_ext_in. intros x Hx. unfold is_set. rewrite lookup_insert_ne; [done|]. intros ->. apply Hn.
  apply list_elem_of_fmap. exists x. split; [done|by apply list_elem_of_In].
Qed.

Lemma delete_all_lookup (hs : list (cstr * Z)) (ev : events_t) n :
  close_handles hs ev !! n = if decide (n ∈ map fst hs) then None else ev !! n.
Proof.
  unfold close_handles. induction hs as [|x hs IH]; cbn [foldr map]; [done|]. destruct (decide (fst x = n)) as [<-|Hne].
  - rewrite lookup_delete_eq, decide_True; [done|left].
  - rewrite lookup_delete_ne by done. rewrite IH. apply decide_ext. rewrite elem_of_cons. naive_solver.
Qed.

(** The handler runs for the events that were set, in order; what is left. *)
Lemma worker_run_spec fuel : forall hs ev st, NoDup (map fst hs) -> (length (pending hs ev) < fuel)%nat ->
  let '(ds, gone, st') := handle_all (map snd (pending hs ev)) st in
  exists ev', worker_run fuel hs ev st = Some (ds, gone, ev', st') /\
    (if gone then forall n, n ∈ map fst hs -> ev' !! n = None else pending hs ev' = []) /\
    forall n, n ∉ map fst hs -> ev' !! n = ev !! n.
Proof.
  induction fuel as [|fuel IH]; intros hs ev st Hnd Hf; [lia|]. cbn [worker_run]. pose proof (wait_spec hs ev) as Hw.
  unfold worker_round. destruct (wait_events hs ev) as [i|]; [|rewrite Hw; by exists ev].
  destruct Hw as (h & sig & Hi & Hs & Hb). rewrite Hi. cbn [fmap option_fmap option_map default snd].
  assert (Hsplit := take_drop_middle hs i (h, sig) Hi).
  assert (h ∈ map fst hs) as Hh by (apply list_elem_of_fmap; exists (h, sig); split; [done|by eapply list_elem_of_lookup_2]).
  assert (pending hs ev = (h, sig) :: pending (drop (S i) hs) ev) as Ep.
  { rewrite <- Hsplit at 1. rewrite pending_app, Hb. unfold pending. cbn. by rewrite Hs. }
  assert (pending hs (<[h := false]> ev) = pending (drop (S i) hs) ev) as Er.
  { rewrite <- Hsplit in Hnd |- *. rewrite map_app in Hnd. cbn [map fst] in Hnd. apply NoDup_app in Hnd as (_ & Hd & Hnd). apply NoDup_cons in Hnd as [Hn _].
    rewrite Hsplit. rewrite <- Hsplit at 1. rewrite pending_app, pending_reset, Hb; [|intros Hin; apply (Hd h Hin); left]. unfold pending at 1. cbn.
    unfold is_set at 1. cbn. rewrite lookup_insert_eq. cbn. apply pending_reset. done. }
  rewrite Ep in Hf |- *. cbn [map snd handle_all]. destruct (wpdk_signal_handler sig st) as [d st1]. cbn [mbind option_bind].
  destruct (exits d).
  { eexists. split; [done|]. split; [intros n Hn; by rewrite delete_all_lookup, decide_True|].
    intros n Hn. rewrite delete_all_lookup, decide_False by done. rewrite lookup_insert_ne; [done|]. by intros ->. }
  specialize (IH hs (<[h := false]> ev) st1 Hnd). rewrite Er in IH. specialize (IH ltac:(cbn in Hf; lia)).
  destruct (handle_all (map snd (pending (drop (S i) hs) ev)) st1) as [[ds gone] st2]. destruct IH as (ev' & -> & H1 & H2). cbn [mbind option_bind].
  exists ev'. split_and!; [done|done|]. intros n Hn. rewrite H2 by done. rewrite lookup_insert_ne; [done|]. by intros ->.
Qed.

Definition handle_of (self sig : Z) : cstr * Z := (event_name self sig, sig).

Lemma create_events_spec ok self sigs : forall ev, NoDup sigs -> (forall sig, sig ∈ sigs -> ev !! event_name self sig = None) ->
  let '(hs, ev') := create_events ok self sigs ev in
  hs = map (handle_of self) (List.filter ok sigs) /\
  forall p t, ev' !! event_name p t = if decide (p = self /\ t ∈ sigs /\ ok t = true) then Some false else ev !! event_name p t.
Proof.
  induction sigs as [|sig sigs IH]; intros ev Hnd Hev; cbn [create_events List.filter].
  - split; [done|]. intros p t. destruct (decide _) as [(_ & H & _)|]; [by apply elem_of_nil in H|done].
  - apply NoDup_cons in Hnd as [Hn Hnd]. unfold CreateEvent. destruct (ok sig) eqn:Eo.
    + rewrite (Hev sig) by left. specialize (IH (<[event_name self sig := false]> ev) Hnd).
      destruct (create_events ok self sigs _) as [l ev'].
      destruct IH as [-> He]; [|split; [done|]].
      { intros t Ht. rewrite lookup_insert_ne; [apply Hev; by right|]. intros E. apply event_name_inj in E as [_ ->]. done. }
      intros p t. rewrite He. destruct (decide (p = self /\ t ∈ sigs /\ ok t = true)) as [(-> & Ht & Hok)|Hd].
      { rewrite decide_True; [done|]. split_and!; [done|by right|done]. }
      destruct (decide (event_name self sig = event_name p t)) as [E|E].
      * apply event_name_inj in E as [<- <-]. rewrite lookup_insert_eq, decide_True; [done|]. split_and!; [done|left|done].
      * rewrite lookup_insert_ne by done. rewrite decide_False; [done|]. intros (-> & Ht & Hok).
        apply elem_of_cons in Ht as [->|Ht]; [done|]. by apply Hd.
    + specialize (IH ev Hnd). destruct (create_events ok self sigs ev) as [l ev']. destruct IH as [-> He]; [intros t Ht; apply Hev; by right|].
      split; [done|]. intros p t. rewrite He. apply decide_ext. rewrite elem_of_cons. naive_solver congruence.
Qed.

(** The calls of [wpdk_kill] other processes made, each to a process and with a signal. *)
Definition sent (kills : list (Z * Z)) (ev : events_t) : events_t :=
  foldl (fun e k => snd (kill_event (fst k) (snd k) true e)) ev kills.

Lemma sent_spec kills p t : Forall (fun k => 0 < fst k) kills -> forall ev,
  sent kills ev !! event_name p t = if decide ((p, t) ∈ kills) then (fun _ => true) <$> ev !! event_name p t else ev !! event_name p t.
Proof.
  induction 1 as [|[q u] kills Hq _ IH]; intros ev; [done|]. cbn [sent foldl fst snd] in *. fold (sent kills (snd (kill_event q u true ev))).
  rewrite IH. unfold kill_event. rewrite (proj2 (Z.ltb_lt 0 q) Hq).
  destruct (decide ((p, t) = (q, u))) as [[= -> ->]|Hne].
  - destruct (ev !! event_name q u) as [b|] eqn:E; cbn [snd]; rewrite ?lookup_insert_eq, ?E.
    + rewrite (decide_True (P := (q, u) ∈ (q, u) :: kills)) by left. by destruct (decide _).
    + by destruct (decide _), (decide _).
  - assert (event_name p t <> event_name q u) as Hn by (intros E; apply event_name_inj in E as [-> ->]; done).
    assert (snd (match ev !! event_name q u with Some _ => (true, <[event_name q u := true]> ev) | None => (false, ev) end) !! event_name p t = ev !! event_name p t) as ->
      by (destruct (ev !! event_name q u); cbn [snd]; [by rewrite lookup_insert_ne|done]).
    apply decide_ext. rewrite elem_of_cons. naive_solver.
Qed.

(** C25: signals sent from other processes reach the handler: whatever calls of [kill] were
    made once the worker had created its events, the worker calls the handler exactly once for each of
    its signals that was sent to its process (repeated sends of one signal merge), in the order of its
    list, up to and including the first whose action is the default, which exits the process.  When none
    does, the worker waits again; when one does, every later [kill] of the process fails.  The events of
    other processes are untouched. *)
Theorem kill_delivers (ok : Z -> bool) (self : Z) (kills : list (Z * Z)) (ev : events_t) (st : sig_state) :
  0 < self -> (forall sig, ev !! event_name self sig = None) -> Forall (fun k => 0 < fst k) kills ->
  let '(hs, ev1) := create_events ok self wpdk_siglist ev in
  let sigs := List.filter (fun sig => bool_decide ((self, sig) ∈ kills)) (List.filter ok wpdk_siglist) in
  let '(ds, gone, st') := handle_all sigs st in
  exists ev3, worker_run 3 hs (sent kills ev1) st = Some (ds, gone, ev3, st') /\
    (if gone then forall sig, fst (kill_event self sig true ev3) = false else wait_events hs ev3 = None) /\
    forall p t, p <> self -> ev3 !! event_name p t = sent kills ev1 !! event_name p t.
Proof.
  intros Hpos Hev Hk. assert (NoDup wpdk_siglist) as Hnd by (apply (bool_decide_unpack _); vm_compute; exact I).
  pose proof (create_events_spec ok self wpdk_siglist ev Hnd (fun sig _ => Hev sig)) as H.
  destruct (create_events ok self wpdk_siglist ev) as [hs ev1]. destruct H as [Hhs Hev1]. cbv zeta. set (ev2 := sent kills ev1).
  assert (forall sig, sig ∈ List.filter ok wpdk_siglist -> is_set ev2 (handle_of self sig) = bool_decide ((self, sig) ∈ kills)) as Hset.
  { intros sig Hs. apply list_elem_of_In, filter_In in Hs as [Hin Ho]. apply list_elem_of_In in Hin. unfold is_set, ev2. cbn [fst handle_of].
    rewrite sent_spec, Hev1 by done. rewrite (decide_True (P := self = self /\ sig ∈ wpdk_siglist /\ ok sig = true)) by done. destruct (decide ((self, sig) ∈ kills)) as [Hin'|Hin']; [by rewrite bool_decide_eq_true_2|by rewrite bool_decide_eq_false_2]. }
  assert (pending hs ev2 = map (handle_of self) (List.filter (fun sig => bool_decide ((self, sig) ∈ kills)) (List.filter ok wpdk_siglist))) as Hp.
  { rewrite Hhs. clear -Hset. induction (List.filter ok wpdk_siglist) as [|x l IH]; [done|]. unfold pending in *. cbn [map List.filter].
    rewrite Hset by left. rewrite IH by (intros; apply Hset; by right). by destruct (bool_decide _). }
  assert (NoDup (map fst hs)) as Hnh.
  { rewrite Hhs, map_map. cbn [fst handle_of]. apply (NoDup_fmap_2_strong (fun sig => event_name self sig)); [by intros x y _ _ E; apply event_name_inj in E as [_ ->]|].
    apply NoDup_ListNoDup, List.NoDup_filter, NoDup_ListNoDup, Hnd. }
  pose proof (worker_run_spec 3 hs ev2 st Hnh) as Hw. rewrite Hp, map_map in Hw. cbn [snd handle_of] in Hw. rewrite map_id in Hw.
  assert (forall p t, event_name p t ∈ map fst hs -> p = self /\ t ∈ List.filter ok wpdk_siglist) as Hin.
  { intros p t Hin. rewrite Hhs, map_map in Hin. apply list_elem_of_fmap in Hin as (sig & E & Hx). by apply event_name_inj in E as [-> ->]. }
  destruct (handle_all _ st) as [[ds gone] st']. destruct Hw as (ev3 & E & H1 & H2).
  { rewrite length_map. pose proof (List.filter_length_le (fun sig => bool_decide ((self, sig) ∈ kills)) (List.filter ok wpdk_siglist)).
    pose proof (List.filter_length_le ok wpdk_siglist). change (length wpdk_siglist) with 2%nat in *. lia. }
  exists ev3. split_and!; [done| |intros p t Hne; apply H2; by intros [-> _]%Hin].
  destruct gone.
  - intros sig. unfold kill_event. rewrite (proj2 (Z.ltb_lt 0 self) Hpos). destruct (ev3 !! event_name self sig) as [b|] eqn:E3; [|done].
    destruct (decide (event_name self sig ∈ map fst hs)) as [Hd|Hd]; [by rewrite (H1 _ Hd) in E3|]. rewrite H2 in E3 by done.
    unfold ev2 in E3. rewrite sent_spec, Hev1, Hev in E3 by done. rewrite (decide_False (P := self = self /\ _)) in E3; [by destruct (decide _)|].
    intros (_ & Ht & Ho). apply Hd. rewrite Hhs, map_map. apply (list_elem_of_fmap_2 (fun sig => event_name self sig)), list_elem_of_In, filter_In. split; [by apply list_elem_of_In|done].
  - pose proof (wait_spec hs ev3) as Hws. destruct (wait_events hs ev3) as [i|]; [|done]. destruct Hws as (h & sig & Hi & Hs & _).
    assert ((h, sig) ∈ pending hs ev3) as Hx; [|by rewrite H1 in Hx; apply elem_of_nil in Hx].
    apply list_elem_of_In, filter_In. split; [by apply list_elem_of_In; eapply list_elem_of_lookup_2|done].
Qed.

(** ** The life of the worker *)

Definition some_exits (ds : list (Z * delivery)) : bool := existsb (fun d => exits (snd d)) ds.

Lemma worker_loop_end hs waits : forall ev st, let '(ds, e, _, _) := worker_loop hs waits ev st in
  (e = Exited <-> some_exits ds = true) /\ (e = Running <-> (WaitFailed ∉ waits) /\ some_exits ds = false).
Proof.
  induction waits as [|[rc| |] waits IH]; intros ev st; cbn [worker_loop].
  - split; [done|]. split; [intros _; split; [apply not_elem_of_nil|done]|done].
  - assert (WaitFailed ∈ Signalled rc :: waits <-> WaitFailed ∈ waits) as Hx by (rewrite elem_of_cons; naive_solver).
    destruct (hs !! rc) as [[h sig]|].
    + destruct (wpdk_signal_handler sig st) as [d st1]. destruct (exits d) eqn:Ed.
      * unfold some_exits. cbn [existsb snd]. rewrite Ed. naive_solver.
      * specialize (IH (<[h := false]> ev) st1). destruct (worker_loop hs waits _ st1) as [[[ds e] ev'] st']. unfold some_exits in *. cbn [existsb snd]. rewrite Ed, Hx. done.
    + specialize (IH ev st). destruct (worker_loop hs waits ev st) as [[[ds e] ev'] st']. by rewrite Hx.
  - assert (WaitFailed ∈ Alerted :: waits <-> WaitFailed ∈ waits) as Hx by (rewrite elem_of_cons; naive_solver).
    specialize (IH ev st). destruct (worker_loop hs waits ev st) as [[[ds e] ev'] st']. by rewrite Hx.
  - split; [done|]. split; [done|]. intros [H _]. destruct H. left.
Qed.

(** The loop only changes whether the events it has handles of are set. *)
Lemma worker_loop_events hs waits (P : cstr -> option bool -> Prop) : (forall n, n ∈ map fst hs -> P n (Some false)) ->
  forall ev st, (forall n, P n (ev !! n)) -> forall n, P n (snd (fst (worker_loop hs waits ev st)) !! n).
Proof.
  intros Hh. induction waits as [|[rc| |] waits IH]; intros ev st Hev; cbn [worker_loop]; [done| |by apply IH|done].
  destruct (hs !! rc) as [[h sig]|] eqn:E; [|by apply IH]. destruct (wpdk_signal_handler sig st) as [d st1].
  assert (forall n, P n (<[h := false]> ev !! n)) as Hev'.
  { intros n. destruct (decide (h = n)) as [<-|Hne]; [rewrite lookup_insert_eq|by rewrite lookup_insert_ne].
    apply Hh, list_elem_of_fmap. exists (h, sig). split; [done|by eapply list_elem_of_lookup_2]. }
  destruct (exits d); [done|]. specialize (IH (<[h := false]> ev) st1 Hev'). by destruct (worker_loop hs waits _ st1) as [[[ds b] ev'] st'].
Qed.


(** The worker stays in its loop unless it could create no event, a wait failed, or a signal exited the process;
    once it has left it, every [kill] of the process from outside fails, for each signal; until then the events of the
    signals it could create stay, so that they can be sent; the events of other processes are untouched. *)
Theorem worker_life (ok : Z -> bool) (self : Z) (waits : list wait_result) (ev : events_t) (st : sig_state) :
  0 < self -> (forall sig, ev !! event_name self sig = None) ->
  let '(ds, e, ev', st') := wpdk_signal_worker ok self waits ev st in
  (e = Exited <-> some_exits ds = true) /\
  (e = Running <-> List.filter ok wpdk_siglist <> [] /\ (WaitFailed ∉ waits) /\ some_exits ds = false) /\
  (forall sig, fst (kill_event self sig true ev') = bool_decide (e = Running) && bool_decide (sig ∈ wpdk_siglist) && ok sig) /\
  forall p t, p <> self -> ev' !! event_name p t = ev !! event_name p t.
Proof.
  intros Hpos Hev. assert (NoDup wpdk_siglist) as Hnd by (apply (bool_decide_unpack _); vm_compute; exact I).
  unfold wpdk_signal_worker. pose proof (create_events_spec ok self wpdk_siglist ev Hnd (fun sig _ => Hev sig)) as H.
  destruct (create_events ok self wpdk_siglist ev) as [hs ev1]. destruct H as [Hhs Hev1].
  assert (forall p t, event_name p t ∈ map fst hs <-> p = self /\ t ∈ List.filter ok wpdk_siglist) as Hin.
  { intros p t. rewrite Hhs, map_map. cbn [fst handle_of]. split; [|intros [-> ?]; by apply list_elem_of_fmap_2].
    intros (x & E & Hx)%list_elem_of_fmap. apply event_name_inj in E as [-> ->]. done. }
  set (P := fun (n : cstr) (o : option bool) => forall p t, n = event_name p t -> if decide (n ∈ map fst hs) then is_Some o else o = ev !! n).
  assert (forall n, P n (ev1 !! n)) as HP1.
  { intros n p t ->. rewrite Hev1. destruct (decide (event_name p t ∈ map fst hs)) as [Hd|Hd].
    - apply Hin in Hd as [-> Hd%list_elem_of_In]. apply filter_In in Hd as [Hd%list_elem_of_In Ho]. by rewrite decide_True.
    - rewrite decide_False; [done|]. intros (-> & Ht & Ho). apply Hd, Hin. split; [done|]. apply list_elem_of_In, filter_In. split; [by apply list_elem_of_In|done]. }
  assert (forall n, P n (snd (fst (match hs with [] => ([], Ended, ev1, st) | _ => worker_loop hs waits ev1 st end)) !! n)) as HP2.
  { destruct hs as [|x hs']; [done|]. apply worker_loop_events; [|done]. intros n Hn p t ->. rewrite decide_True by done. by eexists. }
  assert (let '(ds, e, _, _) := match hs with [] => ([], Ended, ev1, st) | _ => worker_loop hs waits ev1 st end in
    (e = Exited <-> some_exits ds = true) /\
    (e = Running <-> List.filter ok wpdk_siglist <> [] /\ (WaitFailed ∉ waits) /\ some_exits ds = false)) as Hst.
  { destruct (List.filter ok wpdk_siglist) as [|x l] eqn:El; rewrite Hhs; cbn [map]; [cbn; split; [done|naive_solver]|].
    pose proof (worker_loop_end (handle_of self x :: map (handle_of self) l) waits ev1 st) as H.
    destruct (worker_loop (handle_of self x :: map (handle_of self) l) waits ev1 st) as [[[ds e] ev'] st']. destruct H as [H1 H2]. split; [done|]. rewrite H2. naive_solver. }
  destruct (match hs with [] => _ | _ => _ end) as [[[ds e] ev2] st2]. cbn [fst snd] in HP2. destruct Hst as [Hst1 Hst2].
  split_and!; [done|done| |].
  - intros sig. unfold kill_event. rewrite (proj2 (Z.ltb_lt 0 self) Hpos). pose proof (HP2 _ self sig eq_refl) as HPs.
    assert (bool_decide (sig ∈ wpdk_siglist) && ok sig = bool_decide (event_name self sig ∈ map fst hs)) as Hb.
    { apply eq_true_iff_eq. rewrite andb_true_iff, !bool_decide_eq_true, Hin, list_elem_of_In, list_elem_of_In, filter_In. tauto. }
    rewrite <- andb_assoc, Hb. case_decide as Hd.
    + rewrite (bool_decide_eq_true_2 _ Hd), andb_true_r. destruct (decide (e = Running)) as [He|He]; [|by rewrite delete_all_lookup, decide_True, bool_decide_eq_false_2].
      rewrite bool_decide_eq_true_2 by done. destruct HPs as [b ->]. done.
    + rewrite (bool_decide_eq_false_2 _ Hd), andb_false_r. rewrite Hev in HPs.
      destruct (decide (e = Running)); [|rewrite delete_all_lookup, decide_False by done]; by rewrite HPs.
  - intros p t Hne. assert (event_name p t ∉ map fst hs) as Hn by (rewrite Hin; naive_solver). pose proof (HP2 _ p t eq_refl) as HPs.
    rewrite decide_False in HPs by done. destruct (decide (e = Running)); [|rewrite delete_all_lookup, decide_False by done]; done.
Qed.

Lemma worker_life_witness : let ev := {[event_name 8 2 := false]} in
  let '(ds, e, ev', st') := wpdk_signal_worker (fun _ => true) 7 [Alerted; Signalled 1; WaitFailed] ev (SigState 0 (replicate 23 wpdk_sig_default) (fun _ => Wpdk)) in
  (e = Exited <-> some_exits ds = true) /\ e = Exited /\
  forall p t, p <> 7 -> ev' !! event_name p t = ev !! event_name p t.
Proof.
  cbv zeta. pose proof (worker_life (fun _ => true) 7 [Alerted; Signalled 1; WaitFailed] {[event_name 8 2 := false]} (SigState 0 (replicate 23 wpdk_sig_default) (fun _ => Wpdk))) as H.
  assert (snd (fst (fst (wpdk_signal_worker (fun _ => true) 7 [Alerted; Signalled 1; WaitFailed] {[event_name 8 2 := false]}
    (SigState 0 (replicate 23 wpdk_sig_default) (fun _ => Wpdk))))) = Exited) as E by (vm_compute; reflexivity).
  destruct (wpdk_signal_worker _ _ _ _ _) as [[[ds e] ev'] st']. cbn [fst snd] in E. destruct H as (H1 & _ & _ & H4); [reflexivity| |by split_and!].
  intros sig. apply lookup_singleton_ne. intros En. by apply event_name_inj in En as [? _].
Defined.

(** Process 7 is sent SIGTERM twice and SIGINT once, process 8 SIGINT; a handler is installed
    for SIGTERM, SIGINT is ignored. *)
Definition st0 : sig_state := SigState 0
  (<[15%nat := Sigaction (User 5) 0 0]> (<[2%nat := Sigaction SIG_IGN 0 0]> (replicate 23 wpdk_sig_default))) (fun _ => Wpdk).
Lemma kill_delivers_witness :
  let '(hs, ev1) := create_events (fun _ => true) 7 wpdk_siglist {[event_name 8 2 := false]} in
  let kills := [(7, 15); (8, 2); (7, 15); (7, 2)] in
  let '(ds, gone, st') := handle_all [2; 15] st0 in
  exists ev3, worker_run 3 hs (sent kills ev1) st0 = Some (ds, gone, ev3, st') /\
    (if gone then forall sig, fst (kill_event 7 sig true ev3) = false else wait_events hs ev3 = None) /\
    forall p t, p <> 7 -> ev3 !! event_name p t = sent kills ev1 !! event_name p t.
Proof.
  apply (kill_delivers (fun _ => true) 7 [(7, 15); (8, 2); (7, 15); (7, 2)] {[event_name 8 2 := false]} st0).
  - reflexivity.
  - intros sig. apply lookup_singleton_ne. intros E. by apply event_name_inj in E as [? _].
  - repeat constructor.
Defined.
Example handled : fst (handle_all [2; 15] st0) = ([(2, Nothing); (15, Calls (User 5) 15)], false).
Proof. reflexivity. Qed.
(** With SIGINT at its default the process is gone before SIGTERM is handled. *)
Example exits_first : fst (handle_all [2; 15] (SigState 0 (<[15%nat := Sigaction (User 5) 0 0]> (replicate 23 wpdk_sig_default)) (fun _ => Wpdk))) = ([(2, Terminates)], true).
Proof. reflexivity. Qed.
End SignalWorker.
