(* ===== verification/KillTool.v ===== *)
(** * KillTool: the command wpdk_kill.exe (src/tools/kill/kill.c)

    The tool opens each process named on its command line and signals or terminates
    it.  It reaches other processes through [wpdk_kill] (SignalWorker) and through
    the process functions of Windows, the class [ProcessApi]. *)

From S2P Require Import Prelude Errno CString Stdlib_c Strings_c Signal SignalWorker.
From Stdlib Require Import Ascii.

Module Export KillTool.
Local Open Scope Z_scope.

Definition SIGKILL : Z := 9.
Definition STILL_ACTIVE : Z := 259.

(** The table of names. *)
Definition siglist : list (cstr * Z) := [(lit "SIGTERM", SIGTERM); (lit "SIGKILL", SIGKILL); (lit "SIGINT", SIGINT)].

Class ProcessApi (W : Type) := {
  OpenProcess : Z -> C W (option Z);
  TerminateProcess : Z -> Z -> C W Z;
  (** the result of the call; the exit code it stores is not read *)
  GetExitCodeProcess : Z -> C W Z;
  Sleep : Z -> C W unit;
  CloseProcess : Z -> C W unit
}.

(** Windows, the named events, and the signal state of the tool. *)
Record tool (W : Type) := Tool { t_world : W; t_events : events_t; t_signals : sig_state }.
Arguments Tool {W}. Arguments t_world {W}. Arguments t_events {W}. Arguments t_signals {W}.

Section Tool.
Context {W : Type} `{!ProcessApi W}.
(** The id of the tool's own process, and whether SetEvent succeeds. *)
Context (self : Z) (set_ok : bool).
Local Open Scope c_scope.
Local Abbreviation P := (C (tool W)).

Definition sys {A} (m : C W A) : P A := fun s => let '(a, w) := m (t_world s) in (a, Tool w (t_events s) (t_signals s)).

(** [wpdk_kill(pid, sig)]: its result, or [None] when the signal ends the tool itself. *)
Definition tool_kill (pid sig : Z) : P (option Z) := fun s =>
  let '((rc, d), ev, st) := send self pid sig set_ok (t_events s) (t_signals s) in
  (match d with Terminates => None | _ => Some rc end, Tool (t_world s) ev st).

(** [for (i = 0; i < 250; i++, Sleep(20))]: [n] rounds are left. *)
Fixpoint exit_loop (n : nat) (h : Z) : P Z :=
  match n with
  | O => ret 0
  | S n =>
    let* ok := sys (GetExitCodeProcess h) in
    if negb (ok =? STILL_ACTIVE) then ret 1 else sys (Sleep 20) ;; exit_loop n h
  end.
Definition process_exited (h : Z) : P Z := exit_loop 250 h.

(** [rc = (TerminateProcess(h, 128 + sig) != 0)] *)
Definition terminate (h sig : Z) : P Z :=
  let* ok := sys (TerminateProcess h (128 + sig)) in ret (if ok =? 0 then 0 else 1).

(** [None] when the tool ends. *)
Definition notify_process (pid sig : Z) : P (option Z) :=
  let* h := sys (OpenProcess pid) in
  match h with
  | None => ret (Some 1)
  | Some h =>
    let* rc :=
      (if sig =? SIGTERM then
         let* rc := tool_kill pid sig in
         match rc with
         | None => ret None
         | Some rc =>
           let* exited := (if negb (rc =? 0) then ret 0 else process_exited h) in
           if negb (rc =? 0) || (exited =? 0) then let* r := terminate h sig in ret (Some r) else ret (Some rc)
         end
       else if sig =? SIGKILL then let* r := terminate h sig in ret (Some r)
       else if sig =? SIGINT then tool_kill pid sig
       else if sig =? 0 then ret (Some 0)
       else ret (Some 1)) in
    match rc with None => ret None | Some rc => sys (CloseProcess h) ;; ret (Some rc) end
  end.
End Tool.

(** ** Arguments *)

Definition isdigit (c : ascii) : bool := let n := nat_of_ascii c in (48 <=? n)%nat && (n <=? 57)%nat.
Definition digit (c : ascii) : Z := Z.of_nat (nat_of_ascii c) - 48.

(** [atoi] of a text that starts with a digit: the number its leading digits denote, at most INT_MAX. *)
Fixpoint atoi_acc (acc : Z) (s : cstr) : Z :=
  match s with
  | c :: s => if isdigit c then atoi_acc (Z.min INT_MAX (acc * 10 + digit c)) s else acc
  | [] => acc
  end.
Definition atoi (s : cstr) : Z := atoi_acc 0 s.

(** The loop over the table. *)
Fixpoint find_signal (l : list (cstr * Z)) (arg : cstr) : option Z :=
  match l with
  | [] => None
  | (name, num) :: l => if (stricmp arg name =? 0) || (stricmp arg (drop 3 name) =? 0) then Some num else find_signal l arg
  end.
(** [None] is [usage()], which exits. *)
Definition arg_to_signum (arg : cstr) : option Z :=
  if isdigit (char_at arg 0) then Some (atoi arg) else find_signal siglist arg.

(** The calls [main] makes on the arguments, as the loop goes: notify a process, or stop with the usage message. *)
Inductive action := Notify (pid sig : Z) | Usage.
Fixpoint arguments (args : list cstr) (sig : Z) (expectpid : bool) : list action :=
  match args with
  | [] => []
  | a :: args =>
    if eqc (char_at a 0) "-" && negb expectpid then
      if negb (eqs a (lit "-s")) then
        match arg_to_signum (drop 1 a) with Some sig => arguments args sig expectpid | None => [Usage] end
      else
        match args with
        | b :: args => match arg_to_signum b with Some sig => arguments args sig expectpid | None => [Usage] end
        | [] => [Usage]
        end
    else if isdigit (char_at a 0) then Notify (atoi a) sig :: arguments args sig true
    else [Usage]
  end.

Section Main.
Context {W : Type} `{!ProcessApi W}.
Context (self : Z) (set_ok : bool).
Local Open Scope c_scope.

(** The exit status: [exit(rc)], [exit(1)] of [usage()], 3 when the signal ended the tool. *)
Fixpoint run_actions (l : list action) (rc : Z) : C (tool W) Z :=
  match l with
  | [] => ret rc
  | Usage :: _ => ret 1
  | Notify pid sig :: l =>
    let* r := notify_process self set_ok pid sig in
    match r with
    | None => ret 3
    | Some r => run_actions l (if r =? 0 then 0 else rc)
    end
  end.
Definition main (argv : list cstr) : C (tool W) Z :=
  match argv with
  | [] => ret 1
  | _ => run_actions (arguments argv SIGTERM false) 1
  end.
End Main.

(** ** What happens to the processes

    [alive] are the processes that run, [handle_pid] what an open handle refers to.  Documented:
    GetExitCodeProcess returns a truth value; TerminateProcess ends the process when it succeeds. *)
Class ProcessLaws (W : Type) `{!ProcessApi W} := {
  alive : W -> gset Z;
  handle_pid : W -> Z -> option Z;
  open_law : forall pid w, let '(r, w') := OpenProcess pid w in alive w' = alive w /\
    match r with Some h => handle_pid w' h = Some pid /\ pid ∈ alive w | None => True end;
  exit_law : forall h w, let '(ok, w') := GetExitCodeProcess h w in
    (ok = 0 \/ ok = 1) /\ alive w' = alive w /\ handle_pid w' = handle_pid w;
  terminate_law : forall h code w pid, handle_pid w h = Some pid -> let '(ok, w') := TerminateProcess h code w in
    alive w' = (if ok =? 0 then alive w else alive w ∖ {[pid]});
  close_law : forall h w, let '(_, w') := CloseProcess h w in alive w' = alive w
}.

Section Outcomes.
Context {W : Type} `{PA : !ProcessApi W, PL : !ProcessLaws W}.
Context (self : Z) (set_ok : bool).

Lemma sys_run {A} (m : C W A) (s : tool W) :
  sys m s = (fst (m (t_world s)), Tool (snd (m (t_world s))) (t_events s) (t_signals s)).
Proof. unfold sys. by destruct (m (t_world s)). Qed.

(** The first call of GetExitCodeProcess ends the loop: the truth value it returns is never
    STILL_ACTIVE. *)
Lemma process_exited_at_once (h : Z) (s : tool W) :
  fst (process_exited h s) = 1 /\ t_world (snd (process_exited h s)) = snd (GetExitCodeProcess h (t_world s)) /\
  t_events (snd (process_exited h s)) = t_events s.
Proof.
  unfold process_exited. cbn [exit_loop]. rewrite bind_run. unfold sys. pose proof (exit_law h (t_world s)) as H.
  destruct (GetExitCodeProcess h (t_world s)) as [ok w]. cbn [fst snd]. destruct H as [[-> | ->] _]; done.
Qed.

(** Another process than the tool's. *)
Definition other (pid : Z) : Prop := pid <> 0 /\ pid <> -1 /\ pid <> self /\ - pid <> self.

Lemma tool_kill_other pid sig (s : tool W) : other pid ->
  let '(sent, ev) := kill_event pid sig set_ok (t_events s) in
  fst (tool_kill self set_ok pid sig s) = Some (if sent then 0 else -1) /\
  t_world (snd (tool_kill self set_ok pid sig s)) = t_world s /\ t_events (snd (tool_kill self set_ok pid sig s)) = ev.
Proof.
  intros (H0 & H1 & H2 & H3). unfold tool_kill, send, wpdk_kill.
  rewrite (proj2 (Z.eqb_neq _ _) H0), (proj2 (Z.eqb_neq _ _) H1), (proj2 (Z.eqb_neq _ _) H2), (proj2 (Z.eqb_neq _ _) H3). cbn [orb].
  destruct (kill_event pid sig set_ok (t_events s)) as [[|] ev]; cbn; done.
Qed.

Lemma terminate_outcome h sig pid (s : tool W) : handle_pid (t_world s) h = Some pid ->
  let ok := fst (TerminateProcess h (128 + sig) (t_world s)) in let '(r, s') := terminate h sig s in
  r = (if ok =? 0 then 0 else 1) /\ alive (t_world s') = (if ok =? 0 then alive (t_world s) else alive (t_world s) ∖ {[pid]}) /\
  t_events s' = t_events s.
Proof.
  intros Hh. unfold terminate. rewrite bind_run. unfold sys. pose proof (terminate_law h (128 + sig) (t_world s) pid Hh) as H.
  destruct (TerminateProcess h (128 + sig) (t_world s)) as [ok w]. cbn [fst snd ret t_world t_events]. done.
Qed.

Lemma close_run h (s : tool W) : alive (t_world (snd (sys (CloseProcess h) s))) = alive (t_world s) /\
  t_events (snd (sys (CloseProcess h) s)) = t_events s.
Proof. unfold sys. pose proof (close_law h (t_world s)) as H. by destruct (CloseProcess h (t_world s)) as [u w]. Qed.

(** The outcome of the attempt to terminate: the status is 1 when it succeeded and 0 when it failed. *)
Definition forced (pid h sig : Z) (w : W) (r : option Z) (s s' : tool W) : Prop :=
  if fst (TerminateProcess h (128 + sig) w) =? 0 then r = Some 0 /\ alive (t_world s') = alive (t_world s)
  else r = Some 1 /\ alive (t_world s') = alive (t_world s) ∖ {[pid]}.

(** The signals that go through the events. *)
Definition sent_by_event (sig : Z) : bool := (sig =? SIGTERM) || (sig =? SIGINT).

Lemma forced_run (pid h sig : Z) (s0 s : tool W) : handle_pid (t_world s) h = Some pid -> alive (t_world s) = alive (t_world s0) ->
  let '(r, s1) := terminate h sig s in let s' := snd (sys (CloseProcess h) s1) in
  forced pid h sig (t_world s) (Some r) s0 s' /\ t_events s' = t_events s.
Proof.
  intros Hh Ha. pose proof (terminate_outcome h sig pid s Hh) as H. destruct (terminate h sig s) as [r s1]. cbv zeta in H |- *.
  destruct (close_run h s1) as [E1 E2]. destruct H as (-> & H & He). unfold forced. rewrite E1, E2, H, He, Ha. by destruct (_ =? 0).
Qed.

Lemma notify_run (pid sig h : Z) (w : W) (s : tool W) : other pid -> OpenProcess pid (t_world s) = (Some h, w) ->
  let '(r, s') := notify_process self set_ok pid sig s in
  let '(sent, ev) := kill_event pid sig set_ok (t_events s) in
  let unharmed := alive (t_world s') = alive (t_world s) in
  t_events s' = (if sent_by_event sig then ev else t_events s) /\
  (if sig =? SIGTERM then (if sent : bool then r = Some 0 /\ unharmed else forced pid h sig w r s s')
   else if sig =? SIGKILL then forced pid h sig w r s s'
   else unharmed /\ r = Some (if sig =? SIGINT then if sent : bool then 0 else -1 else if sig =? 0 then 0 else 1)).
Proof.
  intros Ho Eo. unfold notify_process, sent_by_event. rewrite bind_run, (sys_run (OpenProcess pid)). pose proof (open_law pid (t_world s)) as H.
  rewrite Eo in H |- *. destruct H as (Ha & Hh & _). cbn [fst snd]. set (s1 := Tool w (t_events s) (t_signals s)). rewrite bind_run.
  pose proof (tool_kill_other pid sig s1 Ho) as Hk. change (t_events s1) with (t_events s) in Hk.
  destruct (kill_event pid sig set_ok (t_events s)) as [sent ev]. destruct Hk as (K1 & K2 & K3).
  destruct (Z.eqb_spec sig SIGTERM) as [Et|Et].
  { rewrite bind_run, K1. set (s2 := snd (tool_kill self set_ok pid sig s1)) in *. destruct sent; cbn [Z.eqb negb orb].
    - rewrite bind_run. destruct (process_exited_at_once h s2) as (-> & E & Ee). cbn [Z.eqb fst snd ret]. rewrite bind_run. cbn [ret].
      destruct (close_run h (snd (process_exited h s2))) as [-> ->]. rewrite E, Ee, K3. pose proof (exit_law h (t_world s2)) as H.
      destruct (GetExitCodeProcess h (t_world s2)) as [ok w']. destruct H as (_ & H & _). cbn [snd]. by rewrite H, K2.
    - rewrite bind_run. cbn [fst snd ret]. rewrite bind_run. cbn [fst snd ret]. rewrite bind_run. cbn [ret].
      pose proof (forced_run pid h sig s s2 ltac:(by rewrite K2) ltac:(by rewrite K2)) as H. destruct (terminate h sig s2) as [r s3]. cbn [fst snd].
      rewrite K2, K3 in H. by destruct H. }
  destruct (Z.eqb_spec sig SIGKILL) as [Ek|Ek].
  { rewrite bind_run. cbn [fst snd ret]. rewrite bind_run. cbn [ret].
    pose proof (forced_run pid h sig s s1 Hh Ha) as H. destruct (terminate h sig s1) as [r s3]. cbn [fst snd]. subst sig. by destruct H. }
  destruct (Z.eqb_spec sig SIGINT) as [Ei|Ei].
  { rewrite K1. rewrite bind_run. cbn [ret]. destruct (close_run h (snd (tool_kill self set_ok pid sig s1))) as [-> ->]. by rewrite K2, K3, <- Ha. }
  destruct (sig =? 0); cbn [fst snd ret]; rewrite bind_run; cbn [ret]; destruct (close_run h s1) as [-> ->]; by rewrite <- Ha.
Qed.

(** C28: what the tool does to another process it can open.  No other process is harmed.  SIGTERM and SIGINT are
    sent through the event of the process; the other signals touch no event.  SIGKILL, and SIGTERM that
    cannot be sent, terminate the process: it is gone exactly when TerminateProcess, called once on its handle with
    128 plus the signal, succeeds.  SIGINT, 0 and the signals the tool does not know never terminate anything, and the result is
    that of the sending, 0, and 1. *)
Theorem notify_outcomes (pid sig h : Z) (w : W) (s : tool W) : other pid -> OpenProcess pid (t_world s) = (Some h, w) ->
  let '(r, s') := notify_process self set_ok pid sig s in
  let '(sent, ev) := kill_event pid sig set_ok (t_events s) in
  (forall p, p <> pid -> p ∈ alive (t_world s') <-> p ∈ alive (t_world s)) /\
  t_events s' = (if sent_by_event sig then ev else t_events s) /\
  (sig = SIGKILL \/ sig = SIGTERM /\ sent = false -> pid ∈ alive (t_world s') <-> fst (TerminateProcess h (128 + sig) w) = 0) /\
  (sig <> SIGKILL /\ sig <> SIGTERM -> alive (t_world s') = alive (t_world s) /\
    r = Some (if sig =? SIGINT then if sent : bool then 0 else -1 else if sig =? 0 then 0 else 1)).
Proof.
  intros Ho Eo. pose proof (notify_run pid sig h w s Ho Eo) as H. pose proof (open_law pid (t_world s)) as Hl. rewrite Eo in Hl. destruct Hl as (_ & _ & Hp).
  destruct (notify_process self set_ok pid sig s) as [r s'], (kill_event pid sig set_ok (t_events s)) as [sent ev]. destruct H as [He H]. unfold forced in H.
  split_and!; [|done| |].
  - intros p Hne. repeat case_match; destruct H as [Hx Hy]; (rewrite Hx || rewrite Hy); set_solver.
  - intros Hk. assert (if fst (TerminateProcess h (128 + sig) w) =? 0 then alive (t_world s') = alive (t_world s) else alive (t_world s') = alive (t_world s) ∖ {[pid]}) as Hf.
    { destruct Hk as [-> | [-> ->]]; cbn in H |- *; destruct (fst (TerminateProcess h _ w) =? 0) in H |- *; apply H. }
    destruct (Z.eqb_spec (fst (TerminateProcess h (128 + sig) w)) 0) as [E|E]; rewrite Hf; set_solver.
  - intros [H1 H2]. by rewrite (proj2 (Z.eqb_neq _ _) H1), (proj2 (Z.eqb_neq _ _) H2) in H.
Qed.

(** SIGTERM that was sent is never followed by TerminateProcess, however long the process stays alive: the tool does not
    wait, and reports success. *)
Theorem sigterm_never_escalates (pid h : Z) (w : W) (s : tool W) : other pid -> OpenProcess pid (t_world s) = (Some h, w) ->
  fst (kill_event pid SIGTERM set_ok (t_events s)) = true ->
  let '(r, s') := notify_process self set_ok pid SIGTERM s in r = Some 0 /\ alive (t_world s') = alive (t_world s).
Proof.
  intros Ho Eo Hs. pose proof (notify_run pid SIGTERM h w s Ho Eo) as H. destruct (notify_process self set_ok pid SIGTERM s) as [r s'].
  destruct (kill_event _ _ _ _) as [sent ev]. cbn [fst] in Hs. subst sent. apply H.
Qed.

(** The exit status of [wpdk_kill -KILL pid] is wrong both ways: 1 when the process was terminated, 0 when it
    could not be. *)
Theorem sigkill_exit_status (arg : cstr) (s : tool W) :
  isdigit (char_at arg 0) = true -> other (atoi arg) -> is_Some (fst (OpenProcess (atoi arg) (t_world s))) ->
  let '(status, s') := main self set_ok [lit "-KILL"; arg] s in
  (status = 1 /\ alive (t_world s') = alive (t_world s) ∖ {[atoi arg]}) \/ (status = 0 /\ alive (t_world s') = alive (t_world s)).
Proof.
  intros Hd Ho Hopen. unfold main. assert (arguments [lit "-KILL"; arg] SIGTERM false = [Notify (atoi arg) SIGKILL]) as ->.
  { cbn [arguments]. rewrite Hd. change (eqc (char_at (lit "-KILL") 0) "-" && negb false) with true. cbn iota.
    change (negb (eqs (lit "-KILL") (lit "-s"))) with true. change (arg_to_signum (drop 1 (lit "-KILL"))) with (Some SIGKILL). cbn iota.
    destruct (eqc_spec (char_at arg 0) "-") as [E|]; [|done]. by rewrite E in Hd. }
  cbn [run_actions]. rewrite bind_run. destruct (OpenProcess (atoi arg) (t_world s)) as [o w] eqn:Eo. destruct Hopen as [h Eh]. cbn [fst] in Eh. subst o.
  pose proof (notify_run (atoi arg) SIGKILL h w s Ho Eo) as H. destruct (notify_process self set_ok (atoi arg) SIGKILL s) as [r s'].
  destruct (kill_event _ _ _ _) as [sent ev]. destruct H as [_ H]. cbn [fst snd]. cbn in H. unfold forced in H.
  destruct (_ =? 0) in H; destruct H as [-> H]; cbn; [by right|by left].
Qed.
End Outcomes.

Example arguments_ex : arguments [lit "-s"; lit "kill"; lit "123"; lit "45x"] SIGTERM false = [Notify 123 9; Notify 45 9].
Proof. reflexivity. Qed.
Example arguments_late_option : arguments [lit "12"; lit "-9"] SIGTERM false = [Notify 12 15; Usage].
Proof. reflexivity. Qed.

(** ** A system that satisfies the laws: the processes that run, the handle of a process is its id *)

Module ProcessSim.
#[export] Instance sim_processes : ProcessApi (gset Z) := {|
  OpenProcess pid w := (if decide (pid ∈ w) then Some pid else None, w);
  TerminateProcess h _ w := (1, w ∖ {[h]});
  GetExitCodeProcess _ w := (1, w);
  Sleep _ w := (tt, w);
  CloseProcess _ w := (tt, w) |}.
#[export] Instance sim_process_laws : ProcessLaws (gset Z).
Proof.
  refine {| alive := fun w => w; handle_pid := fun _ h => Some h |}.
  - intros pid w. cbn. by destruct (decide _).
  - intros h w. cbn. by split; [right|].
  - intros h code w pid [= ->]. done.
  - done.
Defined.
Definition tool0 : tool (gset Z) := Tool {[40; 41]} ∅ st0.
End ProcessSim.
Import ProcessSim.

Lemma notify_outcomes_witness : let '(r, s') := notify_process 7 true 40 SIGKILL tool0 in
  (forall p, p <> 40 -> p ∈ alive (t_world s') <-> p ∈ alive (t_world tool0)) /\ (40 ∈ alive (t_world s') <-> (1 : Z) = 0).
Proof.
  pose proof (notify_outcomes 7 true 40 SIGKILL 40 {[40; 41]} tool0 ltac:(repeat split; discriminate) ltac:(vm_compute; reflexivity)) as H.
  destruct (notify_process 7 true 40 SIGKILL tool0) as [r s']. change (kill_event 40 SIGKILL true (t_events tool0)) with (false, t_events tool0) in H.
  destruct H as (H1 & _ & H2 & _). split; [done|]. apply H2. by left.
Defined.

Lemma sigkill_exit_status_witness : let '(status, s') := main 7 true [lit "-KILL"; lit "41"] tool0 in
  (status = 1 /\ alive (t_world s') = alive (t_world tool0) ∖ {[41]}) \/ (status = 0 /\ alive (t_world s') = alive (t_world tool0)).
Proof. apply (sigkill_exit_status 7 true (lit "41") tool0); [reflexivity|repeat split; discriminate|vm_compute; by eexists]. Defined.
End KillTool.
