(* ===== verification/Locks.v ===== *)
(** * Locks: threads that use the mutexes and spin locks of src/src/pthread.c

    The functions only forward to critical sections; what they promise is a property
    of all interleavings of the threads that call them.  The class [SectionLaws] states
    the documented behaviour of critical sections: one owner, who may enter again; entering
    one that another thread owns blocks, trying to enter it does not.  A run is a sequence of
    calls, each made by some thread and with its result; a call in which the system blocks
    has not returned and is not part of it. *)

From S2P Require Import Prelude Errno CString PathMap Proc Pthread.

Module Export Locks.
Local Open Scope Z_scope.

Inductive lock_call :=
  | MutexLock (m : Z) | MutexTry (m : Z) | MutexUnlock (m : Z)
  | SpinLock (l : Z) | SpinTry (l : Z) | SpinUnlock (l : Z).

(** What entering makes of the owner and the number of further entries. *)
Definition entered (t : Z) (o : option (Z * nat)) : option (Z * nat) :=
  match o with Some (_, n) => Some (t, S n) | None => Some (t, 0%nat) end.

(** Another thread than [t] is inside. *)
Definition taken (o : option (Z * nat)) (t : Z) : bool := match o with Some (t', _) => negb (t' =? t) | None => false end.

Class SectionLaws (W : Type) `{!ThreadApi W} := {
  (** the thread that runs, and switching to another *)
  current : W -> Z;
  switch : Z -> W -> W;
  owner : W -> Z -> option (Z * nat);
  (** the thread that runs is inside of a call that does not return *)
  blocked : W -> bool;
  switch_current : forall t w, current (switch t w) = t;
  switch_owner : forall t w m, owner (switch t w) m = owner w m;
  switch_blocked : forall t w, blocked (switch t w) = blocked w;
  enter_blocks : forall m w, blocked w = false ->
    blocked (snd (EnterCriticalSection m w)) = taken (owner w m) (current w);
  enter_law : forall m w, taken (owner w m) (current w) = false ->
    forall x, owner (snd (EnterCriticalSection m w)) x = if x =? m then entered (current w) (owner w m) else owner w x;
  try_enter_law : forall m w, let '(r, w') := TryEnterCriticalSection m w in
    blocked w' = blocked w /\ (r =? 0) = taken (owner w m) (current w) /\
    forall x, owner w' x = if (x =? m) && negb (r =? 0) then entered (current w) (owner w m) else owner w x;
  leave_law : forall m w n, owner w m = Some (current w, n) ->
    forall x, owner (snd (LeaveCriticalSection m w)) x =
      if x =? m then match n with O => None | S n => Some (current w, n) end else owner w x
}.

Section Runs.
Context {W : Type} `{TA : !ThreadApi W, SL : !SectionLaws W}.

Definition exec (c : lock_call) : C (proc W) Z :=
  match c with
  | MutexLock m => wpdk_pthread_mutex_lock m
  | MutexTry m => wpdk_pthread_mutex_trylock m
  | MutexUnlock m => wpdk_pthread_mutex_unlock m
  | SpinLock l => wpdk_pthread_spin_lock l
  | SpinTry l => wpdk_pthread_spin_trylock l
  | SpinUnlock l => wpdk_pthread_spin_unlock l
  end.
Definition exec_as (t : Z) (c : lock_call) (p : proc W) : Z * proc W :=
  exec c (Proc (pr_errno p) (pr_ready p) (pr_fds p) (pr_addr p) (pr_epolls p) (pr_paths p) (switch t (world p))).

(** What callers must observe: unlocking is for the thread that holds the lock. *)
Definition may_call (w : W) (t : Z) (c : lock_call) : Prop :=
  match c with
  | MutexUnlock m | SpinUnlock m => m = 0 \/ exists n, owner w m = Some (t, n)
  | _ => True
  end.

Abbreviation event := (Z * lock_call * Z)%type.
Inductive run (p : proc W) : list event -> proc W -> Prop :=
  | run_nil : run p [] p
  | run_step tr p1 t c r p2 : run p tr p1 -> may_call (world p1) t c -> exec_as t c p1 = (r, p2) ->
      blocked (world p2) = false -> run p (tr ++ [(t, c, r)]) p2.

(** What the callers know: how often a thread has locked more than unlocked. *)
Definition change (m t : Z) (e : event) : Z :=
  let '(t', c, r) := e in
  if (t' =? t) && (r =? 0) then
    match c with
    | MutexLock x | MutexTry x | SpinLock x | SpinTry x => if x =? m then 1 else 0
    | MutexUnlock x | SpinUnlock x => if x =? m then -1 else 0
    end
  else 0.
Definition held (tr : list event) (t m : Z) : Z := foldr (fun e n => change m t e + n) 0 tr.

(** The number of entries of a thread, from the owner. *)
Definition entries (o : option (Z * nat)) (t : Z) : Z :=
  match o with Some (t', n) => if t' =? t then 1 + Z.of_nat n else 0 | None => 0 end.

Lemma held_snoc tr e t m : held (tr ++ [e]) t m = held tr t m + change m t e.
Proof. unfold held. induction tr as [|x tr IH]; cbn [foldr app]; [lia|]. rewrite IH. lia. Qed.

Lemma entered_entries o t u : taken o t = false -> entries (entered t o) u = entries o u + (if t =? u then 1 else 0).
Proof.
  unfold taken, entries, entered. destruct o as [[t' n]|]; [|intros _; destruct (t =? u); done].
  intros H. bool_prop. subst t'. destruct (t =? u); lia.
Qed.

Lemma taken_entries o t : if taken o t then exists u, u <> t /\ 0 < entries o u else forall u, u <> t -> entries o u = 0.
Proof.
  unfold taken, entries. destruct o as [[o n]|]; [|done]. destruct (Z.eqb_spec o t) as [->|Hne]; cbn [negb].
  - intros u Hu. by rewrite (proj2 (Z.eqb_neq t u)) by done.
  - exists o. rewrite Z.eqb_refl. split; [done|lia].
Qed.

(** The three kinds of call, for mutexes and spin locks alike. *)
Lemma lock_blocks m (p : proc W) t : m <> 0 -> blocked (world p) = false ->
  blocked (world (snd (exec_as t (MutexLock m) p))) = taken (owner (world p) m) t.
Proof.
  intros Hm Hb. unfold exec_as, exec, wpdk_pthread_mutex_lock, on_object. rewrite (proj2 (Z.eqb_neq m 0) Hm), bind_run, lift_run. cbn [snd world ret].
  rewrite enter_blocks by (by rewrite switch_blocked). by rewrite switch_current, switch_owner.
Qed.

Lemma lock_run m (p : proc W) t : blocked (world p) = false ->
  forall r p', exec_as t (MutexLock m) p = (r, p') -> blocked (world p') = false ->
  forall x u, entries (owner (world p') x) u = entries (owner (world p) x) u + change x u (t, MutexLock m, r).
Proof.
  intros Hb r p' E Hb'. assert (m <> 0 -> taken (owner (world p) m) t = false) as Ht.
  { intros Hm. by rewrite <- (lock_blocks m p t Hm Hb), E. }
  revert E. unfold exec_as, exec, wpdk_pthread_mutex_lock, on_object. destruct (Z.eqb_spec m 0) as [->|Hm].
  { intros [= <- <-] x u. cbn. rewrite switch_owner, andb_false_r. lia. }
  specialize (Ht Hm). rewrite bind_run, lift_run. intros [= <- <-] x u. cbn [world].
  rewrite enter_law by (by rewrite switch_current, switch_owner). rewrite switch_current, !switch_owner. cbn. rewrite andb_true_r, (Z.eqb_sym m x).
  destruct (Z.eqb_spec x m) as [->|]; [rewrite entered_entries by done; by destruct (t =? u)|destruct (t =? u); lia].
Qed.

Lemma try_run m (p : proc W) t r p' : exec_as t (MutexTry m) p = (r, p') ->
  (forall x u, entries (owner (world p') x) u = entries (owner (world p) x) u + change x u (t, MutexTry m, r)) /\
  (m <> 0 -> r = if taken (owner (world p) m) t then EBUSY else 0).
Proof.
  unfold exec_as, exec, wpdk_pthread_mutex_trylock. destruct (Z.eqb_spec m 0) as [->|Hm].
  { intros [= <- <-]. split; [|done]. intros x u. cbn. rewrite switch_owner, andb_false_r. lia. }
  rewrite bind_run, lift_run. cbn [fst snd world]. pose proof (try_enter_law m (switch t (world p))) as H.
  destruct (TryEnterCriticalSection m (switch t (world p))) as [ok w']. cbn [fst snd ret]. rewrite switch_current, !switch_owner in H.
  destruct H as (_ & H1 & H2). intros [= <- <-]. rewrite <- H1. split; [|by destruct (ok =? 0)].
  intros x u. cbn [world]. rewrite H2, switch_owner. cbn. rewrite (Z.eqb_sym m x). destruct (Z.eqb_spec ok 0) as [->|Hok]; cbn.
  - rewrite !andb_false_r. lia.
  - rewrite !andb_true_r. destruct (Z.eqb_spec x m) as [->|]; [rewrite entered_entries by done; by destruct (t =? u)|destruct (t =? u); lia].
Qed.

Lemma try_unblocked m (p : proc W) t : blocked (world p) = false -> blocked (world (snd (exec_as t (MutexTry m) p))) = false.
Proof.
  intros Hb. unfold exec_as, exec, wpdk_pthread_mutex_trylock. destruct (m =? 0); [cbn; by rewrite switch_blocked|].
  rewrite bind_run, lift_run. cbn [fst snd world ret]. pose proof (try_enter_law m (switch t (world p))) as H.
  destruct (TryEnterCriticalSection m (switch t (world p))) as [ok w']. destruct H as [H _]. cbn [snd]. by rewrite H, switch_blocked.
Qed.

Lemma unlock_run m (p : proc W) t : (m = 0 \/ exists n, owner (world p) m = Some (t, n)) ->
  forall r p', exec_as t (MutexUnlock m) p = (r, p') ->
  forall x u, entries (owner (world p') x) u = entries (owner (world p) x) u + change x u (t, MutexUnlock m, r).
Proof.
  intros Ho r p'. unfold exec_as, exec, wpdk_pthread_mutex_unlock, on_object. destruct (Z.eqb_spec m 0) as [->|Hm].
  { intros [= <- <-] x u. cbn. rewrite switch_owner, andb_false_r. lia. }
  destruct Ho as [?|[n Ho]]; [done|]. rewrite bind_run, lift_run. intros [= <- <-] x u. cbn [world].
  rewrite (leave_law m (switch t (world p)) n) by (by rewrite switch_current, switch_owner). rewrite switch_current, !switch_owner. cbn.
  rewrite andb_true_r, (Z.eqb_sym m x). destruct (Z.eqb_spec x m) as [->|]; [|destruct (t =? u); lia].
  rewrite Ho. unfold entries. destruct n; destruct (Z.eqb_spec t u); lia.
Qed.

(** The spin functions are the mutex functions. *)
Definition as_mutex (c : lock_call) : lock_call :=
  match c with SpinLock l => MutexLock l | SpinTry l => MutexTry l | SpinUnlock l => MutexUnlock l | c => c end.
Lemma exec_as_mutex t c p : exec_as t c p = exec_as t (as_mutex c) p.
Proof. by destruct c. Qed.
Lemma change_as_mutex m t t' c r : change m t (t', c, r) = change m t (t', as_mutex c, r).
Proof. by destruct c. Qed.

(** The callers' accounts agree with the owners. *)
Lemma run_unblocked p tr p' : run p tr p' -> blocked (world p) = false -> blocked (world p') = false.
Proof. by destruct 1. Qed.
Lemma run_held p tr p' : run p tr p' -> blocked (world p) = false -> (forall m, owner (world p) m = None) ->
  forall m t, held tr t m = entries (owner (world p') m) t.
Proof.
  intros Hr Hb H0. induction Hr as [|tr p1 t c r p2 Hr IH Hc He Hb2]; intros m u; [by rewrite H0|]. pose proof (run_unblocked _ _ _ Hr Hb) as Hb1.
  rewrite held_snoc, IH, change_as_mutex. symmetry. rewrite exec_as_mutex in He.
  destruct c; cbn [as_mutex may_call] in *; first [by eapply lock_run|by eapply try_run|by eapply unlock_run].
Qed.

(** C15: in every interleaving of threads that lock, try and unlock mutexes and spin locks (unlocking
    only what they hold), at most one thread holds a lock at a time, however often it has locked it;
    a call that locks it waits exactly while another thread holds it; a try never waits, succeeds exactly when no other
    thread holds the lock, and returns EBUSY otherwise. *)
Theorem locks_exclude (p p' : proc W) (tr : list event) :
  blocked (world p) = false -> (forall m, owner (world p) m = None) -> run p tr p' ->
  (forall m t u, 0 < held tr t m -> 0 < held tr u m -> t = u) /\
  forall m t, 0 <= held tr t m /\ (m <> 0 ->
    (forall c, c = MutexLock m \/ c = SpinLock m ->
       blocked (world (snd (exec_as t c p'))) = true <-> exists u, u <> t /\ 0 < held tr u m) /\
    forall c, c = MutexTry m \/ c = SpinTry m ->
      blocked (world (snd (exec_as t c p'))) = false /\
      (fst (exec_as t c p') = 0 <-> forall u, u <> t -> held tr u m = 0) /\
      (fst (exec_as t c p') = EBUSY <-> exists u, u <> t /\ 0 < held tr u m)).
Proof.
  intros Hb H0 Hr. pose proof (run_held p tr p' Hr Hb H0) as Hh. apply run_unblocked in Hr; [|done]. split.
  - intros m t u. rewrite !Hh. unfold entries. destruct (owner (world p') m) as [[o n]|]; [|lia].
    destruct (Z.eqb_spec o t), (Z.eqb_spec o u); lia.
  - intros m t. split; [rewrite Hh; unfold entries; destruct (owner (world p') m) as [[o n]|]; [destruct (o =? t)|]; lia|].
    intros Hm. pose proof (taken_entries (owner (world p') m) t) as Ht. setoid_rewrite Hh. split; intros c Hc.
    + rewrite exec_as_mutex. replace (as_mutex c) with (MutexLock m) by (by destruct Hc as [-> | ->]). rewrite lock_blocks by done.
      destruct (taken (owner (world p') m) t); [done|]. split; [done|]. intros (u & Hu & He). by rewrite (Ht u Hu) in He.
    + rewrite exec_as_mutex. replace (as_mutex c) with (MutexTry m) by (by destruct Hc as [-> | ->]).
      split; [by apply try_unblocked|]. destruct (exec_as t (MutexTry m) p') as [r q] eqn:E. apply try_run in E as [_ E]. cbn [fst]. rewrite (E Hm).
      destruct (taken (owner (world p') m) t).
      * split; split; [done|intros H; destruct Ht as (u & Hu & He); by rewrite (H u Hu) in He|done|done].
      * split; split; [done|done|done|intros (u & Hu & He); by rewrite (Ht u Hu) in He].
Qed.
End Runs.

(** ** A system that satisfies the laws: the thread that runs and the owners *)

Module LockSim.
Record w := World { cur : Z; owners : gmap Z (Z * nat); waits : bool }.
Definition enter (m : Z) (x : w) : w :=
  World (cur x) (match entered (cur x) (owners x !! m) with Some o => <[m := o]> (owners x) | None => owners x end) (waits x).
#[export] Instance sim_api : ThreadApi w := {|
  EnterCriticalSection m x := (tt, if taken (owners x !! m) (cur x) then World (cur x) (owners x) true else enter m x);
  TryEnterCriticalSection m x := if taken (owners x !! m) (cur x) then (0, x) else (1, enter m x);
  LeaveCriticalSection m x := (tt, match owners x !! m with
    | Some (t, S n) => World (cur x) (<[m := (t, n)]> (owners x)) (waits x)
    | _ => World (cur x) (delete m (owners x)) (waits x) end);
  DeleteCriticalSection _ := ret tt; InitializeCriticalSectionAndSpinCount _ _ := ret 1; init_mutex _ := ret tt;
  InitializeSynchronizationBarrier _ _ _ := ret 1; DeleteSynchronizationBarrier _ := ret tt;
  EnterSynchronizationBarrier _ := ret 1; InitializeConditionVariable _ := ret tt; WakeConditionVariable _ := ret tt;
  WakeAllConditionVariable _ := ret tt; SleepConditionVariableCS _ _ _ := ret 1; OpenThread _ t := ret t;
  CloseHandle _ := ret tt; SetThreadAffinityMask _ _ := ret 0; description_api _ := false;
  SetThreadDescription _ _ := ret 0; GetThreadDescription _ := ret (0, []);
  TlsAlloc := ret 1; TlsFree _ := ret 1; TlsGetValue _ := ret 0; TlsSetValue _ _ := ret 1 |}.

Lemma enter_owner m x y : owners (enter m x) !! y = if y =? m then entered (cur x) (owners x !! m) else owners x !! y.
Proof.
  unfold enter. cbn. destruct (entered (cur x) (owners x !! m)) as [o|] eqn:E; [|by destruct (owners x !! m) as [[]|]].
  destruct (Z.eqb_spec y m) as [->|]; [by rewrite lookup_insert_eq|by rewrite lookup_insert_ne].
Qed.
#[export] Instance sim_laws : SectionLaws w.
Proof.
  refine {| current := cur; switch := fun t x => World t (owners x) (waits x); owner := fun x m => owners x !! m; blocked := waits |};
    [done|done|done| | | |].
  - intros m x Hx. cbn. by destruct (taken (owners x !! m) (cur x)).
  - intros m x Ht y. cbn. rewrite Ht. apply enter_owner.
  - intros m x. cbn. destruct (taken (owners x !! m) (cur x)); [split_and!; [done..|]; intros y; by rewrite andb_false_r|].
    split_and!; [done..|]. intros y. rewrite andb_true_r. apply enter_owner.
  - intros m x n E y. cbn. rewrite E. destruct n as [|n]; cbn; destruct (Z.eqb_spec y m) as [->|].
    + by rewrite lookup_delete_eq.
    + by rewrite lookup_delete_ne.
    + by rewrite lookup_insert_eq.
    + by rewrite lookup_insert_ne.
Defined.
Definition p0 : proc w := proc0 (World 1 ∅ false).
(** Thread 1 locks twice and unlocks once, thread 2 tries. *)
Definition q1 : proc w := snd (exec_as 1 (MutexLock 64) p0).
Definition q2 : proc w := snd (exec_as 1 (SpinLock 64) q1).
Definition q3 : proc w := snd (exec_as 1 (MutexUnlock 64) q2).
Definition p3 : proc w := snd (exec_as 2 (MutexTry 64) q3).
Definition tr3 : list (Z * lock_call * Z) := [(1, MutexLock 64, 0); (1, SpinLock 64, 0); (1, MutexUnlock 64, 0); (2, MutexTry 64, EBUSY)].
End LockSim.
Import LockSim.

Lemma locks_exclude_witness :
  (forall m t u, 0 < held tr3 t m -> 0 < held tr3 u m -> t = u) /\
  forall m t, 0 <= held tr3 t m /\ (m <> 0 ->
    (forall c, c = MutexLock m \/ c = SpinLock m ->
       blocked (world (snd (exec_as t c p3))) = true <-> exists u, u <> t /\ 0 < held tr3 u m) /\
    forall c, c = MutexTry m \/ c = SpinTry m ->
      blocked (world (snd (exec_as t c p3))) = false /\
      (fst (exec_as t c p3) = 0 <-> forall u, u <> t -> held tr3 u m = 0) /\
      (fst (exec_as t c p3) = EBUSY <-> exists u, u <> t /\ 0 < held tr3 u m)).
Proof.
  apply (locks_exclude p0 p3 tr3); [reflexivity|intros m; apply lookup_empty|].
  apply (run_step p0 [(1, MutexLock 64, 0); (1, SpinLock 64, 0); (1, MutexUnlock 64, 0)] q3 2 (MutexTry 64)); [|exact I|vm_compute; reflexivity|vm_compute; reflexivity].
  apply (run_step p0 [(1, MutexLock 64, 0); (1, SpinLock 64, 0)] q2 1 (MutexUnlock 64)); [|right; exists 1%nat; vm_compute; reflexivity|vm_compute; reflexivity|vm_compute; reflexivity].
  apply (run_step p0 [(1, MutexLock 64, 0)] q1 1 (SpinLock 64)); [|exact I|vm_compute; reflexivity|vm_compute; reflexivity].
  apply (run_step p0 [] p0 1 (MutexLock 64)); [constructor|exact I|vm_compute; reflexivity|vm_compute; reflexivity].
Defined.
End Locks.
