(* ===== verification/Once.v ===== *)
(** * Once: initialisation on first use (src/src/invalid.c, pthread.c, signal.c)

    Three parts initialise themselves with [InitOnceExecuteOnce] when they are first used,
    by any thread: the invalid-parameter handler of the C runtime (with a flag that spares
    later calls, [wpdk_set_invalid_handler] of internal.h), the functions for thread names
    and the lock and worker of the signals.  A thread runs the call step by step, one
    statement of the callback at a time, and other threads run in between; a schedule is
    the list of the threads that run.  [InitOnceExecuteOnce] is as documented: one thread
    runs the callback, others wait until it has returned. *)

From S2P Require Import Prelude CString.

Module Export Once.
Local Open Scope Z_scope.

(** [INIT_ONCE]. *)
Inductive init_once := INIT_ONCE_STATIC_INIT | Running | Complete.

(** What a thread is doing in the call; the statements of the callback it has left. *)
Inductive once_pc (S : Type) := Entry | Execute | InCallback (rest : list (S -> S)) | Returned.
Arguments Entry {S}. Arguments Execute {S}. Arguments InCallback {S}. Arguments Returned {S}.

(** A component: its static variables before, the flag it tests first and the callback. *)
Class OnceClient (S : Type) := {
  initial : S;
  skips : S -> bool;
  callback : list (S -> S);
  skips_initial : skips initial = false;
  (** the flag is only seen when the callback has nothing left to do *)
  skips_last : forall ran rest, callback = ran ++ rest -> skips (foldl (fun s f => f s) initial ran) = true -> rest = []
}.

Section Calls.
Context {S : Type} `{OC : !OnceClient S}.

Record shared_once := SharedOnce { so_once : init_once; so_state : S; so_pc : Z -> once_pc S }.
Definition set_pc (t : Z) (p : once_pc S) (f : Z -> once_pc S) : Z -> once_pc S := fun u => if u =? t then p else f u.

(** One step of thread [t]; a thread that waits stays where it is. *)
Definition once_step (t : Z) (s : shared_once) : shared_once :=
  let '(SharedOnce o st pc) := s in
  match pc t with
  | Entry => SharedOnce o st (set_pc t (if skips st then Returned else Execute) pc)
  | Execute =>
    match o with
    | INIT_ONCE_STATIC_INIT => SharedOnce Running st (set_pc t (InCallback callback) pc)
    | Running => s
    | Complete => SharedOnce o st (set_pc t Returned pc)
    end
  | InCallback (f :: rest) => SharedOnce o (f st) (set_pc t (InCallback rest) pc)
  | InCallback [] => SharedOnce Complete st (set_pc t Returned pc)
  | Returned => s
  end.
Definition once_start : shared_once := SharedOnce INIT_ONCE_STATIC_INIT initial (fun _ => Entry).
Definition once_run (sched : list Z) : shared_once := foldl (fun s t => once_step t s) once_start sched.

(** The variables when the statements [ran] have run. *)
Definition after (ran : list (S -> S)) : S := foldl (fun s f => f s) initial ran.

(** The invariant: a prefix of the callback has run; the thread in the callback, if there is
    one, has the rest left, and no other thread is inside. *)
Inductive once_inv : shared_once -> Prop :=
  | inv_before pc : (forall u, pc u = Entry \/ pc u = Execute) -> once_inv (SharedOnce INIT_ONCE_STATIC_INIT initial pc)
  | inv_during pc t ran rest : callback = ran ++ rest -> pc t = InCallback rest ->
      (forall u, u <> t -> pc u = Entry \/ pc u = Execute \/ (pc u = Returned /\ rest = [])) ->
      once_inv (SharedOnce Running (after ran) pc)
  | inv_after pc : (forall u, pc u = Entry \/ pc u = Execute \/ pc u = Returned) ->
      once_inv (SharedOnce Complete (after callback) pc).

Lemma skips_after ran rest : callback = ran ++ rest -> skips (after ran) = true -> rest = [].
Proof. apply skips_last. Qed.

Lemma set_pc_same t p f : set_pc t p f t = p.
Proof. unfold set_pc. by rewrite Z.eqb_refl. Qed.
Lemma set_pc_other t p f u : u <> t -> set_pc t p f u = f u.
Proof. intros. unfold set_pc. by rewrite (proj2 (Z.eqb_neq u t)). Qed.


(** A step of one thread keeps what holds of the others. *)
Lemma set_pc_all (P : once_pc S -> Prop) t p f : P p -> (forall u, P (f u)) -> forall u, P (set_pc t p f u).
Proof. intros Hp Hf u. unfold set_pc. by destruct (u =? t). Qed.

Lemma once_step_during t pc h ran rest : callback = ran ++ rest -> pc h = InCallback rest ->
  (forall u, u <> h -> pc u = Entry \/ pc u = Execute \/ (pc u = Returned /\ rest = [])) ->
  once_inv (once_step t (SharedOnce Running (after ran) pc)).
Proof.
  intros Hc Hh H. cbn [once_step]. destruct (decide (t = h)) as [->|Hne].
  - rewrite Hh. destruct rest as [|f rest].
    + rewrite app_nil_r in Hc. rewrite <- Hc. apply inv_after. intros u. destruct (decide (u = h)) as [->|Hu]; [rewrite set_pc_same; auto|].
      rewrite set_pc_other by done. destruct (H u Hu) as [?|[?|[? _]]]; auto.
    + assert (f (after ran) = after (ran ++ [f])) as -> by (unfold after; by rewrite foldl_app).
      apply (inv_during _ h (ran ++ [f]) rest); [by rewrite <- app_assoc|apply set_pc_same|]. intros u Hu. rewrite set_pc_other by done.
      destruct (H u Hu) as [?|[?|[_ ?]]]; auto; done.
  - assert (forall p, p = Entry \/ p = Execute \/ (p = Returned /\ rest = []) -> once_inv (SharedOnce Running (after ran) (set_pc t p pc))) as Hset.
    { intros p Hp. apply (inv_during _ h ran rest Hc); [by rewrite set_pc_other|]. intros u Hu. unfold set_pc. destruct (u =? t); auto. }
    destruct (H t Hne) as [E|[E|[E Er]]]; rewrite E.
    + apply Hset. destruct (skips (after ran)) eqn:Es; [right; right|auto]. split; [done|]. by apply (skips_after ran).
    + by apply (inv_during _ h ran rest).
    + by apply (inv_during _ h ran rest).
Qed.

Lemma once_step_inv t s : once_inv s -> once_inv (once_step t s).
Proof.
  intros [pc H|pc h ran rest Hc Hh H|pc H].
  - cbn [once_step]. destruct (H t) as [E|E]; rewrite E.
    + rewrite skips_initial. apply inv_before. apply (set_pc_all (fun p => p = Entry \/ p = Execute)); auto.
    + apply (inv_during _ t [] callback); [done|apply set_pc_same|]. intros u Hu. rewrite set_pc_other by done. destruct (H u); auto.
  - by apply (once_step_during t pc h ran rest).
  - cbn [once_step]. destruct (H t) as [E|[E|E]]; rewrite E; apply inv_after; try done; apply (set_pc_all (fun p => p = Entry \/ p = Execute \/ p = Returned)); auto.
    destruct (skips _); auto.
Qed.

Lemma once_run_inv sched : once_inv (once_run sched).
Proof.
  unfold once_run. assert (once_inv once_start) as H by (apply inv_before; by left). revert H. generalize once_start.
  induction sched as [|t sched IH]; intros s H; [done|]. cbn. by apply IH, once_step_inv.
Qed.

(** Every statement runs at most once and in order, and a thread that has returned finds all of them done. *)
Lemma once_initialised sched :
  (exists ran rest, callback = ran ++ rest /\ so_state (once_run sched) = after ran) /\
  forall t, so_pc (once_run sched) t = Returned -> so_state (once_run sched) = after callback.
Proof.
  destruct (once_run_inv sched) as [pc H|pc h ran rest Hc Hh H|pc H]; cbn [so_state so_pc].
  - split; [by exists [], callback|]. intros t E. destruct (H t); congruence.
  - split; [by exists ran, rest|]. intros t E. destruct (decide (t = h)) as [->|Hne]; [congruence|].
    destruct (H t Hne) as [?|[?|[_ ->]]]; [congruence..|]. by rewrite Hc, app_nil_r.
  - split; [exists callback, []; by rewrite app_nil_r|done].
Qed.

(** Running a thread [n] times. *)
Lemma once_run_app sched sched' : once_run (sched ++ sched') = foldl (fun s t => once_step t s) (once_run sched) sched'.
Proof. apply foldl_app. Qed.
Lemma callback_completes h pc ran rest : pc h = InCallback rest ->
  exists pc', foldl (fun s t => once_step t s) (SharedOnce Running ran pc) (replicate (length rest + 1) h) =
    SharedOnce Complete (foldl (fun s f => f s) ran rest) pc' /\ (forall u, u <> h -> pc' u = pc u) /\ pc' h = Returned.
Proof.
  revert pc ran. induction rest as [|f rest IH]; intros pc ran E; cbn [length Nat.add replicate foldl once_step]; rewrite E.
  - eexists. split_and!; [done|intros; by apply set_pc_other|apply set_pc_same].
  - destruct (IH (set_pc h (InCallback rest) pc) (f ran)) as (pc' & R & H1 & H2); [apply set_pc_same|].
    exists pc'. split_and!; [exact R| |done]. intros u Hu. rewrite H1 by done. by apply set_pc_other.
Qed.

(** A thread outside of the callback, when that is complete, returns in at most two steps. *)
Lemma returns_after t st pc : pc t = Entry \/ pc t = Execute \/ pc t = Returned ->
  so_pc (once_step t (once_step t (SharedOnce Complete st pc))) t = Returned.
Proof.
  intros [E|[E|E]]; cbn [once_step]; rewrite E; cbn [once_step].
  - rewrite set_pc_same. destruct (skips st); cbn [so_pc]; by rewrite ?set_pc_same.
  - rewrite set_pc_same. cbn [so_pc]. by rewrite set_pc_same.
  - rewrite E. exact E.
Qed.

Lemma step_entry t st pc : pc t = Entry -> skips st = false ->
  once_step t (SharedOnce INIT_ONCE_STATIC_INIT st pc) = SharedOnce INIT_ONCE_STATIC_INIT st (set_pc t Execute pc).
Proof. intros E Es. cbn [once_step]. by rewrite E, Es. Qed.
Lemma step_execute t st pc : pc t = Execute ->
  once_step t (SharedOnce INIT_ONCE_STATIC_INIT st pc) = SharedOnce Running st (set_pc t (InCallback callback) pc).
Proof. intros E. cbn [once_step]. by rewrite E. Qed.

Lemma during_returns t h pc st rest : pc h = InCallback rest -> (t <> h -> pc t = Entry \/ pc t = Execute \/ pc t = Returned) ->
  exists more, so_pc (foldl (fun s t => once_step t s) (SharedOnce Running st pc) more) t = Returned.
Proof.
  intros Hh Ht. destruct (callback_completes h pc st rest Hh) as (pc' & R & H1 & H2). destruct (decide (t = h)) as [->|Hne].
  - exists (replicate (length rest + 1) h). by rewrite R.
  - exists (replicate (length rest + 1) h ++ [t; t]). rewrite foldl_app, R. apply returns_after. rewrite H1 by done. auto.
Qed.

(** No call waits for ever: from every state the threads can be scheduled so that it returns. *)
Lemma once_returns sched t : exists more, so_pc (once_run (sched ++ more)) t = Returned.
Proof.
  setoid_rewrite once_run_app. destruct (once_run_inv sched) as [pc H|pc h ran rest Hc Hh H|pc H].
  - destruct (H t) as [E|E].
    + destruct (during_returns t t (set_pc t (InCallback callback) (set_pc t Execute pc)) initial callback (set_pc_same _ _ _)) as [more R]; [done|].
      exists (t :: t :: more). cbn [foldl]. rewrite step_entry, step_execute by (done || apply skips_initial || apply set_pc_same). exact R.
    + destruct (during_returns t t (set_pc t (InCallback callback) pc) initial callback (set_pc_same _ _ _)) as [more R]; [done|].
      exists (t :: more). cbn [foldl]. rewrite step_execute by done. exact R.
  - apply (during_returns t h pc _ rest Hh). intros Hne. destruct (H t Hne) as [?|[?|[? _]]]; auto.
  - exists [t; t]. apply returns_after, H.
Qed.
End Calls.
Arguments shared_once : clear implicits.

(** ** The invalid-parameter handler: invalid.c and [wpdk_set_invalid_handler] of internal.h *)

(** The handler of the C runtime: its default, which ends the program, or the one of invalid.c, which returns. *)
Inductive invalid_handler := CrtDefault | wpdk_invalid_parameter_handler.
Record invalid_vars := InvalidVars { crt_handler : invalid_handler; assert_report : Z; _wpdk_invalid_handler_done : Z }.

(** The statements of the callback, in order. *)
Definition wpdk_invalid_callback : list (invalid_vars -> invalid_vars) := [
  fun s => InvalidVars wpdk_invalid_parameter_handler (assert_report s) (_wpdk_invalid_handler_done s);
  fun s => InvalidVars (crt_handler s) 0 (_wpdk_invalid_handler_done s);
  fun s => InvalidVars (crt_handler s) (assert_report s) 1].
Definition wpdk_set_invalid_handler_skips (s : invalid_vars) : bool := negb (_wpdk_invalid_handler_done s =? 0).

(** Prefixes of a concrete callback. *)
Ltac prefix_cases :=
  repeat match goal with
  | H : _ = ?ran ++ _ |- _ => is_var ran; destruct ran as [|? ran]; cbn [app] in H; simplify_eq H; intros; subst; try done
  end.

(** [mode0]: the report mode of the C runtime before. *)
#[export] Instance invalid_once (mode0 : Z) : OnceClient invalid_vars.
Proof.
  refine {| initial := InvalidVars CrtDefault mode0 0; skips := wpdk_set_invalid_handler_skips; callback := wpdk_invalid_callback |}.
  - done.
  - unfold wpdk_invalid_callback. intros ran rest H. prefix_cases.
Defined.
(** Threads that call [wpdk_set_invalid_handler], as [sched] interleaves them. *)
Definition _wpdk_set_invalid_handler (mode0 : Z) (sched : list Z) : shared_once invalid_vars := @once_run _ (invalid_once mode0) sched.

(** ** The functions for thread names: [wpdk_pthread_initialise] of pthread.c *)

(** The module handle of Kernel32.dll as what GetProcAddress finds in it. *)
Abbreviation module := (cstr -> option Z).
Record name_vars := NameVars { pt_h : option module; pSetThreadDescription : option Z; pGetThreadDescription : option Z; pt_warned : bool }.

(** [lib] is the result of LoadLibrary; the local variable [h] is part of the state. *)
Definition wpdk_pthread_initialise_once (lib : option module) : list (name_vars -> name_vars) := [
  fun s => NameVars lib (pSetThreadDescription s) (pGetThreadDescription s) (pt_warned s);
  fun s => match pt_h s with
    | Some f => NameVars (pt_h s) (f (lit "SetThreadDescription")) (pGetThreadDescription s) (pt_warned s)
    | None => s
    end;
  fun s => match pt_h s with
    | Some f => NameVars (pt_h s) (pSetThreadDescription s) (f (lit "GetThreadDescription")) (pt_warned s)
    | None => s
    end;
  fun s => match pSetThreadDescription s, pGetThreadDescription s with
    | Some _, Some _ => s
    | _, _ => NameVars (pt_h s) (pSetThreadDescription s) (pGetThreadDescription s) true
    end].
#[export] Instance pthread_once (lib : option module) : OnceClient name_vars.
Proof.
  by refine {| initial := NameVars None None None false; skips := fun _ => false; callback := wpdk_pthread_initialise_once lib |}.
Defined.
Definition wpdk_pthread_initialise (lib : option module) (sched : list Z) : shared_once name_vars := @once_run _ (pthread_once lib) sched.

(** ** The lock and the worker of the signals: [wpdk_signal_init] of signal.c *)

(** How often the critical section was initialised and the worker started. *)
Record signal_vars := SignalVars { lock_inits : nat; workers : nat; sv_warned : bool }.
(** [ok]: whether the thread can be started. *)
Definition wpdk_signal_init (ok : bool) : list (signal_vars -> signal_vars) := [
  fun s => SignalVars (S (lock_inits s)) (workers s) (sv_warned s);
  fun s => if ok then SignalVars (lock_inits s) (S (workers s)) (sv_warned s) else SignalVars (lock_inits s) (workers s) true].
#[export] Instance signal_once (ok : bool) : OnceClient signal_vars.
Proof.
  by refine {| initial := SignalVars 0 0 false; skips := fun _ => false; callback := wpdk_signal_init ok |}.
Defined.
(** Threads in the call of InitOnceExecuteOnce that [wpdk_sigaction] makes. *)
Definition sigaction_once (ok : bool) (sched : list Z) : shared_once signal_vars := @once_run _ (signal_once ok) sched.

Lemma signal_init_bound ok sched :
  (lock_inits (so_state (sigaction_once ok sched)) <= 1 /\ workers (so_state (sigaction_once ok sched)) <= 1)%nat.
Proof.
  unfold sigaction_once. destruct (proj1 (@once_initialised _ (signal_once ok) sched)) as (ran & rest & Hc & ->).
  cbn [callback signal_once] in Hc. unfold wpdk_signal_init in Hc. unfold after. destruct ok; prefix_cases; cbn; lia.
Qed.

(** C16: in every interleaving of threads, a thread for which the call has returned, also one that only saw
    the flag, finds the invalid-parameter handler installed and assertion reports off, the functions for names as
    the library has them, the lock of the signals initialised and the worker started if it can be; the lock
    is initialised and the worker started at most once; and every call can return. *)
Theorem initialised_before_return (mode0 : Z) (lib : option module) (ok : bool) (sched : list Z) (t : Z) :
  (so_pc (_wpdk_set_invalid_handler mode0 sched) t = Returned ->
   so_state (_wpdk_set_invalid_handler mode0 sched) = InvalidVars wpdk_invalid_parameter_handler 0 1) /\
  (so_pc (wpdk_pthread_initialise lib sched) t = Returned ->
   pSetThreadDescription (so_state (wpdk_pthread_initialise lib sched)) = (lib ≫= fun f => f (lit "SetThreadDescription")) /\
   pGetThreadDescription (so_state (wpdk_pthread_initialise lib sched)) = (lib ≫= fun f => f (lit "GetThreadDescription"))) /\
  (so_pc (sigaction_once ok sched) t = Returned ->
   lock_inits (so_state (sigaction_once ok sched)) = 1%nat /\ workers (so_state (sigaction_once ok sched)) = if ok then 1%nat else 0%nat) /\
  (lock_inits (so_state (sigaction_once ok sched)) <= 1 /\ workers (so_state (sigaction_once ok sched)) <= 1)%nat /\
  (exists more, so_pc (_wpdk_set_invalid_handler mode0 (sched ++ more)) t = Returned) /\
  (exists more, so_pc (wpdk_pthread_initialise lib (sched ++ more)) t = Returned) /\
  (exists more, so_pc (sigaction_once ok (sched ++ more)) t = Returned).
Proof.
  split_and!; try apply once_returns.
  - intros E. exact (proj2 (@once_initialised _ (invalid_once mode0) sched) t E).
  - intros E. unfold wpdk_pthread_initialise in *. rewrite (proj2 (@once_initialised _ (pthread_once lib) sched) t E).
    destruct lib as [f|]; [|done]. unfold after. cbn. by destruct (f _), (f _).
  - intros E. unfold sigaction_once in *. rewrite (proj2 (@once_initialised _ (signal_once ok) sched) t E). by destruct ok.
  - apply signal_init_bound.
  - apply signal_init_bound.
Qed.

(** Two threads: 1 enters, 2 enters and runs the callback, 1 waits and returns, 3 sees the flag. *)
Lemma initialised_before_return_witness :
  so_pc (_wpdk_set_invalid_handler 4 [1; 2; 2; 1; 2; 2; 2; 2; 1; 3]) 3 = Returned /\
  so_state (_wpdk_set_invalid_handler 4 [1; 2; 2; 1; 2; 2; 2; 2; 1; 3]) = InvalidVars wpdk_invalid_parameter_handler 0 1.
Proof.
  split; [reflexivity|].
  apply (proj1 (initialised_before_return 4 None true [1; 2; 2; 1; 2; 2; 2; 2; 1; 3] 3)). reflexivity.
Defined.
End Once.
