(* ===== verification/RaceProgress.v ===== *)
(** * RaceProgress: the calls that interleave come to an end

    The step systems of the other files as instances of the classes of Progress: epoll
    instances and the start of the socket layer never wait; the first use of a component and
    the path map wait for the thread that initialises; submissions to an asynchronous
    context repeat their exchange only when another thread has made progress. *)

From S2P Require Import Prelude Errno CString PathMap Proc Sockets Epolls Once PathRace AioRace Progress SocketRace StartupRace EpollRace.

(** ** Epoll instances *)
Module Export EpollProgress.

(** The accesses a call has left, at most: two for every slot. *)
Definition epc_left (pc : epc) : nat :=
  match pc with
  | TestTable => 2 * maxepolls + 7
  | AllocTable => 2 * maxepolls + 6
  | PubTable _ => 2 * maxepolls + 5
  | DropTable _ => 2 * maxepolls + 4
  | AllocEp => 2 * maxepolls + 3
  | Scan _ i => 2 * (maxepolls - i) + 2
  | Claim _ i => 2 * (maxepolls - i) + 1
  | LoadEp _ => 2
  | StoreEp _ _ => 1
  | TestSlot _ => 3
  | Exchange _ => 2
  | DropEp _ | FreeEp _ => 1
  | Created _ | Closed | Fails _ => 0
  end.
Definition call_left (s : er_state) (k : nat) : nat := match er_calls s !! k with Some pc => epc_left pc | None => 0 end.

Lemma call_step_left ok s pc : (forall n i, pc = Claim n i -> i < maxepolls) ->
  epc_left pc = 0 /\ call_step ok s pc = (s, pc) \/ epc_left (snd (call_step ok s pc)) < epc_left pc.
Proof.
  intros Hc. destruct pc as [| |n|n| |n i|n i|n|i|i ep|i|i|i|n| |e]; cbn [call_step]; repeat case_match; cbn [epc_left snd]; try (by left); right; try lia; specialize (Hc n i eq_refl); lia.
Qed.

Lemma call_left_step s k k' ok : call_left (er_step s (k', ok)) k =
  if decide (k' = k) then match er_calls s !! k with Some pc => epc_left (snd (call_step ok s pc)) | None => 0 end else call_left s k.
Proof.
  unfold call_left, er_step. cbn [fst snd]. destruct (decide (k' = k)) as [->|Hne].
  - destruct (er_calls s !! k) as [pc|] eqn:E; [|by rewrite E]. destruct (call_step ok s pc) as [s' pc']. cbn [er_set_calls er_calls snd].
    by rewrite list_lookup_insert_eq by (by eapply lookup_lt_Some).
  - destruct (er_calls s !! k') as [pc|]; [|done]. destruct (call_step ok s pc) as [s' pc']. cbn [er_set_calls er_calls]. by rewrite list_lookup_insert_ne.
Qed.

#[export] Instance epoll_wait_free : WaitFree er_state nat bool.
Proof.
  refine {| wf_step := fun s k ok => er_step s (k, ok); wf_inv := er_inv; steps_left := call_left |}.
  - intros s k ok I. by apply er_step_inv.
  - intros s k ok I Hl. rewrite call_left_step, decide_True by done. unfold call_left in *. destruct (er_calls s !! k) as [pc|] eqn:E; [|done].
    destruct (call_step_left ok s pc) as [[H _]|H]; [intros n i ->; by apply (ei_claim _ I k n)|done|done].
  - intros s k ok I Hl. rewrite call_left_step, decide_True by done. unfold call_left in *. destruct (er_calls s !! k) as [pc|] eqn:E; [|done].
    destruct (call_step_left ok s pc) as [[H ->]|H]; [intros n i ->; by apply (ei_claim _ I k n)|done|lia].
  - intros s k u ok I Hne. by rewrite call_left_step, decide_False.
Defined.
End EpollProgress.

(** ** The start of the socket layer *)
Module Export StartupProgress.

Definition start_pc_left (pc : start_pc) : nat :=
  match pc with
  | TestReady => 8 | Allocate => 7 | StartWinsock _ => 6 | FillTable _ => 5 | Publish _ => 4 | FreeTable _ => 3
  | SetReady => 2 | CleanUp => 1 | Started _ => 0
  end.
Definition start_left (s : start_state) (k : nat) : nat := match StartupRace.threads s !! k with Some pc => start_pc_left pc | None => 0 end.

Lemma thread_step_left ok s pc :
  start_pc_left pc = 0 /\ thread_step ok s pc = (s, pc) \/ start_pc_left (snd (thread_step ok s pc)) < start_pc_left pc.
Proof. destruct s, pc; cbn [thread_step]; repeat case_match; cbn; auto; right; lia. Qed.

Lemma start_left_step s k k' ok : start_left (start_step s (k', ok)) k =
  if decide (k' = k) then match StartupRace.threads s !! k with Some pc => start_pc_left (snd (thread_step ok s pc)) | None => 0 end else start_left s k.
Proof.
  unfold start_left, start_step. cbn [fst snd]. destruct (decide (k' = k)) as [->|Hne].
  - destruct (StartupRace.threads s !! k) as [pc|] eqn:E; [|by rewrite E]. destruct (thread_step ok s pc) as [s' pc']. cbn [set_threads StartupRace.threads snd].
    by rewrite list_lookup_insert_eq by (by eapply lookup_lt_Some).
  - destruct (StartupRace.threads s !! k') as [pc|]; [|done]. destruct (thread_step ok s pc) as [s' pc']. cbn [set_threads StartupRace.threads]. by rewrite list_lookup_insert_ne.
Qed.

#[export] Instance startup_wait_free : WaitFree start_state nat bool.
Proof.
  refine {| wf_step := fun s k ok => start_step s (k, ok); wf_inv := fun _ => True; steps_left := start_left |}; [done|..];
    intros s k; [intros ok _ Hl|intros ok _ Hl|intros u ok _ Hne; by rewrite start_left_step, decide_False];
    rewrite start_left_step, decide_True by done; unfold start_left in *; destruct (StartupRace.threads s !! k) as [pc|]; try done;
    destruct (thread_step_left ok s pc) as [[H E]|H]; rewrite ?E; cbn [snd]; lia.
Defined.
End StartupProgress.

(** ** The socket table *)
Module Export SocketProgress.

Definition pc_left (c : SocketRace.pc) : nat :=
  match c with
  | Idle => 0
  | Setting _ _ => 2 * maxsockets + 3
  | Scanning _ _ i => 2 * (maxsockets - i) + 2
  | Swapping _ _ i => 2 * (maxsockets - i) + 1
  | StoreDomain _ _ | Closing _ _ => 2
  | StoreFlags _ _ | Dropping _ => 1
  end.
Definition in_table (st : shared) : Prop :=
  forall t s a i, (SocketRace.threads st t = Scanning s a i -> i <= maxsockets) /\ (SocketRace.threads st t = Swapping s a i -> i < maxsockets).

Lemma step_in_table t a b : in_table a -> step t a b -> in_table b.
Proof.
  intros H Hs u s' a' i'. pose proof (H t) as Ht. specialize (H u s' a' i'). destruct Hs; cbn [SocketRace.threads] in *; unfold upd;
    destruct (decide (t = u)) as [<-|]; try done; (split; intros E; simplify_eq); try lia.
  pose proof (proj2 (Ht s' a' i) ltac:(done)). lia.
Qed.
Lemma reachable_in_table st : reachable st -> in_table st.
Proof. induction 1 as [|t a b _ IH Hs]; [done|by eapply step_in_table]. Qed.

Lemma step_left t a b : in_table a -> step t a b -> SocketRace.threads a t <> Idle ->
  pc_left (SocketRace.threads b t) < pc_left (SocketRace.threads a t).
Proof.
  intros H Hs. pose proof (H t) as Ht. destruct Hs; cbn [SocketRace.threads] in *; rewrite upd_eq, H0; intros ?; try done; cbn [pc_left]; try lia.
  all: pose proof (proj2 (Ht s a i) H0); lia.
Qed.
Lemma step_other t u a b : step u a b -> u <> t -> SocketRace.threads b t = SocketRace.threads a t.
Proof. intros Hs Hne. destruct Hs; cbn [SocketRace.threads]; by apply upd_ne. Qed.

(** A thread inside of a call can always take a step. *)
Lemma never_waits st t : in_table st -> SocketRace.threads st t <> Idle -> exists b, step t st b.
Proof.
  intros H Hb. pose proof (H t) as Ht. destruct st as [sl dm fl op rf th]. cbn [SocketRace.threads] in *.
  destruct (th t) as [|s a|s a i|s a i|i a|i a|s i|s] eqn:E; [done|..].
  - eexists. by eapply step_set.
  - destruct (Ht s a i) as [Hi _]. specialize (Hi eq_refl). destruct (decide (i = maxsockets)) as [->|]; [eexists; by eapply step_full|].
    assert (i < maxsockets) by lia. destruct (decide (sl i = INVALID_SOCKET)); eexists; [by eapply step_free|by eapply step_busy].
  - destruct (decide (sl i = INVALID_SOCKET)); eexists; [by eapply step_claim|by eapply step_lost].
  - eexists. by eapply step_domain.
  - eexists. by eapply step_flags.
  - destruct (decide (sl i = s)); eexists; [by eapply step_release|by eapply step_stale].
  - eexists. by eapply step_drop.
Qed.

(** [n] steps of thread [t] inside of one call, among any number of steps of the others. *)
Inductive in_call (t : nat) (st : shared) : nat -> shared -> Prop :=
  | call_start : in_call t st 0 st
  | call_own n a b : in_call t st n a -> SocketRace.threads a t <> Idle -> step t a b -> in_call t st (S n) b
  | call_others n u a b : in_call t st n a -> u <> t -> step u a b -> in_call t st n b.

Lemma in_call_left t st n b : in_table st -> in_call t st n b ->
  in_table b /\ n + pc_left (SocketRace.threads b t) <= pc_left (SocketRace.threads st t).
Proof.
  intros H Hc. induction Hc as [|n a b _ [IH1 IH2] Hb Hs|n u a b _ [IH1 IH2] Hne Hs]; [done|..]; (split; [by eapply step_in_table|]).
  - pose proof (step_left t a b IH1 Hs Hb). lia.
  - by rewrite (step_other t u a b).
Qed.
Lemma pc_left_bound c : pc_left c <= 2 * maxsockets + 3.
Proof. destruct c; cbn [pc_left]; lia. Qed.
End SocketProgress.

(** C7: no call of the lock-free functions waits for another thread.  However the threads interleave, an epoll
    instance is created or closed, or the call has failed, after at most two accesses for each slot and seven more;
    starting the socket layer ends after eight; and allocating or closing a socket can always go on and ends
    after at most two accesses for each slot and three more, whether ioctlsocket and closesocket succeed or fail. *)
Theorem lock_free_calls_end :
  (forall calls sched k pc, 2 * maxepolls + 7 <= turns k sched -> er_calls (er_run calls sched) !! k = Some pc -> finished pc = true) /\
  (forall callers sched k pc, 8 <= turns k sched -> StartupRace.threads (start_run callers sched) !! k = Some pc -> exists ok, pc = Started ok) /\
  (forall t st n st', reachable st -> in_call t st n st' ->
    n <= 2 * maxsockets + 3 /\ (SocketRace.threads st' t = Idle \/ exists b, step t st' b)).
Proof.
  split_and!.
  - intros calls sched k pc Hn E. assert (steps_left (er_init calls) k <= turns k sched) as Hl.
    { etransitivity; [|exact Hn]. cbn [steps_left epoll_wait_free]. unfold call_left. cbn [er_init er_calls]. rewrite list_lookup_fmap.
      destruct (calls !! k) as [[i|]|]; cbn [fmap option_fmap option_map epc_left]; lia. }
    apply wait_free_ends in Hl; [|apply (er_run_inv calls [])]. assert (call_left (er_run calls sched) k = 0) as Hz by exact Hl.
    unfold call_left in Hz. rewrite E in Hz. destruct pc; cbn [epc_left] in Hz; done || lia.
  - intros callers sched k pc Hn E. assert (steps_left (start_init callers) k <= turns k sched) as Hl.
    { etransitivity; [|exact Hn]. cbn [steps_left startup_wait_free]. unfold start_left. cbn [start_init StartupRace.threads]. rewrite list_lookup_fmap.
      destruct (callers !! k) as [[|]|]; cbn; lia. }
    apply wait_free_ends in Hl; [|done]. assert (start_left (start_run callers sched) k = 0) as Hz by exact Hl.
    unfold start_left in Hz. rewrite E in Hz. destruct pc; cbn in Hz; try done. by eexists.
  - intros t st n st' Hr%reachable_in_table Hc. destruct (in_call_left t st n st' Hr Hc) as [Ht Hb]. split.
    + pose proof (pc_left_bound (SocketRace.threads st t)). lia.
    + destruct (decide (pc_left (SocketRace.threads st' t) = 0)) as [E|E].
      * left. destruct (SocketRace.threads st' t); cbn [pc_left] in E; done || lia.
      * right. apply never_waits; [done|]. intros Ei. by rewrite Ei in E.
Qed.

Lemma lock_free_calls_end_witness :
  StartupRace.threads (start_run [true; true] (replicate 8 (0, true))) !! 0 = Some (Started true) /\
  exists ok, Started true = Started ok.
Proof.
  split; [reflexivity|]. apply (proj1 (proj2 lock_free_calls_end) [true; true] (replicate 8 (0, true)) 0 (Started true)); [vm_compute; lia|reflexivity].
Defined.

(** ** Initialisation on first use *)
Module Export OnceProgress.
Section Client.
Context {S : Type} `{OC : !OnceClient S}.

Definition once_left (p : once_pc S) : nat :=
  match p with
  | Entry => length (callback (S := S)) + 3
  | Execute => length (callback (S := S)) + 2
  | InCallback rest => length rest + 1
  | Returned => 0
  end.
Definition once_work (ts : list Z) (s : shared_once S) : nat := tally (fun t => once_left (so_pc s t)) ts.
(** Threads that do not run have not entered. *)
Definition once_fair_inv (ts : list Z) (s : shared_once S) : Prop := once_inv s /\ forall u, u ∉ ts -> so_pc s u = Entry.

(** A thread that moves to a position with less left. *)
Lemma once_moves ts o o' st st' pc t p : t ∈ ts -> once_left p < once_left (pc t) ->
  once_work ts (SharedOnce o' st' (set_pc t p pc)) < once_work ts (SharedOnce o st pc).
Proof.
  intros Ht Hlt. unfold once_work. cbn [so_pc]. apply (tally_ext_lt _ _ ts t); [|done|by rewrite set_pc_same].
  intros u. unfold set_pc. destruct (Z.eqb_spec u t) as [->|]; lia.
Qed.
(** The threads that wait. *)
Definition once_waits (s : shared_once S) (t : Z) : Prop := so_pc s t = Returned \/ so_pc s t = Execute /\ so_once s = Running.
Lemma once_step_work ts s t : t ∈ ts -> (once_waits s t /\ once_step t s = s) \/ once_work ts (once_step t s) < once_work ts s.
Proof.
  intros Ht. destruct s as [o st pc]. unfold once_waits. cbn [so_pc so_once once_step].
  destruct (pc t) as [| |[|f rest]|] eqn:E; [right; apply once_moves; [done|]; rewrite E| |right; apply once_moves; [done|]; rewrite E..|by auto].
  - destruct (skips st); cbn [once_left]; lia.
  - destruct o; [right; apply once_moves; [done|]; rewrite E; cbn [once_left]; lia|by auto|right; apply once_moves; [done|]; rewrite E; cbn [once_left]; lia].
  - cbn [once_left length]. lia.
  - cbn [once_left length]. lia.
Qed.
Lemma once_step_others t s u : u <> t -> so_pc (once_step t s) u = so_pc s u.
Proof. intros Hne. destruct s as [o st pc]. cbn [once_step]. repeat case_match; cbn [so_pc]; by rewrite ?set_pc_other. Qed.

(** While there is work, a thread that does not wait: the one in the callback, or any other. *)
Lemma once_some_moves ts s : once_fair_inv ts s -> once_work ts s <> 0 -> exists t, t ∈ ts /\ ~ once_waits s t.
Proof.
  intros [I Hout] (u & Hu & Hl)%tally_pos. assert (so_pc s u <> Returned) as Hr by (intros E; by rewrite E in Hl).
  unfold once_waits. destruct I as [pc H|pc h ran rest Hc Hh H|pc H]; cbn [so_pc so_once] in *.
  - exists u. split; [done|]. intros [?|[_ ?]]; done.
  - exists h. split; [|rewrite Hh; intros [?|[? _]]; done]. destruct (decide (h ∈ ts)) as [|Hn]; [done|]. rewrite (Hout h Hn) in Hh. done.
  - exists u. split; [done|]. intros [?|[_ ?]]; done.
Qed.

#[export] Instance once_fair (ts : list Z) : FairSystem (shared_once S) Z ts.
Proof.
  refine {| fs_step := fun s t => once_step t s; fs_inv := once_fair_inv ts; work := once_work ts |}.
  - intros s t [I Hout] Ht. split; [by apply once_step_inv|]. intros u Hu. rewrite once_step_others by congruence. by apply Hout.
  - intros s t _ Ht. destruct (once_step_work ts s t Ht) as [[_ ?]|?]; auto.
  - intros s I Hw. destruct (once_some_moves ts s I Hw) as (t & Ht & Hn). exists t. split; [done|]. by destruct (once_step_work ts s t Ht) as [[? _]|?].
Defined.

(** Everyone has returned after as many rounds as all the threads together have steps. *)
Lemma once_rounds_return ts rounds t : Forall (round (ts := ts)) rounds -> length ts * (length (callback (S := S)) + 3) <= length rounds -> t ∈ ts ->
  so_pc (once_run (concat rounds)) t = Returned.
Proof.
  intros Hr Hn Ht. assert (once_work ts (once_run (concat rounds)) = 0) as Hw.
  { apply (fair_ends (FS := once_fair ts) once_start rounds); [split; [apply (once_run_inv [])|done]|done|].
    cbn [work once_fair]. etransitivity; [|exact Hn]. unfold once_work, once_start. cbn [so_pc once_left]. by rewrite tally_const. }
  apply (tally_zero _ _ t) in Hw; [|done]. cbn beta in Hw. destruct (so_pc (once_run (concat rounds)) t) as [| |rest|]; cbn [once_left] in Hw; done || lia.
Qed.
End Client.
End OnceProgress.

(** ** The path map *)
Module Export PathProgress.
Section Map.
Context (e : env).

Definition map_left (p : map_pc) : nat :=
  match p with
  | TestInit => length (init_steps e) + 5
  | AcquireLock => length (init_steps e) + 4
  | TestAgain => length (init_steps e) + 3
  | Building rest => length rest + 2
  | ReleaseLock => 1
  | Lookup => 0
  end.
Definition map_work (ts : list Z) (s : map_state) : nat := tally (fun t => map_left (map_pcs s t)) ts.
(** The holder of the lock is behind it, and threads that do not run have not started. *)
Definition has_lock (p : map_pc) : Prop := match p with TestAgain | Building _ | ReleaseLock => True | _ => False end.
Definition map_fair_inv (ts : list Z) (s : map_state) : Prop :=
  (forall h, PathRace.lock s = Some h <-> has_lock (map_pcs s h)) /\ forall u, u ∉ ts -> map_pcs s u = TestInit.

Lemma map_moves ts lk lk' st st' pc t p : t ∈ ts -> map_left p < map_left (pc t) ->
  map_work ts (MapState lk' st' (set_map_pc t p pc)) < map_work ts (MapState lk st pc).
Proof.
  intros Ht Hlt. unfold map_work. cbn [map_pcs]. apply (tally_ext_lt _ _ ts t); [|done|by rewrite set_map_pc_same].
  intros u. unfold set_map_pc. destruct (Z.eqb_spec u t) as [->|]; lia.
Qed.
Definition map_waits (s : map_state) (t : Z) : Prop := map_pcs s t = Lookup \/ map_pcs s t = AcquireLock /\ PathRace.lock s <> None.
Lemma map_step_work ts s t : t ∈ ts -> (map_waits s t /\ map_step e s t = s) \/ map_work ts (map_step e s t) < map_work ts s.
Proof.
  intros Ht. destruct s as [lk st pc]. unfold map_waits. cbn [map_pcs PathRace.lock map_step].
  destruct (pc t) as [| | |[|f rest]| |] eqn:E; try (right; apply map_moves; [done|]; rewrite E; cbn [map_left length]; try case_match; cbn [map_left]; lia); [|by auto].
  destruct lk; [by auto|right; apply map_moves; [done|]; rewrite E; cbn [map_left]; lia].
Qed.

Lemma map_step_lock s t : (forall h, PathRace.lock s = Some h <-> has_lock (map_pcs s h)) ->
  forall h, PathRace.lock (map_step e s t) = Some h <-> has_lock (map_pcs (map_step e s t) h).
Proof.
  intros I h. destruct s as [lk st pc]. cbn [PathRace.lock map_pcs map_step] in *. pose proof (I h) as Ih. pose proof (I t) as It.
  destruct (pc t) as [| | |[|f rest]| |] eqn:E; try (case_match); cbn [PathRace.lock map_pcs]; try done; unfold set_map_pc;
    destruct (Z.eqb_spec h t) as [->|Hne]; rewrite ?E in *; cbn [has_lock] in *; try case_match; try naive_solver.
Qed.

#[export] Instance map_fair (ts : list Z) : FairSystem map_state Z ts.
Proof.
  refine {| fs_step := map_step e; fs_inv := map_fair_inv ts; work := map_work ts |}.
  - intros s t [I Hout] Ht. split; [by apply map_step_lock|]. intros u Hu. specialize (Hout u Hu). destruct s as [lk st pc]. cbn [map_pcs] in Hout.
    cbn [map_step]. repeat case_match; cbn [map_pcs]; rewrite ?set_map_pc_other by congruence; done.
  - intros s t _ Ht. destruct (map_step_work ts s t Ht) as [[_ ?]|?]; auto.
  - intros s [I Hout] (u & Hu & Hl)%tally_pos. assert (exists t, t ∈ ts /\ ~ map_waits s t) as (t & Ht & Hn).
    { unfold map_waits. destruct (PathRace.lock s) as [h|] eqn:El.
      - pose proof (proj1 (I h) eq_refl) as Eh. exists h. split; [|intros [E|[E _]]; by rewrite E in Eh].
        destruct (decide (h ∈ ts)) as [|Hn]; [done|]. by rewrite (Hout h Hn) in Eh.
      - exists u. split; [done|]. intros [E|[_ ?]]; [by rewrite E in Hl|done]. }
    exists t. split; [done|]. by destruct (map_step_work ts s t Ht) as [[? _]|?].
Defined.

Lemma map_rounds_lookup ts rounds t : Forall (round (ts := ts)) rounds -> length ts * 10 <= length rounds -> t ∈ ts ->
  map_pcs (map_run e (concat rounds)) t = Lookup.
Proof.
  intros Hr Hn Ht. assert (map_work ts (map_run e (concat rounds)) = 0) as Hw.
  { apply (fair_ends (FS := map_fair ts) (MapState None path_state0 (fun _ => TestInit)) rounds); [by split|done|].
    cbn [work map_fair]. unfold map_work. cbn [map_pcs map_left]. by rewrite tally_const. }
  apply (tally_zero _ _ t) in Hw; [|done]. cbn beta in Hw. destruct (map_pcs (map_run e (concat rounds)) t); cbn [map_left] in Hw; done || lia.
Qed.
End Map.
End PathProgress.

(** ** Submissions to an asynchronous context *)
Module Export AioProgress.

(** How often a thread will still change the count, and the steps it has left when nobody else does: an exchange
    that is bound to fail has to be made again. *)
Definition changes (pc : apc) : nat :=
  match pc with Calloc | ReadCount | SwapCount _ => 2 | Transfer | InProgress | ReadTail | WriteEvent _ | ReadTailAgain | WriteTail _ | Decrement => 1 | Refused | Finished => 0 end.
Definition apc_left (io : nat) (pc : apc) : nat :=
  match pc with
  | Calloc => 10
  | ReadCount => 9
  | SwapCount c => if decide (io = c) then 8 else 10
  | Transfer => 7 | InProgress => 6
  | ReadTail => 5 | WriteEvent _ => 4 | ReadTailAgain => 3 | WriteTail _ => 2 | Decrement => 1
  | Refused | Finished => 0
  end.
(** A change of the count makes every other thread repeat at most one exchange. *)
Definition hdr_work (s : hdr_state) : nat :=
  tally (apc_left (h_iocount s)) (h_threads s) + 2 * length (h_threads s) * tally changes (h_threads s).

Lemma apc_left_change io io' ts : tally (apc_left io') ts <= tally (apc_left io) ts + 2 * length ts.
Proof.
  induction ts as [|pc ts IH]; [done|]. rewrite !tally_cons. cbn [length].
  assert (apc_left io' pc <= apc_left io pc + 2) by (destruct pc; cbn [apc_left]; repeat case_decide; lia). lia.
Qed.
(** A step of a thread from [pc] to [pc'] that leaves the count, and one that changes it. *)
Lemma work_kept sz io tl rg tl' rg' fs ts k pc pc' : ts !! k = Some pc -> apc_left io pc' < apc_left io pc -> changes pc' <= changes pc ->
  hdr_work (HdrState sz io tl' rg' fs (<[k := pc']> ts)) < hdr_work (HdrState sz io tl rg fs ts).
Proof.
  intros E Hl Hc. unfold hdr_work. cbn [h_iocount h_threads]. pose proof (tally_insert (apc_left io) ts k pc pc' E).
  pose proof (tally_insert changes ts k pc pc' E). rewrite length_insert. nia.
Qed.
Lemma work_changed sz io io' tl rg fs ts k pc pc' : ts !! k = Some pc -> (forall x, apc_left x pc' < apc_left io pc) -> changes pc' < changes pc ->
  hdr_work (HdrState sz io' tl rg fs (<[k := pc']> ts)) < hdr_work (HdrState sz io tl rg fs ts).
Proof.
  intros E Hl Hc. unfold hdr_work. cbn [h_iocount h_threads]. pose proof (tally_insert (apc_left io) ts k pc pc' E). specialize (Hl io).
  pose proof (tally_insert changes ts k pc pc' E). pose proof (apc_left_change io io' (<[k := pc']> ts)) as Hx. rewrite length_insert in *. nia.
Qed.

Lemma hdr_step_work s k : (changes <$> h_threads s !! k = Some 0 \/ h_threads s !! k = None) /\ hdr_step s k = s \/ hdr_work (hdr_step s k) < hdr_work s.
Proof.
  destruct s as [sz io tl rg fs ts]. cbn [hdr_step h_threads]. destruct (ts !! k) as [pc|] eqn:E; [|by auto].
  destruct pc as [| |c| | | | |next| |tail| |]; cbn [fmap option_fmap option_map changes]; try (by auto); right;
    try (apply (work_kept _ _ _ _ _ _ _ _ _ _ _ E); repeat case_match; cbn; lia).
  - apply (work_kept _ _ _ _ _ _ _ _ _ _ _ E); case_decide; cbn [apc_left changes]; try lia. rewrite decide_True by done. lia.
  - case_decide as Hio.
    + subst c. apply (work_changed _ _ _ _ _ _ _ _ _ _ E); [intros x; cbn [apc_left]; rewrite decide_True by done; lia|cbn; lia].
    + apply (work_kept _ _ _ _ _ _ _ _ _ _ _ E); cbn [apc_left changes]; [rewrite decide_False by done; lia|lia].
  - apply (work_changed _ _ _ _ _ _ _ _ _ _ E); [intros x; cbn; lia|cbn; lia].
Qed.

Lemma hdr_step_length s k : length (h_threads (hdr_step s k)) = length (h_threads s).
Proof. destruct s as [sz io tl rg fs ts]. cbn [hdr_step]. repeat case_match; cbn [h_threads]; by rewrite ?length_insert. Qed.
Lemma left_changes io pc : changes pc = 0 -> apc_left io pc = 0.
Proof. by destruct pc. Qed.
(** While there is work a thread has not finished. *)
Lemma work_unfinished s : hdr_work s <> 0 -> exists k pc, h_threads s !! k = Some pc /\ changes pc <> 0.
Proof.
  intros Hw. assert (tally changes (h_threads s) <> 0) as (pc & [k Hk]%list_elem_of_lookup & Hc)%tally_pos; [|by exists k, pc].
  intros E. apply Hw. unfold hdr_work. rewrite E, Nat.mul_0_r, Nat.add_0_r. apply Nat.le_0_r. generalize (h_threads s), E. clear. intros ts.
  induction ts as [|pc ts IH]; [done|]. rewrite !tally_cons. intros E. rewrite left_changes by lia. apply IH. lia.
Qed.

#[export] Instance aio_fair (n : nat) : FairSystem hdr_state nat (seq 0 n).
Proof.
  refine {| fs_step := hdr_step; fs_inv := fun s => length (h_threads s) = n; work := hdr_work |}.
  - intros s k Hn _. by rewrite hdr_step_length.
  - intros s k _ _. destruct (hdr_step_work s k) as [[_ ?]|?]; auto.
  - intros s Hn (k & pc & Hk & Hc)%work_unfinished. exists k. split; [apply list_elem_of_In, in_seq; apply lookup_lt_Some in Hk; lia|].
    destruct (hdr_step_work s k) as [[[H|H] _]|H]; [|congruence|done]. rewrite Hk in H. cbn in H. congruence.
Defined.

Lemma aio_rounds_end size fates rounds : let n := length fates in Forall (round (ts := seq 0 n)) rounds -> 10 * n + 4 * n * n <= length rounds ->
  Forall (fun pc => pc = Finished \/ pc = Refused) (h_threads (hdr_run size fates (concat rounds))).
Proof.
  intros n Hr Hn. assert (hdr_work (hdr_run size fates (concat rounds)) = 0) as Hw.
  { apply (fair_ends (FS := aio_fair n) (hdr_init size fates) rounds); [apply length_replicate|done|]. cbn [work aio_fair]. etransitivity; [|exact Hn].
    unfold hdr_work, hdr_init. cbn [h_iocount h_threads]. rewrite length_replicate, !tally_replicate. cbn [apc_left changes]. nia. }
  apply Forall_forall. intros pc Hpc. assert (apc_left (h_iocount (hdr_run size fates (concat rounds))) pc = 0) as E.
  { apply (tally_zero _ (h_threads (hdr_run size fates (concat rounds)))); [|done]. unfold hdr_work in Hw. lia. }
  destruct pc; cbn [apc_left] in E; try case_decide; auto; lia.
Qed.
End AioProgress.


