(* ===== verification/Getopt.v ===== *)
(** * Getopt: the option parser of src/src/getopt.c

    The static variables of the parser, the argument vector it permutes and the
    variables it writes through pointers form one state.  An argument is a
    pointer with the text behind it; [place] points into an argument or at the
    empty string [EMSG].  Outcome [None] is an access outside the argument
    vector, a division by zero or a loop out of rounds.  Messages are no-ops in
    the source ([warnx] expands to [pass]) and left out. *)

From S2P Require Import Prelude CString.
From Stdlib Require Import Ascii.

Module Export Getopt.
Local Open Scope Z_scope.

Record arg := Arg { arg_ptr : Z; arg_text : cstr }.
Inductive place_t := EMSG | At (a : arg) (off : nat).

(** The text [place] points to, and [place] advanced. *)
Definition place_text (p : place_t) : cstr := match p with EMSG => [] | At a off => drop off (arg_text a) end.
Definition deref (p : place_t) : ascii := char_at (place_text p) 0.
Definition advance (p : place_t) : place_t := match p with EMSG => EMSG | At a off => At a (S off) end.

Inductive arg_kind := no_argument | required_argument | optional_argument.
#[export] Instance arg_kind_dec : EqDecision arg_kind.
Proof. solve_decision. Defined.

(** [struct option]; [flag] is an address or NULL. *)
Record long_option := Option { name : cstr; has_arg : arg_kind; flag : option Z; val : Z }.

Record state := State {
  optarg : option cstr;
  optind : Z;
  optopt : Z;
  place : place_t;
  nonopt_start : Z;
  nonopt_end : Z;
  posixly_correct : Z;
  nargv : list arg;
  idx : option Z;           (** [*idx], once written *)
  vars : gmap Z Z           (** the variables long options set *)
}.

Definition init_state (argv : list arg) : state := State None 1 63 EMSG (-1) (-1) (-1) argv None ∅.

Definition set_optarg o s := State o (optind s) (optopt s) (place s) (nonopt_start s) (nonopt_end s) (posixly_correct s) (nargv s) (idx s) (vars s).
Definition set_optind i s := State (optarg s) i (optopt s) (place s) (nonopt_start s) (nonopt_end s) (posixly_correct s) (nargv s) (idx s) (vars s).
Definition set_optopt o s := State (optarg s) (optind s) o (place s) (nonopt_start s) (nonopt_end s) (posixly_correct s) (nargv s) (idx s) (vars s).
Definition set_place p s := State (optarg s) (optind s) (optopt s) p (nonopt_start s) (nonopt_end s) (posixly_correct s) (nargv s) (idx s) (vars s).
Definition set_nonopt a b s := State (optarg s) (optind s) (optopt s) (place s) a b (posixly_correct s) (nargv s) (idx s) (vars s).
Definition set_posix p s := State (optarg s) (optind s) (optopt s) (place s) (nonopt_start s) (nonopt_end s) p (nargv s) (idx s) (vars s).
Definition set_nargv v s := State (optarg s) (optind s) (optopt s) (place s) (nonopt_start s) (nonopt_end s) (posixly_correct s) v (idx s) (vars s).
Definition set_idx i s := State (optarg s) (optind s) (optopt s) (place s) (nonopt_start s) (nonopt_end s) (posixly_correct s) (nargv s) (Some i) (vars s).
Definition set_var a v s := State (optarg s) (optind s) (optopt s) (place s) (nonopt_start s) (nonopt_end s) (posixly_correct s) (nargv s) (idx s) (<[a:=v]> (vars s)).

Definition nargc (s : state) : Z := Z.of_nat (length (nargv s)).

(** [nargv[i]]: the vector ends in a null pointer. *)
Definition argv_at (s : state) (i : Z) : option (option arg) :=
  if (0 <=? i) && (i <? nargc s) then Some (nargv s !! Z.to_nat i)
  else if i =? nargc s then Some None else None.

Definition FLAG_PERMUTE : Z := 1.
Definition FLAG_ALLARGS : Z := 2.
Definition FLAG_LONGONLY : Z := 4.
Definition BADCH : Z := 63.
Definition BADARG (options : cstr) : Z := if eqc (char_at options 0) ":"%char then 58 else 63.
Definition INORDER : Z := 1.
(** [(int)c]: a [char] is signed, so that the byte 0xFF is -1. *)
Definition code (c : ascii) : Z := let n := Z.of_nat (nat_of_ascii c) in if n <? 128 then n else n - 256.

(** ** Permuting the arguments *)

(** The loop of [gcd]: [None] for the remainder by zero. *)
Fixpoint gcd_loop (fuel : nat) (a b : Z) : option Z :=
  match fuel with
  | O => None
  | S fuel =>
    if b =? 0 then None
    else let c := Z.rem a b in if c =? 0 then Some b else gcd_loop fuel b c
  end.
Definition gcd (a b : Z) : option Z := gcd_loop (S (Z.to_nat b)) a b.

Section Permute.
Context {A : Type}.

Definition vec_at (v : list A) (i : Z) : option A := if 0 <=? i then v !! Z.to_nat i else None.
Definition vec_set (v : list A) (i : Z) (x : A) : option (list A) :=
  if (0 <=? i) && (i <? Z.of_nat (length v)) then Some (<[Z.to_nat i := x]> v) else None.

(** The inner loop: [n] swaps with the element at [cstart], [pos] moving along
    the cycle. *)
Fixpoint swap_cycle (n : nat) (pend nnonopts nopts cstart pos : Z) (v : list A) : option (list A) :=
  match n with
  | O => Some v
  | S n =>
    let pos := if pend <=? pos then pos - nnonopts else pos + nopts in
    swap ← vec_at v pos;
    x ← vec_at v cstart;
    v ← vec_set v pos x;
    v ← vec_set v cstart swap;
    swap_cycle n pend nnonopts nopts cstart pos v
  end.

Fixpoint swap_cycles (n : nat) (i : Z) (cyclelen pend nnonopts nopts : Z) (v : list A) : option (list A) :=
  match n with
  | O => Some v
  | S n =>
    v ← swap_cycle (Z.to_nat cyclelen) pend nnonopts nopts (pend + i) (pend + i) v;
    swap_cycles n (i + 1) cyclelen pend nnonopts nopts v
  end.

Definition permute_args (panonopt_start panonopt_end opt_end : Z) (v : list A) : option (list A) :=
  let nnonopts := panonopt_end - panonopt_start in
  let nopts := opt_end - panonopt_end in
  ncycle ← gcd nnonopts nopts;
  let cyclelen := Z.quot (opt_end - panonopt_start) ncycle in
  swap_cycles (Z.to_nat ncycle) 0 cyclelen panonopt_end nnonopts nopts v.
End Permute.

Example permute_ex : permute_args 1 4 6 [0; 1; 2; 3; 4; 5; 6] = Some [0; 4; 5; 1; 2; 3; 6].
Proof. reflexivity. Qed.

(** ** Long options *)

(** The search of [parse_long_options]: the matching option, or an ambiguity. *)
Inductive search := Ambiguous | Match (i : Z).

Fixpoint find_long (long_options : list long_option) (current : cstr) (len : nat) (short_too : bool) (i match_ : Z) : search :=
  match long_options with
  | [] => Match match_
  | o :: rest =>
    if negb (strncmp_eq current (name o) len) then find_long rest current len short_too (i + 1) match_
    else if (length (name o) =? len)%nat then Match i
    else if short_too && (len =? 1)%nat then find_long rest current len short_too (i + 1) match_
    else if match_ =? -1 then find_long rest current len short_too (i + 1) i
    else Ambiguous
  end.

Definition optopt_of (o : long_option) : Z := match flag o with None => val o | Some _ => 0 end.

(** The end of [parse_long_options] for a valid option. *)
Definition found_long (o : long_option) (i : Z) (want_idx : bool) (s : state) : Z * state :=
  let s := if want_idx then set_idx i s else s in
  match flag o with
  | Some a => (0, set_var a (val o) s)
  | None => (val o, s)
  end.

Definition parse_long_options (options : cstr) (long_options : list long_option) (want_idx short_too : bool)
    (s : state) : option (Z * state) :=
  let current_argv := place_text (place s) in
  let s := set_optind (optind s + 1) s in
  let has_equal := (fun i => drop (S i) current_argv) <$> strchr current_argv "="%char in
  let current_argv_len := match strchr current_argv "="%char with Some i => i | None => length current_argv end in
  match find_long long_options current_argv current_argv_len short_too 0 (-1) with
  | Ambiguous => Some (BADCH, set_optopt 0 s)
  | Match i =>
    if negb (i =? -1) then
      o ← long_options !! Z.to_nat i;
      if bool_decide (has_arg o = no_argument) && bool_decide (has_equal <> None) then
        Some (BADARG options, set_optopt (optopt_of o) s)
      else
        s ← (match has_arg o, has_equal with
             | no_argument, _ => Some s
             | _, Some e => Some (set_optarg (Some e) s)
             | required_argument, None =>
                 a ← argv_at s (optind s);
                 Some (set_optind (optind s + 1) (set_optarg (arg_text <$> a) s))
             | optional_argument, None => Some s
             end);
        if bool_decide (has_arg o = required_argument) && bool_decide (optarg s = None) then
          Some (BADARG options, set_optind (optind s - 1) (set_optopt (optopt_of o) s))
        else Some (found_long o i want_idx s)
    else if short_too then Some (-1, set_optind (optind s - 1) s)
    else Some (BADCH, set_optopt 0 s)
  end.

(** ** The scanning loop *)

(** A return from the function, or the state at the code behind the loop. *)
Inductive next := Return (r : Z) (s : state) | Proceed (s : state).

(** [permute_args(nonopt_start, nonopt_end, optind, nargv)] *)
Definition permute (s : state) : option state :=
  v ← permute_args (nonopt_start s) (nonopt_end s) (optind s) (nargv s); Some (set_nargv v s).

(** The permutation at the end of the options. *)
Definition finish (s : state) : option state :=
  s ← (if nonopt_end s =? -1 then Some s
       else s ← permute s; Some (set_optind (optind s - (nonopt_end s - nonopt_start s)) s));
  Some (set_nonopt (-1) (-1) s).

Definition skip_nonoption (s : state) : option state :=
  s ← (if nonopt_start s =? -1 then Some (set_nonopt (optind s) (nonopt_end s) s)
       else if nonopt_end s =? -1 then Some s
       else s ← permute s; Some (set_nonopt (optind s - (nonopt_end s - nonopt_start s)) (-1) s));
  Some (set_optind (optind s + 1) s).

(** From the label [start]. *)
Fixpoint scan_args (fuel : nat) (options : cstr) (flags : Z) (optreset : bool) (s : state) : option next :=
  match fuel with
  | O => None
  | S fuel =>
    if optreset || eqc (deref (place s)) NUL then
      if nargc s <=? optind s then
        let s := set_place EMSG s in
        s ← (if (nonopt_end s =? -1) && negb (nonopt_start s =? -1)
             then Some (set_nonopt (-1) (-1) (set_optind (nonopt_start s) s)) else finish s);
        Some (Return (-1) s)
      else
        a ← argv_at s (optind s);
        a ← a;
        let place0 := At a 0 in
        if negb (eqc (deref place0) "-"%char) ||
           eqc (deref (advance place0)) NUL && bool_decide (strchr options "-"%char = None) then
          let s := set_place EMSG s in
          if negb (Z.land flags FLAG_ALLARGS =? 0) then
            Some (Return INORDER (set_optind (optind s + 1) (set_optarg (Some (arg_text a)) s)))
          else if Z.land flags FLAG_PERMUTE =? 0 then Some (Return (-1) s)
          else s ← skip_nonoption s; scan_args fuel options flags false s
        else
          let s := if negb (nonopt_start s =? -1) && (nonopt_end s =? -1)
                   then set_nonopt (nonopt_start s) (optind s) s else s in
          if eqc (deref (advance place0)) NUL then Some (Proceed (set_place place0 s))
          else
            let place1 := advance place0 in
            if eqc (deref place1) "-"%char && eqc (deref (advance place1)) NUL then
              let s := set_place EMSG (set_optind (optind s + 1) s) in
              s ← finish s; Some (Return (-1) s)
            else Some (Proceed (set_place place1 s))
    else Some (Proceed s)
  end.

(** [strchr(options, c)] for a character that is not the terminator. *)
Definition find_option (options : cstr) (c : ascii) : option (option nat) :=
  if eqc c NUL then None else Some (strchr options c).

(** ** Short options *)

Definition short_option (options : cstr) (long_options : option (list long_option)) (want_idx : bool) (s : state) :
    option (Z * state) :=
  let c := deref (place s) in
  let s := set_place (advance (place s)) s in
  let optchar := code c in
  oli ← find_option options c;
  let more := negb (eqc (deref (place s)) NUL) in
  match oli with
  | Some k =>
    if eqc c ":"%char || eqc c "-"%char && more then
      let s := if more then s else set_optind (optind s + 1) s in Some (BADCH, set_optopt optchar s)
    else if bool_decide (long_options <> None) && eqc c "W"%char && eqc (char_at options (S k)) ";"%char then
      let s := if more then s else set_optind (optind s + 1) s in
      if negb more && (nargc s <=? optind s) then
        Some (BADARG options, set_optopt optchar (set_place EMSG s))
      else
        a ← argv_at s (optind s);
        a ← a;
        '(r, s) ← parse_long_options options (default [] long_options) want_idx false (set_place (At a 0) s);
        Some (r, set_place EMSG s)
    else if negb (eqc (char_at options (S k)) ":"%char) then
      Some (optchar, if more then s else set_optind (optind s + 1) s)
    else
      let s := set_optarg None s in
      if more then Some (optchar, set_optind (optind s + 1) (set_place EMSG (set_optarg (Some (place_text (place s))) s)))
      else if negb (eqc (char_at options (S (S k))) ":"%char) then
        let s := set_optind (optind s + 1) s in
        if nargc s <=? optind s then Some (BADARG options, set_optopt optchar (set_place EMSG s))
        else
          a ← argv_at s (optind s);
          Some (optchar, set_optind (optind s + 1) (set_place EMSG (set_optarg (arg_text <$> a) s)))
      else Some (optchar, set_optind (optind s + 1) (set_place EMSG s))
  | None =>
    if eqc c "-"%char && negb more then Some (-1, s)
    else
      let s := if more then s else set_optind (optind s + 1) s in Some (BADCH, set_optopt optchar s)
  end.

(** [place == nargv[optind]] *)
Definition at_start (s : state) : option bool :=
  a ← argv_at s (optind s);
  Some (match place s, a with
        | At b off, Some a => (off =? 0)%nat && (arg_ptr b =? arg_ptr a)
        | _, _ => false
        end).

(** The code behind the loop. *)
Definition process (options : cstr) (long_options : option (list long_option)) (want_idx : bool) (flags : Z) (s : state) :
    option (Z * state) :=
  match long_options with
  | None => short_option options None want_idx s
  | Some ls =>
    start ← at_start s;
    let dash := eqc (deref (place s)) "-"%char in
    if negb start && (dash || negb (Z.land flags FLAG_LONGONLY =? 0)) then
      short_too ← (if dash || eqc (deref (place s)) ":"%char then Some false
                   else k ← find_option options (deref (place s)); Some (bool_decide (k <> None)));
      let s := if dash then set_place (advance (place s)) s else s in
      '(optchar, s) ← parse_long_options options ls want_idx short_too s;
      if negb (optchar =? -1) then Some (optchar, set_place EMSG s)
      else short_option options long_options want_idx s
    else short_option options long_options want_idx s
  end.

(** [posix_env] is what the test of the environment variable yields. *)
Definition getopt_internal (options : option cstr) (long_options : option (list long_option)) (want_idx : bool)
    (flags : Z) (posix_env : bool) (s : state) : option (Z * state) :=
  match options with
  | None => Some (-1, s)
  | Some options =>
    let s := if posixly_correct s =? -1 then set_posix (Z.b2z posix_env) s else s in
    let c0 := char_at options 0 in
    let flags :=
      if (posixly_correct s =? 0) || eqc c0 "+"%char then Z.ldiff flags FLAG_PERMUTE
      else if eqc c0 "-"%char then Z.lor flags FLAG_ALLARGS else flags in
    let options := if eqc c0 "+"%char || eqc c0 "-"%char then drop 1 options else options in
    let optreset := optind s =? 0 in
    let s := if optreset then set_optind 1 s else s in
    let s := set_optarg None s in
    let s := if optreset then set_nonopt (-1) (-1) s else s in
    r ← scan_args (S (length (nargv s))) options flags optreset s;
    match r with
    | Return r s => Some (r, s)
    | Proceed s => process options long_options want_idx flags s
    end
  end.

Definition getopt (options : option cstr) : bool -> state -> option (Z * state) :=
  getopt_internal options None false FLAG_PERMUTE.
Definition getopt_long (options : option cstr) (long_options : option (list long_option)) (want_idx : bool) :
    bool -> state -> option (Z * state) := getopt_internal options long_options want_idx FLAG_PERMUTE.
Definition getopt_long_only (options : option cstr) (long_options : option (list long_option)) (want_idx : bool) :
    bool -> state -> option (Z * state) := getopt_internal options long_options want_idx (Z.lor FLAG_PERMUTE FLAG_LONGONLY).
End Getopt.
