(* ===== verification/GetoptPermute.v ===== *)
(** * GetoptPermute: the rotation of src/src/getopt.c

    [permute_args] exchanges two neighbouring blocks of the argument vector in
    place, by following the cycles of the rotation.  This file proves it equal to
    the exchange of the two blocks as sequences. *)

From S2P Require Import Prelude CString Getopt.

Module Export GetoptPermute.
Local Open Scope Z_scope.

Lemma gcd_loop_correct fuel : forall a b, 0 <= a -> 0 < b -> (Z.to_nat b < fuel)%nat ->
  gcd_loop fuel a b = Some (Z.gcd a b).
Proof.
  induction fuel as [|fuel IH]; intros a b Ha Hb Hf; [lia|]. cbn [gcd_loop].
  rewrite (proj2 (Z.eqb_neq b 0)) by lia. rewrite Z.rem_mod_nonneg by lia.
  pose proof (Z.mod_pos_bound a b Hb). destruct (Z.eqb_spec (a mod b) 0) as [E|E].
  - f_equal. rewrite Z.gcd_comm, <- Z.gcd_mod, E by lia. rewrite Z.gcd_0_l, Z.abs_eq; lia.
  - rewrite IH by lia. f_equal. rewrite Z.gcd_comm, Z.gcd_mod by lia. apply Z.gcd_comm.
Qed.

Lemma gcd_correct a b : 0 <= a -> 0 < b -> gcd a b = Some (Z.gcd a b).
Proof. intros. apply gcd_loop_correct; lia. Qed.

Section Rotation.
(** The blocks [a, b) and [b, e). *)
Context (a b e : Z) (Hab : a < b) (Hbe : b < e) (Ha : 0 <= a).

Definition nn : Z := b - a.
Definition m : Z := e - b.
Definition n : Z := e - a.
Definition g : Z := Z.gcd nn m.
Definition L : Z := n / g.

(** Where the element at [pos] belongs. *)
Definition target (pos : Z) : Z := if b <=? pos then pos - nn else pos + m.
(** The position after [k] steps from [c]. *)
Definition orbit (c k : Z) : Z := a + (c - a + k * m) mod n.

Lemma g_pos : 0 < g.
Proof. pose proof (Z.gcd_nonneg nn m). destruct (Z.eq_dec g 0) as [E|]; [|unfold g in *; lia]. apply Z.gcd_eq_0 in E. unfold nn, m in *. lia. Qed.
Lemma g_n : g = Z.gcd n m.
Proof. unfold g, n, nn, m. replace (e - a) with (b - a + 1 * (e - b)) by lia. rewrite (Z.gcd_comm (b - a + _)), Z.gcd_add_mult_diag_r. apply Z.gcd_comm. Qed.
Lemma n_L : n = g * L.
Proof.
  unfold L. pose proof g_pos. destruct (Z.gcd_divide_l n m) as [k Hk]. rewrite <- g_n in Hk. rewrite Hk at 2.
  rewrite Z.div_mul by lia. lia.
Qed.
Lemma m_L : exists m', m = g * m' /\ Z.gcd L m' = 1.
Proof.
  pose proof g_pos. exists (m / g). split.
  - destruct (Z.gcd_divide_r nn m) as [k Hk]. fold g in Hk. rewrite Hk at 2. rewrite Z.div_mul by lia. lia.
  - unfold L. rewrite g_n in *. apply Z.gcd_div_gcd; lia.
Qed.
Lemma L_pos : 0 < L.
Proof. pose proof n_L. pose proof g_pos. assert (0 < n) by (unfold n; lia). nia. Qed.

Lemma target_orbit pos : a <= pos < e -> target pos = a + (pos - a + m) mod n.
Proof.
  intros Hp. unfold target. destruct (Z.leb_spec b pos).
  - replace (pos - a + m) with (pos - nn - a + 1 * n) by (unfold nn, m, n; lia).
    rewrite Z_mod_plus_full, Z.mod_small; unfold nn, n; lia.
  - rewrite Z.mod_small; unfold m, n; lia.
Qed.

Lemma orbit_range c k : a <= orbit c k < e.
Proof. unfold orbit. pose proof (Z.mod_pos_bound (c - a + k * m) n ltac:(unfold n; lia)). unfold n in *. lia. Qed.
Lemma orbit_0 c : a <= c < e -> orbit c 0 = c.
Proof. intros. unfold orbit. rewrite Z.mod_small; unfold n; lia. Qed.
Lemma orbit_step c k : target (orbit c k) = orbit c (k + 1).
Proof.
  rewrite target_orbit by apply orbit_range. unfold orbit.
  replace (a + (c - a + k * m) mod n - a + m) with ((c - a + k * m) mod n + m) by lia.
  rewrite Zplus_mod_idemp_l. do 2 f_equal. lia.
Qed.
Lemma orbit_L c : a <= c < e -> orbit c L = c.
Proof.
  intros Hc. rewrite <- (orbit_0 c) at 2 by done. unfold orbit. f_equal. destruct m_L as (m' & E & _).
  replace (c - a + L * m) with (c - a + 0 * m + m' * n) by (rewrite n_L, E; lia). apply Z_mod_plus_full.
Qed.
Lemma orbit_inj c j k : 0 <= j < L -> 0 <= k < L -> orbit c j = orbit c k -> j = k.
Proof.
  intros Hj Hk E. unfold orbit in E. assert (0 < n) by (unfold n; lia).
  assert ((n | (c - a + j * m) - (c - a + k * m))) as [q Hq].
  { apply Z.mod_divide; [lia|]. rewrite Zminus_mod. replace ((c - a + j * m) mod n) with ((c - a + k * m) mod n) by lia.
    by rewrite Z.sub_diag, Z.mod_0_l by lia. }
  destruct m_L as (m' & E' & Hg). pose proof g_pos.
  assert ((L | m' * (j - k))) as Hd.
  { exists q. rewrite E', n_L in Hq. apply (Z.mul_cancel_l _ _ g); [lia|]. lia. }
  destruct (Z.gauss _ _ _ Hd Hg) as [t Ht]. pose proof L_pos. assert (-1 < t < 1) by nia. assert (t = 0) by lia. subst. lia.
Qed.
Lemma orbit_class c k : (orbit c k - b) mod g = (c - b) mod g.
Proof.
  unfold orbit. destruct m_L as (m' & E & _). pose proof g_pos. pose proof (Z.div_mod (c - a + k * m) n ltac:(unfold n; lia)) as D.
  set (q := (c - a + k * m) / n) in *. replace (a + (c - a + k * m) mod n - b) with (c - b + (k * m' - q * L) * g)
    by (rewrite E in *; pose proof n_L; nia). apply Z_mod_plus_full.
Qed.
Lemma orbit_surj c i : a <= c < e -> a <= i < e -> (i - b) mod g = (c - b) mod g -> exists j, 0 <= j < L /\ i = orbit c j.
Proof.
  intros Hc Hi E. pose proof g_pos. pose proof L_pos.
  assert ((g | (i - b) - (c - b))) as [t Ht].
  { apply Z.mod_divide; [lia|]. by rewrite Zminus_mod, E, Z.sub_diag, Z.mod_0_l by lia. }
  destruct (Z.gcd_bezout n m g (eq_sym g_n)) as (u & v & B). exists ((t * v) mod L). split; [by apply Z.mod_pos_bound|].
  unfold orbit. pose proof (Z.div_mod (t * v) L ltac:(lia)) as D. set (q := t * v / L) in *.
  destruct m_L as (m' & Em & _). pose proof n_L as En.
  replace (c - a + (t * v) mod L * m) with (i - a + (- (t * u) - q * m') * n).
  { rewrite Z_mod_plus_full, Z.mod_small; unfold n; lia. }
  assert (t * (u * n + v * m) = t * g) as B' by (by rewrite B).
  assert ((t * v) mod L * m = t * v * m - q * (L * m)) as D' by nia.
  assert (L * m = m' * n) as F by (rewrite Em, En; lia). rewrite D', F. lia.
Qed.

(** ** The cycles on the vector *)

Section Vector.
Context {A : Type}.
Implicit Types v w : list A.

Lemma vec_at_run v i : 0 <= i -> vec_at v i = v !! Z.to_nat i.
Proof. intros H. unfold vec_at. by rewrite (proj2 (Z.leb_le _ _) H). Qed.
Lemma vec_set_run v i x : 0 <= i < Z.of_nat (length v) -> vec_set v i x = Some (<[Z.to_nat i := x]> v).
Proof. intros [H1 H2]. unfold vec_set. by rewrite (proj2 (Z.leb_le _ _) H1), (proj2 (Z.ltb_lt _ _) H2). Qed.

(** One swap of the inner loop. *)
Lemma swap_cycle_step k c pos v x y :
  a <= c < e -> a <= pos < e -> e <= Z.of_nat (length v) -> v !! Z.to_nat (target pos) = Some y -> v !! Z.to_nat c = Some x ->
  swap_cycle (S k) b nn m c pos v =
  swap_cycle k b nn m c (target pos) (<[Z.to_nat c := y]> (<[Z.to_nat (target pos) := x]> v)).
Proof.
  intros Hc Hp Hl Hy Hx. assert (a <= target pos < e).
  { rewrite target_orbit by done. pose proof (Z.mod_pos_bound (pos - a + m) n ltac:(unfold n; lia)). unfold n in *. lia. }
  cbn [swap_cycle]. fold (target pos). rewrite !vec_at_run, Hy by lia. cbn [mbind option_bind].
  rewrite Hx. cbn [mbind option_bind]. rewrite vec_set_run by lia. cbn [mbind option_bind].
  rewrite vec_set_run by (rewrite length_insert; lia). done.
Qed.

(** The vector after [k] swaps along the cycle of [c]. *)
Record along (c k : Z) (v w : list A) : Prop := {
  al_length : length w = length v;
  al_moved j : 0 <= j < k -> w !! Z.to_nat (orbit c (j + 1)) = v !! Z.to_nat (orbit c j);
  al_held : w !! Z.to_nat c = v !! Z.to_nat (orbit c k);
  al_other i : 0 <= i -> (forall j, 0 <= j <= k -> i <> orbit c j) -> w !! Z.to_nat i = v !! Z.to_nat i
}.

Lemma to_nat_ne i j : 0 <= i -> 0 <= j -> i <> j -> Z.to_nat i <> Z.to_nat j.
Proof. lia. Qed.

Lemma swap_cycle_along c v (Hc : a <= c < e) (Hl : e <= Z.of_nat (length v)) (k : nat) : forall j w,
  0 <= j -> j + Z.of_nat k = L - 1 -> along c j v w ->
  exists w', swap_cycle (S k) b nn m c (orbit c j) w = swap_cycle 1 b nn m c (orbit c (L - 1)) w' /\ along c (L - 1) v w'.
Proof.
  induction k as [|k IH]; intros j w Hj Hk Hw.
  { replace j with (L - 1) in * by lia. by exists w. }
  pose proof (orbit_range c j) as R1. pose proof (orbit_range c (j + 1)) as R2. pose proof (al_length _ _ _ _ Hw) as Hlen.
  assert (forall i, a <= i < e -> is_Some (v !! Z.to_nat i)) as Hv by (intros i Hi; apply lookup_lt_is_Some; lia).
  destruct (Hv _ R1) as [x Hx], (Hv _ R2) as [y Hy].
  assert (forall i, 0 <= i <= j -> orbit c (j + 1) <> orbit c i) as Hfresh.
  { intros i Hi E. apply orbit_inj in E; lia. }
  assert (orbit c (j + 1) <> c) as Hnc by (rewrite <- (orbit_0 c Hc) at 2; apply Hfresh; lia).
  rewrite (swap_cycle_step (S k) c _ w x y); rewrite ?orbit_step; [|done|done|lia| |].
  - apply (IH (j + 1)); [lia|lia|]. split.
    + by rewrite !length_insert.
    + intros i Hi. rewrite list_lookup_insert_ne by (pose proof (orbit_range c (i + 1)); intros E;
        apply Z2Nat.inj in E; [|lia|lia]; rewrite <- (orbit_0 c Hc) in E at 1; apply orbit_inj in E; lia).
      destruct (decide (i = j)) as [->|]; [by rewrite list_lookup_insert_eq by lia|].
      rewrite list_lookup_insert_ne; [apply (al_moved _ _ _ _ Hw); lia|].
      pose proof (orbit_range c (i + 1)). apply to_nat_ne; [lia|lia|]. apply Hfresh. lia.
    + rewrite list_lookup_insert_eq; [done|]. rewrite length_insert. lia.
    + intros i Hi Ho. rewrite !list_lookup_insert_ne; [apply (al_other _ _ _ _ Hw); [done|]; intros; apply Ho; lia| |].
      * apply to_nat_ne; [lia|lia|]. apply not_eq_sym, Ho. lia.
      * apply to_nat_ne; [lia|lia|]. rewrite <- (orbit_0 c Hc) at 1. apply not_eq_sym, Ho. lia.
  - rewrite (al_other _ _ _ _ Hw); [done|lia|done].
  - by rewrite (al_held _ _ _ _ Hw).
Qed.

(** The class of a position: its cycle. *)
Definition class (i : Z) : Z := (i - b) mod g.

Lemma orbit_target_class i : a <= i < e -> a <= target i < e /\ class (target i) = class i.
Proof.
  intros Hi. replace (target i) with (orbit i 1) by (unfold orbit; rewrite target_orbit by done; do 2 f_equal; lia).
  split; [apply orbit_range|apply orbit_class].
Qed.

(** The vector with the cycles of the classes that satisfy [P] rotated. *)
Record rotated (P : Z -> Prop) (v w : list A) : Prop := {
  ro_length : length w = length v;
  ro_moved i : a <= i < e -> P (class i) -> w !! Z.to_nat (target i) = v !! Z.to_nat i;
  ro_other i : 0 <= i -> (~ (a <= i < e) \/ ~ P (class i)) -> w !! Z.to_nat i = v !! Z.to_nat i
}.

Lemma swap_cycle_rotates c v : a <= c < e -> e <= Z.of_nat (length v) ->
  exists w, swap_cycle (Z.to_nat L) b nn m c c v = Some w /\ rotated (fun k => k = class c) v w.
Proof.
  intros Hc Hl. pose proof L_pos. destruct (swap_cycle_along c v Hc Hl (Z.to_nat (L - 1)) 0 v) as (w & E & Hw); [lia|lia| |].
  { split; [done|lia|by rewrite orbit_0|done]. }
  rewrite orbit_0 in E by done. replace (S (Z.to_nat (L - 1))) with (Z.to_nat L) in E by lia.
  pose proof (al_length _ _ _ _ Hw) as Hlen.
  destruct (lookup_lt_is_Some_2 w (Z.to_nat c)) as [x Hx]; [lia|].
  assert (target (orbit c (L - 1)) = c) as Ht.
  { rewrite orbit_step. replace (L - 1 + 1) with L by lia. by apply orbit_L. }
  exists w. rewrite E, (swap_cycle_step 0 c _ w x x); rewrite ?Ht; [|done|apply orbit_range|lia|done|done].
  rewrite !(list_insert_id w) by done. split; [done|]. split; [done| |].
  - intros i Hi Hk. destruct (orbit_surj c i Hc Hi Hk) as (j & Hj & ->). rewrite orbit_step.
    destruct (decide (j = L - 1)) as [->|]; [|apply (al_moved _ _ _ _ Hw); lia].
    replace (L - 1 + 1) with L by lia. rewrite orbit_L by done. apply (al_held _ _ _ _ Hw).
  - intros i Hi Hk. apply (al_other _ _ _ _ Hw); [done|]. intros j Hj ->. destruct Hk as [Hk|Hk]; apply Hk.
    + apply orbit_range.
    + apply orbit_class.
Qed.

Lemma rotated_trans P Q v w u : (forall k, P k -> ~ Q k) -> rotated P v w -> rotated Q w u -> rotated (fun k => P k \/ Q k) v u.
Proof.
  intros Hd [L1 M1 O1] [L2 M2 O2]. split; [congruence| |].
  - intros i Hi Hk. destruct (orbit_target_class i Hi) as [Ht Hc]. destruct Hk as [Hk|Hk].
    + rewrite <- M1 by done. apply O2; [lia|]. right. rewrite Hc. by apply Hd.
    + rewrite M2 by done. apply O1; [lia|]. right. intros Hp. by apply (Hd _ Hp).
  - intros i Hi Hk. rewrite O2, O1; [done|done|tauto|done|tauto].
Qed.

Lemma swap_cycles_rotate (k : nat) : forall i v w, 0 <= i -> i + Z.of_nat k = g -> e <= Z.of_nat (length v) ->
  rotated (fun j => j < i) v w ->
  exists u, swap_cycles k i L b nn m w = Some u /\ rotated (fun j => j < g) v u.
Proof.
  pose proof g_pos as Hg. assert (g <= m) as Hgm.
  { destruct m_L as (m' & E & _). assert (0 < m) by (unfold m; lia). assert (1 <= m') by nia. rewrite E. rewrite <- (Z.mul_1_r g) at 1. apply Z.mul_le_mono_nonneg_l; lia. }
  induction k as [|k IH]; intros i v w Hi Hk Hl Hr.
  { exists w. replace g with i by lia. done. }
  pose proof (ro_length _ _ _ Hr) as Hlen.
  destruct (swap_cycle_rotates (b + i) w) as (u & E & Hu); [unfold m in *; lia|lia|].
  assert (class (b + i) = i) as Hc by (unfold class; rewrite Z.mod_small; lia). rewrite Hc in Hu.
  cbn [swap_cycles]. rewrite E. cbn [mbind option_bind]. apply (IH (i + 1) v u); [lia|lia|done|].
  assert (rotated (fun j => j < i \/ j = i) v u) as R by (apply (rotated_trans _ _ _ w); [lia|done|done]).
  destruct R as [R1 R2 R3]. split; [done| |].
  - intros j Hj Hk'. apply R2; [done|lia].
  - intros j Hj Hk'. apply R3; [done|lia].
Qed.

Lemma rotated_refl v : rotated (fun j => j < 0) v v.
Proof. pose proof g_pos as Hg. split; [done| |done]. intros i _ H. unfold class in H. pose proof (Z.mod_pos_bound (i - b) g Hg). lia. Qed.

(** The fully rotated vector. *)
Lemma rotated_all v w : e <= Z.of_nat (length v) -> rotated (fun j => j < g) v w ->
  w = take (Z.to_nat a) v ++ take (Z.to_nat m) (drop (Z.to_nat b) v) ++ take (Z.to_nat nn) (drop (Z.to_nat a) v) ++ drop (Z.to_nat e) v.
Proof.
  intros Hl Hr. pose proof g_pos as Hg.
  assert (forall i, a <= i < e -> w !! Z.to_nat (target i) = v !! Z.to_nat i) as M.
  { intros i Hi. apply (ro_moved _ _ _ Hr); [done|]. by apply Z.mod_pos_bound. }
  assert (forall i, 0 <= i -> ~ a <= i < e -> w !! Z.to_nat i = v !! Z.to_nat i) as O.
  { intros i Hi Hn. apply (ro_other _ _ _ Hr); auto. }
  clear Hr. apply list_eq. intros i. unfold nn, m in *.
  destruct (decide (i < Z.to_nat a)%nat) as [H1|H1].
  { rewrite lookup_app_l by (rewrite length_take; lia). rewrite lookup_take_lt by done.
    specialize (O (Z.of_nat i) ltac:(lia) ltac:(lia)). by rewrite Nat2Z.id in O. }
  rewrite lookup_app_r, length_take by (rewrite length_take; lia). rewrite Nat.min_l by lia.
  destruct (decide (i < Z.to_nat (a + (e - b)))%nat) as [H2|H2].
  { rewrite lookup_app_l by (rewrite length_take, length_drop; lia). rewrite lookup_take_lt, lookup_drop by lia.
    specialize (M (Z.of_nat i + (b - a)) ltac:(lia)). unfold target, nn in M. rewrite (proj2 (Z.leb_le _ _)) in M by lia.
    replace (Z.to_nat (Z.of_nat i + (b - a) - (b - a))) with i in M by lia. rewrite M. f_equal. lia. }
  rewrite lookup_app_r, length_take, length_drop by (rewrite length_take, length_drop; lia). rewrite Nat.min_l by lia.
  destruct (decide (i < Z.to_nat e)%nat) as [H3|H3].
  { rewrite lookup_app_l by (rewrite length_take, length_drop; lia). rewrite lookup_take_lt, lookup_drop by lia.
    specialize (M (Z.of_nat i - (e - b)) ltac:(lia)). unfold target, m in M. rewrite (proj2 (Z.leb_gt _ _)) in M by lia.
    replace (Z.to_nat (Z.of_nat i - (e - b) + (e - b))) with i in M by lia. rewrite M. f_equal. lia. }
  rewrite lookup_app_r, length_take, length_drop by (rewrite length_take, length_drop; lia). rewrite Nat.min_l, lookup_drop by lia.
  specialize (O (Z.of_nat i) ltac:(lia) ltac:(lia)). rewrite Nat2Z.id in O. rewrite O. f_equal. lia.
Qed.

Lemma permute_args_run v : e <= Z.of_nat (length v) ->
  permute_args a b e v =
  Some (take (Z.to_nat a) v ++ take (Z.to_nat m) (drop (Z.to_nat b) v) ++ take (Z.to_nat nn) (drop (Z.to_nat a) v) ++ drop (Z.to_nat e) v).
Proof.
  intros Hl. pose proof g_pos as Hg. unfold permute_args. fold nn. fold m. rewrite gcd_correct by (unfold nn, m; lia). fold g.
  cbn [mbind option_bind]. fold n. rewrite Z.quot_div_nonneg by (unfold n; lia). fold L.
  destruct (swap_cycles_rotate (Z.to_nat g) 0 v v) as (w & E & Hw); [lia|lia|done|apply rotated_refl|].
  rewrite E. f_equal. by apply rotated_all.
Qed.
End Vector.
End Rotation.

(** On a vector given by its blocks. *)
Lemma permute_blocks {A : Type} (pre xs ys post : list A) :
  xs <> [] -> ys <> [] ->
  permute_args (Z.of_nat (length pre)) (Z.of_nat (length (pre ++ xs))) (Z.of_nat (length (pre ++ xs ++ ys)))
    (pre ++ xs ++ ys ++ post) = Some (pre ++ ys ++ xs ++ post).
Proof.
  intros Hx Hy. assert (0 < length xs)%nat by (by destruct xs; [|cbn; lia]). assert (0 < length ys)%nat by (by destruct ys; [|cbn; lia]).
  rewrite permute_args_run by (rewrite ?length_app; lia). unfold m, nn. do 2 f_equal; [|f_equal; [|f_equal]].
  - by rewrite Nat2Z.id, take_app_length.
  - rewrite Nat2Z.id, (app_assoc pre xs (ys ++ post)), drop_app_length, take_app_le by (rewrite ?length_app; lia).
    rewrite take_ge; [done|]. rewrite !length_app. lia.
  - rewrite Nat2Z.id, drop_app_length, take_app_le by (rewrite ?length_app; lia).
    rewrite take_ge; [done|]. rewrite !length_app. lia.
  - rewrite Nat2Z.id, !app_assoc, drop_app_length'; [done|]. rewrite !length_app. lia.
Qed.

(** C13: for two non-empty neighbouring blocks inside the vector, [permute_args]
    exchanges the blocks and keeps the order within each, whatever their lengths;
    it never leaves the vector, and its [gcd] never divides by zero. *)
Theorem permute_args_exchanges {A : Type} (pre xs ys post : list A) :
  xs <> [] -> ys <> [] ->
  permute_args (Z.of_nat (length pre)) (Z.of_nat (length (pre ++ xs))) (Z.of_nat (length (pre ++ xs ++ ys)))
    (pre ++ xs ++ ys ++ post) = Some (pre ++ ys ++ xs ++ post).
Proof. apply permute_blocks. Qed.

Lemma permute_args_exchanges_witness :
  permute_args 1 7 11 [100; 0; 0; 0; 0; 0; 0; 1; 2; 3; 4; 101] = Some [100; 1; 2; 3; 4; 0; 0; 0; 0; 0; 0; 101].
Proof. exact (permute_args_exchanges [100] [0; 0; 0; 0; 0; 0] [1; 2; 3; 4] [101] ltac:(discriminate) ltac:(discriminate)). Defined.
End GetoptPermute.
