(* ===== verification/GetoptProofs.v ===== *)
(** * GetoptProofs: the argument vector under the parser of src/src/getopt.c

    The invariant of the parser between calls: the arguments before [optind] are
    those of the original vector, with the options and the non-options skipped so
    far each in their original order; the state variables delimit the blocks.
    From it follow the safety of every call (no access outside the vector, no
    division by zero in [permute_args], enough rounds), the stable partition a
    finished parse leaves, and the termination of the caller's loop. *)

From S2P Require Import Prelude CString Getopt GetoptPermute.
From Stdlib Require Import Ascii.

Module Export GetoptProofs.
Local Open Scope Z_scope.

(** [l] consists of the elements of [xs] and [ys], each in order. *)
Inductive shuffle {A} : list A -> list A -> list A -> Prop :=
  | sh_nil : shuffle [] [] []
  | sh_left xs ys l x : shuffle xs ys l -> shuffle (xs ++ [x]) ys (l ++ [x])
  | sh_right xs ys l y : shuffle xs ys l -> shuffle xs (ys ++ [y]) (l ++ [y]).

Lemma shuffle_length {A} (xs ys l : list A) : shuffle xs ys l -> length l = (length xs + length ys)%nat.
Proof. induction 1; rewrite ?length_app; cbn; lia. Qed.
Lemma shuffle_left {A} (xs : list A) : shuffle xs [] xs.
Proof. induction xs using rev_ind; by constructor. Qed.
Lemma shuffle_Permutation {A} (xs ys l : list A) : shuffle xs ys l -> Permutation l (xs ++ ys).
Proof.
  induction 1 as [|xs ys l x _ IH|xs ys l y _ IH]; [done| |].
  - rewrite IH. rewrite <- !app_assoc. f_equiv. cbn. symmetry. apply Permutation_cons_append.
  - by rewrite IH, app_assoc.
Qed.

Lemma eqc_spec_true a b : eqc a b = true -> a = b.
Proof. by destruct (eqc_spec a b). Qed.

Definition starts_dash (a : arg) : Prop := exists c t, arg_text a = "-"%char :: c :: t /\ c <> NUL.

(** ** Options that are found *)

(** What a call changes besides the arguments it takes. *)
Definition same_vector (s s' : state) : Prop :=
  nargv s' = nargv s /\ nonopt_start s' = nonopt_start s /\ nonopt_end s' = nonopt_end s /\
  posixly_correct s' = posixly_correct s.

Lemma find_long_range ls cur len short_too : forall i m,
  (m = -1 \/ 0 <= m < i) -> 0 <= i -> forall r, find_long ls cur len short_too i m = Match r ->
  r = -1 \/ 0 <= r < i + Z.of_nat (length ls).
Proof.
  induction ls as [|o ls IH]; intros i m Hm Hi r H; cbn [find_long length] in *.
  { simplify_eq. lia. }
  repeat split_if_in H; simplify_eq; try (apply IH in H; lia); lia.
Qed.

Lemma argv_at_in s i : 0 <= i <= nargc s -> exists a, argv_at s i = Some a /\ (a <> None -> i < nargc s).
Proof.
  intros Hi. unfold argv_at. destruct (Z.leb_spec 0 i); [|lia]. destruct (Z.ltb_spec i (nargc s)); cbn.
  - eexists. split; [done|]. done.
  - rewrite (proj2 (Z.eqb_eq _ _)) by lia. by exists None.
Qed.

(** No option returns -1, the value that ends a parse. *)
Definition plain_vals (ls : list long_option) : Prop := Forall (fun o => val o <> -1) ls.

Lemma BADARG_ne o : BADARG o <> -1.
Proof. unfold BADARG. by destruct (eqc _ _). Qed.

Lemma parse_long_run options ls want_idx short_too s : 0 <= optind s < nargc s -> plain_vals ls ->
  exists r s', parse_long_options options ls want_idx short_too s = Some (r, s') /\ same_vector s s' /\ place s' = place s /\
    ((optind s' = optind s /\ short_too = true /\ r = -1) \/
     (r <> -1 /\ (optind s' = optind s + 1 \/ (optind s' = optind s + 2 /\ optind s + 2 <= nargc s)))).
Proof.
  intros Hi Hvals. unfold parse_long_options. pose proof (BADARG_ne options) as Hbad. set (cur := place_text (place s)).
  set (eqp := (fun i => drop (S i) cur) <$> strchr cur "="%char). set (len := match strchr cur "="%char with Some i => i | None => length cur end).
  destruct (find_long ls cur len short_too 0 (-1)) as [|i] eqn:Ef.
  { eexists _, _. split; [done|]. split_and!; [done|done|]. right. split; [done|by left]. }
  destruct (Z.eqb_spec i (-1)) as [->|Hne]; cbn [negb].
  { destruct short_too; eexists _, _; (split; [done|]); split_and!; try done; [left|right; split; [done|by left]].
    cbn. split_and!; [lia|done|done]. }
  destruct (find_long_range ls cur len short_too 0 (-1) ltac:(by left) ltac:(lia) i Ef) as [?|Hr]; [done|].
  destruct (lookup_lt_is_Some_2 ls (Z.to_nat i)) as [o Eo]; [lia|]. assert (val o <> -1) as Hval by (by eapply Forall_lookup_1 in Hvals). rewrite Eo. cbn [mbind option_bind].
  destruct (bool_decide (has_arg o = no_argument) && bool_decide (eqp <> None)).
  { eexists _, _. split; [done|]. split_and!; [done|done|]. right. split; [done|by left]. }
  destruct (argv_at_in (set_optind (optind s + 1) s) (optind (set_optind (optind s + 1) s))) as (na & Ena & Hna); [cbn; unfold nargc in *; cbn; lia|].
  assert (forall t, exists r s', (if bool_decide (has_arg o = required_argument) && bool_decide (optarg t = None) then
      Some (BADARG options, set_optind (optind t - 1) (set_optopt (optopt_of o) t))
    else Some (found_long o i want_idx t)) = Some (r, s') /\ same_vector t s' /\ place s' = place t /\ r <> -1 /\
      ((optind s' = optind t - 1 /\ has_arg o = required_argument /\ optarg t = None) \/
       (optind s' = optind t /\ (has_arg o = required_argument -> optarg t <> None)))) as Hlast.
  { intros t. destruct (bool_decide _ && bool_decide _) eqn:E.
    - bool_prop. apply bool_decide_eq_true in H, H0. eexists _, _. split; [done|]. split_and!; try done. by left.
    - eexists _, _. split; [apply f_equal, surjective_pairing|]. unfold found_long. destruct want_idx, (flag o); cbn; split_and!; try done;
        right; (split; [done|]); intros Hr1 Hr2; by rewrite Hr1, Hr2 in E. }
  destruct (has_arg o) eqn:Ea, eqp as [eq|]; cbn [mbind option_bind]; rewrite ?Ena; cbn [mbind option_bind];
    match goal with |- context [optarg ?t] => destruct (Hlast t) as (r & s' & -> & V & P & R & I) end;
    exists r, s'; (split; [done|]); (split; [exact V|]); (split; [exact P|]); cbn in I;
    destruct I as [(I & I1 & I2)|(I & I1)]; try done; rewrite ?I; try (right; split; [exact R|]; left; lia).
  right. split; [exact R|]. right. split; [lia|]. assert (na <> None) as Hn by (intros ->; by apply I1). apply Hna in Hn. unfold nargc in *. cbn in Hn. lia.
Qed.

Section Calls.
Context (argv0 : list arg) (options : cstr) (flags : Z).

(** The test of the source for an argument that is not an option. *)
Definition nonoption (a : arg) : bool :=
  negb (eqc (deref (At a 0)) "-"%char) ||
  eqc (deref (advance (At a 0))) NUL && bool_decide (strchr options "-"%char = None).

(** Non-options are skipped. *)
Definition permuting : bool := (Z.land flags FLAG_ALLARGS =? 0) && negb (Z.land flags FLAG_PERMUTE =? 0).

(** The arguments taken as options, behind the name of the program: options, each with the arguments it takes (two
    for [-W name value]), and the operands that are returned in order. *)
Inductive taken : list arg -> Prop :=
  | tk_prog p : taken [p]
  | tk_option O a l : taken O -> nonoption a = false -> (length l <= 2)%nat -> taken (O ++ a :: l)
  | tk_inorder O a : taken O -> nonoption a = true -> Z.land flags FLAG_ALLARGS <> 0 -> taken (O ++ [a]).

(** Why a parse ends before [rest]: nothing is left, [--] was the last option, or [rest] starts with an operand that is
    not skipped. *)
Definition ending (O rest : list arg) : Prop :=
  rest = [] \/ (exists O' d, O = O' ++ [d] /\ arg_text d = ["-"; "-"]%char) \/
  (permuting = false /\ Z.land flags FLAG_ALLARGS = 0 /\ exists a rest', rest = a :: rest' /\ nonoption a = true).

(** The blocks: options, skipped non-options, options found behind them, the rest. *)
Record blocks (s : state) (O1 N O2 rest : list arg) : Prop := {
  bl_nargv : nargv s = O1 ++ N ++ O2 ++ rest;
  bl_shuffle : exists pre, argv0 = pre ++ rest /\ shuffle (O1 ++ O2) N pre /\ optind s = Z.of_nat (length pre);
  bl_prog : O1 <> [];
  bl_taken : taken (O1 ++ O2);
  bl_nonopts : Forall (fun a => nonoption a = true) N;
  bl_inorder : permuting = false -> N = [];
  bl_marks : (nonopt_start s = -1 /\ nonopt_end s = -1 /\ N = [] /\ O2 = []) \/
             (nonopt_start s = Z.of_nat (length O1) /\ N <> [] /\
               ((nonopt_end s = -1 /\ O2 = []) \/ nonopt_end s = Z.of_nat (length (O1 ++ N))))
}.

(** [place] is exhausted or points into the argument at [optind]. *)
Definition place_ok (s : state) (rest : list arg) : Prop :=
  deref (place s) = NUL \/
  exists a off rest', rest = a :: rest' /\ place s = At a off /\ (1 <= off)%nat /\ starts_dash a /\
    (nonopt_start s = -1 \/ nonopt_end s <> -1).

Definition marked (s : state) (O2 rest : list arg) : Prop :=
  nonopt_end s <> -1 -> O2 <> [] \/ exists a rest', rest = a :: rest' /\ starts_dash a.

Definition inv (s : state) : Prop := exists O1 N O2 rest,
  blocks s O1 N O2 rest /\ place_ok s rest /\ marked s O2 rest.

(** A finished parse: the options in front, then the non-options, then the rest. *)
Definition finished (s : state) : Prop := exists O N rest pre,
  nargv s = O ++ N ++ rest /\ optind s = Z.of_nat (length O) /\
  argv0 = pre ++ rest /\ shuffle O N pre /\ Forall (fun a => nonoption a = true) N /\
  taken O /\ (permuting = false -> N = []) /\ ending O rest /\
  nonopt_start s = -1 /\ nonopt_end s = -1 /\ deref (place s) = NUL.

Lemma blocks_optind s O1 N O2 rest : blocks s O1 N O2 rest ->
  optind s = Z.of_nat (length (O1 ++ N ++ O2)) /\ nargc s = Z.of_nat (length (O1 ++ N ++ O2) + length rest).
Proof.
  intros [Hv (pre & _ & Hs & Hi) _ _ _ _ _]. apply shuffle_length in Hs. unfold nargc. rewrite Hv, Hi, Hs, !length_app. lia.
Qed.

Lemma argv_at_optind s O1 N O2 rest : blocks s O1 N O2 rest -> argv_at s (optind s) = Some (head rest).
Proof.
  intros Hb. destruct (blocks_optind _ _ _ _ _ Hb) as [Hi Hn]. unfold argv_at. rewrite Hi, Hn. destruct rest as [|a rest].
  - rewrite (proj2 (Z.leb_le _ _)), (proj2 (Z.ltb_ge _ _)) by (cbn; lia). cbn [andb length]. by rewrite Nat.add_0_r, Z.eqb_refl.
  - rewrite (proj2 (Z.leb_le _ _)), (proj2 (Z.ltb_lt _ _)) by (cbn; lia). cbn [andb head]. rewrite (bl_nargv _ _ _ _ _ Hb), Nat2Z.id.
    f_equal. rewrite !app_assoc, lookup_app_r by (rewrite !length_app; lia). rewrite !length_app.
    replace (_ - _)%nat with 0%nat by lia. done.
Qed.

(** The state variables the blocks depend on. *)
Lemma blocks_ext s s' O1 N O2 rest : blocks s O1 N O2 rest -> nargv s' = nargv s -> optind s' = optind s ->
  nonopt_start s' = nonopt_start s -> nonopt_end s' = nonopt_end s -> blocks s' O1 N O2 rest.
Proof. intros [H1 H2 H3 H4 H5 H6 H7] E1 E2 E3 E4. split; rewrite ?E1, ?E2, ?E3, ?E4; done. Qed.

Lemma shuffle_app_left {A} (xs ys l zs : list A) : shuffle xs ys l -> shuffle (xs ++ zs) ys (l ++ zs).
Proof.
  intros H. induction zs as [|z zs IH] using rev_ind; [by rewrite !app_nil_r|]. rewrite !app_assoc. by constructor.
Qed.

(** Arguments consumed by options. *)
Lemma blocks_consume s s' O1 N O2 xs rest :
  blocks s O1 N O2 (xs ++ rest) -> (N <> [] -> nonopt_end s <> -1) -> nargv s' = nargv s ->
  optind s' = optind s + Z.of_nat (length xs) -> nonopt_start s' = nonopt_start s -> nonopt_end s' = nonopt_end s ->
  (taken (O1 ++ O2) -> taken ((O1 ++ O2) ++ xs)) ->
  exists O1' O2', blocks s' O1' N O2' rest /\ (N <> [] -> O2' = O2 ++ xs) /\ O1' ++ O2' = (O1 ++ O2) ++ xs.
Proof.
  intros [Hv (pre & Ha & Hs & Hi) Hp Htk Hf Hin Hm] Hend E1 E2 E3 E4 Hxs. specialize (Hxs Htk).
  assert (exists pre', argv0 = pre' ++ rest /\ shuffle ((O1 ++ O2) ++ xs) N pre' /\ optind s' = Z.of_nat (length pre')) as Hpre.
  { exists (pre ++ xs). split_and!; [by rewrite <- app_assoc|by apply shuffle_app_left|rewrite length_app; lia]. }
  destruct Hm as [(M1 & M2 & -> & ->)|(M1 & HN & M2)].
  - exists (O1 ++ xs), []. split; [|by rewrite !app_nil_r]. split; rewrite ?E1, ?E3, ?E4, ?app_nil_r in *; [|done| |done|done|done|by left].
    + rewrite Hv. cbn. by rewrite app_assoc.
    + by destruct O1.
  - exists O1, (O2 ++ xs). split; [|by rewrite app_assoc]. split; rewrite ?E1, ?E3, ?E4; [|by rewrite app_assoc|done|by rewrite app_assoc|done|done|].
    + rewrite Hv, <- app_assoc. done.
    + right. split_and!; [done|done|]. right. destruct M2 as [[M2 _]|M2]; [|done]. by apply Hend in HN.
Qed.

Lemma permute_run s O1 N O2 rest : blocks s O1 N O2 rest -> nonopt_end s <> -1 -> O2 <> [] ->
  permute s = Some (set_nargv (O1 ++ O2 ++ N ++ rest) s) /\ nonopt_start s = Z.of_nat (length O1) /\
  nonopt_end s = Z.of_nat (length (O1 ++ N)) /\ N <> [].
Proof.
  intros Hb He HO. destruct (blocks_optind _ _ _ _ _ Hb) as [Hi _]. destruct Hb as [Hv _ _ _ _ _ Hm].
  destruct Hm as [(_ & ? & _)|(M1 & HN & [[? _]|M2])]; [done|done|]. split_and!; [|done|done|done].
  unfold permute. by rewrite M1, M2, Hv, Hi, permute_blocks by done.
Qed.

(** The permutation at the end of the options. *)
Lemma finish_run s O1 N O2 rest : blocks s O1 N O2 rest -> (nonopt_end s = -1 -> N = []) -> (nonopt_end s <> -1 -> O2 <> []) ->
  deref (place s) = NUL -> ending (O1 ++ O2) rest -> exists s', finish s = Some s' /\ finished s'.
Proof.
  intros Hb HN HO Hp Hen. pose proof (bl_taken _ _ _ _ _ Hb) as Htk. pose proof (bl_inorder _ _ _ _ _ Hb) as Hino. destruct (bl_shuffle _ _ _ _ _ Hb) as (pre & Ha & Hs & _). pose proof (bl_nonopts _ _ _ _ _ Hb) as Hf.
  unfold finish. destruct (Z.eqb_spec (nonopt_end s) (-1)) as [E|E].
  - rewrite (HN E) in *. destruct (blocks_optind _ _ _ _ _ Hb) as [Hi _]. cbn [app] in Hi. eexists. split; [done|].
    exists (O1 ++ O2), [], rest, pre. cbn. split_and!; try done.
    rewrite (bl_nargv _ _ _ _ _ Hb). cbn. by rewrite app_assoc.
  - destruct (permute_run _ _ _ _ _ Hb E (HO E)) as (-> & E1 & E2 & _). destruct (blocks_optind _ _ _ _ _ Hb) as [Hi _].
    cbn [mbind option_bind]. eexists. split; [done|]. exists (O1 ++ O2), N, rest, pre. cbn. split_and!; try done.
    + by rewrite <- app_assoc.
    + rewrite Hi, E1, E2, !length_app. lia.
Qed.

Lemma nonoption_not_dash a : nonoption a = true -> ~ starts_dash a.
Proof.
  intros H (c & t & E & Hc). unfold nonoption, deref, advance, place_text in H. rewrite E in H. cbn [drop char_at nth] in H.
  bool_prop. destruct H as [H|H]; [done|]. bool_prop. by apply eqc_spec_true in H.
Qed.

Lemma skip_nonoption_run s O1 N O2 a rest :
  blocks s O1 N O2 (a :: rest) -> marked s O2 (a :: rest) -> nonoption a = true -> permuting = true ->
  exists s' O1' N', skip_nonoption s = Some s' /\ blocks s' O1' N' [] rest /\ nonopt_end s' = -1 /\
    nargc s' = nargc s /\ optind s' = optind s + 1 /\ place s' = place s /\ posixly_correct s' = posixly_correct s /\
    optarg s' = optarg s.
Proof.
  intros Hb Hm Ha Hall. pose proof (blocks_optind _ _ _ _ _ Hb) as [Hi _].
  pose proof Hb as [Hv (pre & Har & Hs & Hi') Hpr Htk Hf _ Hmk].
  assert (forall xs ys : list arg, shuffle xs ys pre -> exists pre', argv0 = pre' ++ rest /\
    shuffle xs (ys ++ [a]) pre' /\ optind s + 1 = Z.of_nat (length pre')) as Hpre.
  { intros xs ys Hsh. exists (pre ++ [a]). split_and!; [by rewrite <- app_assoc|by constructor|rewrite length_app; cbn; lia]. }
  assert (Forall (fun a => nonoption a = true) (N ++ [a])) as Hf' by (by apply Forall_app; split; [|constructor]).
  unfold skip_nonoption. destruct Hmk as [(M1 & M2 & -> & ->)|(M1 & HN & [[M2 ->]|M2])].
  - rewrite M1. cbn [Z.eqb Pos.eqb mbind option_bind]. eexists _, O1, [a]. split; [done|]. split_and!; try done. split; try done; try congruence.
    + rewrite app_nil_r in *. by apply (Hpre O1 []).
    + right. split_and!; [cbn; rewrite Hi, app_nil_r; done|done|by left].
  - rewrite M1, (proj2 (Z.eqb_neq _ _)) by lia. rewrite M2. cbn [Z.eqb Pos.eqb mbind option_bind].
    eexists _, O1, (N ++ [a]). split; [done|]. split_and!; try done. split; try done; try congruence.
    + cbn. rewrite Hv, <- app_assoc. done.
    + cbn. rewrite app_nil_r in *. by apply Hpre.
    + right. cbn. split_and!; [done|by destruct N|by left].
  - assert (nonopt_end s <> -1) as E by lia. rewrite (proj2 (Z.eqb_neq (nonopt_start s) _)) by lia.
    rewrite (proj2 (Z.eqb_neq _ _) E). destruct (Hm E) as [HO|(a' & ? & [= <- <-] & Hd)]; [|by apply nonoption_not_dash in Ha].
    destruct (permute_run _ _ _ _ _ Hb E HO) as (-> & _). cbn [mbind option_bind].
    eexists _, (O1 ++ O2), (N ++ [a]). split; [done|]. split_and!; try done.
    + split; try done; try congruence; cbn.
      * by rewrite <- !app_assoc.
      * rewrite app_nil_r. by apply Hpre.
      * by destruct O1.
      * by rewrite app_nil_r.
      * right. split_and!; [rewrite M1, M2, Hi, !length_app; lia|by destruct N|by left].
    + unfold nargc. cbn. rewrite Hv, !length_app. lia.
Qed.

(** The state behind the loop: [place] in the argument at [optind]. *)
Record ready (s : state) (O1 N O2 : list arg) (a : arg) (rest : list arg) (off : nat) : Prop := {
  rd_blocks : blocks s O1 N O2 (a :: rest);
  rd_place : place s = At a off;
  rd_char : deref (place s) <> NUL;
  rd_off : ((1 <= off)%nat /\ starts_dash a) \/
           (off = 0%nat /\ arg_text a = ["-"%char] /\ strchr options "-"%char <> None);
  rd_marks : N <> [] -> nonopt_end s <> -1
}.

Lemma ready_start s s1 O1 N O2 a rest off : blocks s O1 N O2 (a :: rest) ->
  s1 = set_place (At a off) (if negb (nonopt_start s =? -1) && (nonopt_end s =? -1)
                             then set_nonopt (nonopt_start s) (optind s) s else s) ->
  deref (At a off) <> NUL -> (((1 <= off)%nat /\ starts_dash a) \/
    (off = 0%nat /\ arg_text a = ["-"%char] /\ strchr options "-"%char <> None)) ->
  ready s1 O1 N O2 a rest off.
Proof.
  intros Hb -> Hd Ho. pose proof (blocks_optind _ _ _ _ _ Hb) as [Hi _]. pose proof Hb as [Hv Hs Hp Htk Hf Hin Hm].
  destruct Hm as [(M1 & M2 & -> & ->)|(M1 & HN & M2)].
  - rewrite M1. cbn [Z.eqb Pos.eqb negb andb]. split; [|done|done|done|done]. by apply (blocks_ext s).
  - rewrite (proj2 (Z.eqb_neq (nonopt_start s) _)) by lia. cbn [negb andb].
    destruct (Z.eqb_spec (nonopt_end s) (-1)) as [E|E].
    + destruct M2 as [[_ ->]|M2]; [|lia]. split; [|done|done|done|cbn; lia]. split; try done. cbn. right.
      split_and!; [done|done|]. right. by rewrite Hi, !length_app, Nat.add_0_r.
    + split; [|done|done|done|done]. by apply (blocks_ext s).
Qed.

Lemma deref_nul a off : eqc (deref (At a off)) NUL = false -> deref (At a off) <> NUL.
Proof. intros H E. by rewrite E in H. Qed.

Lemma option_arg a : nonoption a = false ->
  (deref (advance (At a 0)) = NUL -> NUL ∉ arg_text a -> arg_text a = ["-"%char] /\ strchr options "-"%char <> None) /\
  (deref (advance (At a 0)) <> NUL -> starts_dash a) /\ deref (At a 0) = "-"%char.
Proof.
  unfold nonoption, deref, advance, place_text. intros H. bool_prop.
  assert (char_at (drop 0 (arg_text a)) 0 = "-"%char) as E by (by apply eqc_spec_true).
  destruct (arg_text a) as [|c [|d t]] eqn:Et; [done| |]; cbn in E; subst c; cbn [drop char_at nth] in *.
  - split_and!; [|done|done]. intros _ _. split; [done|]. intros E.
    destruct H0 as [H0|H0]; [done|]. by apply bool_decide_eq_false in H0.
  - split_and!; [|by exists d, t|done]. intros -> Hn. exfalso. apply Hn. right. apply list_elem_of_here.
Qed.

Lemma dashes_text a : NUL ∉ arg_text a -> eqc (deref (At a 0)) "-"%char = true -> eqc (deref (advance (At a 0))) "-"%char = true ->
  eqc (deref (advance (advance (At a 0)))) NUL = true -> arg_text a = ["-"; "-"]%char.
Proof.
  unfold deref, advance, place_text. intros Hn E1%eqc_spec_true E2%eqc_spec_true E3%eqc_spec_true. destruct (arg_text a) as [|c [|d [|e t]]]; [done|done| |].
  - cbn in E1, E2. by subst.
  - cbn in E3. subst e. exfalso. apply Hn. do 2 right. apply list_elem_of_here.
Qed.

Context (Hargs : Forall (fun a => NUL ∉ arg_text a) argv0).

Lemma rest_args s O1 N O2 a rest : blocks s O1 N O2 (a :: rest) -> NUL ∉ arg_text a.
Proof.
  intros Hb. destruct (bl_shuffle _ _ _ _ _ Hb) as (pre & E & _). rewrite E in Hargs.
  apply Forall_app in Hargs as [_ H]. by apply Forall_cons in H as [? _].
Qed.

(** What is left to parse. *)
Definition weight (rest : list arg) : nat := sum_list_with (fun a => S (length (arg_text a))) rest.

Lemma weight_cons a rest : weight (a :: rest) = (S (length (arg_text a)) + weight rest)%nat.
Proof. done. Qed.

(** The loop ends: at the end of the vector, at a non-option that is not skipped,
    at [--], or at an option. *)
Definition scanned (s : state) (rest : list arg) (x : next) : Prop :=
  match x with
  | Return r s' => (r = -1 /\ finished s') \/
      (r = INORDER /\ exists O1 N O2 rest', blocks s' O1 N O2 rest' /\ marked s' O2 rest' /\
         deref (place s') = NUL /\ (weight rest' < weight rest)%nat)
  | Proceed s' => exists O1 N O2 a rest' off, ready s' O1 N O2 a rest' off /\
      ((s' = s /\ rest = a :: rest') \/ ((off <= 1)%nat /\ (weight (a :: rest') <= weight rest)%nat))
  end.

Lemma scan_option s O1 N O2 a rest fuel : blocks s O1 N O2 (a :: rest) -> nonoption a = false -> deref (place s) = NUL ->
  exists x, scan_args (S fuel) options flags false s = Some x /\ scanned s (a :: rest) x.
Proof.
  intros Hb Ha Hp. pose proof (blocks_optind _ _ _ _ _ Hb) as [Hi Hn]. cbn [scan_args]. rewrite Hp.
  change (false || eqc NUL NUL) with true. cbn match. rewrite (proj2 (Z.leb_gt _ _)) by (rewrite Hi, Hn; cbn; lia).
  rewrite (argv_at_optind _ _ _ _ _ Hb). cbn [mbind option_bind head]. fold (nonoption a). rewrite Ha.
  destruct (option_arg a Ha) as (H1 & H2 & H3). pose proof (rest_args _ _ _ _ _ _ Hb) as Hnul.
  set (s1 := if negb (nonopt_start s =? -1) && (nonopt_end s =? -1) then _ else s).
  destruct (eqc (deref (advance (At a 0))) NUL) eqn:E1.
  { eexists. split; [done|]. exists O1, N, O2, a, rest, 0%nat. split; [|right; lia].
    apply eqc_spec_true in E1. eapply ready_start; [done|done|rewrite H3; done|]. right. destruct (H1 E1 Hnul). done. }
  pose proof (H2 (deref_nul _ _ E1)) as Hd.
  assert (ready (set_place (At a 1) s1) O1 N O2 a rest 1) as Hr.
  { eapply ready_start; [done|done|by apply deref_nul|]. left. split; [lia|done]. }
  destruct (eqc _ "-"%char && _) eqn:E2.
  - destruct Hr as [Hr1 _ _ _ Hr2].
    destruct (blocks_consume (set_place (At a 1) s1) (set_place EMSG (set_optind (optind s1 + 1) s1)) O1 N O2 [a] rest)
      as (O1' & O2' & Hb' & HO2 & HO); try done; [intros Htk; apply tk_option; [done|done|cbn; lia]|].
    destruct (finish_run _ _ _ _ _ Hb') as (s' & E & Hf); [| |done| |].
    + intros E. destruct N; [done|]. exfalso. by apply Hr2.
    + intros E. rewrite HO2; [by destruct O2|]. intros ->. destruct (bl_marks _ _ _ _ _ Hb') as [(_ & ? & _)|(_ & ? & _)]; done.
    + right; left. exists (O1 ++ O2), a. split; [done|]. bool_prop. apply dashes_text; [done|by rewrite H3|done|done].
    + rewrite E. eexists. split; [done|]. by left.
  - eexists. split; [done|]. exists O1, N, O2, a, rest, 1%nat. split; [done|]. right. lia.
Qed.

Lemma scan_end s O1 N O2 fuel : blocks s O1 N O2 [] -> marked s O2 [] -> deref (place s) = NUL ->
  exists x, scan_args (S fuel) options flags false s = Some x /\ scanned s [] x.
Proof.
  intros Hb Hm Hp. pose proof (blocks_optind _ _ _ _ _ Hb) as [Hi Hn]. cbn [scan_args]. rewrite Hp.
  change (false || eqc NUL NUL) with true. cbn match. rewrite (proj2 (Z.leb_le _ _)) by (rewrite Hi, Hn; cbn; lia).
  assert (blocks (set_place EMSG s) O1 N O2 []) as Hb' by (by apply (blocks_ext s)).
  destruct (_ && _) eqn:E; cbn [nonopt_end nonopt_start set_place] in E.
  - cbn [mbind option_bind]. eexists. split; [done|]. left. split; [done|]. bool_prop.
    destruct Hb as [Hv (pre & Ha & Hs & _) _ Htk Hf Hino Hmk]. destruct Hmk as [(? & _)|(M1 & HN & [[_ ->]|M2])]; [done| |lia].
    exists O1, N, [], pre. cbn. rewrite ?app_nil_r in *. split_and!; try done. by left.
  - destruct (finish_run _ _ _ _ _ Hb') as (s' & Ef & Hf); [| |done|by left|].
    + cbn. intros E'. destruct (bl_marks _ _ _ _ _ Hb) as [(_ & _ & ? & _)|(M1 & HN & _)]; [done|].
      rewrite E' in E. bool_prop. destruct E; [done|]. bool_prop. lia.
    + cbn. intros E'. destruct (Hm E') as [?|(? & ? & ? & _)]; done.
    + rewrite Ef. eexists. split; [done|]. by left.
Qed.

Lemma scan_args_run fuel : forall s O1 N O2 rest,
  blocks s O1 N O2 rest -> place_ok s rest -> marked s O2 rest -> (length rest < fuel)%nat ->
  exists x, scan_args fuel options flags false s = Some x /\ scanned s rest x.
Proof.
  induction fuel as [|fuel IH]; intros s O1 N O2 rest Hb Hp Hm Hf; [lia|].
  destruct (eqc (deref (place s)) NUL) eqn:E.
  2:{ cbn [scan_args]. rewrite E. cbn [orb]. eexists. split; [done|].
      destruct Hp as [Hp|(a & off & rest' & -> & Hp & Ho & Hd & Hk)]; [by rewrite Hp in E|].
      exists O1, N, O2, a, rest', off. split; [|by left]. split; [done|done| |by left|].
      - intros E'. by rewrite E' in E.
      - intros HN. destruct (bl_marks _ _ _ _ _ Hb) as [(_ & _ & ? & _)|(M1 & _)]; [done|]. destruct Hk; [lia|done]. }
  apply eqc_spec_true in E. destruct rest as [|a rest]; [by eapply scan_end|].
  destruct (nonoption a) eqn:Ea; [|by eapply scan_option].
  pose proof (blocks_optind _ _ _ _ _ Hb) as [Hi Hn]. cbn [scan_args]. rewrite E. change (false || eqc NUL NUL) with true. cbn match.
  rewrite (proj2 (Z.leb_gt _ _)) by (rewrite Hi, Hn; cbn; lia). rewrite (argv_at_optind _ _ _ _ _ Hb).
  cbn [mbind option_bind head]. fold (nonoption a). rewrite Ea.
  assert (blocks (set_place EMSG s) O1 N O2 (a :: rest)) as Hb' by (by apply (blocks_ext s)).
  assert (permuting = false -> N = [] /\ O2 = [] /\ nonopt_start s = -1 /\ nonopt_end s = -1) as Hno.
  { intros ->%(bl_inorder _ _ _ _ _ Hb). by destruct (bl_marks _ _ _ _ _ Hb) as [(? & ? & _ & ?)|(_ & ? & _)]. }
  cbn [optind set_place]. destruct (Z.land flags FLAG_ALLARGS =? 0) eqn:E1; cbn [negb].
  2:{ eexists. split; [done|]. right. split; [done|]. destruct Hno as (-> & -> & H1 & H2); [unfold permuting; by rewrite E1|].
      destruct (blocks_consume (set_place EMSG s) (set_optind (optind s + 1) (set_optarg (Some (arg_text a)) (set_place EMSG s)))
        O1 [] [] [a] rest) as (O1' & O2' & Hb2 & _); try done; [intros Htk; apply tk_inorder; [done|done|by apply Z.eqb_neq]|].
      exists O1', [], O2', rest. split_and!; try done; [intros H; cbn in H; congruence|]. rewrite weight_cons. lia. }
  destruct (Z.land flags FLAG_PERMUTE =? 0) eqn:E2.
  { eexists. split; [done|]. left. split; [done|]. destruct Hno as (-> & -> & H1 & H2); [unfold permuting; by rewrite E1, E2|].
    destruct Hb as [Hv (pre & Ha & Hs & Hpre) _ Htk _ _ _]. cbn in Hi. rewrite !app_nil_r in *.
    exists O1, [], (a :: rest), pre. cbn. split_and!; try done. right; right. split; [unfold permuting; by rewrite E1, E2|]. split; [by apply Z.eqb_eq|]. eauto. }
  destruct (skip_nonoption_run (set_place EMSG s) O1 N O2 a rest) as (s' & O1' & N' & Es & Hb2 & H1 & H2 & H3 & H4 & _); try done.
  { unfold permuting. by rewrite E1, E2. }
  rewrite Es. cbn [mbind option_bind]. destruct (IH s' O1' N' [] rest Hb2) as (x & Ex & Hx).
  - left. by rewrite H4.
  - intros H. by rewrite H1 in H.
  - cbn in Hf. lia.
  - exists x. split; [done|]. destruct x as [r s2|s2]; unfold scanned in *.
    + destruct Hx as [Hx|(Hr & ? & ? & ? & ? & ? & ? & ? & ?)]; [by left|right]. split; [done|]. do 4 eexists.
      split_and!; try done. rewrite weight_cons. lia.
    + destruct Hx as (? & ? & ? & a' & rest' & off & Hr & Hw). do 6 eexists. split; [exact Hr|]. right.
      destruct Hw as [[-> ->]|[? ?]]; [|rewrite (weight_cons a rest); lia]. exfalso. apply (rd_char _ _ _ _ _ _ _ Hr). by rewrite H4.
Qed.

(** ** The code behind the loop *)

(** The last character of [a] is a dash that is no option letter. *)
Definition last_dash (a : arg) (off : nat) : Prop :=
  deref (At a off) = "-"%char /\ deref (At a (S off)) = NUL /\ strchr options "-"%char = None.

(** No option letter is -1 as an [int]. *)
Definition plain_options : Prop := Forall (fun c => code c <> -1) options.
Lemma strchr_plain c k : plain_options -> strchr options c = Some k -> code c <> -1.
Proof.
  intros Hp (_ & H & _)%strchr_Some. by apply (Forall_lookup_1 _ _ _ _ Hp H).
Qed.

(** The argument [a] is advanced in, or consumed with [k] more; only at a last dash is the result -1. *)
Definition progress (s : state) (a : arg) (rest : list arg) (off : nat) (r : Z) (s' : state) : Prop :=
  same_vector s s' /\
  ((exists k, (k <= length rest)%nat /\ (k <= 2)%nat /\ optind s' = optind s + Z.of_nat (S k) /\ deref (place s') = NUL /\
      (plain_options -> r <> -1)) \/
   (optind s' = optind s /\ place s' = At a (S off) /\
      (deref (place s') <> NUL /\ (plain_options -> r <> -1) \/ r = -1 /\ (1 <= off)%nat /\ last_dash a off))).

Lemma ready_nargc s O1 N O2 a rest off : ready s O1 N O2 a rest off ->
  0 <= optind s /\ optind s + Z.of_nat (S (length rest)) = nargc s.
Proof.
  intros Hr. pose proof (blocks_optind _ _ _ _ _ (rd_blocks _ _ _ _ _ _ _ Hr)) as [H1 H2]. cbn in H2. lia.
Qed.

Lemma eqc_nul c : c <> NUL -> eqc c NUL = false.
Proof. intros H. by destruct (eqc_spec c NUL). Qed.
Lemma nul_eqc c : eqc c NUL = true -> c = NUL.
Proof. by destruct (eqc_spec c NUL). Qed.
Lemma eqc_false_nul c : eqc c NUL = false -> c <> NUL.
Proof. by destruct (eqc_spec c NUL). Qed.

(** At the last character of [a] the argument is consumed, else [place] advances. *)
Ltac no_end := first [done | intros _; apply BADARG_ne | intros; by eapply strchr_plain].
Ltac consumed k := left; exists k; split; [try lia|]; split; [lia|]; split; [cbn; lia|]; split; [try done|try no_end].
Ltac step_or_consume more := let Hm := fresh "Hm" in destruct more eqn:Hm; unfold more in Hm; bool_prop;
  (split; [done|]); [right; split_and!; [done|done|]; left; split; [by apply eqc_false_nul|no_end]|consumed 0%nat; by apply nul_eqc].

Lemma short_option_run ls want_idx s O1 N O2 a rest off : plain_vals (default [] ls) -> ready s O1 N O2 a rest off ->
  exists r s', short_option options ls want_idx s = Some (r, s') /\ progress s a rest off r s'.
Proof.
  intros Hvals Hr. destruct (ready_nargc _ _ _ _ _ _ _ Hr) as [Hi0 Hi]. pose proof Hr as [Hb Hp Hc Ho _]. unfold short_option, find_option.
  rewrite (eqc_nul _ Hc). cbn [mbind option_bind]. rewrite Hp in *. cbn [advance].
  change (deref (place (set_place (At a (S off)) s))) with (deref (At a (S off))).
  set (more := negb (eqc (deref (At a (S off))) NUL)). set (c := deref (At a off)) in *.
  destruct (strchr options c) as [k|] eqn:Ek.
  2:{ destruct (eqc c "-"%char && negb more) eqn:E; eexists _, _; (split; [done|]).
      - split; [done|]. right. split_and!; [done|done|]. right. split; [done|]. bool_prop.
        apply eqc_spec_true in H. unfold more in H0. bool_prop. apply nul_eqc in H0.
        destruct Ho as [[? _]|(-> & Ht & Hl)]; [|congruence]. unfold last_dash. fold c. rewrite H in *. done.
      - step_or_consume more. }
  destruct (eqc c ":"%char || eqc c "-"%char && more).
  { eexists _, _. split; [done|]. step_or_consume more. }
  destruct (bool_decide (ls <> None) && eqc c "W"%char && eqc (char_at options (S k)) ";"%char).
  { assert (exists t, (if more then set_place (At a (S off)) s else set_optind (optind (set_place (At a (S off)) s) + 1) (set_place (At a (S off)) s)) = t /\
      same_vector s t /\ optind t = optind s + (if more then 0 else 1)) as (t & -> & Vt & It).
    { destruct more; (eexists; split; [done|]); split; try done; cbn; lia. }
    assert (nargc t = nargc s) as Hn by (unfold nargc; by rewrite (proj1 Vt)).
    destruct (negb more && (nargc t <=? optind t)) eqn:E.
    { bool_prop. rewrite H in It. eexists _, _. split; [done|]. split; [done|]. consumed 0%nat. }
    assert (optind t < nargc t) as Hlt by (destruct more; cbn in E; bool_prop; lia).
    assert (exists x, argv_at t (optind t) = Some (Some x)) as [x Ex].
    { unfold argv_at. rewrite (proj2 (Z.leb_le _ _)), (proj2 (Z.ltb_lt _ _)) by (destruct more; lia). cbn.
      destruct (lookup_lt_is_Some_2 (nargv t) (Z.to_nat (optind t))) as [x ->]; [unfold nargc in *; destruct more; lia|]. by eexists. }
    rewrite Ex. cbn [mbind option_bind].
    destruct (parse_long_run options (default [] ls) want_idx false (set_place (At x 0) t)) as (r & s' & -> & V & _ & I).
    { unfold nargc in *. cbn. destruct more; lia. }
    { done. }
    cbn [mbind option_bind]. eexists _, _. split; [done|]. split.
    { destruct Vt as (? & ? & ? & ?), V as (? & ? & ? & ?). cbn in *. split_and!; cbn; congruence. }
    destruct I as [(_ & ? & _)|[Hr1 [I|[I I']]]]; [done| |]; cbn in I; unfold nargc in *; cbn in *; left.
    - exists (if more then 0%nat else 1%nat). cbn. split_and!; [destruct more; lia|destruct more; lia|destruct more; lia|done|done].
    - exists (if more then 1%nat else 2%nat). cbn. split_and!; [destruct more; lia|destruct more; lia|destruct more; lia|done|done]. }
  destruct (negb (eqc (char_at options (S k)) ":"%char)).
  { eexists _, _. split; [done|]. step_or_consume more. }
  destruct more eqn:Em.
  { eexists _, _. split; [done|]. split; [done|]. consumed 0%nat. }
  destruct (negb (eqc (char_at options (S (S k))) ":"%char)).
  2:{ eexists _, _. split; [done|]. split; [done|]. consumed 0%nat. }
  cbn [optind set_optind set_optarg set_place]. unfold nargc at 1. cbn [nargv set_optind set_optarg set_place]. fold (nargc s).
  destruct (Z.leb_spec (nargc s) (optind s + 1)).
  { eexists _, _. split; [done|]. split; [done|]. consumed 0%nat. }
  destruct (argv_at_in (set_optind (optind s + 1) (set_optarg None (set_place (At a (S off)) s))) (optind s + 1)) as (na & -> & _).
  { unfold nargc in *. cbn. lia. }
  cbn [mbind option_bind]. eexists _, _. split; [done|]. split; [done|]. consumed 1%nat.
Qed.

(** The argument of an option that was found is one. *)
Lemma ready_option s O1 N O2 a rest off : ready s O1 N O2 a rest off -> nonoption a = false.
Proof.
  intros [_ _ _ [[_ Hd]|(_ & Ht & Hs)] _].
  - destruct (nonoption a) eqn:E; [|done]. by apply nonoption_not_dash in E.
  - unfold nonoption, deref, advance, place_text. rewrite Ht. change (negb (eqc "-" "-")) with false. cbn [orb drop].
    rewrite (bool_decide_eq_false_2 _ Hs). by rewrite andb_false_r.
Qed.

Lemma ready_ext s s' O1 N O2 a rest off : ready s O1 N O2 a rest off -> same_vector s s' -> optind s' = optind s ->
  place s' = place s -> ready s' O1 N O2 a rest off.
Proof.
  intros [Hb Hp Hc Ho Hm] (V1 & V2 & V3 & _) Hi Hpl. split; rewrite ?Hpl, ?V3; try done. by apply (blocks_ext s).
Qed.

Lemma process_run ls want_idx s O1 N O2 a rest off : plain_vals (default [] ls) -> ready s O1 N O2 a rest off ->
  exists r s', process options ls want_idx flags s = Some (r, s') /\ progress s a rest off r s'.
Proof.
  intros Hvals Hr. unfold process. destruct ls as [ls|]; [|by eapply short_option_run].
  destruct (ready_nargc _ _ _ _ _ _ _ Hr) as [Hi0 Hi]. pose proof Hr as [Hb Hp Hc Ho Hmk].
  unfold at_start. rewrite (argv_at_optind _ _ _ _ _ Hb). cbn [mbind option_bind head].
  destruct (_ && _) eqn:E; [|by eapply short_option_run].
  set (dash := eqc (deref (place s)) "-"%char) in *.
  assert (exists st, (if dash || eqc (deref (place s)) ":"%char then Some false
    else k ← find_option options (deref (place s)); Some (bool_decide (k <> None))) = Some st /\ (dash = true -> st = false)) as (st & -> & Hst).
  { destruct dash; [by exists false|]. cbn [orb]. destruct (eqc _ ":"%char); [by exists false|].
    unfold find_option. rewrite (eqc_nul _ Hc). by eexists. }
  cbn [mbind option_bind]. set (s1 := if dash then _ else s).
  assert (same_vector s s1 /\ optind s1 = optind s) as [V1 I1] by (by destruct dash).
  destruct (parse_long_run options ls want_idx st s1) as (r & s' & -> & V & P & I); [|done|].
  { unfold nargc in *. rewrite (proj1 V1), I1. lia. }
  cbn [mbind option_bind]. assert (same_vector s s') as V'.
  { destruct V1 as (? & ? & ? & ?), V as (? & ? & ? & ?). split_and!; congruence. }
  destruct (Z.eqb_spec r (-1)) as [->|Hne]; cbn [negb].
  - destruct I as [(I & -> & _)|[? _]]; [|done]. destruct dash eqn:Ed; [by discriminate Hst|]. subst s1.
    destruct (short_option_run (Some ls) want_idx s' O1 N O2 a rest off Hvals) as (r & s2 & -> & V2 & Pr);
      [by apply (ready_ext s)|].
    exists r, s2. split; [done|]. split.
    { destruct V2 as (? & ? & ? & ?), V' as (? & ? & ? & ?). split_and!; congruence. }
    rewrite I in Pr. exact Pr.
  - destruct I as [(_ & _ & ?)|[_ I]]; [done|]. eexists _, _. split; [done|]. split; [exact V'|]. left.
    unfold nargc in *. rewrite (proj1 V1), I1 in I.
    destruct I as [I|[I I']]; [exists 0%nat|exists 1%nat]; cbn; (split_and!; [lia|lia|lia|done|done]).
Qed.
End Calls.

(** ** Calls *)

(** The test of the environment is made once. *)
Definition next_posix (x : next) : Z := match x with Return _ s | Proceed s => posixly_correct s end.

Lemma permute_posix s s' : permute s = Some s' -> posixly_correct s' = posixly_correct s.
Proof. unfold permute. destruct (permute_args _ _ _ _); cbn [mbind option_bind]; [|done]. by intros [= <-]. Qed.
Lemma finish_posix s s' : finish s = Some s' -> posixly_correct s' = posixly_correct s.
Proof.
  unfold finish. destruct (_ =? _); cbn [mbind option_bind]; [by intros [= <-]|]. destruct (permute s) as [t|] eqn:E; cbn [mbind option_bind]; [|done].
  intros [= <-]. cbn. by apply permute_posix.
Qed.
Lemma skip_posix s s' : skip_nonoption s = Some s' -> posixly_correct s' = posixly_correct s.
Proof.
  unfold skip_nonoption. destruct (_ =? _); cbn [mbind option_bind]; [by intros [= <-]|]. destruct (_ =? _); cbn [mbind option_bind]; [by intros [= <-]|].
  destruct (permute s) as [t|] eqn:E; cbn [mbind option_bind]; [|done]. intros [= <-]. cbn. by apply permute_posix.
Qed.

Lemma scan_posix fuel options flags : forall b s x,
  scan_args fuel options flags b s = Some x -> next_posix x = posixly_correct s.
Proof.
  induction fuel as [|fuel IH]; intros b s x H; [done|]. cbn [scan_args] in H.
  destruct (b || _); [|by simplify_eq]. destruct (_ <=? _).
  { destruct (_ && _); cbn [mbind option_bind] in H; [by simplify_eq|].
    destruct (finish _) as [t|] eqn:E; cbn in H; [|done]. simplify_eq. cbn. by apply finish_posix in E. }
  destruct (argv_at s (optind s)) as [[a|]|]; cbn [mbind option_bind] in H; [|done|done]. destruct (_ || _).
  - destruct (negb _); [by simplify_eq|]. destruct (_ =? 0); [by simplify_eq|].
    destruct (skip_nonoption _) as [t|] eqn:E; cbn [mbind option_bind] in H; [|done]. apply IH in H. rewrite H. by apply skip_posix in E.
  - set (s1 := if _ && _ then _ else s) in H. assert (posixly_correct s1 = posixly_correct s) as E1 by (unfold s1; by destruct (_ && _)).
    destruct (eqc (deref (advance _)) NUL); [by simplify_eq|]. destruct (eqc _ "-"%char && _); [|by simplify_eq].
    destruct (finish _) as [t|] eqn:E; cbn in H; [|done]. simplify_eq. cbn. apply finish_posix in E. by rewrite E.
Qed.

Section Parse.
Context (argv0 : list arg) (options0 : cstr) (ls : option (list long_option)) (want_idx : bool) (flags0 : Z) (env : bool).
Context (Hargs : Forall (fun a => NUL ∉ arg_text a) argv0) (Hvals : plain_vals (default [] ls)).

(** The options and flags the parser works with: permutation is disabled unless
    the test of the environment succeeded. *)
Definition eff_options : cstr :=
  if eqc (char_at options0 0) "+"%char || eqc (char_at options0 0) "-"%char then drop 1 options0 else options0.
Definition eff_flags : Z :=
  if negb env || eqc (char_at options0 0) "+"%char then Z.ldiff flags0 FLAG_PERMUTE
  else if eqc (char_at options0 0) "-"%char then Z.lor flags0 FLAG_ALLARGS else flags0.

Definition call : state -> option (Z * state) := getopt_internal (Some options0) ls want_idx flags0 env.
Definition posix_ok (s : state) : Prop := posixly_correct s = -1 \/ posixly_correct s = Z.b2z env.
Definition prepared (s : state) : state := set_optarg None (set_posix (Z.b2z env) s).

Lemma call_prepared s : posix_ok s -> optind s <> 0 -> call s =
  (r ← scan_args (S (length (nargv s))) eff_options eff_flags false (prepared s);
   match r with Return r s => Some (r, s) | Proceed s => process eff_options ls want_idx eff_flags s end).
Proof.
  intros Hp Hi. unfold call, getopt_internal, eff_flags, eff_options, prepared.
  assert ((if posixly_correct s =? -1 then set_posix (Z.b2z env) s else s) = set_posix (Z.b2z env) s) as ->.
  { destruct Hp as [->|E]; [done|]. destruct (posixly_correct s =? -1); [done|]. rewrite <- E. by destruct s. }
  cbn [posixly_correct set_posix optind]. rewrite (proj2 (Z.eqb_neq _ _) Hi). by destruct env.
Qed.

(** The characters left to parse. *)
Definition left_over (s : state) : nat :=
  (weight (drop (Z.to_nat (optind s)) (nargv s)) -
   match place s with At _ off => if eqc (deref (place s)) NUL then 0 else off | EMSG => 0 end)%nat.

Lemma left_blocks s O1 N O2 rest : blocks argv0 eff_options eff_flags s O1 N O2 rest ->
  drop (Z.to_nat (optind s)) (nargv s) = rest.
Proof.
  intros Hb. rewrite (proj1 (blocks_optind _ _ _ _ _ _ _ _ Hb)), (bl_nargv _ _ _ _ _ _ _ _ Hb), Nat2Z.id.
  by rewrite !app_assoc, drop_app_length.
Qed.
Lemma left_empty s O1 N O2 rest : blocks argv0 eff_options eff_flags s O1 N O2 rest -> deref (place s) = NUL ->
  left_over s = weight rest.
Proof.
  intros Hb Hp. unfold left_over. rewrite (left_blocks _ _ _ _ _ Hb). rewrite Hp. destruct (place s); [lia|]. change (eqc NUL NUL) with true. cbn match. lia.
Qed.
Lemma left_at s O1 N O2 rest a off : blocks argv0 eff_options eff_flags s O1 N O2 rest -> place s = At a off -> deref (place s) <> NUL ->
  left_over s = (weight rest - off)%nat.
Proof.
  intros Hb Hp Hd. unfold left_over. rewrite (left_blocks _ _ _ _ _ Hb). rewrite Hp in *. by rewrite (eqc_nul _ Hd).
Qed.

Lemma weight_drop k rest : (weight (drop k rest) <= weight rest)%nat.
Proof. revert k. induction rest as [|a rest IH]; intros [|k]; [done|done|done|]. rewrite weight_cons. cbn [drop]. specialize (IH k). lia. Qed.

Lemma deref_length a off : deref (At a off) <> NUL -> (off < length (arg_text a))%nat.
Proof.
  intros H. destruct (decide (off < length (arg_text a))%nat); [done|]. exfalso. apply H. unfold deref, place_text.
  by rewrite drop_ge by lia.
Qed.

Abbreviation INV := (inv argv0 eff_options eff_flags).
Abbreviation DONE := (finished argv0 eff_options eff_flags).

(** The parse stopped at an argument such as [-x-] whose last dash is no option. *)
Definition stopped (s : state) : Prop :=
  INV s /\ exists a off, argv_at s (optind s) = Some (Some a) /\ starts_dash a /\ last_dash eff_options a off.

(** An option behind the loop keeps the invariant. *)
Lemma progress_inv s O1 N O2 a rest off r s' :
  ready argv0 eff_options eff_flags s O1 N O2 a rest off -> progress eff_options s a rest off r s' ->
  INV s' /\ ((left_over s' < weight (a :: rest) - off)%nat /\ (plain_options eff_options -> r <> -1) \/ r = -1 /\ stopped s').
Proof.
  intros Hr [(V1 & V2 & V3 & V4) H]. pose proof Hr as [Hb Hp Hc Ho Hm]. pose proof (deref_length a off) as Hlen. rewrite Hp in *.
  specialize (Hlen Hc). destruct H as [(k & Hk & Hk2 & I & D & Hpl)|(I & P & D)].
  - destruct (blocks_consume argv0 eff_options eff_flags s s' O1 N O2 (a :: take k rest) (drop k rest)) as (O1' & O2' & Hb' & HO & _); try done.
    { cbn. by rewrite take_drop. }
    { rewrite I. cbn. rewrite length_take. lia. }
    { intros Htk. apply tk_option; [done|by eapply ready_option|rewrite length_take; lia]. }
    split.
    + exists O1', N, O2', (drop k rest). split_and!; [done|by left|]. intros E. left.
      rewrite HO; [by destruct O2|]. intros ->. destruct (bl_marks _ _ _ _ _ _ _ _ Hb') as [(_ & ? & _)|(_ & ? & _)]; done.
    + left. split; [|done]. rewrite (left_empty _ _ _ _ _ Hb' D), weight_cons. pose proof (weight_drop k rest). lia.
  - assert (blocks argv0 eff_options eff_flags s' O1 N O2 (a :: rest)) as Hb' by (by apply (blocks_ext _ _ _ s)).
    assert ((1 <= off)%nat /\ starts_dash a) as [Hoff Hd].
    { destruct Ho as [?|(-> & Ht & _)]; [done|]. destruct D as [[D _]|(_ & ? & _)]; [|lia]. rewrite P in D. apply deref_length in D.
      rewrite Ht in D. cbn in D. lia. }
    assert (marked s' O2 (a :: rest)) as Hmk by (intros _; right; by exists a, rest).
    assert (INV s') as Hinv.
    { exists O1, N, O2, (a :: rest). split_and!; [done| |done]. destruct (decide (deref (place s') = NUL)); [by left|]. right.
      exists a, (S off), rest. split_and!; [done|done|lia|done|]. rewrite V2, V3.
      destruct (bl_marks _ _ _ _ _ _ _ _ Hb) as [(? & _)|(_ & HN & _)]; [by left|right; by apply Hm]. }
    split; [done|]. destruct D as [[D Hpl]|(-> & _ & Hl)].
    + left. split; [|done]. rewrite (left_at _ _ _ _ _ a (S off) Hb' P D), weight_cons. lia.
    + right. split; [done|]. split; [done|]. exists a, off. split_and!; [|done|done].
      by rewrite (argv_at_optind _ _ _ _ _ _ _ _ Hb').
Qed.

Lemma call_run s : INV s -> posix_ok s -> exists r s', call s = Some (r, s') /\ posix_ok s' /\
  ((INV s' /\ (left_over s' < left_over s)%nat /\ (plain_options eff_options -> r <> -1)) \/ (r = -1 /\ (DONE s' \/ stopped s'))).
Proof.
  intros (O1 & N & O2 & rest & Hb & Hp & Hm) Hpx. destruct (blocks_optind _ _ _ _ _ _ _ _ Hb) as [Hi Hn].
  rewrite call_prepared; [|done|].
  2:{ rewrite Hi, length_app. pose proof (bl_prog _ _ _ _ _ _ _ _ Hb). destruct O1; [done|cbn; lia]. }
  assert (blocks argv0 eff_options eff_flags (prepared s) O1 N O2 rest) as Hb' by (by apply (blocks_ext _ _ _ s)).
  destruct (scan_args_run argv0 eff_options eff_flags Hargs (S (length (nargv s))) (prepared s) O1 N O2 rest) as (x & Ex & Hx); try done.
  { unfold nargc in Hn. lia. }
  pose proof (scan_posix _ _ _ _ _ _ Ex) as Hpo. rewrite Ex. cbn [mbind option_bind].
  destruct x as [r s1|s1].
  - exists r, s1. split; [done|]. split; [by right|]. destruct Hx as [[-> Hx]|(-> & O1' & N' & O2' & rest' & Hb1 & Hm1 & Hd & Hw)].
    + right. split; [done|by left].
    + left. split; [exists O1', N', O2', rest'; split_and!; [done|by left|done]|]. split; [|done].
      rewrite (left_empty _ _ _ _ _ Hb1 Hd). destruct (decide (deref (place s) = NUL)) as [E|E].
      * by rewrite (left_empty _ _ _ _ _ Hb E).
      * cbn [scan_args place prepared set_optarg set_posix] in Ex. by rewrite (eqc_nul _ E) in Ex.
  - destruct Hx as (O1' & N' & O2' & a & rest' & off & Hr & Hw).
    destruct (process_run argv0 eff_options eff_flags ls want_idx s1 O1' N' O2' a rest' off Hvals Hr) as (r & s2 & Ep & Hpr).
    exists r, s2. split; [done|]. split.
    { right. destruct Hpr as [(_ & _ & _ & ->) _]. done. }
    destruct (progress_inv _ _ _ _ _ _ _ _ _ Hr Hpr) as [Hinv [[Hl Hpl]|[-> Hst]]]; [left|right; auto]. split; [done|]. split; [|done].
    eapply Nat.lt_le_trans; [exact Hl|]. destruct Hw as [[-> ->]|[Hoff Hw]].
    + rewrite (left_at s O1 N O2 (a :: rest') a off); [done|done| |].
      * apply (rd_place _ _ _ _ _ _ _ _ _ _ Hr).
      * apply (rd_char _ _ _ _ _ _ _ _ _ _ Hr).
    + destruct (decide (deref (place s) = NUL)) as [E|E].
      * rewrite (left_empty _ _ _ _ _ Hb E). lia.
      * cbn [scan_args place prepared set_optarg set_posix] in Ex. rewrite (eqc_nul _ E) in Ex. cbn [orb] in Ex. simplify_eq.
        pose proof (rd_place _ _ _ _ _ _ _ _ _ _ Hr) as Hpl'. cbn in Hpl'.
        destruct Hp as [?|(a0 & off0 & r0 & -> & Hp0 & _ & _)]; [done|]. rewrite Hp0 in Hpl'. simplify_eq.
        rewrite (left_at s O1 N O2 (a :: r0) a off); [lia|done|done|done].
Qed.

(** The caller's loop: [while ((r = getopt(...)) != -1)], with what it returned. *)
Fixpoint parse_loop (fuel : nat) (s : state) : option (list Z * state) :=
  match fuel with
  | O => None
  | S fuel =>
    '(r, s) ← call s;
    if r =? -1 then Some ([], s)
    else '(rs, s) ← parse_loop fuel s; Some (r :: rs, s)
  end.

Lemma parse_loop_run fuel : plain_options eff_options -> forall s, INV s -> posix_ok s -> (left_over s < fuel)%nat ->
  exists rs s', parse_loop fuel s = Some (rs, s') /\ (DONE s' \/ stopped s').
Proof.
  intros Hpo. induction fuel as [|fuel IH]; intros s Hs Hp Hf; [lia|]. cbn [parse_loop].
  destruct (call_run s Hs Hp) as (r & s1 & -> & Hp1 & H). cbn [mbind option_bind].
  destruct (Z.eqb_spec r (-1)) as [->|Hr].
  - exists [], s1. split; [done|]. destruct H as [(_ & _ & H)|[_ H]]; [by destruct (H Hpo)|done].
  - destruct H as [(Hs1 & Hl & _)|[? _]]; [|done]. destruct (IH s1 Hs1 Hp1) as (rs & s2 & E & H); [lia|].
    rewrite E. cbn [mbind option_bind]. by exists (r :: rs), s2.
Qed.

Lemma init_inv : argv0 <> [] -> INV (init_state argv0).
Proof.
  intros Hne. destruct argv0 as [|p rest]; [done|]. exists [p], [], [], rest. split_and!; [|by left|by intros []].
  split; try done; [|constructor|by left]. exists [p]. split_and!; [done|apply shuffle_left|done].
Qed.

Lemma inv_Permutation s : INV s -> Permutation (nargv s) argv0.
Proof.
  intros (O1 & N & O2 & rest & Hb & _). destruct Hb as [-> (pre & -> & Hs & _) _ _ _ _ _]. apply shuffle_Permutation in Hs.
  rewrite Hs, <- !app_assoc. f_equiv. rewrite !app_assoc. f_equiv. apply Permutation_app_comm.
Qed.
Lemma finished_Permutation s : DONE s -> Permutation (nargv s) argv0.
Proof.
  intros (O & N & rest & pre & -> & _ & -> & Hs & _). apply shuffle_Permutation in Hs. by rewrite Hs, <- app_assoc.
Qed.
End Parse.

(** C14: one call, whatever the options, the long options (none returning -1) and
    the flags: it returns, without leaving the argument vector or dividing by zero;
    the parser's variables keep delimiting the blocks of options and skipped
    non-options, each in their original order; and the call either brings the
    parse closer to its end (and does not return -1, unless the byte 0xFF is an
    option letter) or ends it with -1. *)
Theorem getopt_call (argv0 : list arg) (options0 : cstr) (ls : option (list long_option)) (want_idx : bool) (flags0 : Z)
    (env : bool) (s : state) :
  Forall (fun a => NUL ∉ arg_text a) argv0 -> plain_vals (default [] ls) ->
  inv argv0 (eff_options options0) (eff_flags options0 flags0 env) s -> posix_ok env s ->
  exists r s', getopt_internal (Some options0) ls want_idx flags0 env s = Some (r, s') /\ posix_ok env s' /\
    ((inv argv0 (eff_options options0) (eff_flags options0 flags0 env) s' /\ (left_over s' < left_over s)%nat /\
      (plain_options (eff_options options0) -> r <> -1)) \/
     (r = -1 /\ (finished argv0 (eff_options options0) (eff_flags options0 flags0 env) s' \/ stopped argv0 options0 flags0 env s'))).
Proof. intros. by apply call_run. Qed.

(** C34: a whole parse, with options and long options that cannot return -1: from the initial
    state the loop of the caller ends after at most one call per character.  The vector it leaves
    is a permutation of the given one.  Unless the parse stops at an argument such as [-x-]
    whose last dash is no option, the vector consists of the arguments taken as options (each
    an option with at most two arguments, or an operand that was returned in order), then
    the skipped non-options (at [optind]), each in their original order, then the rest; and
    the parse ended because nothing was left, at [--], or, when it does not permute, at an
    operand. *)
Theorem getopt_parse (argv0 : list arg) (options0 : cstr) (ls : option (list long_option)) (want_idx : bool) (flags0 : Z) (env : bool) :
  argv0 <> [] -> Forall (fun a => NUL ∉ arg_text a) argv0 -> plain_vals (default [] ls) -> plain_options (eff_options options0) ->
  let options := eff_options options0 in
  let flags := eff_flags options0 flags0 env in
  exists rs s', parse_loop options0 ls want_idx flags0 env (S (weight argv0)) (init_state argv0) = Some (rs, s') /\
    Permutation (nargv s') argv0 /\
    ((exists O N rest pre, nargv s' = O ++ N ++ rest /\ optind s' = Z.of_nat (length O) /\
        argv0 = pre ++ rest /\ shuffle O N pre /\ taken options flags O /\
        Forall (fun a => nonoption options a = true) N /\ (permuting flags = false -> N = []) /\
        ending options flags O rest) \/
     stopped argv0 options0 flags0 env s').
Proof.
  intros Hne Hargs Hvals Hpo options flags.
  destruct (parse_loop_run argv0 options0 ls want_idx flags0 env Hargs Hvals (S (weight argv0)) Hpo (init_state argv0)) as (rs & s' & E & H).
  - by apply init_inv.
  - by left.
  - destruct argv0 as [|p rest]; [done|]. change (left_over (init_state (p :: rest))) with (weight rest - 0)%nat.
    rewrite weight_cons. lia.
  - exists rs, s'. split; [done|]. split.
    + destruct H as [H|[H _]]; [by eapply finished_Permutation|by eapply inv_Permutation].
    + destruct H as [(O & N & rest & pre & H)|H]; [left; exists O, N, rest, pre; naive_solver|by right].
Qed.

(** ** Witnesses and examples *)

Definition args (l : list string) : list arg := imap (fun i t => Arg (Z.of_nat i) (lit t)) l.
Definition sample_argv : list arg := args ["prog"; "x"; "-a"; "y"; "-b"; "arg"; "z"; "--"; "-c"].

Lemma getopt_parse_witness : exists rs s',
  parse_loop (lit "ab:") None false FLAG_PERMUTE true (S (weight sample_argv)) (init_state sample_argv) = Some (rs, s') /\
  Permutation (nargv s') sample_argv.
Proof.
  destruct (getopt_parse sample_argv (lit "ab:") None false FLAG_PERMUTE true) as (rs & s' & H1 & H2 & _).
  - discriminate.
  - by apply (bool_decide_unpack _).
  - constructor.
  - by apply (bool_decide_unpack _).
  - exists rs, s'. split; [exact H1|exact H2].
Defined.

Lemma getopt_call_witness : exists r s',
  getopt_internal (Some (lit "ab:")) None false FLAG_PERMUTE true (init_state sample_argv) = Some (r, s') /\ posix_ok true s' /\
  ((inv sample_argv (eff_options (lit "ab:")) (eff_flags (lit "ab:") FLAG_PERMUTE true) s' /\
    (left_over s' < left_over (init_state sample_argv))%nat /\ (plain_options (eff_options (lit "ab:")) -> r <> -1)) \/
   (r = -1 /\ (finished sample_argv (eff_options (lit "ab:")) (eff_flags (lit "ab:") FLAG_PERMUTE true) s' \/
      stopped sample_argv (lit "ab:") FLAG_PERMUTE true s'))).
Proof.
  apply (getopt_call sample_argv (lit "ab:") None false FLAG_PERMUTE true (init_state sample_argv)).
  - by apply (bool_decide_unpack _).
  - constructor.
  - apply init_inv; [by apply (bool_decide_unpack _)|discriminate].
  - by left.
Defined.

(** The vector a permuting parse leaves. *)
Example permuted : (fun p => (fst p, map arg_text (nargv (snd p)), optind (snd p))) <$>
  parse_loop (lit "ab:") None false FLAG_PERMUTE true 40 (init_state sample_argv) =
  Some ([97; 98], map lit ["prog"; "-a"; "-b"; "arg"; "--"; "x"; "y"; "z"; "-c"], 5).
Proof. vm_compute. reflexivity. Qed.
(** Without POSIXLY_CORRECT in the environment the parse stops at the first
    non-option: the variable has the effect opposite to the documented one. *)
Example not_permuted : (fun p => (fst p, optind (snd p))) <$>
  parse_loop (lit "ab:") None false FLAG_PERMUTE false 40 (init_state sample_argv) = Some ([], 1).
Proof. vm_compute. reflexivity. Qed.
(** [-Wname] looks up the whole argument as a long option, [-W name] the name. *)
Definition foo : list long_option := [Option (lit "foo") no_argument None 7].
Example w_space : fst <$> getopt_long (Some (lit "W;")) (Some foo) false true (init_state (args ["prog"; "-W"; "foo"])) = Some 7.
Proof. vm_compute. reflexivity. Qed.
Example w_joined : fst <$> getopt_long (Some (lit "W;")) (Some foo) false true (init_state (args ["prog"; "-Wfoo"])) = Some BADCH.
Proof. vm_compute. reflexivity. Qed.
End GetoptProofs.
