(* ===== verification/GetoptSpec.v ===== *)
(** * GetoptSpec: what short options mean

    A grammar of command lines for [getopt] without permutation (the mode it runs
    in unless POSIXLY_CORRECT is set, or when the options start with [+]), as an inductive relation between the
    arguments and the sequence of results, and the proof that the loop of the
    caller delivers exactly a derivation of it; and the resolution of abbreviated
    long options. *)

From S2P Require Import Prelude CString Getopt GetoptPermute GetoptProofs.
From Stdlib Require Import Ascii.

Module Export GetoptSpec.
Local Open Scope Z_scope.

(** What one call reports: its result, [optarg] and [optopt]. *)
Definition event : Type := Z * option cstr * Z.

Section Grammar.
Context (options : cstr).

(** What the option string says of a letter; [more] letters follow it. *)
Inductive letter := Unknown | NoArg | ReqArg | OptArg.
Definition classify (c : ascii) (more : bool) : letter :=
  match strchr options c with
  | None => Unknown
  | Some k =>
    if eqc c ":"%char || eqc c "-"%char && more then Unknown
    else if negb (eqc (char_at options (S k)) ":"%char) then NoArg
    else if negb (eqc (char_at options (S (S k))) ":"%char) then ReqArg else OptArg
  end.

Definition dash_listed : bool := bool_decide (strchr options "-"%char <> None).
Definition nonempty (t : cstr) : bool := bool_decide (t <> []).

(** [parses o cl args evs n]: with [o] in [optopt], the letters [cl] of the current
    argument and then the arguments [args] yield the results [evs], and the last
    [n] arguments are not parsed. *)
Inductive parses : Z -> cstr -> list cstr -> list event -> nat -> Prop :=
  | p_end o : parses o [] [] [] 0
  | p_operand o t args : head t <> Some "-"%char -> parses o [] (t :: args) [] (S (length args))
  | p_hyphen o args : dash_listed = false -> parses o [] (["-"%char] :: args) [] (S (length args))
  | p_dashes o args : parses o [] (["-"; "-"]%char :: args) [] (length args)
  | p_lone o args evs n : dash_listed = true -> parses o ["-"%char] args evs n ->
      parses o [] (["-"%char] :: args) evs n
  | p_cluster o c t args evs n : c :: t <> ["-"%char] -> parses o (c :: t) args evs n ->
      parses o [] (("-"%char :: c :: t) :: args) evs n
  | p_stop o args : dash_listed = false -> parses o ["-"%char] args [] (S (length args))
  | p_unknown o c t args evs n : classify c (nonempty t) = Unknown -> ~ (c = "-"%char /\ t = [] /\ dash_listed = false) ->
      parses (code c) t args evs n -> parses o (c :: t) args ((BADCH, None, code c) :: evs) n
  | p_noarg o c t args evs n : classify c (nonempty t) = NoArg ->
      parses o t args evs n -> parses o (c :: t) args ((code c, None, o) :: evs) n
  | p_joined o c t args evs n : classify c (nonempty t) = ReqArg \/ classify c (nonempty t) = OptArg -> t <> [] ->
      parses o [] args evs n -> parses o (c :: t) args ((code c, Some t, o) :: evs) n
  | p_separate o c b args evs n : classify c false = ReqArg ->
      parses o [] args evs n -> parses o [c] (b :: args) ((code c, Some b, o) :: evs) n
  | p_missing o c : classify c false = ReqArg ->
      parses o [c] [] [(BADARG options, None, code c)] 0
  | p_optional o c args evs n : classify c false = OptArg ->
      parses o [] args evs n -> parses o [c] args ((code c, None, o) :: evs) n.
End Grammar.

(** The loop of the caller with what each call reports. *)
Fixpoint report (env : bool) (options : cstr) (fuel : nat) (s : state) : option (list event * state) :=
  match fuel with
  | O => None
  | S fuel =>
    '(r, s) ← getopt (Some options) env s;
    if r =? -1 then Some ([], s)
    else '(evs, s') ← report env options fuel s; Some ((r, optarg s, optopt s) :: evs, s')
  end.

Lemma eqc_false_iff a b : eqc a b = false <-> a <> b.
Proof. destruct (eqc_spec a b); naive_solver. Qed.

Section Sound.
Context (argv0 : list arg) (options0 : cstr) (env : bool) (Hargs : Forall (fun a => NUL ∉ arg_text a) argv0).
Context (Henv : eff_flags options0 FLAG_PERMUTE env = 0) (Hplain : plain_options (eff_options options0)).
Abbreviation options := (eff_options options0).

(** The state is at the letters [cl] of an argument, before the arguments [args]. *)
Record at_pos (s : state) (cl : cstr) (args : list cstr) : Prop := {
  ap_nargv : nargv s = argv0;
  ap_marks : nonopt_start s = -1 /\ nonopt_end s = -1;
  ap_optind : 1 <= optind s <= nargc s;
  ap_place : (cl = [] /\ deref (place s) = NUL /\ args = map arg_text (drop (Z.to_nat (optind s)) argv0)) \/
    (cl <> [] /\ exists a off, place s = At a off /\ drop off (arg_text a) = cl /\ argv0 !! Z.to_nat (optind s) = Some a /\
       args = map arg_text (drop (S (Z.to_nat (optind s))) argv0))
}.

Definition size (cl : cstr) (args : list cstr) : nat := length cl + sum_list_with (fun t => 2 + length t)%nat args.

Lemma lookup_arg i a : argv0 !! i = Some a -> NUL ∉ arg_text a.
Proof. exact (Forall_lookup_1 _ _ _ _ Hargs). Qed.

Lemma nonempty_false t : nonempty t = false -> t = [].
Proof. unfold nonempty. intros H%bool_decide_eq_false. destruct t; [done|]. exfalso. by apply H. Qed.

Lemma drop_text a off c t : drop off (arg_text a) = c :: t ->
  deref (At a off) = c /\ place_text (At a (S off)) = t.
Proof.
  intros E. unfold deref, place_text. rewrite E. split; [done|]. change (S off) with (1 + off)%nat.
  by rewrite Nat.add_comm, <- drop_drop, E.
Qed.

Lemma more_text a off t : NUL ∉ arg_text a -> place_text (At a off) = t -> negb (eqc (deref (At a off)) NUL) = nonempty t.
Proof.
  intros Hn <-. unfold deref, nonempty. destruct (place_text (At a off)) as [|c t] eqn:E; [done|]. cbn [char_at nth].
  rewrite bool_decide_eq_true_2 by done. rewrite (proj2 (eqc_false_iff c NUL)); [done|]. intros ->. apply Hn.
  unfold place_text in E. rewrite <- (take_drop off (arg_text a)), E. apply elem_of_app. right. apply list_elem_of_here.
Qed.

(** A letter that keeps the position in its argument or moves to the next one. *)
Lemma after_letter s s' a off c t args : at_pos s (c :: t) args -> place s = At a off -> drop off (arg_text a) = c :: t ->
  argv0 !! Z.to_nat (optind s) = Some a -> args = map arg_text (drop (S (Z.to_nat (optind s))) argv0) ->
  nargv s' = nargv s -> nonopt_start s' = -1 -> nonopt_end s' = -1 ->
  place s' = At a (S off) -> optind s' = optind s + (if nonempty t then 0 else 1) -> at_pos s' t args.
Proof.
  intros [H1 H2 H3 _] Hp Hd Ha Hargs' E1 E2 E3 Ep Ei. pose proof (lookup_lt_Some _ _ _ Ha) as Hlt.
  destruct (drop_text _ _ _ _ Hd) as [_ Ht].
  split; [congruence|done| |].
  - unfold nargc in *. rewrite E1, Ei. rewrite H1 in *. destruct (nonempty t); lia.
  - destruct t as [|d t].
    + left. rewrite Ep, Ei. split_and!; [done| |].
      * unfold deref. by rewrite Ht.
      * rewrite Hargs'. do 2 f_equal. change (if nonempty [] then 0 else 1) with 1. lia.
    + right. split; [done|]. exists a, (S off). rewrite Ei. change (if nonempty (d :: t) then 0 else 1) with 0. rewrite Z.add_0_r.
      split_and!; [done| |done|done]. exact Ht.
Qed.

Lemma after_arg s s' k : nargv s = argv0 -> 1 <= optind s -> optind s + Z.of_nat k <= nargc s ->
  nargv s' = nargv s -> nonopt_start s' = -1 -> nonopt_end s' = -1 -> deref (place s') = NUL ->
  optind s' = optind s + Z.of_nat k -> at_pos s' [] (map arg_text (drop (Z.to_nat (optind s) + k) argv0)).
Proof.
  intros H1 H2 H3 E1 E2 E3 E5 Ei. split; [congruence|done| |].
  - unfold nargc in *. rewrite E1, Ei. lia.
  - left. split_and!; [done|done|]. do 2 f_equal. lia.
Qed.

(** One letter: the call reports it and the rest of the derivation follows, or the
    parse stops at a final dash. *)
Definition letter_done (s : state) (cl : cstr) (args : list cstr) (r : Z) (s' : state) : Prop :=
  (r <> -1 /\ posixly_correct s' = posixly_correct s /\ exists cl' args', at_pos s' cl' args' /\ (size cl' args' < size cl args)%nat /\
     forall evs n, parses options (optopt s') cl' args' evs n ->
       parses options (optopt s) cl args ((r, optarg s', optopt s') :: evs) n) \/
  (r = -1 /\ cl = ["-"%char] /\ dash_listed options = false /\ nargv s' = argv0 /\ optind s' = optind s /\
   posixly_correct s' = posixly_correct s).

Lemma size_args cl args : (sum_list_with (fun t => 2 + length t)%nat args <= size cl args)%nat.
Proof. unfold size. lia. Qed.

(** The cases of [letter_done]: the parse goes on behind the letter, or with the argument [k] places on. *)
Section Letter.
Context (s : state) (c : ascii) (t : cstr) (args : list cstr) (a : arg) (off : nat).
Context (Hat : at_pos s (c :: t) args) (Hp : place s = At a off) (Hd : drop off (arg_text a) = c :: t)
  (Ha : argv0 !! Z.to_nat (optind s) = Some a) (Hargs' : args = map arg_text (drop (S (Z.to_nat (optind s))) argv0)).

Lemma letter_next s' r : r <> -1 -> posixly_correct s' = posixly_correct s -> nargv s' = nargv s ->
  nonopt_start s' = nonopt_start s -> nonopt_end s' = nonopt_end s -> place s' = At a (S off) -> optind s' = optind s + (if nonempty t then 0 else 1) ->
  (forall evs n, parses options (optopt s') t args evs n -> parses options (optopt s) (c :: t) args ((r, optarg s', optopt s') :: evs) n) ->
  letter_done s (c :: t) args r s'.
Proof.
  intros Hr Hx E1 E2 E3 E4 E5 Hpa. pose proof (ap_marks _ _ _ Hat) as [M1 M2]. left. split; [done|]. split; [done|]. exists t, args. split_and!; [|unfold size; cbn; lia|done].
  apply (after_letter s s' a off c t args); try done; congruence.
Qed.

Lemma letter_arg s' r k args' : r <> -1 -> posixly_correct s' = posixly_correct s -> nargv s' = nargv s ->
  nonopt_start s' = nonopt_start s -> nonopt_end s' = nonopt_end s -> deref (place s') = NUL -> optind s' = optind s + Z.of_nat k ->
  (Z.to_nat (optind s) + k <= length argv0)%nat -> args' = map arg_text (drop (Z.to_nat (optind s) + k) argv0) ->
  (size [] args' < size (c :: t) args)%nat ->
  (forall evs n, parses options (optopt s') [] args' evs n -> parses options (optopt s) (c :: t) args ((r, optarg s', optopt s') :: evs) n) ->
  letter_done s (c :: t) args r s'.
Proof.
  intros Hr Hx E1 E2 E3 E4 E5 Hk -> Hs Hpa. pose proof Hat as [H1 [M1 M2] H3 _]. left. split; [done|]. split; [done|]. eexists [], _. split_and!; [|exact Hs|done].
  apply (after_arg s); try done; unfold nargc in *; rewrite ?H1; congruence || lia.
Qed.
End Letter.

(** A letter at the end of its argument that requires an argument: the next one, if there is one. *)
Lemma short_required s c args a off : at_pos s [c] args -> argv0 !! Z.to_nat (optind s) = Some a ->
  args = map arg_text (drop (S (Z.to_nat (optind s))) argv0) -> classify options c false = ReqArg -> code c <> -1 ->
  let s2 := set_optind (optind s + 1) (set_optarg None (set_place (At a (S off)) s)) in
  exists r s', (if nargc s2 <=? optind s2 then Some (BADARG options, set_optopt (code c) (set_place EMSG s2))
    else b ← argv_at s2 (optind s2); Some (code c, set_optind (optind s2 + 1) (set_place EMSG (set_optarg (arg_text <$> b) s2)))) = Some (r, s') /\
    letter_done s [c] args r s'.
Proof.
  intros Hat Ha Hargs' Hreq Hcode s2. pose proof Hat as [H1 _ H4 _]. pose proof (lookup_lt_Some _ _ _ Ha) as Hlt.
  change (nargc s2) with (nargc s). change (optind s2) with (optind s + 1).
  destruct (Z.leb_spec (nargc s) (optind s + 1)) as [Hge|Hl]; unfold nargc in *; rewrite H1 in *.
  - eexists _, _. split; [done|]. apply (letter_arg s c [] args Hat _ _ 1%nat args); try done; [apply BADARG_ne|lia|rewrite Hargs'; do 2 f_equal; lia|unfold size; cbn; lia|].
    assert (args = []) as -> by (rewrite Hargs', drop_ge by lia; done). intros evs n Hpa. cbn in Hpa |- *. inversion Hpa; subst. by constructor.
  - destruct (lookup_lt_is_Some_2 argv0 (S (Z.to_nat (optind s)))) as [b Hb]; [lia|].
    assert (args = arg_text b :: map arg_text (drop (Z.to_nat (optind s) + 2) argv0)) as ->.
    { rewrite Hargs', (drop_S _ _ _ Hb). cbn. do 3 f_equal. lia. }
    assert (argv_at s2 (optind s + 1) = Some (Some b)) as ->.
    { unfold argv_at. change (nargv s2) with (nargv s). change (nargc s2) with (nargc s). unfold nargc. rewrite H1, (proj2 (Z.leb_le 0 _)), (proj2 (Z.ltb_lt _ _)) by lia.
      cbn [andb]. replace (Z.to_nat (optind s + 1)) with (S (Z.to_nat (optind s))) by lia. by rewrite Hb. }
    eexists _, _. split; [done|]. eapply (letter_arg s c [] _ Hat _ _ 2%nat); try done; [cbn; lia|lia|unfold size; cbn; lia|].
    intros evs n Hpa. cbn in Hpa |- *. by apply p_separate.
Qed.

Lemma short_letter s cl args : at_pos s cl args -> cl <> [] -> optarg s = None ->
  exists r s', short_option options None false s = Some (r, s') /\ letter_done s cl args r s'.
Proof.
  intros Hat Hcl Ho. destruct cl as [|c t]; [done|]. pose proof Hat as [H1 [H2 H3] H4 [(? & _)|(_ & a & off & Hp & Hd & Ha & Hargs')]]; [done|].
  pose proof (lookup_arg _ _ Ha) as Hn. destruct (drop_text _ _ _ _ Hd) as [Hc Ht]. pose proof (lookup_lt_Some _ _ _ Ha) as Hlt.
  pose proof (fun s' r => letter_next s c t args a off Hat Hp Hd Ha Hargs' s' r) as Hnext. pose proof (fun s' r => letter_arg s c t args Hat s' r) as Harg.
  assert (c <> NUL) as Hcn.
  { intros ->. apply Hn. rewrite <- (take_drop off (arg_text a)), Hd. apply elem_of_app. right. apply list_elem_of_here. }
  unfold short_option, find_option. rewrite Hp, Hc, (eqc_nul _ Hcn). cbn [mbind option_bind advance].
  change (deref (place (set_place (At a (S off)) s))) with (deref (At a (S off))). rewrite (more_text _ _ _ Hn Ht).
  assert (classify options c (nonempty t) = Unknown -> ~ (c = "-"%char /\ t = [] /\ dash_listed options = false) ->
    letter_done s (c :: t) args BADCH (set_optopt (code c) (if nonempty t then set_place (At a (S off)) s
       else set_optind (optind (set_place (At a (S off)) s) + 1) (set_place (At a (S off)) s)))) as Hunknown.
  { intros Hu Hnd. apply Hnext; try (destruct (nonempty t); cbn; lia || done).
    intros evs n Hpa. destruct (nonempty t) eqn:En; cbn in Hpa |- *; rewrite Ho; constructor; rewrite ?En; done. }
  unfold classify in *. destruct (strchr options c) as [k|] eqn:Ek.
  2:{ destruct (eqc c "-"%char && negb (nonempty t)) eqn:E; [|eexists _, _; split; [done|apply Hunknown; [done|by intros (-> & -> & _)]]].
      eexists _, _. split; [done|]. right. bool_prop. apply eqc_spec_true in H as ->. apply nonempty_false in H0 as ->. cbn.
      split_and!; try done. unfold dash_listed. apply bool_decide_eq_false_2. intros Hx. by apply Hx. }
  pose proof (strchr_plain _ _ _ Hplain Ek) as Hcode.
  destruct (eqc c ":"%char || eqc c "-"%char && nonempty t) eqn:E1; [eexists _, _; split; [done|apply Hunknown; [done|by intros (-> & -> & _)]]|].
  cbn [bool_decide decide_rel] in *. rewrite (bool_decide_eq_false_2 (None <> None)) by (intros Hx; by apply Hx). cbn [andb].
  destruct (negb (eqc (char_at options (S k)) ":"%char)) eqn:E2.
  { eexists _, _. split; [done|]. apply Hnext; try (destruct (nonempty t); cbn; lia || done).
    intros evs n Hpa. destruct (nonempty t) eqn:En; cbn in Hpa |- *; rewrite Ho; constructor; try done; rewrite En; unfold classify; by rewrite Ek, E1, E2. }
  assert (args = map arg_text (drop (Z.to_nat (optind s) + 1) argv0)) as Hrest by (rewrite Hargs'; do 2 f_equal; lia).
  assert (forall t', (size [] args < size (c :: t') args)%nat) as Hsz by (intros; unfold size; cbn; lia).
  destruct (nonempty t) eqn:En.
  { eexists _, _. split; [done|]. apply (Harg _ _ 1%nat args); try done; try (cbn; lia).
    intros evs n Hpa. cbn [optarg optopt set_optind set_place set_optarg] in Hpa |- *.
    change (place (set_optarg None (set_place (At a (S off)) s))) with (At a (S off)). rewrite Ht. apply p_joined; [| |done].
    - rewrite En. unfold classify. rewrite Ek, E1, E2. by destruct (eqc (char_at options (S (S k))) ":"%char); [right|left].
    - unfold nonempty in En. by apply bool_decide_eq_true in En. }
  apply nonempty_false in En as ->.
  destruct (negb (eqc (char_at options (S (S k))) ":"%char)) eqn:E3.
  2:{ eexists _, _. split; [done|]. apply (Harg _ _ 1%nat args); try done; try (cbn; lia).
      intros evs n Hpa. cbn in Hpa |- *. apply p_optional; [|done]. unfold classify. by rewrite Ek, E1, E2, E3. }
  apply (short_required s c args a off); try done. unfold classify. by rewrite Ek, E1, E2, E3.
Qed.

(** The end of a parse. *)
Definition ended (s : state) (cl : cstr) (args : list cstr) (r : Z) (s' : state) : Prop :=
  r = -1 /\ exists n, parses options (optopt s) cl args [] n /\ optind s' = nargc s - Z.of_nat n /\ nargv s' = argv0.

Lemma process_letter s s1 cl args : at_pos s1 cl args -> cl <> [] -> optarg s1 = None -> optopt s1 = optopt s ->
  nargc s1 = nargc s -> posixly_correct s1 = Z.b2z env ->
  exists r s', process options None false 0 s1 = Some (r, s') /\ posix_ok env s' /\
    (ended s cl args r s' /\ cl = ["-"%char] /\ dash_listed options = false \/
     r <> -1 /\ exists cl' args', at_pos s' cl' args' /\ (size cl' args' < size cl args)%nat /\
       forall evs n, parses options (optopt s') cl' args' evs n ->
         parses options (optopt s) cl args ((r, optarg s', optopt s') :: evs) n).
Proof.
  intros Hat Hcl Ho E En Hpx. destruct (short_letter s1 cl args Hat Hcl Ho) as (r & s' & Es & H). exists r, s'. split; [done|].
  destruct H as [(Hr & Hp & cl' & args' & H1 & H2 & H3)|(-> & -> & Hd & Hv & Hi & Hp)].
  - split; [right; by rewrite Hp|]. right. rewrite E in H3. split; [done|]. by exists cl', args'.
  - split; [right; by rewrite Hp|]. left. split_and!; try done. split; [done|]. exists (S (length args)). split_and!; [by constructor| |done].
    rewrite Hi. destruct Hat as [A1 _ A2 [(? & _)|(_ & a & off & _ & _ & Ha & ->)]]; [done|]. apply lookup_lt_Some in Ha.
    rewrite length_map, length_drop. rewrite <- En. unfold nargc in *. rewrite A1 in *. lia.
Qed.

(** Results of a call at a position. *)
Definition reports (s : state) (cl : cstr) (args : list cstr) (r : Z) (s' : state) : Prop :=
  posix_ok env s' /\
  (ended s cl args r s' \/
   r <> -1 /\ exists cl' args', at_pos s' cl' args' /\ (size cl' args' < size cl args)%nat /\
     forall evs n, parses options (optopt s') cl' args' evs n ->
       parses options (optopt s) cl args ((r, optarg s', optopt s') :: evs) n).

Lemma call_in_cluster s cl args : at_pos s cl args -> cl <> [] -> posix_ok env s ->
  exists r s', getopt (Some options0) env s = Some (r, s') /\ reports s cl args r s'.
Proof.
  intros Hat Hcl Hpx. change (getopt (Some options0) env s) with (call options0 None false FLAG_PERMUTE env s).
  rewrite call_prepared; [|done|pose proof (ap_optind _ _ _ Hat); lia]. rewrite Henv.
  assert (deref (place s) <> NUL) as Hd.
  { destruct (ap_place _ _ _ Hat) as [(? & _)|(_ & a & off & -> & Hd & Ha & _)]; [done|]. destruct cl as [|c t]; [done|].
    destruct (drop_text _ _ _ _ Hd) as [-> _]. intros ->. apply (lookup_arg _ _ Ha).
    rewrite <- (take_drop off (arg_text a)), Hd. apply elem_of_app. right. apply list_elem_of_here. }
  cbn [scan_args]. change (place (prepared env s)) with (place s). rewrite (eqc_nul _ Hd). cbn [orb mbind option_bind].
  assert (at_pos (prepared env s) cl args) as Hat' by (by destruct Hat; split).
  destruct (process_letter s (prepared env s) cl args Hat' Hcl) as (r & s' & E & Hp & H); try done.
  exists r, s'. split; [done|]. split; [done|]. destruct H as [[H _]|H]; [by left|by right].
Qed.

(** A call at the argument [a]: it stops there, or goes on with the letters behind [off]. *)
Lemma stop_reports s args n : nargv s = argv0 -> Z.of_nat n = nargc s - optind s -> parses options (optopt s) [] args [] n ->
  exists r s', Some (-1, set_place EMSG (prepared env s)) = Some (r, s') /\ reports s [] args r s'.
Proof.
  intros H1 Hn Hpa. eexists _, _. split; [done|]. split; [by right|]. left. split; [done|]. exists n. cbn. split_and!; [done|lia|done].
Qed.

Lemma cluster_reports s a rest off c t : at_pos s [] (map arg_text (a :: rest)) -> argv0 !! Z.to_nat (optind s) = Some a ->
  drop (S (Z.to_nat (optind s))) argv0 = rest -> drop off (arg_text a) = c :: t -> (length (c :: t) <= length (arg_text a))%nat ->
  ~ (c :: t = ["-"%char] /\ dash_listed options = false) ->
  (forall evs n, parses options (optopt s) (c :: t) (map arg_text rest) evs n ->
     parses options (optopt s) [] (arg_text a :: map arg_text rest) evs n) ->
  exists r s', process options None false 0 (set_place (At a off) (prepared env s)) = Some (r, s') /\
    reports s [] (arg_text a :: map arg_text rest) r s'.
Proof.
  intros [A1 [A2 A3] A4 _] Ha Hdrop1 Hd Hl Hno Hpa.
  destruct (process_letter s (set_place (At a off) (prepared env s)) (c :: t) (map arg_text rest)) as (r & s' & -> & Hpo & H); try done.
  { split; [done|done|done|]. right. split; [done|]. exists a, off. split_and!; try done. change (optind (set_place _ _)) with (optind s). by rewrite Hdrop1. }
  exists r, s'. split; [done|]. split; [done|].
  destruct H as [(_ & ? & ?)|(Hr & cl' & args' & H1 & H2 & H3)]; [by exfalso; apply Hno|]. right. split; [done|]. exists cl', args'.
  split_and!; [done|unfold size in *; cbn in *; lia|]. intros evs n H. by apply Hpa, H3.
Qed.

Lemma call_at_arg s a rest : at_pos s [] (map arg_text (a :: rest)) -> posix_ok env s ->
  drop (Z.to_nat (optind s)) argv0 = a :: rest ->
  exists r s', getopt (Some options0) env s = Some (r, s') /\ reports s [] (arg_text a :: map arg_text rest) r s'.
Proof.
  intros Hat Hpx Hdrop. change (getopt (Some options0) env s) with (call options0 None false FLAG_PERMUTE env s).
  rewrite call_prepared; [|done|pose proof (ap_optind _ _ _ Hat); lia]. rewrite Henv.
  pose proof Hat as [A1 [A2 A3] A4 [(_ & Hp & _)|(? & _)]]; [|done].
  assert (argv0 !! Z.to_nat (optind s) = Some a) as Ha by (by rewrite <- (Nat.add_0_r (Z.to_nat _)), <- lookup_drop, Hdrop).
  pose proof (lookup_lt_Some _ _ _ Ha) as Hlt. pose proof (lookup_arg _ _ Ha) as Hnul.
  assert (drop (S (Z.to_nat (optind s))) argv0 = rest) as Hdrop1 by (rewrite (drop_S _ _ _ Ha) in Hdrop; by simplify_eq).
  assert (Z.of_nat (length rest) = nargc s - optind s - 1) as Hlen.
  { unfold nargc. rewrite A1, <- Hdrop1, length_drop. lia. }
  cbn [scan_args]. change (place (prepared env s)) with (place s). rewrite Hp. change (false || eqc NUL NUL) with true. cbn match.
  change (nargc (prepared env s)) with (nargc s). change (optind (prepared env s)) with (optind s).
  rewrite (proj2 (Z.leb_gt _ _)) by (unfold nargc; rewrite A1; lia).
  assert (argv_at (prepared env s) (optind s) = Some (Some a)) as ->.
  { unfold argv_at, nargc. cbn [nargv prepared set_optarg set_posix]. rewrite A1, (proj2 (Z.leb_le 0 _)), (proj2 (Z.ltb_lt _ _)) by lia. cbn. by rewrite Ha. }
  cbn [mbind option_bind].
  pose proof (stop_reports s (arg_text a :: map arg_text rest) (S (length (map arg_text rest))) A1 ltac:(rewrite length_map; lia)) as Hstop.
  pose proof (fun off c t => cluster_reports s a rest off c t Hat Ha Hdrop1) as Hgo.
  assert (dash_listed options = negb (bool_decide (strchr options "-"%char = None))) as Hdl.
  { unfold dash_listed. destruct (strchr options "-"%char); [done|]. by rewrite bool_decide_eq_false_2 by (intros H; by apply H). }
  change (nonopt_start (prepared env s)) with (nonopt_start s). change (nonopt_end (prepared env s)) with (nonopt_end s).
  rewrite A2, A3. cbn [Z.eqb Pos.eqb negb andb]. unfold deref, advance, place_text. change (drop 0 (arg_text a)) with (arg_text a).
  destruct (arg_text a) as [|d [|c t]] eqn:Et.
  - apply Hstop. by constructor.
  - cbn [char_at nth drop eqc NUL]. destruct (eqc d "-"%char) eqn:Ed.
    + apply eqc_spec_true in Ed as ->. cbn [negb orb]. change (eqc NUL NUL) with true. cbn [andb].
      destruct (bool_decide (strchr options "-"%char = None)) eqn:El.
      * apply Hstop. by constructor.
      * cbn [negb] in Hdl. apply (Hgo 0%nat "-"%char []); [done|done|by intros [_ ?]; congruence|]. intros evs n H. by apply p_lone.
    + apply Hstop. apply p_operand. cbn. intros [= ->]. done.
  - cbn [char_at nth drop]. assert (c <> NUL) as Hc by (intros ->; apply Hnul; right; apply list_elem_of_here).
    rewrite (eqc_nul _ Hc). cbn [andb orb]. rewrite orb_false_r. destruct (eqc d "-"%char) eqn:Ed; cbn [negb].
    + apply eqc_spec_true in Ed as ->. destruct (eqc c "-"%char && eqc _ NUL) eqn:E2.
      * bool_prop. apply eqc_spec_true in H as ->. apply nul_eqc in H0. destruct t as [|x t].
        2:{ cbn in H0. subst x. exfalso. apply Hnul. do 2 right. apply list_elem_of_here. }
        unfold finish. cbn [nonopt_end set_place set_optind prepared set_optarg set_posix]. rewrite A3. cbn [Z.eqb Pos.eqb mbind option_bind].
        eexists _, _. split; [done|]. split; [by right|]. left. split; [done|]. exists (length (map arg_text rest)). split_and!; [by constructor| |done]. cbn. rewrite length_map. lia.
      * apply (Hgo 1%nat c t); [done|cbn; lia| |].
        -- intros [[= -> ->] _]. done.
        -- intros evs n H. apply p_cluster; [|done]. intros [= -> ->]. done.
    + apply Hstop. apply p_operand. cbn. intros [= ->]. done.
Qed.

Lemma call_at_end s : at_pos s [] [] -> posix_ok env s ->
  exists r s', getopt (Some options0) env s = Some (r, s') /\ reports s [] [] r s'.
Proof.
  intros Hat Hpx. change (getopt (Some options0) env s) with (call options0 None false FLAG_PERMUTE env s).
  rewrite call_prepared; [|done|pose proof (ap_optind _ _ _ Hat); lia]. rewrite Henv.
  destruct Hat as [A1 [A2 A3] A4 [(_ & Hp & Ha)|(? & _)]]; [|done]. symmetry in Ha. apply map_eq_nil in Ha.
  assert (optind s = nargc s) as Hi.
  { unfold nargc in *. rewrite A1 in *. pose proof (length_drop argv0 (Z.to_nat (optind s))) as Hl. rewrite Ha in Hl. cbn in Hl. lia. }
  cbn [scan_args]. change (place (prepared env s)) with (place s). rewrite Hp. change (false || eqc NUL NUL) with true. cbn match.
  change (nargc (prepared env s)) with (nargc s). change (optind (prepared env s)) with (optind s).
  rewrite (proj2 (Z.leb_le _ _)) by lia. unfold finish. cbn [nonopt_end nonopt_start prepared set_optarg set_posix set_place].
  rewrite A2, A3. cbn [Z.eqb Pos.eqb negb andb mbind option_bind]. eexists _, _. split; [done|]. split; [by right|]. left.
  split; [done|]. exists 0%nat. cbn. split_and!; [constructor|lia|done].
Qed.

Lemma getopt_reports s cl args : at_pos s cl args -> posix_ok env s ->
  exists r s', getopt (Some options0) env s = Some (r, s') /\ reports s cl args r s'.
Proof.
  intros Hat Hpx. destruct cl as [|c t]; [|by apply call_in_cluster].
  destruct (ap_place _ _ _ Hat) as [(_ & _ & E)|(? & _)]; [|done].
  destruct (drop (Z.to_nat (optind s)) argv0) as [|a rest] eqn:Ed; cbn in E; subst args; [by apply call_at_end|by apply call_at_arg].
Qed.

Lemma report_parses fuel : forall s cl args, at_pos s cl args -> posix_ok env s -> (size cl args < fuel)%nat ->
  exists evs n s', report env options0 fuel s = Some (evs, s') /\ parses options (optopt s) cl args evs n /\
    optind s' = Z.of_nat (length argv0) - Z.of_nat n /\ nargv s' = argv0.
Proof.
  induction fuel as [|fuel IH]; intros s cl args Hat Hpx Hf; [lia|]. cbn [report].
  destruct (getopt_reports s cl args Hat Hpx) as (r & s1 & -> & Hp & H). cbn [mbind option_bind].
  destruct H as [(-> & n & Hpa & Hi & Hv)|(Hr & cl' & args' & H1 & H2 & H3)].
  - exists [], n, s1. unfold nargc in Hi. rewrite (ap_nargv _ _ _ Hat) in Hi. done.
  - rewrite (proj2 (Z.eqb_neq _ _) Hr). destruct (IH s1 cl' args' H1 Hp ltac:(lia)) as (evs & n & s2 & -> & Hpa & Hi & Hv).
    cbn [mbind option_bind]. exists ((r, optarg s1, optopt s1) :: evs), n, s2. split_and!; [done|by apply H3|done|done].
Qed.
End Sound.

Lemma unlisted_dash options b : dash_listed options = false -> classify options "-"%char b = Unknown.
Proof. unfold dash_listed, classify. intros H%bool_decide_eq_false. destruct (strchr _ _); [|done]. exfalso. by apply H. Qed.

(** The grammar is deterministic, so that the report is the only derivation. *)
Lemma parses_det options o cl args evs n : parses options o cl args evs n -> forall evs' n',
  parses options o cl args evs' n' -> evs' = evs /\ n' = n.
Proof.
  induction 1; intros evs' n' H'; inversion H'; subst; try done; try congruence;
    repeat match goal with
    | H : _ \/ _ |- _ => destruct H
    | IH : forall e k, parses _ _ _ _ e k -> _, H : parses _ _ _ _ _ _ |- _ => destruct (IH _ _ H); clear IH
    end; subst; try done; try congruence; try tauto.
  all: change (nonempty []) with false in *; try congruence.
  all: pose proof (unlisted_dash options false ltac:(done)); congruence.
Qed.

(** Permutation is disabled: the test of POSIXLY_CORRECT is inverted in the code, so that [env] is false when the
    variable is not set. *)
Lemma in_order_flags options env : env = false \/ char_at options 0 = "+"%char -> eff_flags options FLAG_PERMUTE env = 0.
Proof. unfold eff_flags. intros [->| ->]; [done|]. change (eqc "+" "+") with true. by rewrite orb_true_r. Qed.

(** C12: when [getopt] does not permute (POSIXLY_CORRECT is not set in the environment, since its test is
    inverted, or the option string starts with [+]) and the byte 0xFF, which is -1 as an [int], is no option letter, the loop of
    the caller terminates and what its calls report, the letters, [optarg] and [optopt], clusters of
    letters, joined, separate, optional and missing arguments, unknown letters,
    [--] and operands included, is the only derivation of the grammar of command
    lines; it leaves the vector as it was and [optind] at the first argument not parsed. *)
Theorem getopt_grammar (env : bool) (options : cstr) (prog : arg) (args : list arg) :
  env = false \/ char_at options 0 = "+"%char -> plain_options (eff_options options) ->
  Forall (fun a => NUL ∉ arg_text a) (prog :: args) ->
  exists evs n s', report env options (S (size [] (map arg_text args))) (init_state (prog :: args)) = Some (evs, s') /\
    (forall evs' n', parses (eff_options options) 63 [] (map arg_text args) evs' n' <-> evs' = evs /\ n' = n) /\
    optind s' = Z.of_nat (S (length args)) - Z.of_nat n /\ nargv s' = prog :: args.
Proof.
  intros Henv%in_order_flags Hpl H. destruct (report_parses (prog :: args) options env H Henv Hpl (S (size [] (map arg_text args))) (init_state (prog :: args)) []
    (map arg_text args)) as (evs & n & s' & E & Hp & Hi & Hv); [|by left|lia|].
  - split; [done|done|unfold nargc; cbn; lia|]. by left.
  - exists evs, n, s'. split_and!; [done| |done|done]. intros evs' n'. split; [by apply parses_det|]. by intros [-> ->].
Qed.

Definition sample : list arg := args ["-abx"; "-b"; "y"; "-cz"; "-q"; "file"; "-a"].
Lemma getopt_grammar_witness : exists evs n s',
  report true (lit "+ab:c::") (S (size [] (map arg_text sample))) (init_state (Arg 9 (lit "prog") :: sample)) = Some (evs, s') /\
  (forall evs' n', parses (eff_options (lit "+ab:c::")) 63 [] (map arg_text sample) evs' n' <-> evs' = evs /\ n' = n) /\
  optind s' = 8 - Z.of_nat n /\ nargv s' = Arg 9 (lit "prog") :: sample.
Proof.
  apply (getopt_grammar true (lit "+ab:c::") (Arg 9 (lit "prog")) sample); [by right|by apply (bool_decide_unpack _)..].
Defined.

(** The byte 0xFF as an option letter: the call returns -1 and the caller stops. *)
Definition ff : ascii := ascii_of_nat 255.
Example letter_ff : (fun p => (fst p, optind (snd p))) <$>
  getopt (Some [ff]) false (init_state [Arg 0 (lit "prog"); Arg 1 ["-"%char; ff]; Arg 2 (lit "-x")]) = Some (-1, 2).
Proof. vm_compute. reflexivity. Qed.

(** ** Abbreviated long options *)

Section Long.
Context (current : cstr) (len : nat) (short_too : bool).

Definition exact (o : long_option) : bool := strncmp_eq current (name o) len && (length (name o) =? len)%nat.
Definition abbrev (o : long_option) : bool :=
  strncmp_eq current (name o) len && negb (length (name o) =? len)%nat && negb (short_too && (len =? 1)%nat).

(** The index of the first option that satisfies [P], and how many do. *)
Fixpoint index (P : long_option -> bool) (ls : list long_option) (i : Z) : option Z :=
  match ls with [] => None | o :: ls => if P o then Some i else index P ls (i + 1) end.
Fixpoint before_exact (ls : list long_option) : list long_option :=
  match ls with [] => [] | o :: ls => if exact o then [] else o :: before_exact ls end.
Definition abbrevs (ls : list long_option) : nat := length (List.filter abbrev ls).

(** Two abbreviations before the first exact match are an ambiguity; otherwise an
    exact match is preferred to the abbreviation. *)
Definition resolve (ls : list long_option) : search :=
  if (2 <=? abbrevs (before_exact ls))%nat then Ambiguous
  else match index exact ls 0, index abbrev (before_exact ls) 0 with
       | Some k, _ => Match k
       | None, Some k => Match k
       | None, None => Match (-1)
       end.

(** The three tests of a round, on an option. *)
Lemma round_tests o :
  (strncmp_eq current (name o) len = false /\ exact o = false /\ abbrev o = false) \/
  (strncmp_eq current (name o) len = true /\ (length (name o) =? len)%nat = true /\ exact o = true) \/
  (strncmp_eq current (name o) len = true /\ (length (name o) =? len)%nat = false /\ exact o = false /\
   abbrev o = negb (short_too && (len =? 1)%nat)).
Proof. unfold exact, abbrev. destruct (strncmp_eq _ _ _), (length (name o) =? len)%nat; cbn; naive_solver. Qed.

Lemma find_long_match ls : forall i m, m <> -1 -> find_long ls current len short_too i m =
  if (1 <=? abbrevs (before_exact ls))%nat then Ambiguous
  else match index exact ls i with Some k => Match k | None => Match m end.
Proof.
  induction ls as [|o ls IH]; intros i m Hm; cbn [find_long before_exact index]; [done|].
  destruct (round_tests o) as [(-> & -> & E)|[(-> & -> & ->)|(-> & -> & -> & E)]]; cbn [negb]; [|done|];
    unfold abbrevs; cbn [List.filter]; rewrite E; [by apply IH|].
  destruct (short_too && (len =? 1)%nat); cbn [negb length]; [by apply IH|]. by rewrite (proj2 (Z.eqb_neq _ _) Hm).
Qed.

Lemma find_long_start ls : forall i, 0 <= i -> find_long ls current len short_too i (-1) =
  if (2 <=? abbrevs (before_exact ls))%nat then Ambiguous
  else match index exact ls i, index abbrev (before_exact ls) i with
       | Some k, _ => Match k | None, Some k => Match k | None, None => Match (-1) end.
Proof.
  induction ls as [|o ls IH]; intros i Hi; cbn [find_long before_exact index]; [done|].
  destruct (round_tests o) as [(-> & -> & E)|[(-> & -> & ->)|(-> & -> & -> & E)]]; cbn [negb]; [|done|];
    unfold abbrevs; cbn [List.filter index]; rewrite E; [apply IH; lia|].
  destruct (short_too && (len =? 1)%nat); cbn [negb length]; [apply IH; lia|]. change (-1 =? -1) with true. cbn match.
  rewrite find_long_match by lia. unfold abbrevs. destruct (length (List.filter abbrev (before_exact ls))) as [|[|k]]; [|done|done].
  cbn. by destruct (index exact ls (i + 1)).
Qed.
End Long.

(** The search for a long option agrees with the rule that an exact name
    wins over an abbreviation and one abbreviation alone is accepted, except that
    two abbreviations listed before the exact name make it ambiguous. *)
Theorem long_option_resolution (ls : list long_option) (current : cstr) (len : nat) (short_too : bool) :
  find_long ls current len short_too 0 (-1) = resolve current len short_too ls.
Proof. by apply find_long_start. Qed.

Example exact_is_ambiguous :
  find_long [Option (lit "foobar") no_argument None 1; Option (lit "foobaz") no_argument None 2; Option (lit "foo") no_argument None 3]
    (lit "foo") 3 false 0 (-1) = Ambiguous.
Proof. reflexivity. Qed.
End GetoptSpec.
