(* ===== verification/Queue.v ===== *)
(** * Queue: the linked lists of src/inc/sys/queue.h

    Lists, tail queues, singly-linked lists and singly-linked tail queues, over
    an explicit memory.  A node is a list head or the entry embedded in an
    element, named by the address of its first word; the distance between an
    entry and its element ([__containerof]) is a constant and left out, so an
    element and its entry have one name.  Word 0 of a node is [first] or [next],
    word 1 is [last] or [prev]; the latter hold the address of a word 0, which is
    the name of its node.  A head and an entry have the same layout, as
    [TAILQ_LAST] and [TAILQ_PREV] require.  An access to a node that is not
    allocated (NULL included) is the outcome [None]. *)

From S2P Require Import Prelude.

Module Export Queue.
Local Open Scope Z_scope.

Abbreviation mem := (gmap Z (Z * Z)).
Definition NULL : Z := 0.

(** Programs over the memory that can fail. *)
Definition M (A : Type) : Type := mem -> option (A * mem).
Definition mval {A} (a : A) : M A := fun m => Some (a, m).
Definition mseq {A B} (x : M A) (k : A -> M B) : M B := fun m =>
  match x m with Some (a, m) => k a m | None => None end.

Declare Scope mem_scope.
Delimit Scope mem_scope with mem.
Notation "'let!' x := a 'in' k" := (mseq a (fun x => k))
  (at level 10, x name, a at level 100, k at level 200) : mem_scope.
Notation "a >> k" := (mseq a (fun _ => k)) (at level 199, right associativity) : mem_scope.
Local Open Scope mem_scope.

Definition link (m : mem) (p : Z) : Z := fst (default (NULL, NULL) (m !! p)).
Definition back (m : mem) (p : Z) : Z := snd (default (NULL, NULL) (m !! p)).
Definition set_link (p v : Z) (m : mem) : mem := <[p := (v, back m p)]> m.
Definition set_back (p v : Z) (m : mem) : mem := <[p := (link m p, v)]> m.

Definition guarded {A} (p : Z) (k : mem -> A * mem) : M A := fun m =>
  if decide (p ∈ dom m) then Some (k m) else None.
Definition load_link (p : Z) : M Z := guarded p (fun m => (link m p, m)).
Definition load_back (p : Z) : M Z := guarded p (fun m => (back m p, m)).
Definition store_link (p v : Z) : M unit := guarded p (fun m => (tt, set_link p v m)).
Definition store_back (p v : Z) : M unit := guarded p (fun m => (tt, set_back p v m)).

(** ** The memory *)

Lemma link_set_link p v m q : link (set_link p v m) q = if decide (q = p) then v else link m q.
Proof.
  unfold link, set_link. destruct (decide (q = p)) as [->|]; [by rewrite lookup_insert_eq|].
  by rewrite lookup_insert_ne.
Qed.
Lemma back_set_link p v m q : back (set_link p v m) q = back m q.
Proof.
  unfold back, set_link. destruct (decide (q = p)) as [->|]; [by rewrite lookup_insert_eq|].
  by rewrite lookup_insert_ne.
Qed.
Lemma link_set_back p v m q : link (set_back p v m) q = link m q.
Proof.
  unfold link, set_back. destruct (decide (q = p)) as [->|]; [by rewrite lookup_insert_eq|].
  by rewrite lookup_insert_ne.
Qed.
Lemma back_set_back p v m q : back (set_back p v m) q = if decide (q = p) then v else back m q.
Proof.
  unfold back, set_back. destruct (decide (q = p)) as [->|]; [by rewrite lookup_insert_eq|].
  by rewrite lookup_insert_ne.
Qed.
Lemma dom_set_link p v m : p ∈ dom m -> dom (set_link p v m) = dom m.
Proof. intros. unfold set_link. rewrite dom_insert_L. set_solver. Qed.
Lemma dom_set_back p v m : p ∈ dom m -> dom (set_back p v m) = dom m.
Proof. intros. unfold set_back. rewrite dom_insert_L. set_solver. Qed.

(** A node reads the same in both memories. *)
Definition same_at (m m' : mem) (p : Z) : Prop := m' !! p = m !! p.
Lemma same_set_link p v m q : q <> p -> same_at m (set_link p v m) q.
Proof. intros. unfold same_at, set_link. by rewrite lookup_insert_ne. Qed.
Lemma same_set_back p v m q : q <> p -> same_at m (set_back p v m) q.
Proof. intros. unfold same_at, set_back. by rewrite lookup_insert_ne. Qed.

Lemma load_link_run p m : p ∈ dom m -> load_link p m = Some (link m p, m).
Proof. intros. unfold load_link, guarded. by rewrite decide_True. Qed.
Lemma load_back_run p m : p ∈ dom m -> load_back p m = Some (back m p, m).
Proof. intros. unfold load_back, guarded. by rewrite decide_True. Qed.
Lemma store_link_run p v m : p ∈ dom m -> store_link p v m = Some (tt, set_link p v m).
Proof. intros. unfold store_link, guarded. by rewrite decide_True. Qed.
Lemma store_back_run p v m : p ∈ dom m -> store_back p v m = Some (tt, set_back p v m).
Proof. intros. unfold store_back, guarded. by rewrite decide_True. Qed.
Lemma mseq_run {A B} (x : M A) (k : A -> M B) m a m' : x m = Some (a, m') -> mseq x k m = k a m'.
Proof. intros E. unfold mseq. by rewrite E. Qed.

Lemma mseq_mval {A B} (a : A) (k : A -> M B) m : mseq (mval a) k m = k a m.
Proof. done. Qed.
Lemma mseq_assoc {A B D} (x : M A) (f : A -> M B) (g : B -> M D) m :
  mseq (mseq x f) g m = mseq x (fun a => mseq (f a) g) m.
Proof. unfold mseq. by destruct (x m) as [[a m']|]. Qed.
Lemma in_set_link a p v m : a ∈ dom m -> a ∈ dom (set_link p v m).
Proof. intros. unfold set_link. rewrite dom_insert_L. set_solver. Qed.
Lemma in_set_back a p v m : a ∈ dom m -> a ∈ dom (set_back p v m).
Proof. intros. unfold set_back. rewrite dom_insert_L. set_solver. Qed.

(** Run the next access; the node it uses is allocated. *)
Ltac in_dom := repeat (apply in_set_link || apply in_set_back); assumption.
Ltac step_mem :=
  match goal with
  | |- mseq (mseq _ _) _ _ = _ => rewrite mseq_assoc
  | |- mseq (mval _) _ _ = _ => rewrite mseq_mval
  | |- mseq (load_link ?p) _ ?m = _ => rewrite (mseq_run _ _ _ _ _ (load_link_run p m ltac:(in_dom)))
  | |- mseq (load_back ?p) _ ?m = _ => rewrite (mseq_run _ _ _ _ _ (load_back_run p m ltac:(in_dom)))
  | |- mseq (store_link ?p ?v) _ ?m = _ => rewrite (mseq_run _ _ _ _ _ (store_link_run p v m ltac:(in_dom)))
  | |- mseq (store_back ?p ?v) _ ?m = _ => rewrite (mseq_run _ _ _ _ _ (store_back_run p v m ltac:(in_dom)))
  | |- load_link ?p ?m = _ => rewrite (load_link_run p m ltac:(in_dom))
  | |- load_back ?p ?m = _ => rewrite (load_back_run p m ltac:(in_dom))
  | |- store_link ?p ?v ?m = _ => rewrite (store_link_run p v m ltac:(in_dom))
  | |- store_back ?p ?v ?m = _ => rewrite (store_back_run p v m ltac:(in_dom))
  end.

(** ** Segments *)

(** [link]s lead from [p] through [xs] to [q]. *)
Fixpoint lseg (m : mem) (p : Z) (xs : list Z) (q : Z) : Prop :=
  match xs with
  | [] => link m p = q
  | x :: xs => link m p = x /\ lseg m x xs q
  end.
(** The [back] word of each element is its predecessor. *)
Fixpoint backs (m : mem) (p : Z) (xs : list Z) : Prop :=
  match xs with
  | [] => True
  | x :: xs => back m x = p /\ backs m x xs
  end.
(** The last node of the segment. *)
Fixpoint endp (p : Z) (xs : list Z) : Z :=
  match xs with [] => p | x :: xs => endp x xs end.

Lemma endp_app p ys z zs : endp p (ys ++ z :: zs) = endp z zs.
Proof. revert p. induction ys; intros; cbn; auto. Qed.
Lemma endp_snoc p ys z : endp p (ys ++ [z]) = z.
Proof. apply endp_app. Qed.
Lemma endp_in p xs : endp p xs ∈ p :: xs.
Proof. revert p. induction xs as [|x xs IH]; intros p; cbn; [set_solver|]. specialize (IH x). set_solver. Qed.

Lemma lseg_app m p ys z zs q : lseg m p (ys ++ z :: zs) q <-> lseg m p ys z /\ lseg m z zs q.
Proof. revert p. induction ys as [|y ys IH]; intros p; cbn; [tauto|]. rewrite IH. tauto. Qed.
Lemma backs_app m p ys zs : backs m p (ys ++ zs) <-> backs m p ys /\ backs m (endp p ys) zs.
Proof. revert p. induction ys as [|y ys IH]; intros p; cbn; [tauto|]. rewrite IH. tauto. Qed.
Lemma lseg_end m p xs q : lseg m p xs q -> link m (endp p xs) = q.
Proof. revert p. induction xs as [|x xs IH]; intros p; cbn; [done|]. intros [_ H]. auto. Qed.

(** Segments depend on the links of [p :: xs] and the backs of [xs]. *)
Lemma lseg_frame m m' p xs q :
  (forall a, a ∈ p :: xs -> link m' a = link m a) -> lseg m p xs q -> lseg m' p xs q.
Proof.
  revert p. induction xs as [|x xs IH]; intros p H; cbn.
  - intros <-. apply H. set_solver.
  - intros [<- Hs]. split; [apply H; set_solver|]. apply IH; [|done]. intros a Ha. apply H. set_solver.
Qed.
Lemma backs_frame m m' p xs : (forall a, a ∈ xs -> back m' a = back m a) -> backs m p xs -> backs m' p xs.
Proof.
  revert p. induction xs as [|x xs IH]; intros p H; cbn; [done|].
  intros [<- Hs]. split; [apply H; set_solver|]. apply IH; [|done]. intros a Ha. apply H. set_solver.
Qed.
(** Redirecting the end of a segment. *)
Lemma lseg_redirect m m' p xs q q' :
  NoDup (p :: xs) -> (forall a, a ∈ p :: xs -> a <> endp p xs -> link m' a = link m a) ->
  link m' (endp p xs) = q' -> lseg m p xs q -> lseg m' p xs q'.
Proof.
  revert p. induction xs as [|x xs IH]; intros p Hnd H He; cbn in *; [done|].
  apply NoDup_cons in Hnd as [Hp Hnd]. intros [Hx Hs]. pose proof (endp_in x xs) as Hin. split.
  - rewrite H; [done|apply list_elem_of_here|]. intros E. apply Hp. by rewrite E.
  - apply IH; try done. intros a Ha Hne. apply H; [|done]. by apply list_elem_of_further.
Qed.

(** ** The macros *)

(** [while (NEXT(curelm) != elm) curelm = NEXT(curelm);] with [fuel] rounds. *)
Fixpoint seek (fuel : nat) (curelm elm : Z) : M Z :=
  match fuel with
  | O => fun _ => None
  | S fuel =>
      let! n := load_link curelm in
      if decide (n = elm) then mval curelm else seek fuel n elm
  end.
(** More rounds than there are nodes. *)
Definition rounds : M nat := fun m => Some (S (size m), m).

(** [SLIST_*] *)
Definition SLIST_FIRST (head : Z) : M Z := load_link head.
Definition SLIST_NEXT (elm : Z) : M Z := load_link elm.
Definition SLIST_EMPTY (head : Z) : M bool := let! f := SLIST_FIRST head in mval (bool_decide (f = NULL)).
Definition SLIST_INIT (head : Z) : M unit := store_link head NULL.
Definition SLIST_INSERT_AFTER (slistelm elm : Z) : M unit :=
  let! n := load_link slistelm in
  store_link elm n >> store_link slistelm elm.
Definition SLIST_INSERT_HEAD (head elm : Z) : M unit :=
  let! f := load_link head in
  store_link elm f >> store_link head elm.
Definition SLIST_REMOVE_AFTER (elm : Z) : M unit :=
  let! n := load_link elm in
  let! n := load_link n in
  store_link elm n.
Definition SLIST_REMOVE_HEAD (head : Z) : M unit :=
  let! f := load_link head in
  let! n := load_link f in
  store_link head n.
Definition SLIST_REMOVE (head elm : Z) : M unit :=
  let! f := load_link head in
  if decide (f = elm) then SLIST_REMOVE_HEAD head
  else
    let! fuel := rounds in
    let! curelm := seek fuel f elm in
    SLIST_REMOVE_AFTER curelm.
(** [prevp] is the address of a link word. *)
Definition SLIST_REMOVE_PREVPTR (prevp elm : Z) : M unit :=
  let! n := load_link elm in store_link prevp n.
Definition SLIST_CONCAT (head1 head2 : Z) : M unit :=
  let! curelm := load_link head1 in
  let! f2 := load_link head2 in
  if decide (curelm = NULL) then
    store_link head1 f2 >> (if decide (f2 = NULL) then mval tt else SLIST_INIT head2)
  else if decide (f2 = NULL) then mval tt
  else
    let! fuel := rounds in
    let! curelm := seek fuel curelm NULL in
    store_link curelm f2 >> SLIST_INIT head2.
Definition SLIST_SWAP (head1 head2 : Z) : M unit :=
  let! swap_first := load_link head1 in
  let! f2 := load_link head2 in
  store_link head1 f2 >> store_link head2 swap_first.

(** [STAILQ_*] *)
Definition STAILQ_FIRST (head : Z) : M Z := load_link head.
Definition STAILQ_NEXT (elm : Z) : M Z := load_link elm.
Definition STAILQ_EMPTY (head : Z) : M bool := let! f := STAILQ_FIRST head in mval (bool_decide (f = NULL)).
Definition STAILQ_INIT (head : Z) : M unit := store_link head NULL >> store_back head head.
Definition STAILQ_INSERT_AFTER (head tqelm elm : Z) : M unit :=
  let! n := load_link tqelm in
  store_link elm n >> (if decide (n = NULL) then store_back head elm else mval tt) >>
  store_link tqelm elm.
Definition STAILQ_INSERT_HEAD (head elm : Z) : M unit :=
  let! f := load_link head in
  store_link elm f >> (if decide (f = NULL) then store_back head elm else mval tt) >>
  store_link head elm.
Definition STAILQ_INSERT_TAIL (head elm : Z) : M unit :=
  store_link elm NULL >>
  let! l := load_back head in
  store_link l elm >> store_back head elm.
Definition STAILQ_LAST (head : Z) : M Z :=
  let! e := STAILQ_EMPTY head in
  if e then mval NULL else load_back head.
Definition STAILQ_REMOVE_AFTER (head elm : Z) : M unit :=
  let! n := load_link elm in
  let! n := load_link n in
  store_link elm n >> (if decide (n = NULL) then store_back head elm else mval tt).
Definition STAILQ_REMOVE_HEAD (head : Z) : M unit :=
  let! f := load_link head in
  let! n := load_link f in
  store_link head n >> (if decide (n = NULL) then store_back head head else mval tt).
Definition STAILQ_REMOVE (head elm : Z) : M unit :=
  let! f := load_link head in
  if decide (f = elm) then STAILQ_REMOVE_HEAD head
  else
    let! fuel := rounds in
    let! curelm := seek fuel f elm in
    STAILQ_REMOVE_AFTER head curelm.
Definition STAILQ_CONCAT (head1 head2 : Z) : M unit :=
  let! e := STAILQ_EMPTY head2 in
  if e then mval tt
  else
    let! f2 := load_link head2 in
    let! l1 := load_back head1 in
    store_link l1 f2 >>
    let! l2 := load_back head2 in
    store_back head1 l2 >> STAILQ_INIT head2.
Definition STAILQ_SWAP (head1 head2 : Z) : M unit :=
  let! swap_first := load_link head1 in
  let! swap_last := load_back head1 in
  let! f2 := load_link head2 in
  store_link head1 f2 >>
  let! l2 := load_back head2 in
  store_back head1 l2 >> store_link head2 swap_first >> store_back head2 swap_last >>
  let! e1 := STAILQ_EMPTY head1 in
  (if e1 then store_back head1 head1 else mval tt) >>
  let! e2 := STAILQ_EMPTY head2 in
  (if e2 then store_back head2 head2 else mval tt).

(** [LIST_*] *)
Definition LIST_FIRST (head : Z) : M Z := load_link head.
Definition LIST_NEXT (elm : Z) : M Z := load_link elm.
Definition LIST_EMPTY (head : Z) : M bool := let! f := LIST_FIRST head in mval (bool_decide (f = NULL)).
Definition LIST_INIT (head : Z) : M unit := store_link head NULL.
Definition LIST_INSERT_AFTER (listelm elm : Z) : M unit :=
  let! n := load_link listelm in
  store_link elm n >>
  (if decide (n = NULL) then mval tt else let! n := load_link listelm in store_back n elm) >>
  store_link listelm elm >> store_back elm listelm.
Definition LIST_INSERT_BEFORE (listelm elm : Z) : M unit :=
  let! b := load_back listelm in
  store_back elm b >> store_link elm listelm >>
  let! b := load_back listelm in
  store_link b elm >> store_back listelm elm.
Definition LIST_INSERT_HEAD (head elm : Z) : M unit :=
  let! f := load_link head in
  store_link elm f >>
  (if decide (f = NULL) then mval tt else let! f := load_link head in store_back f elm) >>
  store_link head elm >> store_back elm head.
Definition LIST_PREV (elm head : Z) : M Z :=
  let! b := load_back elm in mval (if decide (b = head) then NULL else b).
Definition LIST_REMOVE (elm : Z) : M unit :=
  let! n := load_link elm in
  (if decide (n = NULL) then mval tt else let! b := load_back elm in store_back n b) >>
  let! b := load_back elm in
  let! n := load_link elm in
  store_link b n.
Definition LIST_CONCAT (head1 head2 : Z) : M unit :=
  let! curelm := load_link head1 in
  let! f2 := load_link head2 in
  if decide (curelm = NULL) then
    store_link head1 f2 >>
    (if decide (f2 = NULL) then mval tt else store_back f2 head1 >> LIST_INIT head2)
  else if decide (f2 = NULL) then mval tt
  else
    let! fuel := rounds in
    let! curelm := seek fuel curelm NULL in
    store_link curelm f2 >> store_back f2 curelm >> LIST_INIT head2.
Definition LIST_SWAP (head1 head2 : Z) : M unit :=
  let! swap_tmp := load_link head1 in
  let! f2 := load_link head2 in
  store_link head1 f2 >> store_link head2 swap_tmp >>
  let! swap_tmp := load_link head1 in
  (if decide (swap_tmp = NULL) then mval tt else store_back swap_tmp head1) >>
  let! swap_tmp := load_link head2 in
  (if decide (swap_tmp = NULL) then mval tt else store_back swap_tmp head2).

(** [TAILQ_*] *)
Definition TAILQ_FIRST (head : Z) : M Z := load_link head.
Definition TAILQ_NEXT (elm : Z) : M Z := load_link elm.
Definition TAILQ_EMPTY (head : Z) : M bool := let! f := TAILQ_FIRST head in mval (bool_decide (f = NULL)).
Definition TAILQ_INIT (head : Z) : M unit := store_link head NULL >> store_back head head.
Definition TAILQ_INSERT_AFTER (head listelm elm : Z) : M unit :=
  let! n := load_link listelm in
  store_link elm n >>
  (if decide (n = NULL) then store_back head elm else let! n := load_link elm in store_back n elm) >>
  store_link listelm elm >> store_back elm listelm.
Definition TAILQ_INSERT_BEFORE (listelm elm : Z) : M unit :=
  let! b := load_back listelm in
  store_back elm b >> store_link elm listelm >>
  let! b := load_back listelm in
  store_link b elm >> store_back listelm elm.
Definition TAILQ_INSERT_HEAD (head elm : Z) : M unit :=
  let! f := load_link head in
  store_link elm f >>
  (if decide (f = NULL) then store_back head elm else let! f := load_link head in store_back f elm) >>
  store_link head elm >> store_back elm head.
Definition TAILQ_INSERT_TAIL (head elm : Z) : M unit :=
  store_link elm NULL >>
  let! l := load_back head in
  store_back elm l >>
  let! l := load_back head in
  store_link l elm >> store_back head elm.
(** The entry before the last one is read as if it were a head. *)
Definition TAILQ_LAST (head : Z) : M Z :=
  let! l := load_back head in let! p := load_back l in load_link p.
Definition TAILQ_LAST_FAST (head : Z) : M Z :=
  let! e := TAILQ_EMPTY head in
  if e then mval NULL else load_back head.
Definition TAILQ_PREV (elm : Z) : M Z :=
  let! b := load_back elm in let! p := load_back b in load_link p.
Definition TAILQ_PREV_FAST (elm head : Z) : M Z :=
  let! b := load_back elm in mval (if decide (b = head) then NULL else b).
Definition TAILQ_REMOVE (head elm : Z) : M unit :=
  let! n := load_link elm in
  (if decide (n = NULL) then let! b := load_back elm in store_back head b
   else let! b := load_back elm in store_back n b) >>
  let! b := load_back elm in
  let! n := load_link elm in
  store_link b n.
Definition TAILQ_CONCAT (head1 head2 : Z) : M unit :=
  let! e := TAILQ_EMPTY head2 in
  if e then mval tt
  else
    let! f2 := load_link head2 in
    let! l1 := load_back head1 in
    store_link l1 f2 >>
    let! f2 := load_link head2 in
    let! l1 := load_back head1 in
    store_back f2 l1 >>
    let! l2 := load_back head2 in
    store_back head1 l2 >> TAILQ_INIT head2.
Definition TAILQ_SWAP (head1 head2 : Z) : M unit :=
  let! swap_first := load_link head1 in
  let! swap_last := load_back head1 in
  let! f2 := load_link head2 in
  store_link head1 f2 >>
  let! l2 := load_back head2 in
  store_back head1 l2 >> store_link head2 swap_first >> store_back head2 swap_last >>
  let! f := load_link head1 in
  (if decide (f = NULL) then store_back head1 head1 else store_back f head1) >>
  let! f := load_link head2 in
  (if decide (f = NULL) then store_back head2 head2 else store_back f head2).

(** The loops: [next] is the macro that advances, [body] the statement.  The
    result is the nodes visited; [SAFE] loads the next node before the body. *)
Fixpoint foreach (fuel : nat) (next : Z -> M Z) (body : Z -> M unit) (var : Z) : M (list Z) :=
  if decide (var = NULL) then mval []
  else match fuel with
       | O => fun _ => None
       | S fuel =>
           body var >>
           let! n := next var in
           let! vs := foreach fuel next body n in mval (var :: vs)
       end.
Fixpoint foreach_safe (fuel : nat) (next : Z -> M Z) (body : Z -> M unit) (var : Z) : M (list Z) :=
  if decide (var = NULL) then mval []
  else match fuel with
       | O => fun _ => None
       | S fuel =>
           let! tvar := next var in
           body var >>
           let! vs := foreach_safe fuel next body tvar in mval (var :: vs)
       end.

(** [*_FOREACH], [*_FOREACH_FROM] and their variants, with [rounds] iterations. *)
Definition FOREACH_FROM (first : M Z) (next : Z -> M Z) (var : Z) (body : Z -> M unit) : M (list Z) :=
  let! fuel := rounds in
  let! v := (if decide (var = NULL) then first else mval var) in
  foreach fuel next body v.
Definition FOREACH_FROM_SAFE (first : M Z) (next : Z -> M Z) (var : Z) (body : Z -> M unit) : M (list Z) :=
  let! fuel := rounds in
  let! v := (if decide (var = NULL) then first else mval var) in
  foreach_safe fuel next body v.
Definition TAILQ_FOREACH (head : Z) : (Z -> M unit) -> M (list Z) := FOREACH_FROM (TAILQ_FIRST head) TAILQ_NEXT NULL.
Definition TAILQ_FOREACH_SAFE (head : Z) : (Z -> M unit) -> M (list Z) := FOREACH_FROM_SAFE (TAILQ_FIRST head) TAILQ_NEXT NULL.
Definition TAILQ_FOREACH_REVERSE (head : Z) : (Z -> M unit) -> M (list Z) := FOREACH_FROM (TAILQ_LAST head) TAILQ_PREV NULL.
Definition TAILQ_FOREACH_REVERSE_SAFE (head : Z) : (Z -> M unit) -> M (list Z) :=
  FOREACH_FROM_SAFE (TAILQ_LAST head) TAILQ_PREV NULL.
Definition LIST_FOREACH (head : Z) : (Z -> M unit) -> M (list Z) := FOREACH_FROM (LIST_FIRST head) LIST_NEXT NULL.
Definition LIST_FOREACH_SAFE (head : Z) : (Z -> M unit) -> M (list Z) := FOREACH_FROM_SAFE (LIST_FIRST head) LIST_NEXT NULL.
Definition STAILQ_FOREACH (head : Z) : (Z -> M unit) -> M (list Z) := FOREACH_FROM (STAILQ_FIRST head) STAILQ_NEXT NULL.
Definition STAILQ_FOREACH_SAFE (head : Z) : (Z -> M unit) -> M (list Z) := FOREACH_FROM_SAFE (STAILQ_FIRST head) STAILQ_NEXT NULL.
Definition SLIST_FOREACH (head : Z) : (Z -> M unit) -> M (list Z) := FOREACH_FROM (SLIST_FIRST head) SLIST_NEXT NULL.
Definition SLIST_FOREACH_SAFE (head : Z) : (Z -> M unit) -> M (list Z) := FOREACH_FROM_SAFE (SLIST_FIRST head) SLIST_NEXT NULL.

(** The variants that continue at [var] (from the first element when it is NULL). *)
Definition TAILQ_FOREACH_FROM (var head : Z) : (Z -> M unit) -> M (list Z) := FOREACH_FROM (TAILQ_FIRST head) TAILQ_NEXT var.
Definition TAILQ_FOREACH_FROM_SAFE (var head : Z) : (Z -> M unit) -> M (list Z) := FOREACH_FROM_SAFE (TAILQ_FIRST head) TAILQ_NEXT var.
Definition TAILQ_FOREACH_REVERSE_FROM (var head : Z) : (Z -> M unit) -> M (list Z) := FOREACH_FROM (TAILQ_LAST head) TAILQ_PREV var.
Definition TAILQ_FOREACH_REVERSE_FROM_SAFE (var head : Z) : (Z -> M unit) -> M (list Z) :=
  FOREACH_FROM_SAFE (TAILQ_LAST head) TAILQ_PREV var.
Definition LIST_FOREACH_FROM (var head : Z) : (Z -> M unit) -> M (list Z) := FOREACH_FROM (LIST_FIRST head) LIST_NEXT var.
Definition LIST_FOREACH_FROM_SAFE (var head : Z) : (Z -> M unit) -> M (list Z) := FOREACH_FROM_SAFE (LIST_FIRST head) LIST_NEXT var.
Definition STAILQ_FOREACH_FROM (var head : Z) : (Z -> M unit) -> M (list Z) := FOREACH_FROM (STAILQ_FIRST head) STAILQ_NEXT var.
Definition STAILQ_FOREACH_FROM_SAFE (var head : Z) : (Z -> M unit) -> M (list Z) :=
  FOREACH_FROM_SAFE (STAILQ_FIRST head) STAILQ_NEXT var.
Definition SLIST_FOREACH_FROM (var head : Z) : (Z -> M unit) -> M (list Z) := FOREACH_FROM (SLIST_FIRST head) SLIST_NEXT var.
Definition SLIST_FOREACH_FROM_SAFE (var head : Z) : (Z -> M unit) -> M (list Z) := FOREACH_FROM_SAFE (SLIST_FIRST head) SLIST_NEXT var.

(** [for (varp = &FIRST(head); (var = *varp) != NULL; varp = &NEXT(var))]: the pairs of [varp] and [var]. *)
Fixpoint foreach_prevptr (fuel : nat) (body : Z -> Z -> M unit) (varp : Z) : M (list (Z * Z)) :=
  match fuel with
  | O => fun _ => None
  | S fuel =>
      let! var := load_link varp in
      if decide (var = NULL) then mval []
      else
        body varp var >>
        let! vs := foreach_prevptr fuel body var in mval ((varp, var) :: vs)
  end.
Definition SLIST_FOREACH_PREVPTR (head : Z) (body : Z -> Z -> M unit) : M (list (Z * Z)) :=
  let! fuel := rounds in foreach_prevptr fuel body head.

(** ** Initial heads and consistency checks *)

(** The two words of a static head at the address [head]; the heads of [SLIST] and [LIST] have one word. *)
Definition SLIST_HEAD_INITIALIZER : Z := NULL.
Definition LIST_HEAD_INITIALIZER : Z := NULL.
Definition STAILQ_HEAD_INITIALIZER (head : Z) : Z * Z := (NULL, head).
Definition TAILQ_HEAD_INITIALIZER (head : Z) : Z * Z := (NULL, head).

(** The checks of a build with [INVARIANTS]: [false] is [panic]. *)
Definition QMD_SLIST_CHECK_PREVPTR (prevp elm : Z) : M bool :=
  let! v := load_link prevp in mval (bool_decide (v = elm)).
Definition QMD_LIST_CHECK_HEAD (head : Z) : M bool :=
  let! f := LIST_FIRST head in
  if decide (f = NULL) then mval true else let! b := load_back f in mval (bool_decide (b = head)).
Definition QMD_LIST_CHECK_NEXT (elm : Z) : M bool :=
  let! n := LIST_NEXT elm in
  if decide (n = NULL) then mval true else let! b := load_back n in mval (bool_decide (b = elm)).
Definition QMD_LIST_CHECK_PREV (elm : Z) : M bool :=
  let! b := load_back elm in let! v := load_link b in mval (bool_decide (v = elm)).
Definition QMD_TAILQ_CHECK_HEAD (head : Z) : M bool :=
  let! e := TAILQ_EMPTY head in
  if e : bool then mval true
  else let! f := TAILQ_FIRST head in let! b := load_back f in mval (bool_decide (b = head)).
Definition QMD_TAILQ_CHECK_TAIL (head : Z) : M bool :=
  let! b := load_back head in let! v := load_link b in mval (bool_decide (v = NULL)).
Definition QMD_TAILQ_CHECK_NEXT (elm : Z) : M bool :=
  let! n := TAILQ_NEXT elm in
  if decide (n = NULL) then mval true else let! b := load_back n in mval (bool_decide (b = elm)).
Definition QMD_TAILQ_CHECK_PREV (elm : Z) : M bool :=
  let! b := load_back elm in let! v := load_link b in mval (bool_decide (v = elm)).
End Queue.
