(* ===== verification/QueueProofs.v ===== *)
(** * QueueProofs: the macros of queue.h implement sequences

    All four structures are represented by one predicate: the nodes linked from
    the head, with back pointers ([LIST], [TAILQ]) and a tail pointer ([STAILQ],
    [TAILQ]) or without.  Insertion and removal are proved once, from what they
    do to the memory; each macro is run and matched against that. *)

From S2P Require Import Prelude Queue.

Module Export QueueProofs.
Local Open Scope Z_scope.
Local Open Scope mem_scope.

(** [bk]: elements have back pointers; [tl]: the head has a tail pointer. *)
Record rep (bk tl : bool) (m : mem) (h : Z) (xs : list Z) : Prop := {
  r_nodup : NoDup (h :: xs);
  r_dom : forall a, a ∈ h :: xs -> a ∈ dom m;
  r_null : NULL ∉ h :: xs;
  r_seg : lseg m h xs NULL;
  r_backs : bk = true -> backs m h xs;
  r_tail : tl = true -> back m h = endp h xs
}.
Abbreviation slist := (rep false false).
Abbreviation stailq := (rep false true).
Abbreviation dlist := (rep true false).
Abbreviation tailq := (rep true true).

Definition first (zs : list Z) : Z := match zs with [] => NULL | z :: _ => z end.

(** An element that can be inserted. *)
Definition usable (m : mem) (h e : Z) : Prop := e ∈ dom m /\ e <> NULL /\ e <> h.

(** Only nodes in [ns] may differ. *)
Definition touches (m m' : mem) (ns : list Z) : Prop :=
  dom m' = dom m /\ forall a, a ∉ ns -> m' !! a = m !! a.

Lemma touches_refl m ns : touches m m ns.
Proof. done. Qed.
Lemma touches_trans m m1 m2 ns ns' : touches m m1 ns -> touches m1 m2 ns' -> ns ⊆ ns' -> touches m m2 ns'.
Proof. intros [D1 H1] [D2 H2] Hs. split; [congruence|]. intros a Ha. rewrite H2, H1; set_solver. Qed.
Lemma touches_link p v m m' ns : touches m m' ns -> p ∈ ns -> p ∈ dom m -> touches m (set_link p v m') ns.
Proof.
  intros [D H] Hp Hd. split; [by rewrite dom_set_link by (by rewrite D)|].
  intros a Ha. unfold set_link. rewrite lookup_insert_ne; [auto|]. by intros ->.
Qed.
Lemma touches_back p v m m' ns : touches m m' ns -> p ∈ ns -> p ∈ dom m -> touches m (set_back p v m') ns.
Proof.
  intros [D H] Hp Hd. split; [by rewrite dom_set_back by (by rewrite D)|].
  intros a Ha. unfold set_back. rewrite lookup_insert_ne; [auto|]. by intros ->.
Qed.

Lemma lseg_first m p ys zs : lseg m p (ys ++ zs) NULL -> lseg m p ys (first zs).
Proof. destruct zs; [by rewrite app_nil_r|]. by intros [? _]%lseg_app. Qed.

(** Inserting [e] after [ys]. *)
Lemma rep_insert bk tl m m' h ys e zs :
  rep bk tl m h (ys ++ zs) -> usable m h e -> e ∉ ys ++ zs -> dom m' = dom m ->
  link m' (endp h ys) = e -> link m' e = first zs ->
  (forall a, a ∈ h :: ys ++ zs -> a <> endp h ys -> link m' a = link m a) ->
  (bk = true -> back m' e = endp h ys /\ (zs = [] \/ back m' (first zs) = e) /\
     forall a, a ∈ ys ++ tail zs -> back m' a = back m a) ->
  (tl = true -> back m' h = match zs with [] => e | _ => back m h end) ->
  rep bk tl m' h (ys ++ e :: zs).
Proof.
  intros [Hnd Hdom Hnull Hseg Hbk Htl] (He & He0 & Heh) Hfresh Hd Hl He1 Hlo Hb Ht.
  assert (NoDup (h :: ys)) as Hnd1 by (rewrite app_comm_cons in Hnd; by apply NoDup_app in Hnd as (? & _)).
  assert (forall a, a ∈ zs -> a <> endp h ys) as Hne.
  { intros a Ha ->. rewrite app_comm_cons in Hnd. apply NoDup_app in Hnd as (_ & H & _).
    apply (H (endp h ys)); [apply endp_in|done]. }
  assert (e <> endp h ys) as Hee. { intros ->. pose proof (endp_in h ys). set_solver. }
  split.
  - rewrite NoDup_cons in *. destruct Hnd as [Hh Hnd]. split; [set_solver|].
    apply NoDup_app in Hnd as (? & Hdis & ?). apply NoDup_app. split_and!; [done|set_solver|].
    apply NoDup_cons. split; [set_solver|done].
  - intros a Ha. rewrite Hd. destruct (decide (a = e)) as [->|]; [done|]. apply Hdom. set_solver.
  - set_solver.
  - apply lseg_app. split.
    + eapply lseg_redirect; [done| |done|by eapply lseg_first]. intros a Ha. apply Hlo. set_solver.
    + destruct zs as [|z zs]; [done|]. cbn in He1 |- *. split; [done|].
      eapply lseg_frame; [|by apply lseg_app in Hseg as [_ ?]]. intros a Ha. apply Hlo; [set_solver|].
      apply Hne. set_solver.
  - intros E. specialize (Hbk E). destruct (Hb E) as (B1 & B2 & B3). apply backs_app in Hbk as [K1 K2].
    apply backs_app. split; [eapply backs_frame; [|done]; intros; apply B3; set_solver|].
    cbn. split; [done|]. destruct zs as [|z zs]; [done|]. destruct B2 as [?|B2]; [done|]. cbn in *.
    split; [done|]. destruct K2 as [_ K2]. eapply backs_frame; [|done]. intros. apply B3. set_solver.
  - intros E. rewrite (Ht E), endp_app. destruct zs as [|z zs]; [done|]. rewrite (Htl E), endp_app. done.
Qed.

(** Removing [e] between [ys] and [zs]. *)
Lemma rep_remove bk tl m m' h ys e zs :
  rep bk tl m h (ys ++ e :: zs) -> dom m' = dom m ->
  link m' (endp h ys) = first zs ->
  (forall a, a ∈ h :: ys ++ zs -> a <> endp h ys -> link m' a = link m a) ->
  (bk = true -> (zs = [] \/ back m' (first zs) = endp h ys) /\
     forall a, a ∈ ys ++ tail zs -> back m' a = back m a) ->
  (tl = true -> back m' h = match zs with [] => endp h ys | _ => back m h end) ->
  rep bk tl m' h (ys ++ zs).
Proof.
  intros [Hnd Hdom Hnull Hseg Hbk Htl] Hd Hl Hlo Hb Ht.
  assert (NoDup (h :: ys)) as Hnd1 by (rewrite app_comm_cons in Hnd; by apply NoDup_app in Hnd as (? & _)).
  assert (forall a, a ∈ zs -> a <> endp h ys) as Hne.
  { intros a Ha ->. rewrite app_comm_cons in Hnd. apply NoDup_app in Hnd as (_ & H & _).
    apply (H (endp h ys)); [apply endp_in|set_solver]. }
  apply lseg_app in Hseg as [S1 S2]. split.
  - rewrite NoDup_cons in *. destruct Hnd as [Hh Hnd]. split; [set_solver|].
    apply NoDup_app in Hnd as (? & Hdis & [_ ?]%NoDup_cons). apply NoDup_app. split_and!; [done|set_solver|done].
  - intros a Ha. rewrite Hd. apply Hdom. set_solver.
  - set_solver.
  - destruct zs as [|z zs].
    + rewrite app_nil_r. eapply lseg_redirect; [done| |done|done]. intros a Ha. apply Hlo. set_solver.
    + apply lseg_app. split.
      * eapply lseg_redirect; [done| |done|done]. intros a Ha. apply Hlo. set_solver.
      * cbn in S2. eapply lseg_frame; [|by destruct S2]. intros a Ha. apply Hlo; [set_solver|]. apply Hne. set_solver.
  - intros E. specialize (Hbk E). destruct (Hb E) as (B2 & B3). apply backs_app in Hbk as [K1 [_ K2]].
    apply backs_app. split; [eapply backs_frame; [|done]; intros; apply B3; set_solver|].
    destruct zs as [|z zs]; [done|]. destruct B2 as [?|B2]; [done|]. cbn in *.
    split; [done|]. destruct K2 as [_ K2]. eapply backs_frame; [|done]. intros. apply B3. set_solver.
  - intros E. rewrite (Ht E). destruct zs as [|z zs]; [by rewrite app_nil_r|].
    rewrite (Htl E), !endp_app. done.
Qed.

Lemma and_wlog_l (A B : Prop) : (A -> B) -> A -> A /\ B.
Proof. tauto. Qed.

(** ** Facts about a position: [p] is the node before it, [n] the one after *)
Record at_pos (bk tl : bool) (m : mem) (h : Z) (ys zs : list Z) : Prop := {
  p_dom : endp h ys ∈ dom m;
  p_h : h ∈ dom m;
  p_in : endp h ys ∈ h :: ys;
  p_zs : endp h ys ∉ zs;
  p_null : endp h ys <> NULL;
  p_link : link m (endp h ys) = first zs;
  p_hzs : h ∉ ys ++ zs;
  p_first : (zs = [] /\ first zs = NULL) \/
            (first zs ∈ zs /\ first zs <> NULL /\ first zs ∈ dom m /\ (first zs ∉ h :: ys ++ tail zs) /\
            zs = (first zs :: tail zs) /\ (bk = true -> back m (first zs) = endp h ys));
  p_tail : tl = true -> back m h = endp h (ys ++ zs)
}.

Lemma rep_at bk tl m h ys zs : rep bk tl m h (ys ++ zs) -> at_pos bk tl m h ys zs.
Proof.
  intros [Hnd Hdom Hnull Hseg Hbk Htl]. pose proof (endp_in h ys) as Hin.
  assert (endp h ys ∉ zs) as Hz.
  { intros Hz. rewrite app_comm_cons in Hnd. apply NoDup_app in Hnd as (_ & H & _). by apply (H (endp h ys)). }
  split; try done.
  - apply Hdom. set_solver.
  - apply Hdom. set_solver.
  - intros E. apply Hnull. rewrite <- E. set_solver.
  - by eapply lseg_end, lseg_first.
  - by apply NoDup_cons in Hnd as [? _].
  - destruct zs as [|z zs]; [by left|right]. cbn. apply NoDup_cons in Hnd as [Hh Hnd].
    apply NoDup_app in Hnd as (_ & Hdis & [? _]%NoDup_cons).
    split_and!; [set_solver|intros ->; set_solver|apply Hdom; set_solver|set_solver|done|].
    intros E. specialize (Hbk E). apply backs_app in Hbk as [_ [? _]]. done.
Qed.

(** Evaluate reads of an updated memory. *)
Ltac mem_simpl :=
  rewrite ?link_set_link, ?link_set_back, ?back_set_link, ?back_set_back,
    ?link_set_link, ?link_set_back, ?back_set_link, ?back_set_back;
  repeat (case_decide; subst); rewrite ?link_set_link, ?link_set_back, ?back_set_link, ?back_set_back;
  repeat (case_decide; subst).

(** What insertion after [p], in front of [n], leaves behind. *)
Definition insert_mem (bk tl : bool) (h p n e : Z) (m : mem) : mem :=
  let m := set_link e n m in
  let m := if decide (n = NULL) then (if tl then set_back h e m else m)
           else (if bk then set_back n e m else m) in
  let m := set_link p e m in
  if bk then set_back e p m else m.

Lemma insert_mem_rep bk tl m h ys zs e :
  rep bk tl m h (ys ++ zs) -> usable m h e -> e ∉ ys ++ zs ->
  let m' := insert_mem bk tl h (endp h ys) (first zs) e m in
  rep bk tl m' h (ys ++ e :: zs) /\ touches m m' (e :: h :: ys ++ zs).
Proof.
  intros Hr Hu Hf. pose proof Hu as (He & He0 & Heh). pose proof (rep_at _ _ _ _ _ _ Hr) as [Pd Ph Pi Pz P0 Pl Phz Pf Pt].
  assert (e ∉ h :: ys ++ zs) as Hall by (rewrite elem_of_cons; tauto).
  assert (e <> endp h ys) as Hep.
  { intros ->. apply Hall. rewrite app_comm_cons, elem_of_app. by left. }
  assert (forall a, a ∈ ys ++ tail zs -> a <> e /\ a <> h) as Hrest.
  { intros a Ha. assert (a ∈ ys ++ zs) by (destruct zs; set_solver). split; intros ->; tauto. }
  assert (endp h ys ∈ e :: h :: ys ++ zs) as Tp.
  { apply elem_of_cons. right. rewrite app_comm_cons, elem_of_app. by left. }
  assert (e ∈ e :: h :: ys ++ zs) as Te by apply list_elem_of_here.
  assert (h ∈ e :: h :: ys ++ zs) as Th by (apply list_elem_of_further, list_elem_of_here).
  cbv zeta. unfold insert_mem.
  destruct Pf as [[-> F0]|(Fi & F0 & Fd & Fn & Fz & Fb)].
  - rewrite decide_True by done. apply and_comm. apply and_wlog_l.
    { intros [Hd _]. apply (rep_insert bk tl m); try done.
      + destruct bk, tl; mem_simpl; done.
      + destruct bk, tl; mem_simpl; done.
      + intros a Ha Hne. destruct bk, tl; mem_simpl; done.
      + intros ->. split_and!; [destruct tl; mem_simpl; done|by left|].
        intros a Ha. apply Hrest in Ha as [? ?]. destruct tl; mem_simpl; done.
      + intros ->. destruct bk; mem_simpl; done. }
    destruct bk, tl; repeat first [apply touches_refl | apply touches_back | apply touches_link]; done.
  - rewrite decide_False by done.
    assert (first zs <> e) by (intros E; rewrite E in Fi; apply Hf, elem_of_app; by right).
    assert (first zs <> h) by (intros E; rewrite E in Fi; apply Phz, elem_of_app; by right).
    assert (first zs <> endp h ys) by (intros E; rewrite E in Fi; done).
    assert (first zs ∈ e :: h :: ys ++ zs) as Tf by (do 2 apply list_elem_of_further; apply elem_of_app; by right).
    apply and_comm. apply and_wlog_l.
    { intros [Hd _]. apply (rep_insert bk tl m); try done.
      + destruct bk, tl; mem_simpl; done.
      + destruct bk, tl; mem_simpl; done.
      + intros a Ha Hne. destruct bk, tl; mem_simpl; done.
      + intros ->. split_and!; [mem_simpl; done|right; mem_simpl; done|].
        intros a Ha. assert (a <> first zs) by (intros ->; apply Fn, list_elem_of_further, Ha).
        apply Hrest in Ha as [? ?]. mem_simpl; done.
      + intros ->. rewrite Fz. destruct bk; mem_simpl; done. }
    destruct bk, tl; repeat first [apply touches_refl | apply touches_back | apply touches_link]; done.
Qed.

Lemma set_link_back_comm p v q w m : set_link p v (set_back q w m) = set_back q w (set_link p v m).
Proof.
  change (<[p := (v, back (set_back q w m) p)]> (set_back q w m) =
    <[q := (link (set_link p v m) q, w)]> (set_link p v m)).
  rewrite back_set_back, link_set_link. unfold set_link, set_back.
  destruct (decide (p = q)) as [->|Hne].
  - rewrite decide_True by done. by rewrite !insert_insert_eq.
  - rewrite decide_False by done. by rewrite insert_insert_ne.
Qed.

(** What removing the node between [p] and [n] leaves behind. *)
Definition remove_mem (bk tl : bool) (h p n : Z) (m : mem) : mem :=
  let m := set_link p n m in
  if decide (n = NULL) then (if tl then set_back h p m else m)
  else (if bk then set_back n p m else m).

Lemma remove_mem_rep bk tl m h ys e zs :
  rep bk tl m h (ys ++ e :: zs) ->
  let m' := remove_mem bk tl h (endp h ys) (first zs) m in
  rep bk tl m' h (ys ++ zs) /\ touches m m' (h :: ys ++ e :: zs).
Proof.
  intros Hr. pose proof (rep_at _ _ _ _ _ _ Hr) as [Pd Ph Pi Pz P0 Pl Phz _ _].
  assert (rep bk tl m h ((ys ++ [e]) ++ zs)) as Hr2 by (by rewrite <- app_assoc).
  pose proof (rep_at _ _ _ _ _ _ Hr2) as [_ _ _ Qz _ _ _ Qf _].
  assert (endp h ys ∉ zs) as Hpz by (intros H; apply Pz; by right).
  assert (forall a, a ∈ ys ++ tail zs -> a <> h) as Hrest.
  { intros a Ha ->. apply Phz. rewrite elem_of_app in Ha |- *. rewrite elem_of_cons.
    destruct Ha as [?|Ha]; [by left|]. destruct zs; [by apply not_elem_of_nil in Ha|]. right. right. by right. }
  assert (endp h ys ∈ h :: ys ++ e :: zs) as Tp by (rewrite app_comm_cons, elem_of_app; by left).
  assert (h ∈ h :: ys ++ e :: zs) as Th by apply list_elem_of_here.
  cbv zeta. unfold remove_mem. destruct Qf as [[-> F0]|(Fi & F0 & Fd & Fn & Fz & Fb)].
  - rewrite decide_True by done. apply and_comm. apply and_wlog_l.
    { intros [Hd _]. apply (rep_remove bk tl m _ h ys e []); try done.
      + destruct tl; mem_simpl; done.
      + intros a Ha Hne. destruct tl; mem_simpl; done.
      + intros ->. split; [by left|]. intros a Ha. apply Hrest in Ha. destruct tl; mem_simpl; done.
      + intros ->. mem_simpl; done. }
    destruct tl; repeat first [apply touches_refl | apply touches_back | apply touches_link]; done.
  - rewrite decide_False by done.
    assert (first zs <> h) by (intros E; rewrite E in Fi; apply Phz, elem_of_app; right; by right).
    assert (first zs <> endp h ys) by (intros E; rewrite E in Fi; done).
    assert (first zs ∈ h :: ys ++ e :: zs) as Tf by (apply list_elem_of_further, elem_of_app; right; by right).
    apply and_comm. apply and_wlog_l.
    { intros [Hd _]. apply (rep_remove bk tl m _ h ys e zs); try done.
      + destruct bk; mem_simpl; done.
      + intros a Ha Hne. destruct bk; mem_simpl; done.
      + intros ->. split; [right; mem_simpl; done|].
        intros a Ha. assert (a <> first zs).
        { intros ->. apply Fn. apply list_elem_of_further. rewrite elem_of_app in Ha |- *. rewrite elem_of_app. tauto. }
        mem_simpl; done.
      + intros ->. rewrite Fz. destruct bk; mem_simpl; done. }
    destruct bk; repeat first [apply touches_refl | apply touches_back | apply touches_link]; done.
Qed.

Lemma set_back_comm p v q w m : p <> q -> set_back p v (set_back q w m) = set_back q w (set_back p v m).
Proof.
  intros Hne. change (<[p := (link (set_back q w m) p, v)]> (set_back q w m) =
    <[q := (link (set_back p v m) q, w)]> (set_back p v m)).
  rewrite !link_set_back. unfold set_back. by rewrite insert_insert_ne.
Qed.

(** ** Operations on sequences *)

Inductive qop :=
  | InsHead (e : Z) | InsTail (e : Z) | InsAfter (l e : Z) | InsBefore (l e : Z)
  | RemHead | RemAfter (l : Z) | Rem (e : Z).

Definition inserted (op : qop) : list Z :=
  match op with InsHead e | InsTail e | InsAfter _ e | InsBefore _ e => [e] | _ => [] end.

(** The specification: what the operation makes of a sequence. *)
Inductive qspec : qop -> list Z -> list Z -> Prop :=
  | s_head e xs : e ∉ xs -> qspec (InsHead e) xs (e :: xs)
  | s_tail e xs : e ∉ xs -> qspec (InsTail e) xs (xs ++ [e])
  | s_after ys l e zs : e ∉ ys ++ l :: zs -> qspec (InsAfter l e) (ys ++ l :: zs) (ys ++ l :: e :: zs)
  | s_before ys l e zs : e ∉ ys ++ l :: zs -> qspec (InsBefore l e) (ys ++ l :: zs) (ys ++ e :: l :: zs)
  | s_remhead x xs : qspec RemHead (x :: xs) xs
  | s_remafter ys l x zs : qspec (RemAfter l) (ys ++ l :: x :: zs) (ys ++ l :: zs)
  | s_rem ys e zs : qspec (Rem e) (ys ++ e :: zs) (ys ++ zs).

(** The macros of a structure, and which operations it has. *)
Definition run_tailq (h : Z) (op : qop) : M unit :=
  match op with
  | InsHead e => TAILQ_INSERT_HEAD h e | InsTail e => TAILQ_INSERT_TAIL h e
  | InsAfter l e => TAILQ_INSERT_AFTER h l e | InsBefore l e => TAILQ_INSERT_BEFORE l e
  | Rem e => TAILQ_REMOVE h e | _ => mval tt
  end.
Definition run_list (h : Z) (op : qop) : M unit :=
  match op with
  | InsHead e => LIST_INSERT_HEAD h e | InsAfter l e => LIST_INSERT_AFTER l e
  | InsBefore l e => LIST_INSERT_BEFORE l e | Rem e => LIST_REMOVE e | _ => mval tt
  end.
Definition run_stailq (h : Z) (op : qop) : M unit :=
  match op with
  | InsHead e => STAILQ_INSERT_HEAD h e | InsTail e => STAILQ_INSERT_TAIL h e
  | InsAfter l e => STAILQ_INSERT_AFTER h l e | RemHead => STAILQ_REMOVE_HEAD h
  | RemAfter l => STAILQ_REMOVE_AFTER h l | Rem e => STAILQ_REMOVE h e | _ => mval tt
  end.
Definition run_slist (h : Z) (op : qop) : M unit :=
  match op with
  | InsHead e => SLIST_INSERT_HEAD h e | InsAfter l e => SLIST_INSERT_AFTER l e
  | RemHead => SLIST_REMOVE_HEAD h | RemAfter l => SLIST_REMOVE_AFTER l
  | Rem e => SLIST_REMOVE h e | _ => mval tt
  end.
Definition has_op (bk tl : bool) (op : qop) : bool :=
  match op with
  | InsHead _ | InsAfter _ _ | Rem _ => true
  | InsTail _ => tl
  | InsBefore _ _ => bk
  | RemHead | RemAfter _ => negb bk
  end.

(** One operation: it runs, and the memory represents the new sequence. *)
Definition implements (bk tl : bool) (run : Z -> qop -> M unit) : Prop :=
  forall m h xs op xs', rep bk tl m h xs -> qspec op xs xs' -> has_op bk tl op = true ->
  Forall (usable m h) (inserted op) ->
  exists m', run h op m = Some (tt, m') /\ rep bk tl m' h xs' /\ touches m m' (inserted op ++ h :: xs).

Lemma in_mid (ys zs : list Z) l : l ∈ ys ++ l :: zs.
Proof. apply elem_of_app. right. apply list_elem_of_here. Qed.

(** Evaluate a read of the memory at hand with the facts in the context. *)
Ltac reads := repeat first
  [ rewrite link_set_link | rewrite link_set_back | rewrite back_set_link | rewrite back_set_back
  | rewrite decide_True by congruence | rewrite decide_False by congruence ].
Ltac run_mem := repeat (step_mem; cbn beta).

(** Insertion after a node [p], whose successor is [n]: the head or an element. *)
Section InsertAfter.
Context (m : mem) (h p n e : Z) (He : e ∈ dom m) (Hh : h ∈ dom m) (Hp : p ∈ dom m) (Hep : e <> p)
  (Pl : link m p = n) (Pf : n = NULL \/ n <> NULL /\ n ∈ dom m).

Ltac start f := unfold f, insert_mem; run_mem; rewrite Pl;
  destruct Pf as [F0|[F0 Fd]]; [rewrite !decide_True by done|rewrite !decide_False by done]; run_mem; try done;
  reads; rewrite ?Pl; run_mem; done.

Lemma run_TAILQ_INSERT_AFTER : TAILQ_INSERT_AFTER h p e m = Some (tt, insert_mem true true h p n e m).
Proof. start TAILQ_INSERT_AFTER. Qed.
Lemma run_TAILQ_INSERT_HEAD : p = h -> TAILQ_INSERT_HEAD h e m = Some (tt, insert_mem true true h p n e m).
Proof. intros ->. start TAILQ_INSERT_HEAD. Qed.
Lemma run_LIST_INSERT_AFTER : LIST_INSERT_AFTER p e m = Some (tt, insert_mem true false h p n e m).
Proof. start LIST_INSERT_AFTER. Qed.
Lemma run_LIST_INSERT_HEAD : LIST_INSERT_HEAD p e m = Some (tt, insert_mem true false h p n e m).
Proof. start LIST_INSERT_HEAD. Qed.
Lemma run_STAILQ_INSERT_AFTER : STAILQ_INSERT_AFTER h p e m = Some (tt, insert_mem false true h p n e m).
Proof. start STAILQ_INSERT_AFTER. Qed.
Lemma run_STAILQ_INSERT_HEAD : p = h -> STAILQ_INSERT_HEAD h e m = Some (tt, insert_mem false true h p n e m).
Proof. intros ->. start STAILQ_INSERT_HEAD. Qed.
Lemma run_SLIST_INSERT_AFTER : SLIST_INSERT_AFTER p e m = Some (tt, insert_mem false false h p n e m).
Proof. start SLIST_INSERT_AFTER. Qed.
Lemma run_SLIST_INSERT_HEAD : SLIST_INSERT_HEAD p e m = Some (tt, insert_mem false false h p n e m).
Proof. start SLIST_INSERT_HEAD. Qed.

(** In front of [n], found through its back pointer. *)
Ltac before f := intros Hb Hn Hne; destruct Pf as [F0|[_ Fd]]; [done|];
  unfold f, insert_mem; rewrite decide_False by done; run_mem; reads; rewrite Hb; run_mem;
  by rewrite !set_link_back_comm, (set_back_comm e) by done.
Lemma run_TAILQ_INSERT_BEFORE : back m n = p -> n <> NULL -> n <> e ->
  TAILQ_INSERT_BEFORE n e m = Some (tt, insert_mem true true h p n e m).
Proof. before TAILQ_INSERT_BEFORE. Qed.
Lemma run_LIST_INSERT_BEFORE : back m n = p -> n <> NULL -> n <> e ->
  LIST_INSERT_BEFORE n e m = Some (tt, insert_mem true false h p n e m).
Proof. before LIST_INSERT_BEFORE. Qed.

(** At the end, found through the tail pointer. *)
Lemma run_TAILQ_INSERT_TAIL : back m h = p -> n = NULL -> h <> e ->
  TAILQ_INSERT_TAIL h e m = Some (tt, insert_mem true true h p n e m).
Proof.
  intros Hb Hn Hne. rewrite Hn in *. unfold TAILQ_INSERT_TAIL, insert_mem. rewrite decide_True by done.
  run_mem. reads. rewrite Hb. run_mem.
  by rewrite !set_link_back_comm, (set_back_comm e) by done.
Qed.
Lemma run_STAILQ_INSERT_TAIL : back m h = p -> n = NULL ->
  STAILQ_INSERT_TAIL h e m = Some (tt, insert_mem false true h p n e m).
Proof.
  intros Hb Hn. rewrite Hn in *. unfold STAILQ_INSERT_TAIL, insert_mem. rewrite decide_True by done.
  run_mem. reads. rewrite Hb. run_mem. by rewrite !set_link_back_comm.
Qed.
End InsertAfter.

(** Removal of [e] between [p] and [n]. *)
Section RemoveAfter.
Context (m : mem) (h p n e : Z) (He : e ∈ dom m) (Hh : h ∈ dom m) (Hp : p ∈ dom m) (Hep : e <> p) (Heh : e <> h)
  (Pp : link m p = e) (Pl : link m e = n) (Pf : n = NULL \/ n <> NULL /\ n ∈ dom m /\ n <> e).

Lemma run_TAILQ_REMOVE : back m e = p -> TAILQ_REMOVE h e m = Some (tt, remove_mem true true h p n m).
Proof.
  intros Hb. unfold TAILQ_REMOVE, remove_mem. run_mem. rewrite Pl.
  destruct Pf as [F0|(F0 & Fd & Fe)]; [rewrite !decide_True by done|rewrite !decide_False by done];
    run_mem; reads; rewrite Pl, Hb; run_mem; by rewrite set_link_back_comm.
Qed.
Lemma run_LIST_REMOVE : back m e = p -> LIST_REMOVE e m = Some (tt, remove_mem true false h p n m).
Proof.
  intros Hb. unfold LIST_REMOVE, remove_mem. run_mem. rewrite Pl.
  destruct Pf as [F0|(F0 & Fd & Fe)]; [rewrite !decide_True by done|rewrite !decide_False by done];
    run_mem; reads; rewrite Pl, Hb; run_mem; by rewrite ?set_link_back_comm.
Qed.
Lemma run_STAILQ_REMOVE_AFTER : STAILQ_REMOVE_AFTER h p m = Some (tt, remove_mem false true h p n m).
Proof.
  unfold STAILQ_REMOVE_AFTER, remove_mem. run_mem. rewrite Pp. run_mem. rewrite Pl. by case_decide; run_mem.
Qed.
Lemma run_STAILQ_REMOVE_HEAD : p = h -> STAILQ_REMOVE_HEAD h m = Some (tt, remove_mem false true h p n m).
Proof. intros E. change (STAILQ_REMOVE_AFTER h h m = Some (tt, remove_mem false true h p n m)). rewrite <- E at 2. apply run_STAILQ_REMOVE_AFTER. Qed.
Lemma run_SLIST_REMOVE_AFTER : SLIST_REMOVE_AFTER p m = Some (tt, remove_mem false false h p n m).
Proof.
  unfold SLIST_REMOVE_AFTER, remove_mem. run_mem. rewrite Pp. run_mem. rewrite Pl. by case_decide; run_mem.
Qed.
End RemoveAfter.

(** The search loop reaches the node whose successor is [elm]. *)
Lemma seek_run m elm cs : forall fuel c, lseg m c cs elm -> elm ∉ cs -> (forall a, a ∈ c :: cs -> a ∈ dom m) ->
  (length cs < fuel)%nat -> seek fuel c elm m = Some (endp c cs, m).
Proof.
  induction cs as [|x cs IH]; intros [|fuel] c Hs He Hd Hf; cbn in Hf; try lia.
  - assert (c ∈ dom m) by (apply Hd, list_elem_of_here). cbn in Hs. cbn [seek]. run_mem.
    by rewrite Hs, decide_True.
  - assert (c ∈ dom m) by (apply Hd, list_elem_of_here). destruct Hs as [Hx Hs]. cbn [seek]. run_mem.
    rewrite Hx, decide_False by (intros ->; apply He, list_elem_of_here).
    apply IH; [done|intros ?; apply He; by right|intros a Ha; apply Hd; by right|lia].
Qed.

Lemma rep_size bk tl m h xs : rep bk tl m h xs -> (length xs < size m)%nat.
Proof.
  intros [Hnd Hdom _ _ _ _]. rewrite <- size_dom.
  assert (list_to_set (h :: xs) ⊆ dom m) as Hs by (intros a Ha%elem_of_list_to_set; auto).
  apply subseteq_size in Hs. rewrite size_list_to_set in Hs by done. cbn [length] in Hs. lia.
Qed.

(** The position in front of [zs]: its facts in the form the run lemmas take. *)
Lemma pos_facts bk tl m h ys zs : rep bk tl m h (ys ++ zs) ->
  h ∈ dom m /\ endp h ys ∈ dom m /\ link m (endp h ys) = first zs /\
  (first zs = NULL \/ first zs <> NULL /\ first zs ∈ dom m).
Proof. intros [Pd Ph _ _ _ Pl _ Pf _]%rep_at. split_and!; try done. destruct Pf as [[_ ?]|(_ & ? & ? & _)]; auto. Qed.

Lemma fresh_endp h e ys zs : e <> h -> e ∉ ys ++ zs -> e <> endp h ys.
Proof.
  intros Hh Hf ->. pose proof (endp_in h ys) as [?|?]%elem_of_cons; [done|]. apply Hf, elem_of_app. by left.
Qed.

Lemma removed_facts bk tl m h ys e zs : rep bk tl m h (ys ++ e :: zs) ->
  e ∈ dom m /\ h ∈ dom m /\ endp h ys ∈ dom m /\ e <> endp h ys /\ e <> h /\
  link m (endp h ys) = e /\ link m e = first zs /\
  (first zs = NULL \/ first zs <> NULL /\ first zs ∈ dom m /\ first zs <> e) /\
  (bk = true -> back m e = endp h ys).
Proof.
  intros Hr. pose proof (rep_at _ _ _ _ _ _ Hr) as [Pd Ph Pi Pz P0 Pl Phz Pf Pt].
  assert (rep bk tl m h ((ys ++ [e]) ++ zs)) as Hr2 by (by rewrite <- app_assoc).
  pose proof (rep_at _ _ _ _ _ _ Hr2) as [Qd _ _ Qz _ Ql _ Qf _]. rewrite endp_snoc in *.
  split_and!; try done.
  - intros ->. apply Pz, list_elem_of_here.
  - intros ->. apply Phz, in_mid.
  - destruct Qf as [[_ ?]|(Fi & ? & ? & _)]; [by left|right]. split_and!; [done..|]. intros E. by rewrite E in Fi.
  - destruct Pf as [[? _]|(_ & _ & _ & _ & _ & Hb)]; done.
Qed.

(** The effect of each kind of operation, from the memory it leaves behind. *)
Lemma insert_done bk tl m h ys zs e (r : option (unit * mem)) :
  rep bk tl m h (ys ++ zs) -> usable m h e -> e ∉ ys ++ zs ->
  r = Some (tt, insert_mem bk tl h (endp h ys) (first zs) e m) ->
  exists m', r = Some (tt, m') /\ rep bk tl m' h (ys ++ e :: zs) /\ touches m m' ([e] ++ h :: ys ++ zs).
Proof. intros Hr Hu Hf E. eexists. split; [exact E|]. by apply insert_mem_rep. Qed.

Lemma remove_done bk tl m h ys zs e (r : option (unit * mem)) :
  rep bk tl m h (ys ++ e :: zs) -> r = Some (tt, remove_mem bk tl h (endp h ys) (first zs) m) ->
  exists m', r = Some (tt, m') /\ rep bk tl m' h (ys ++ zs) /\ touches m m' ([] ++ h :: ys ++ e :: zs).
Proof. intros Hr E. eexists. split; [exact E|]. by apply remove_mem_rep. Qed.

(** Bring the position's facts into the context. *)
Ltac insert_at Hr ys zs Hu :=
  pose proof (pos_facts _ _ _ _ ys zs Hr) as (Ph & Pd & Pl & Pf);
  apply Forall_cons in Hu as [Hu _]; pose proof Hu as (He & He0 & Heh).
Ltac remove_at Hr ys zs :=
  pose proof (removed_facts _ _ _ _ ys _ zs Hr) as (Qe & Qh & Qp & Qep & Qeh & Ql & Qn & Qf & Qb).

Lemma assoc_snoc {A} (ys zs : list A) l : ys ++ l :: zs = (ys ++ [l]) ++ zs.
Proof. by rewrite <- app_assoc. Qed.

Lemma insert_tail_done bk m h xs e (r : option (unit * mem)) :
  rep bk true m h xs -> usable m h e -> e ∉ xs ->
  r = Some (tt, insert_mem bk true h (endp h xs) NULL e m) ->
  exists m', r = Some (tt, m') /\ rep bk true m' h (xs ++ [e]) /\ touches m m' ([e] ++ h :: xs).
Proof.
  intros Hr Hu Hf. pose proof (insert_done bk true m h xs [] e r) as H. rewrite app_nil_r in H. auto.
Qed.

Lemma tail_facts bk m h xs : rep bk true m h xs ->
  h ∈ dom m /\ endp h xs ∈ dom m /\ link m (endp h xs) = NULL /\ back m h = endp h xs.
Proof.
  intros Hr. pose proof (pos_facts bk true m h xs []) as H. rewrite app_nil_r in H.
  destruct (H Hr) as (? & ? & ? & _). split_and!; try done. by apply (r_tail _ _ _ _ _ Hr).
Qed.

Ltac insert_tail Hr Hu Hf :=
  apply Forall_cons in Hu as [Hu _]; pose proof Hu as (He & He0 & Heh);
  pose proof (tail_facts _ _ _ _ Hr) as (Ph & Pd & Pl & Pb);
  apply insert_tail_done; try done;
  match goal with |- context [endp ?h ?xs] =>
    match type of He with ?e ∈ _ => pose proof (fresh_endp h e xs [] Heh ltac:(by rewrite app_nil_r)) end end.

Lemma tailq_implements : implements true true run_tailq.
Proof.
  intros m h xs op xs' Hr Hs Ho Hu. destruct Hs as [e xs Hf|e xs Hf|ys l e zs Hf|ys l e zs Hf|x xs|ys l x zs|ys e zs];
    try done; cbn [run_tailq inserted] in *.
  - insert_at Hr (@nil Z) xs Hu. apply (insert_done true true m h [] xs); try done. by apply run_TAILQ_INSERT_HEAD.
  - insert_tail Hr Hu Hf. apply run_TAILQ_INSERT_TAIL; auto.
  - rewrite (assoc_snoc ys zs l) in *. rewrite (assoc_snoc ys (e :: zs) l). insert_at Hr (ys ++ [l]) zs Hu. apply insert_done; try done.
    pose proof (fresh_endp h e _ _ Heh Hf). rewrite endp_snoc in *. by apply run_TAILQ_INSERT_AFTER.
  - insert_at Hr ys (l :: zs) Hu. apply insert_done; try done. pose proof (fresh_endp h e _ _ Heh Hf).
    remove_at Hr ys zs. cbn [first] in *. apply run_TAILQ_INSERT_BEFORE; auto.
    + destruct Pf as [->|[? _]]; [|done]. exfalso. apply (r_null _ _ _ _ _ Hr). right. apply in_mid.
    + intros ->. apply Hf, in_mid.
  - remove_at Hr ys zs. apply remove_done; [done|]. apply run_TAILQ_REMOVE; auto.
Qed.

Lemma list_implements : implements true false run_list.
Proof.
  intros m h xs op xs' Hr Hs Ho Hu. destruct Hs as [e xs Hf|e xs Hf|ys l e zs Hf|ys l e zs Hf|x xs|ys l x zs|ys e zs];
    try done; cbn [run_list inserted] in *.
  - insert_at Hr (@nil Z) xs Hu. apply (insert_done true false m h [] xs); try done. by apply run_LIST_INSERT_HEAD.
  - rewrite (assoc_snoc ys zs l) in *. rewrite (assoc_snoc ys (e :: zs) l). insert_at Hr (ys ++ [l]) zs Hu.
    apply insert_done; try done.
    pose proof (fresh_endp h e _ _ Heh Hf). rewrite endp_snoc in *. by apply run_LIST_INSERT_AFTER.
  - insert_at Hr ys (l :: zs) Hu. apply insert_done; try done. pose proof (fresh_endp h e _ _ Heh Hf).
    remove_at Hr ys zs. cbn [first] in *. apply run_LIST_INSERT_BEFORE; auto.
    + destruct Pf as [->|[? _]]; [|done]. exfalso. apply (r_null _ _ _ _ _ Hr). right. apply in_mid.
    + intros ->. apply Hf, in_mid.
  - remove_at Hr ys zs. apply remove_done; [done|]. apply run_LIST_REMOVE; auto.
Qed.

(** Removal by search, in the structures without back pointers. *)
Lemma seek_before bk tl m h y ys e zs : rep bk tl m h ((y :: ys) ++ e :: zs) ->
  link m h = y /\ h ∈ dom m /\ y <> e /\ seek (S (size m)) y e m = Some (endp h (y :: ys), m).
Proof.
  intros Hr. pose proof (rep_size _ _ _ _ _ Hr) as Hsz. destruct Hr as [Hnd Hdom _ Hseg _ _].
  cbn in Hseg. destruct Hseg as [Hy [Hseg _]%lseg_app]. cbn [app] in *.
  apply NoDup_cons in Hnd as [_ [Hye Hnd]%NoDup_cons]. split_and!; [done|apply Hdom, list_elem_of_here| |].
  - intros ->. apply Hye, in_mid.
  - change (endp h (y :: ys)) with (endp y ys). apply seek_run; [done| | |].
    + apply NoDup_app in Hnd as (_ & H & _). intros ?. apply (H e); [done|apply list_elem_of_here].
    + intros a Ha. apply Hdom. right. rewrite app_comm_cons, elem_of_app. by left.
    + cbn [length] in Hsz. rewrite length_app in Hsz. lia.
Qed.

Lemma stailq_implements : implements false true run_stailq.
Proof.
  intros m h xs op xs' Hr Hs Ho Hu. destruct Hs as [e xs Hf|e xs Hf|ys l e zs Hf|ys l e zs Hf|x xs|ys l x zs|ys e zs];
    try done; cbn [run_stailq inserted] in *.
  - insert_at Hr (@nil Z) xs Hu. apply (insert_done false true m h [] xs); try done. by apply run_STAILQ_INSERT_HEAD.
  - insert_tail Hr Hu Hf. apply run_STAILQ_INSERT_TAIL; auto.
  - rewrite (assoc_snoc ys zs l) in *. rewrite (assoc_snoc ys (e :: zs) l). insert_at Hr (ys ++ [l]) zs Hu.
    apply insert_done; try done.
    pose proof (fresh_endp h e _ _ Heh Hf). rewrite endp_snoc in *. by apply run_STAILQ_INSERT_AFTER.
  - remove_at Hr (@nil Z) xs. apply (remove_done false true m h [] xs x); [done|]. by apply (run_STAILQ_REMOVE_HEAD m h h (first xs) x).
  - rewrite (assoc_snoc ys (x :: zs) l) in *. rewrite (assoc_snoc ys zs l). remove_at Hr (ys ++ [l]) zs.
    apply remove_done; [done|]. rewrite endp_snoc in *. by apply (run_STAILQ_REMOVE_AFTER m h l (first zs) x).
  - remove_at Hr ys zs. apply remove_done; [done|]. unfold STAILQ_REMOVE.
    destruct ys as [|y ys].
    + cbn in *. run_mem. rewrite Ql, decide_True by done. by apply (run_STAILQ_REMOVE_HEAD m h h (first zs) e).
    + destruct (seek_before _ _ _ _ _ _ _ _ Hr) as (Hy & _ & Hne & Hsk). run_mem.
      rewrite Hy, decide_False by done. rewrite (mseq_run rounds _ m (S (size m)) m) by done.
      rewrite (mseq_run _ _ _ _ _ Hsk). by apply (run_STAILQ_REMOVE_AFTER m h _ (first zs) e).
Qed.

Lemma slist_implements : implements false false run_slist.
Proof.
  intros m h xs op xs' Hr Hs Ho Hu. destruct Hs as [e xs Hf|e xs Hf|ys l e zs Hf|ys l e zs Hf|x xs|ys l x zs|ys e zs];
    try done; cbn [run_slist inserted] in *.
  - insert_at Hr (@nil Z) xs Hu. apply (insert_done false false m h [] xs); try done. by apply run_SLIST_INSERT_HEAD.
  - rewrite (assoc_snoc ys zs l) in *. rewrite (assoc_snoc ys (e :: zs) l). insert_at Hr (ys ++ [l]) zs Hu.
    apply insert_done; try done.
    pose proof (fresh_endp h e _ _ Heh Hf). rewrite endp_snoc in *. by apply run_SLIST_INSERT_AFTER.
  - remove_at Hr (@nil Z) xs. apply (remove_done false false m h [] xs x); [done|].
    by apply (run_SLIST_REMOVE_AFTER m h h (first xs) x).
  - rewrite (assoc_snoc ys (x :: zs) l) in *. rewrite (assoc_snoc ys zs l). remove_at Hr (ys ++ [l]) zs.
    apply remove_done; [done|]. rewrite endp_snoc in *. by apply (run_SLIST_REMOVE_AFTER m h l (first zs) x).
  - remove_at Hr ys zs. apply remove_done; [done|]. unfold SLIST_REMOVE.
    destruct ys as [|y ys].
    + cbn in *. run_mem. rewrite Ql, decide_True by done. by apply (run_SLIST_REMOVE_AFTER m h h (first zs) e).
    + destruct (seek_before _ _ _ _ _ _ _ _ Hr) as (Hy & _ & Hne & Hsk). run_mem.
      rewrite Hy, decide_False by done. rewrite (mseq_run rounds _ m (S (size m)) m) by done.
      rewrite (mseq_run _ _ _ _ _ Hsk). by apply (run_SLIST_REMOVE_AFTER m h _ (first zs) e).
Qed.

(** ** The four structures *)

Inductive kind := KSList | KSTailq | KList | KTailq.
Definition has_backs (k : kind) : bool := match k with KList | KTailq => true | _ => false end.
Definition has_tail (k : kind) : bool := match k with KSTailq | KTailq => true | _ => false end.
Definition represents (k : kind) : mem -> Z -> list Z -> Prop := rep (has_backs k) (has_tail k).
Definition run_op (k : kind) : Z -> qop -> M unit :=
  match k with KSList => run_slist | KSTailq => run_stailq | KList => run_list | KTailq => run_tailq end.

Lemma kind_implements k : implements (has_backs k) (has_tail k) (run_op k).
Proof. destruct k; [apply slist_implements|apply stailq_implements|apply list_implements|apply tailq_implements]. Qed.

Fixpoint run_series (run : Z -> qop -> M unit) (h : Z) (ops : list qop) : M unit :=
  match ops with [] => mval tt | op :: ops => run h op >> run_series run h ops end.
Definition run_ops (k : kind) : Z -> list qop -> M unit := run_series (run_op k).
Inductive qspecs : list qop -> list Z -> list Z -> Prop :=
  | qs_nil xs : qspecs [] xs xs
  | qs_cons op ops xs ys zs : qspec op xs ys -> qspecs ops ys zs -> qspecs (op :: ops) xs zs.
Definition all_inserted (ops : list qop) : list Z := concat (map inserted ops).

Lemma qspec_elems op xs ys : qspec op xs ys -> ys ⊆ inserted op ++ xs.
Proof. destruct 1; cbn; set_solver. Qed.

Lemma touches_weaken m m' ns ns' : touches m m' ns -> ns ⊆ ns' -> touches m m' ns'.
Proof. intros [D H] Hs. split; [done|]. intros a Ha. apply H. set_solver. Qed.

(** A series of operations, each of which implements its specification. *)
Lemma series_implements bk tl run (ops : list qop) (m : mem) (h : Z) (xs ys : list Z) : implements bk tl run ->
  rep bk tl m h xs -> qspecs ops xs ys -> Forall (fun op => has_op bk tl op = true) ops -> Forall (usable m h) (all_inserted ops) ->
  exists m', run_series run h ops m = Some (tt, m') /\ rep bk tl m' h ys /\ touches m m' (all_inserted ops ++ h :: xs).
Proof.
  intros Hi Hr Hs. revert m Hr. induction Hs as [xs|op ops xs ys zs Hop Hs IH]; intros m Hr Ho Hu.
  { exists m. split_and!; [done|done|apply touches_refl]. }
  apply Forall_cons in Ho as [Ho1 Ho2]. unfold all_inserted in Hu |- *. cbn [map concat] in Hu |- *.
  apply Forall_app in Hu as [Hu1 Hu2].
  destruct (Hi m h xs op ys Hr Hop Ho1 Hu1) as (m1 & E1 & R1 & T1).
  destruct (IH m1 R1 Ho2) as (m2 & E2 & R2 & T2).
  { eapply Forall_impl; [exact Hu2|]. intros e (? & ? & ?). destruct T1 as [D _]. split_and!; by rewrite ?D. }
  exists m2. cbn [run_series]. rewrite (mseq_run _ _ _ _ _ E1). split_and!; [done|done|].
  eapply touches_trans; [eapply touches_weaken; [exact T1|]|eapply touches_weaken; [exact T2|]|reflexivity].
  - fold (all_inserted ops). set_solver.
  - apply qspec_elems in Hop. fold (all_inserted ops). set_solver.
Qed.

(** C17: every structure of queue.h implements sequences: a series of insertions
    and removals that the specification allows on the sequence runs without
    touching unallocated memory, leaves the structure representing the resulting
    sequence (links, back pointers and tail pointer), and changes no node that is
    not the head, an element or an inserted element. *)
Theorem queue_refines (k : kind) (ops : list qop) (m : mem) (h : Z) (xs ys : list Z) :
  represents k m h xs -> qspecs ops xs ys ->
  Forall (fun op => has_op (has_backs k) (has_tail k) op = true) ops ->
  Forall (usable m h) (all_inserted ops) ->
  exists m', run_ops k h ops m = Some (tt, m') /\ represents k m' h ys /\
    touches m m' (all_inserted ops ++ h :: xs).
Proof. intros. apply series_implements; [apply kind_implements|done..]. Qed.

(** ** Traversal *)

(** [next] leads from [v] through [cs] to NULL. *)
Fixpoint steps (m : mem) (next : Z -> M Z) (v : Z) (cs : list Z) : Prop :=
  match cs with
  | [] => next v m = Some (NULL, m)
  | x :: cs => next v m = Some (x, m) /\ steps m next x cs
  end.

Lemma foreach_run m next cs : forall fuel v,
  steps m next v cs -> NULL ∉ v :: cs -> (length cs < fuel)%nat ->
  foreach fuel next (fun _ => mval tt) v m = Some (v :: cs, m).
Proof.
  induction cs as [|x cs IH]; intros [|fuel] v Hs H0 Hf; cbn in Hf; try lia; cbn [foreach];
    rewrite decide_False by (intros ->; apply H0, list_elem_of_here); rewrite mseq_mval.
  - rewrite (mseq_run _ _ _ _ _ Hs). destruct fuel; done.
  - destruct Hs as [Hx Hs]. rewrite (mseq_run _ _ _ _ _ Hx). erewrite mseq_run; [done|].
    apply IH; [done|intros ?; apply H0; by right|lia].
Qed.

Lemma lseg_steps m v cs : (forall a, a ∈ v :: cs -> a ∈ dom m) -> lseg m v cs NULL -> steps m load_link v cs.
Proof.
  revert v. induction cs as [|x cs IH]; intros v Hd Hs; cbn in *.
  - rewrite load_link_run by (apply Hd, list_elem_of_here). by rewrite Hs.
  - destruct Hs as [<- Hs]. split; [apply load_link_run, Hd, list_elem_of_here|].
    apply IH; [|done]. intros a Ha. apply Hd. by right.
Qed.

Lemma rounds_run {A} (k : nat -> M A) m : mseq rounds k m = k (S (size m)) m.
Proof. done. Qed.

Lemma forward_run bk tl m h xs : rep bk tl m h xs ->
  FOREACH_FROM (load_link h) load_link NULL (fun _ => mval tt) m = Some (xs, m).
Proof.
  intros Hr. pose proof (rep_size _ _ _ _ _ Hr). destruct Hr as [_ Hdom H0 Hs _ _].
  unfold FOREACH_FROM. rewrite rounds_run, decide_True by done.
  assert (h ∈ dom m) by (apply Hdom, list_elem_of_here). run_mem.
  destruct xs as [|x xs]; cbn in Hs; [by rewrite Hs|]. destruct Hs as [-> Hs].
  apply foreach_run; [|intros ?; apply H0; by right|cbn in *; lia].
  apply lseg_steps; [|done]. intros a Ha. apply Hdom. by right.
Qed.

(** The element before a position of a tail queue, NULL at the front. *)
Definition before (ys : list Z) : Z := List.last ys NULL.

Lemma prev_link m h xs ys zs : tailq m h xs -> xs = ys ++ zs ->
  back m (endp h ys) ∈ dom m /\ link m (back m (endp h ys)) = before ys.
Proof.
  intros Hr E. destruct ys as [|y ys _] using rev_ind.
  - cbn in *. subst. rewrite (r_tail _ _ _ _ _ Hr) by done. unfold before. cbn.
    rewrite (lseg_end _ _ _ _ (r_seg _ _ _ _ _ Hr)). split; [|done].
    apply (r_dom _ _ _ _ _ Hr), endp_in.
  - rewrite <- app_assoc in E. cbn in E. subst. rewrite endp_snoc.
    destruct (removed_facts _ _ _ _ _ _ _ Hr) as (_ & _ & Hp & _ & _ & Hl & _ & _ & Hb).
    unfold before. rewrite List.last_last, Hb by done. done.
Qed.

Lemma endp_eq_h h xs ys zs : NoDup (h :: xs) -> xs = ys ++ zs -> endp h ys = h -> ys = [].
Proof.
  intros [Hh _]%NoDup_cons -> E. destruct ys as [|y ys]; [done|]. exfalso. apply Hh. cbn in E.
  rewrite <- E, elem_of_app. left. apply endp_in.
Qed.

Lemma before_endp h ys : ys <> [] -> endp h ys = before ys.
Proof. destruct ys as [|y ys _] using rev_ind; [done|]. intros _. unfold before. by rewrite endp_snoc, List.last_last. Qed.

Lemma tailq_prev m h ys x zs : tailq m h (ys ++ x :: zs) ->
  TAILQ_PREV x m = Some (before ys, m) /\ TAILQ_PREV_FAST x h m = Some (before ys, m).
Proof.
  intros Hr. destruct (removed_facts _ _ _ _ _ _ _ Hr) as (Hx & Hh & Hp & _ & _ & _ & _ & _ & Hb).
  destruct (prev_link m h _ ys (x :: zs) Hr eq_refl) as [Hd Hl].
  unfold TAILQ_PREV, TAILQ_PREV_FAST. split; run_mem; rewrite Hb by done.
  - run_mem. by rewrite Hl.
  - unfold mval. case_decide as E.
    + by rewrite (endp_eq_h h _ ys (x :: zs) (r_nodup _ _ _ _ _ Hr) eq_refl E).
    + by rewrite before_endp by (intros ->; done).
Qed.

Lemma tailq_last m h xs : tailq m h xs ->
  TAILQ_LAST h m = Some (before xs, m) /\ TAILQ_LAST_FAST h m = Some (before xs, m).
Proof.
  intros Hr. destruct (tail_facts _ _ _ _ Hr) as (Hh & He & _ & Hb).
  destruct (prev_link m h xs xs [] Hr ltac:(by rewrite app_nil_r)) as [Hd Hl].
  unfold TAILQ_LAST, TAILQ_LAST_FAST, TAILQ_EMPTY, TAILQ_FIRST. split; run_mem; rewrite ?Hb.
  - run_mem. by rewrite Hl.
  - case_bool_decide as E.
    + destruct xs as [|x xs]; [done|]. destruct (r_seg _ _ _ _ _ Hr) as [E' _]. exfalso.
      apply (r_null _ _ _ _ _ Hr). rewrite <- E, E'. right. apply list_elem_of_here.
    + run_mem. rewrite Hb, before_endp; [done|]. intros ->. apply E, (r_seg _ _ _ _ _ Hr).
Qed.

Lemma tailq_steps_back m h ys : forall x zs, tailq m h (ys ++ x :: zs) -> steps m TAILQ_PREV x (rev ys).
Proof.
  induction ys as [|y ys IH] using rev_ind; intros x zs Hr.
  - apply (tailq_prev _ _ _ _ _ Hr).
  - rewrite rev_app_distr. cbn. split.
    + destruct (tailq_prev _ _ _ _ _ Hr) as [E _]. unfold before in E. by rewrite List.last_last in E.
    + apply (IH y (x :: zs)). by rewrite <- app_assoc in Hr.
Qed.

(** Reading a tail queue: FOREACH visits its elements in order and
    FOREACH_REVERSE in reverse; LAST and PREV, which read entries as if they were
    heads, return the last element and the predecessor, NULL where there is none,
    and agree with LAST_FAST and PREV_FAST. *)
Theorem tailq_traversal (m : mem) (h : Z) (xs : list Z) :
  tailq m h xs ->
  TAILQ_FOREACH h (fun _ => mval tt) m = Some (xs, m) /\
  TAILQ_FOREACH_REVERSE h (fun _ => mval tt) m = Some (rev xs, m) /\
  TAILQ_EMPTY h m = Some (bool_decide (xs = []), m) /\
  TAILQ_LAST h m = Some (before xs, m) /\ TAILQ_LAST_FAST h m = TAILQ_LAST h m /\
  forall ys x zs, xs = ys ++ x :: zs ->
    TAILQ_NEXT x m = Some (first zs, m) /\
    TAILQ_PREV x m = Some (before ys, m) /\ TAILQ_PREV_FAST x h m = TAILQ_PREV x m.
Proof.
  intros Hr. destruct (tailq_last _ _ _ Hr) as [L1 L2].
  assert (h ∈ dom m) as Hh by (apply (r_dom _ _ _ _ _ Hr), list_elem_of_here).
  split_and!; [by apply (forward_run true true)| | |done|congruence|].
  - unfold TAILQ_FOREACH_REVERSE, FOREACH_FROM. rewrite rounds_run, decide_True by done.
    rewrite (mseq_run _ _ _ _ _ L1). destruct xs as [|x xs _] using rev_ind; [done|].
    unfold before. rewrite List.last_last, rev_app_distr. cbn [rev app].
    pose proof (rep_size _ _ _ _ _ Hr) as Hsz. rewrite length_app in Hsz. cbn in Hsz.
    apply foreach_run; [by apply (tailq_steps_back m h xs x [])| |rewrite length_rev; lia].
    intros H. apply (r_null _ _ _ _ _ Hr). right. apply elem_of_cons in H as [->|H]; [apply in_mid|].
    apply elem_of_app. left. apply list_elem_of_In, in_rev, list_elem_of_In. exact H.
  - unfold TAILQ_EMPTY, TAILQ_FIRST. run_mem. pose proof (pos_facts _ _ _ _ [] xs Hr) as (_ & _ & Hl & Hf).
    cbn in Hl. rewrite Hl. unfold mval. do 2 f_equal. apply bool_decide_ext. split; [|by intros ->].
    destruct xs as [|x xs]; [done|]. cbn. intros ->. exfalso. apply (r_null _ _ _ _ _ Hr). right. apply list_elem_of_here.
  - intros ys x zs ->. destruct (tailq_prev _ _ _ _ _ Hr) as [-> ->].
    destruct (removed_facts _ _ _ _ _ _ _ Hr) as (Hx & _ & _ & _ & _ & _ & Hn & _).
    split_and!; [|done|done]. unfold TAILQ_NEXT. rewrite load_link_run by done. by rewrite Hn.
Qed.

(** ** Draining *)

Lemma drain_run k xs : forall fuel m h, represents k m h xs -> (length xs <= fuel)%nat ->
  exists m', foreach_safe fuel load_link (fun v => run_op k h (Rem v)) (first xs) m = Some (xs, m') /\
    represents k m' h [] /\ touches m m' (h :: xs).
Proof.
  induction xs as [|x xs IH]; intros fuel m h Hr Hf.
  { exists m. split_and!; [by destruct fuel|done|apply touches_refl]. }
  destruct fuel as [|fuel]; cbn in Hf; [lia|].
  destruct (removed_facts _ _ _ _ [] x xs Hr) as (Hx & _ & _ & _ & _ & _ & Hn & _).
  destruct (kind_implements k m h ([] ++ x :: xs) (Rem x) ([] ++ xs) Hr) as (m1 & E1 & R1 & T1); [constructor|done|constructor|].
  destruct (IH fuel m1 h R1 ltac:(lia)) as (m2 & E2 & R2 & T2). exists m2. cbn [first foreach_safe].
  rewrite decide_False by (intros ->; apply (r_null _ _ _ _ _ Hr); right; apply list_elem_of_here).
  split_and!; [run_mem; by rewrite Hn, (mseq_run _ _ _ _ _ E1), (mseq_run _ _ _ _ _ E2)|done|].
  eapply touches_trans; [exact T1|eapply touches_weaken; [exact T2|]|reflexivity]. cbn. set_solver.
Qed.

(** Draining: a FOREACH_SAFE loop whose body removes the element it visits
    visits every element, in order, terminates without touching unallocated memory
    and leaves the structure empty, for all four kinds. *)
Theorem queue_drain (k : kind) (m : mem) (h : Z) (xs : list Z) :
  represents k m h xs ->
  exists m', FOREACH_FROM_SAFE (load_link h) load_link NULL (fun v => run_op k h (Rem v)) m = Some (xs, m') /\
    represents k m' h [] /\ touches m m' (h :: xs).
Proof.
  intros Hr. pose proof (rep_size _ _ _ _ _ Hr) as Hsz.
  destruct (drain_run k xs (S (size m)) m h Hr ltac:(lia)) as (m' & E & R & T). exists m'. split_and!; [|done|done].
  assert (h ∈ dom m) as Hh by (apply (r_dom _ _ _ _ _ Hr), list_elem_of_here).
  unfold FOREACH_FROM_SAFE. rewrite rounds_run, decide_True by done. run_mem.
  destruct (pos_facts _ _ _ _ [] xs Hr) as (_ & _ & Hl & _). cbn in Hl. by rewrite Hl.
Qed.

(** ** Two queues *)

Definition apart (h1 : Z) (xs : list Z) (h2 : Z) (ys : list Z) : Prop := forall a, a ∈ h1 :: xs -> a ∉ h2 :: ys.

(** The segment [ys] hung behind [xs], and the second head emptied. *)
Lemma rep_concat bk tl m m' h1 xs h2 ys :
  rep bk tl m h1 xs -> rep bk tl m h2 ys -> apart h1 xs h2 ys -> ys <> [] -> dom m' = dom m ->
  link m' (endp h1 xs) = first ys -> link m' h2 = NULL ->
  (forall a, a ∈ h1 :: xs ++ ys -> a <> endp h1 xs -> link m' a = link m a) ->
  (bk = true -> back m' (first ys) = endp h1 xs /\ forall a, a ∈ xs ++ tail ys -> back m' a = back m a) ->
  (tl = true -> back m' h1 = back m h2 /\ back m' h2 = h2) ->
  rep bk tl m' h1 (xs ++ ys) /\ rep bk tl m' h2 [].
Proof.
  intros [Hn1 Hd1 H01 Hs1 Hb1 Ht1] [Hn2 Hd2 H02 Hs2 Hb2 Ht2] Hap Hne Hd Hl H2 Hlo Hb Ht.
  pose proof (endp_in h1 xs) as He.
  assert (forall a, a ∈ ys -> a <> endp h1 xs) as Hys by (intros a Ha ->; apply (Hap _ He); by right).
  split; split.
  - rewrite app_comm_cons. apply NoDup_app. split_and!; [done| |by apply NoDup_cons in Hn2 as [_ ?]].
    intros a Ha Hy. apply (Hap a Ha). by right.
  - intros a Ha. rewrite Hd. rewrite app_comm_cons, elem_of_app in Ha. destruct Ha; [auto|apply Hd2; by right].
  - rewrite app_comm_cons, elem_of_app. intros [?|?]; [done|]. apply H02. by right.
  - destruct ys as [|y ys]; [done|]. destruct Hs2 as [_ Hs2]. apply lseg_app. split.
    + eapply lseg_redirect; [done| |done|done]. intros a Ha. apply Hlo. rewrite app_comm_cons, elem_of_app. by left.
    + eapply lseg_frame; [|done]. intros a Ha. apply Hlo; [|by apply Hys]. rewrite app_comm_cons, elem_of_app. by right.
  - intros E. destruct (Hb E) as [B1 B2]. specialize (Hb1 E). specialize (Hb2 E). destruct ys as [|y ys]; [done|].
    apply backs_app. split; [eapply backs_frame; [|done]; intros a Ha; apply B2, elem_of_app; by left|].
    cbn in *. split; [done|]. destruct Hb2 as [_ Hb2]. eapply backs_frame; [|done]. intros a Ha. apply B2, elem_of_app. by right.
  - intros E. destruct (Ht E) as [-> _]. rewrite (Ht2 E). destruct ys as [|y ys]; [done|]. by rewrite endp_app.
  - by apply NoDup_singleton.
  - intros a ->%list_elem_of_singleton. rewrite Hd. apply Hd2, list_elem_of_here.
  - intros H%list_elem_of_singleton. apply H02. rewrite H. apply list_elem_of_here.
  - done.
  - done.
  - intros E. by destruct (Ht E).
Qed.

Definition concat_mem (bk tl : bool) (h1 p h2 n : Z) (m : mem) : mem :=
  let m1 := set_link p n m in
  let m1 := if bk then set_back n p m1 else m1 in
  let m1 := if tl then set_back h1 (back m h2) m1 else m1 in
  let m1 := set_link h2 NULL m1 in
  if tl then set_back h2 h2 m1 else m1.

Lemma concat_mem_rep bk tl m h1 xs h2 ys :
  rep bk tl m h1 xs -> rep bk tl m h2 ys -> apart h1 xs h2 ys -> ys <> [] ->
  let m' := concat_mem bk tl h1 (endp h1 xs) h2 (first ys) m in
  rep bk tl m' h1 (xs ++ ys) /\ rep bk tl m' h2 [] /\ touches m m' ((h1 :: xs) ++ (h2 :: ys)).
Proof.
  intros R1 R2 Hap Hne m'. pose proof (endp_in h1 xs) as He.
  pose proof (rep_at _ _ _ _ [] ys R2) as [_ Qh _ _ _ _ Qhy Qf _]. cbn in Qh, Qhy.
  destruct Qf as [[? _]|(Fi & F0 & Fd & Fn & Fz & _)]; [done|].
  assert (endp h1 xs ∈ dom m) as Hp by (by apply (r_dom _ _ _ _ _ R1)).
  assert (h1 ∈ dom m) as Hh1 by (apply (r_dom _ _ _ _ _ R1), list_elem_of_here).
  assert (forall a, a ∈ h1 :: xs -> a <> h2 /\ (a ∉ ys) /\ a <> first ys) as Hx.
  { intros a Ha. pose proof (Hap a Ha) as H. rewrite elem_of_cons in H. split_and!; [tauto|tauto|]. intros ->. tauto. }
  assert (h1 ∈ h1 :: xs) as Hin1 by apply list_elem_of_here.
  pose proof (Hx h1 Hin1) as (N1 & _ & N2). pose proof (Hx _ He) as (N3 & _ & N4).
  assert (first ys <> h2) as N5 by (intros E; rewrite E in Fi; done).
  assert (h1 ∉ xs) as N6 by (by destruct (proj1 (NoDup_cons _ _) (r_nodup _ _ _ _ _ R1))).
  assert (touches m m' ((h1 :: xs) ++ h2 :: ys)) as Ht.
  { assert (endp h1 xs ∈ (h1 :: xs) ++ h2 :: ys) by (apply elem_of_app; by left).
    assert (h1 ∈ (h1 :: xs) ++ h2 :: ys) by apply list_elem_of_here.
    assert (h2 ∈ (h1 :: xs) ++ h2 :: ys) by apply in_mid.
    assert (first ys ∈ (h1 :: xs) ++ h2 :: ys) by (apply elem_of_app; right; by right).
    unfold m', concat_mem. destruct bk, tl;
      repeat first [apply touches_refl | apply touches_back | apply touches_link]; done. }
  destruct (rep_concat bk tl m m' h1 xs h2 ys R1 R2 Hap Hne (proj1 Ht)) as [? ?]; [| | | | |done].
  - unfold m', concat_mem. destruct bk, tl; reads; done.
  - unfold m', concat_mem. destruct bk, tl; reads; done.
  - intros a Ha Hna. assert (a <> h2).
    { rewrite app_comm_cons, elem_of_app in Ha. destruct Ha as [Ha|Ha]; [by apply Hx|]. intros ->. done. }
    unfold m', concat_mem. destruct bk, tl; reads; done.
  - intros ->. unfold m', concat_mem. split; [destruct tl; reads; done|].
    intros a Ha. assert (a <> h1 /\ a <> h2 /\ a <> first ys) as (? & ? & ?).
    { apply elem_of_app in Ha as [Ha|Ha].
      - split_and!; [by intros ->|apply Hx; by right|apply Hx; by right].
      - assert (a ∈ ys) by (rewrite Fz; by right).
        split_and!; [intros ->; by apply (Hap h1 Hin1), list_elem_of_further|by intros ->|].
        intros ->. apply Fn. right. apply elem_of_app. by right. }
    destruct tl; reads; done.
  - intros ->. unfold m', concat_mem. destruct bk; (split; [reads; done|reads; done]).
Qed.

Lemma first_nonempty bk tl m h y ys : rep bk tl m h (y :: ys) -> y <> NULL /\ link m h = y.
Proof.
  intros Hr. split; [|apply (r_seg _ _ _ _ _ Hr)]. intros ->. apply (r_null _ _ _ _ _ Hr). right. apply list_elem_of_here.
Qed.

(** The end of a list found by walking. *)
Lemma seek_end bk tl m h x xs : rep bk tl m h (x :: xs) -> seek (S (size m)) x NULL m = Some (endp h (x :: xs), m).
Proof.
  intros Hr. pose proof (rep_size _ _ _ _ _ Hr). destruct Hr as [_ Hdom H0 [_ Hs] _ _].
  change (endp h (x :: xs)) with (endp x xs). apply seek_run; [done| | |cbn in *; lia].
  - intros ?. apply H0. right. by right.
  - intros a Ha. apply Hdom. by right.
Qed.

Definition run_concat (k : kind) : Z -> Z -> M unit :=
  match k with KSList => SLIST_CONCAT | KSTailq => STAILQ_CONCAT | KList => LIST_CONCAT | KTailq => TAILQ_CONCAT end.

Lemma concat_run k m h1 xs h2 y ys :
  represents k m h1 xs -> represents k m h2 (y :: ys) -> apart h1 xs h2 (y :: ys) ->
  run_concat k h1 h2 m = Some (tt, concat_mem (has_backs k) (has_tail k) h1 (endp h1 xs) h2 y m).
Proof.
  intros R1 R2 Hap. destruct (first_nonempty _ _ _ _ _ _ R2) as [Hy Hl2].
  assert (h1 ∈ dom m) as Hh1 by (apply (r_dom _ _ _ _ _ R1), list_elem_of_here).
  assert (h2 ∈ dom m) as Hh2 by (apply (r_dom _ _ _ _ _ R2), list_elem_of_here).
  assert (y ∈ dom m) as Hyd by (apply (r_dom _ _ _ _ _ R2); right; apply list_elem_of_here).
  assert (endp h1 xs ∈ dom m) as Hp by (apply (r_dom _ _ _ _ _ R1), endp_in).
  assert (endp h1 xs <> h2) by (intros E; apply (Hap _ (endp_in h1 xs)); rewrite E; apply list_elem_of_here).
  assert (y <> h2) by (intros ->; apply (proj1 (NoDup_cons _ _) (r_nodup _ _ _ _ _ R2)); apply list_elem_of_here).
  assert (h1 <> h2) by (intros ->; apply (Hap h2); apply list_elem_of_here).
  destruct k; cbn [run_concat has_backs has_tail represents] in *; unfold concat_mem.
  - unfold SLIST_CONCAT. run_mem. rewrite Hl2. destruct xs as [|x xs].
    + rewrite (r_seg _ _ _ _ _ R1 : link m h1 = NULL), decide_True by done. rewrite decide_False by done.
      unfold SLIST_INIT. run_mem. done.
    + destruct (first_nonempty _ _ _ _ _ _ R1) as [Hx ->]. rewrite !decide_False by done.
      rewrite rounds_run, (mseq_run _ _ _ _ _ (seek_end _ _ _ _ _ _ R1)). unfold SLIST_INIT. run_mem. done.
  - unfold STAILQ_CONCAT, STAILQ_EMPTY, STAILQ_FIRST, STAILQ_INIT. run_mem. rewrite Hl2, bool_decide_eq_false_2 by done.
    run_mem. rewrite (r_tail _ _ _ _ _ R1) by done. run_mem. reads. rewrite Hl2. done.
  - unfold LIST_CONCAT, LIST_INIT. run_mem. rewrite Hl2. destruct xs as [|x xs].
    + rewrite (r_seg _ _ _ _ _ R1 : link m h1 = NULL), decide_True by done. rewrite decide_False by done. run_mem. done.
    + destruct (first_nonempty _ _ _ _ _ _ R1) as [Hx ->]. rewrite !decide_False by done.
      rewrite rounds_run, (mseq_run _ _ _ _ _ (seek_end _ _ _ _ _ _ R1)). run_mem. done.
  - unfold TAILQ_CONCAT, TAILQ_EMPTY, TAILQ_FIRST, TAILQ_INIT. run_mem. rewrite Hl2, bool_decide_eq_false_2 by done.
    run_mem. rewrite (r_tail _ _ _ _ _ R1) by done. run_mem. reads. rewrite Hl2, (r_tail _ _ _ _ _ R1) by done.
    run_mem. reads. done.
Qed.

Lemma concat_empty_run k m h1 xs h2 : represents k m h1 xs -> represents k m h2 [] -> apart h1 xs h2 [] ->
  exists m', run_concat k h1 h2 m = Some (tt, m') /\ (m' = m \/ xs = [] /\ m' = set_link h1 NULL m).
Proof.
  intros R1 R2 Hap. pose proof (r_seg _ _ _ _ _ R2) as Hl2. cbn in Hl2.
  assert (h1 ∈ dom m) as Hh1 by (apply (r_dom _ _ _ _ _ R1), list_elem_of_here).
  assert (h2 ∈ dom m) as Hh2 by (apply (r_dom _ _ _ _ _ R2), list_elem_of_here).
  destruct k; cbn [run_concat].
  - destruct xs as [|x xs].
    + exists (set_link h1 NULL m). split; [|by right]. unfold SLIST_CONCAT. run_mem.
      rewrite Hl2, (r_seg _ _ _ _ _ R1 : link m h1 = NULL), !decide_True by done. run_mem. done.
    + exists m. split; [|by left]. unfold SLIST_CONCAT. run_mem.
      destruct (first_nonempty _ _ _ _ _ _ R1) as [Hx ->]. by rewrite Hl2, decide_False, decide_True by done.
  - exists m. split; [|by left]. unfold STAILQ_CONCAT, STAILQ_EMPTY, STAILQ_FIRST. run_mem.
    by rewrite Hl2, bool_decide_eq_true_2 by done.
  - destruct xs as [|x xs].
    + exists (set_link h1 NULL m). split; [|by right]. unfold LIST_CONCAT. run_mem.
      rewrite Hl2, (r_seg _ _ _ _ _ R1 : link m h1 = NULL), !decide_True by done. run_mem. done.
    + exists m. split; [|by left]. unfold LIST_CONCAT. run_mem.
      destruct (first_nonempty _ _ _ _ _ _ R1) as [Hx ->]. by rewrite Hl2, decide_False, decide_True by done.
  - exists m. split; [|by left]. unfold TAILQ_CONCAT, TAILQ_EMPTY, TAILQ_FIRST. run_mem.
    by rewrite Hl2, bool_decide_eq_true_2 by done.
Qed.

Lemma set_link_id p m : p ∈ dom m -> set_link p (link m p) m = m.
Proof.
  intros [[l b] E]%elem_of_dom. unfold set_link, link, back. rewrite E. cbn. by apply insert_id.
Qed.

(** The queue [ys] hung under another head. *)
Lemma rep_rehead bk tl m m' h h' ys :
  rep bk tl m h ys -> h' ∉ ys -> h' <> NULL -> h' ∈ dom m -> dom m' = dom m ->
  link m' h' = first ys -> (forall a, a ∈ ys -> link m' a = link m a) ->
  (bk = true -> (ys = [] \/ back m' (first ys) = h') /\ forall a, a ∈ tail ys -> back m' a = back m a) ->
  (tl = true -> back m' h' = match ys with [] => h' | _ => back m h end) ->
  rep bk tl m' h' ys.
Proof.
  intros [Hn Hd H0 Hs Hb Ht] Hy Hh Hd' Hdom Hl Hlo Hbk Htl. apply NoDup_cons in Hn as [_ Hn]. split.
  - by apply NoDup_cons.
  - intros a [->|Ha]%elem_of_cons; rewrite Hdom; [done|]. apply Hd. by right.
  - intros [E|?]%elem_of_cons; [by apply Hh|]. apply H0. by right.
  - destruct ys as [|y ys]; [done|]. cbn in *. split; [done|]. destruct Hs as [_ Hs]. by eapply lseg_frame.
  - intros E. specialize (Hb E). destruct (Hbk E) as [B1 B2]. destruct ys as [|y ys]; [done|].
    destruct B1 as [?|B1]; [done|]. cbn in *. split; [done|]. destruct Hb as [_ Hb]. by eapply backs_frame.
  - intros E. rewrite (Htl E). destruct ys as [|y ys]; [done|]. by rewrite (Ht E).
Qed.

Definition run_swap (k : kind) : Z -> Z -> M unit :=
  match k with KSList => SLIST_SWAP | KSTailq => STAILQ_SWAP | KList => LIST_SWAP | KTailq => TAILQ_SWAP end.

(** The memory after a swap. *)
Definition swap_mem (k : kind) (h1 h2 n1 n2 : Z) (m : mem) : mem :=
  let bk := has_backs k in let tl := has_tail k in
  let m1 := set_link h1 n2 m in
  let m1 := if tl then set_back h1 (back m h2) m1 else m1 in
  let m1 := set_link h2 n1 m1 in
  let m1 := if tl then set_back h2 (back m h1) m1 else m1 in
  let m1 := if decide (n2 = NULL) then (if tl then set_back h1 h1 m1 else m1)
            else (if bk then set_back n2 h1 m1 else m1) in
  if decide (n1 = NULL) then (if tl then set_back h2 h2 m1 else m1)
  else (if bk then set_back n1 h2 m1 else m1).

(** Decides the comparisons of addresses, wherever they occur. *)
Ltac compare_addrs := repeat match goal with
  | |- context [decide (?a = ?a)] => rewrite !(decide_True (P := a = a)) by done
  | |- context [decide (?a = ?b)] => first
      [ rewrite !(decide_False (P := a = b)) by congruence | rewrite !(decide_True (P := a = b)) by congruence ] end.

Lemma swap_run k m h1 n1 h2 n2 :
  h1 ∈ dom m -> h2 ∈ dom m -> h1 <> h2 -> link m h1 = n1 -> link m h2 = n2 ->
  (n1 = NULL \/ n1 <> NULL /\ n1 ∈ dom m /\ n1 <> h1 /\ n1 <> h2) ->
  (n2 = NULL \/ n2 <> NULL /\ n2 ∈ dom m /\ n2 <> h1 /\ n2 <> h2) ->
  run_swap k h1 h2 m = Some (tt, swap_mem k h1 h2 n1 n2 m).
Proof.
  intros Hh1 Hh2 Hne E1 E2 F1 F2. unfold swap_mem.
  destruct k; cbn [run_swap has_backs has_tail];
    unfold SLIST_SWAP, STAILQ_SWAP, LIST_SWAP, TAILQ_SWAP, STAILQ_EMPTY, STAILQ_FIRST; run_mem; rewrite ?E1, ?E2; reads.
  - by destruct (decide (n1 = NULL)), (decide (n2 = NULL)).
  - destruct F2 as [F2|(F2 & D2 & _)]; [rewrite bool_decide_eq_true_2, (decide_True (P := n2 = NULL)) by done
      |rewrite bool_decide_eq_false_2, (decide_False (P := n2 = NULL)) by done]; run_mem; reads;
      (destruct F1 as [F1|(F1 & D1 & _)]; [rewrite bool_decide_eq_true_2, (decide_True (P := n1 = NULL)) by done
      |rewrite bool_decide_eq_false_2, (decide_False (P := n1 = NULL)) by done]); run_mem; reads; done.
  - destruct F1 as [F1|(F1 & D1 & N2 & N3)], F2 as [F2|(F2 & D2 & N4 & N5)];
      compare_addrs; run_mem; reads; compare_addrs; run_mem; done.
  - destruct F1 as [F1|(F1 & D1 & N2 & N3)], F2 as [F2|(F2 & D2 & N4 & N5)];
      compare_addrs; run_mem; reads; compare_addrs; run_mem; done.
Qed.

Lemma head_facts bk tl m h xs h' ys : rep bk tl m h xs -> apart h xs h' ys ->
  link m h = first xs /\
  (first xs = NULL \/ first xs <> NULL /\ first xs ∈ dom m /\ first xs <> h /\ first xs <> h').
Proof.
  intros Hr Hap. split; [by apply (pos_facts _ _ _ _ [] xs Hr)|]. destruct xs as [|x xs]; [by left|right]. cbn.
  destruct (first_nonempty _ _ _ _ _ _ Hr) as [H0 _]. assert (x ∈ h :: x :: xs) as Hx by (right; apply list_elem_of_here).
  split_and!; [done|by apply (r_dom _ _ _ _ _ Hr)| |].
  - intros ->. apply (proj1 (NoDup_cons _ _) (r_nodup _ _ _ _ _ Hr)), list_elem_of_here.
  - intros ->. apply (Hap _ Hx), list_elem_of_here.
Qed.

Lemma apart_sym h1 xs h2 ys : apart h1 xs h2 ys -> apart h2 ys h1 xs.
Proof. intros H a Ha Hb. by apply (H a). Qed.

Lemma swap_touches k m h1 h2 n1 n2 ns : h1 ∈ dom m -> h2 ∈ dom m -> h1 ∈ ns -> h2 ∈ ns ->
  (n1 = NULL \/ n1 ∈ dom m /\ n1 ∈ ns) -> (n2 = NULL \/ n2 ∈ dom m /\ n2 ∈ ns) ->
  touches m (swap_mem k h1 h2 n1 n2 m) ns.
Proof.
  intros D1 D2 I1 I2 F1 F2. unfold swap_mem.
  destruct F1 as [F1|[]], F2 as [F2|[]]; repeat case_decide; try done; destruct k; cbn [has_backs has_tail];
    repeat first [apply touches_refl | apply touches_back | apply touches_link]; done.
Qed.

(** What the swapped memory holds. *)
Lemma swap_link k m h1 h2 n1 n2 a : h1 <> h2 ->
  link (swap_mem k h1 h2 n1 n2 m) a = if decide (a = h2) then n1 else if decide (a = h1) then n2 else link m a.
Proof.
  intros Hne. unfold swap_mem. destruct (decide (n1 = NULL)), (decide (n2 = NULL)), k; cbn [has_backs has_tail];
    repeat first [rewrite link_set_back | rewrite link_set_link]; done.
Qed.

Lemma swap_back_first k m h1 h2 n1 n2 : has_backs k = true -> n1 <> h2 -> n2 <> h1 -> n1 <> h1 -> n2 <> h2 ->
  (n2 <> NULL -> n1 <> n2 -> back (swap_mem k h1 h2 n1 n2 m) n2 = h1) /\
  (n1 <> NULL -> n1 <> n2 -> back (swap_mem k h1 h2 n1 n2 m) n1 = h2).
Proof.
  intros Hb ? ? ? ?. unfold swap_mem. split; intros ? ?; destruct k; try done; cbn [has_tail has_backs];
    destruct (decide (n1 = NULL)), (decide (n2 = NULL)); reads; done.
Qed.

Lemma swap_back_other k m h1 h2 n1 n2 a : a <> h1 -> a <> h2 -> a <> n1 -> a <> n2 ->
  back (swap_mem k h1 h2 n1 n2 m) a = back m a.
Proof.
  intros. unfold swap_mem. destruct k; cbn [has_tail has_backs];
    destruct (decide (n1 = NULL)), (decide (n2 = NULL)); reads; done.
Qed.

Lemma swap_back_heads k m h1 h2 n1 n2 : has_tail k = true -> h1 <> h2 -> n1 <> h2 -> n2 <> h1 ->
  n1 <> h1 -> n2 <> h2 ->
  back (swap_mem k h1 h2 n1 n2 m) h1 = (if decide (n2 = NULL) then h1 else back m h2) /\
  back (swap_mem k h1 h2 n1 n2 m) h2 = (if decide (n1 = NULL) then h2 else back m h1).
Proof.
  intros Hb ? ? ? ? ?. unfold swap_mem. split; destruct k; try done; cbn [has_tail has_backs];
    destruct (decide (n1 = NULL)), (decide (n2 = NULL)); reads; done.
Qed.

(** The addresses of one queue seen from the other. *)
Lemma apart_facts bk tl m h1 xs h2 ys : rep bk tl m h1 xs -> rep bk tl m h2 ys -> apart h1 xs h2 ys ->
  (h1 ∉ ys) /\ h1 <> NULL /\ h1 ∈ dom m /\ first ys <> h1 /\ first ys <> h2 /\
  (ys <> [] -> first ys <> NULL /\ first xs <> first ys) /\
  forall a, a ∈ ys -> a <> h1 /\ a <> h2 /\ a <> first xs /\ (a ∈ tail ys -> a <> first ys).
Proof.
  intros R1 R2 Hap. pose proof (r_null _ _ _ _ _ R1) as Z1. pose proof (r_null _ _ _ _ _ R2) as Z2.
  assert (h1 ∈ h1 :: xs) as I1 by apply list_elem_of_here. assert (h2 ∈ h2 :: ys) as I2 by apply list_elem_of_here.
  assert (h1 <> NULL) as N1 by (intros E; apply Z1; by rewrite <- E).
  assert (h2 <> NULL) as N2 by (intros E; apply Z2; by rewrite <- E).
  assert (h1 ∉ ys) as A1 by (intros ?; apply (Hap h1 I1); by right).
  assert (forall a, a ∈ ys -> a <> h1 /\ a <> h2 /\ a <> first xs /\ (a ∈ tail ys -> a <> first ys)) as F.
  { intros a Ha. split_and!; [by intros ->| | |].
    - intros ->. by destruct (proj1 (NoDup_cons _ _) (r_nodup _ _ _ _ _ R2)).
    - intros ->. destruct xs as [|x xs]; [by apply Z2; right|]. cbn in Ha.
      apply (Hap x); [right; apply list_elem_of_here|by right].
    - intros Ht ->. destruct ys as [|y ys]; [by apply not_elem_of_nil in Ht|]. cbn in *.
      destruct (proj1 (NoDup_cons _ _) (r_nodup _ _ _ _ _ R2)) as [_ [? _]%NoDup_cons]. done. }
  split_and!; [done|done|by apply (r_dom _ _ _ _ _ R1)| | | |done].
  - destruct ys as [|y ys]; [by apply not_eq_sym|]. apply F, list_elem_of_here.
  - destruct ys as [|y ys]; [by apply not_eq_sym|]. apply F, list_elem_of_here.
  - intros Hy. destruct ys as [|y ys]; [done|]. cbn. split.
    + intros ->. apply Z2. right. apply list_elem_of_here.
    + apply not_eq_sym, F, list_elem_of_here.
Qed.

Lemma swap_mem_rep k m h1 xs h2 ys :
  represents k m h1 xs -> represents k m h2 ys -> apart h1 xs h2 ys ->
  let m' := swap_mem k h1 h2 (first xs) (first ys) m in
  represents k m' h1 ys /\ represents k m' h2 xs /\ touches m m' ((h1 :: xs) ++ (h2 :: ys)).
Proof.
  intros R1 R2 Hap m'.
  destruct (apart_facts _ _ _ _ _ _ _ R1 R2 Hap) as (A1 & A2 & A3 & A4 & A5 & A6 & A7).
  destruct (apart_facts _ _ _ _ _ _ _ R2 R1 (apart_sym _ _ _ _ Hap)) as (B1 & B2 & B3 & B4 & B5 & B6 & B7).
  assert (h1 <> h2) as Hne by (intros ->; apply (Hap h2); apply list_elem_of_here).
  assert (touches m m' ((h1 :: xs) ++ h2 :: ys)) as T.
  { destruct (head_facts _ _ _ _ _ h2 ys R1 Hap) as [_ F1].
    destruct (head_facts _ _ _ _ _ h1 xs R2 (apart_sym _ _ _ _ Hap)) as [_ F2].
    apply swap_touches; [done|done|apply list_elem_of_here|apply in_mid| |].
    - destruct F1 as [?|(? & ? & _)]; [by left|right]. split; [done|]. destruct xs; [done|].
      right. apply list_elem_of_here.
    - destruct F2 as [?|(? & ? & _)]; [by left|right]. split; [done|]. destruct ys; [done|].
      apply elem_of_app. right. right. apply list_elem_of_here. }
  split_and!; [| |done]; eapply rep_rehead; try done; try apply (proj1 T); unfold m'.
  - by rewrite swap_link, decide_False, decide_True by done.
  - intros a Ha. destruct (A7 a Ha) as (? & ? & _). by rewrite swap_link, !decide_False by done.
  - intros Hb. destruct (swap_back_first k m h1 h2 (first xs) (first ys)) as [E _]; try done. split.
    + destruct ys as [|y ys]; [by left|right]. by apply E; apply A6.
    + intros a Ha. destruct (A7 a) as (? & ? & ? & ?); [by destruct ys; [|right]|]. apply swap_back_other; auto.
  - intros Ht. destruct (swap_back_heads k m h1 h2 (first xs) (first ys)) as [-> _]; try done.
    destruct ys as [|y ys]; [done|]. by rewrite decide_False by (by apply A6).
  - by rewrite swap_link, decide_True by done.
  - intros a Ha. destruct (B7 a Ha) as (? & ? & _). by rewrite swap_link, !decide_False by done.
  - intros Hb. destruct (swap_back_first k m h1 h2 (first xs) (first ys)) as [_ E]; try done. split.
    + destruct xs as [|x xs]; [by left|right]. destruct B6 as [? ?]; [done|]. by apply E; auto.
    + intros a Ha. destruct (B7 a) as (? & ? & ? & ?); [by destruct xs; [|right]|]. apply swap_back_other; auto.
  - intros Ht. destruct (swap_back_heads k m h1 h2 (first xs) (first ys)) as [_ ->]; try done.
    destruct xs as [|x xs]; [done|]. by rewrite decide_False by (by apply B6).
Qed.

(** Two structures of one kind on disjoint nodes: SWAP exchanges the
    sequences they represent, and CONCAT leaves the first representing both
    sequences in order and the second empty, for empty and non-empty operands
    alike; neither changes any node outside the two structures. *)
Theorem queue_concat_swap (k : kind) (m : mem) (h1 : Z) (xs : list Z) (h2 : Z) (ys : list Z) :
  represents k m h1 xs -> represents k m h2 ys -> apart h1 xs h2 ys ->
  (exists m', run_concat k h1 h2 m = Some (tt, m') /\
     represents k m' h1 (xs ++ ys) /\ represents k m' h2 [] /\ touches m m' ((h1 :: xs) ++ (h2 :: ys))) /\
  (exists m', run_swap k h1 h2 m = Some (tt, m') /\
     represents k m' h1 ys /\ represents k m' h2 xs /\ touches m m' ((h1 :: xs) ++ (h2 :: ys))).
Proof.
  intros R1 R2 Hap. split.
  - destruct ys as [|y ys].
    + destruct (concat_empty_run _ _ _ _ _ R1 R2 Hap) as (m' & E & Hm). exists m'. rewrite app_nil_r.
      assert (m' = m) as ->; [|split_and!; [done|done|done|apply touches_refl]].
      destruct Hm as [->|[-> ->]]; [done|]. rewrite <- (r_seg _ _ _ _ _ R1 : link m h1 = NULL) at 1.
      apply set_link_id, (r_dom _ _ _ _ _ R1), list_elem_of_here.
    + eexists. split; [exact (concat_run k m h1 xs h2 y ys R1 R2 Hap)|]. by apply (concat_mem_rep _ _ m h1 xs h2 (y :: ys)).
  - destruct (head_facts _ _ _ _ _ h2 ys R1 Hap) as [L1 F1].
    destruct (head_facts _ _ _ _ _ h1 xs R2 (apart_sym _ _ _ _ Hap)) as [L2 F2].
    eexists. split; [|by apply swap_mem_rep]. apply swap_run; auto.
    + apply (r_dom _ _ _ _ _ R1), list_elem_of_here.
    + apply (r_dom _ _ _ _ _ R2), list_elem_of_here.
    + intros ->. apply (Hap h2); apply list_elem_of_here.
    + destruct F2 as [?|(? & ? & ? & ?)]; [by left|right]. done.
Qed.

(** ** Witnesses *)

(** A head at 1 and the elements 2, 3, 4 of a tail queue, a free node 9, and an
    empty tail queue at 7. *)
Definition sample : mem := <[1:=(2, 4)]> (<[2:=(3, 1)]> (<[3:=(4, 2)]> (<[4:=(0, 3)]> (<[9:=(0, 0)]> (<[7:=(0, 7)]> ∅))))).

Lemma sample_rep : tailq sample 1 [2; 3; 4].
Proof.
  split; try done.
  - by apply (bool_decide_unpack _).
  - intros a Ha. assert (Forall (fun a => a ∈ dom sample) [1; 2; 3; 4]) as F by (by apply (bool_decide_unpack _)).
    rewrite Forall_forall in F. by apply F.
  - by apply (bool_decide_unpack _).
Qed.
Lemma sample_empty : tailq sample 7 [].
Proof.
  split; try done.
  - by apply (bool_decide_unpack _).
  - intros a ->%list_elem_of_singleton. by apply (bool_decide_unpack _).
  - by apply (bool_decide_unpack _).
Qed.

Lemma queue_refines_witness : exists m',
  run_ops KTailq 1 [Rem 3; InsTail 9] sample = Some (tt, m') /\ represents KTailq m' 1 [2; 4; 9] /\
  touches sample m' (all_inserted [Rem 3; InsTail 9] ++ 1 :: [2; 3; 4]).
Proof.
  apply (queue_refines KTailq [Rem 3; InsTail 9] sample 1 [2; 3; 4] [2; 4; 9]).
  - exact sample_rep.
  - eapply qs_cons; [apply (s_rem [2] 3 [4])|]. eapply qs_cons; [apply (s_tail 9 [2; 4])|apply qs_nil].
    by apply (bool_decide_unpack _).
  - repeat constructor.
  - repeat constructor; by apply (bool_decide_unpack _).
Defined.

Lemma tailq_traversal_witness : TAILQ_FOREACH_REVERSE 1 (fun _ => mval tt) sample = Some ([4; 3; 2], sample).
Proof. exact (proj1 (proj2 (tailq_traversal sample 1 [2; 3; 4] sample_rep))). Defined.

Lemma queue_drain_witness : exists m',
  FOREACH_FROM_SAFE (load_link 1) load_link NULL (fun v => run_op KTailq 1 (Rem v)) sample = Some ([2; 3; 4], m') /\
  represents KTailq m' 1 [] /\ touches sample m' [1; 2; 3; 4].
Proof. exact (queue_drain KTailq sample 1 [2; 3; 4] sample_rep). Defined.

Lemma queue_concat_swap_witness : exists m',
  run_concat KTailq 7 1 sample = Some (tt, m') /\ represents KTailq m' 7 [2; 3; 4] /\ represents KTailq m' 1 [] /\
  touches sample m' ([7] ++ [1; 2; 3; 4]).
Proof.
  apply (queue_concat_swap KTailq sample 7 [] 1 [2; 3; 4] sample_empty sample_rep).
  intros a ->%list_elem_of_singleton. by apply (bool_decide_unpack _).
Defined.
End QueueProofs.
