(* ===== verification/QueueLoops.v ===== *)
(** * QueueLoops: loops that continue, and the consistency checks of queue.h

    The [FROM] loops start at a given element, in both directions; the [PREVPTR] loop
    delivers with each element the link that leads to it, which is what
    [SLIST_REMOVE_PREVPTR] takes.  The checks a build with [INVARIANTS] makes before it
    changes a list hold exactly when the back pointers are right. *)

From S2P Require Import Prelude Queue QueueProofs.

Module Export QueueLoops.
Local Open Scope Z_scope.
Local Open Scope mem_scope.

Abbreviation nothing := (fun _ : Z => mval tt).

(** A loop with a body that changes nothing is the same with the next element loaded before the body. *)
Lemma foreach_safe_run m next cs : forall fuel v,
  steps m next v cs -> NULL ∉ v :: cs -> (length cs < fuel)%nat ->
  foreach_safe fuel next nothing v m = Some (v :: cs, m).
Proof.
  induction cs as [|x cs IH]; intros [|fuel] v Hs H0 Hf; cbn in Hf; try lia; cbn [foreach_safe];
    rewrite decide_False by (intros ->; apply H0, list_elem_of_here).
  - rewrite (mseq_run _ _ _ _ _ Hs), mseq_mval. destruct fuel; done.
  - destruct Hs as [Hx Hs]. rewrite (mseq_run _ _ _ _ _ Hx), mseq_mval. erewrite mseq_run; [done|].
    apply IH; [done|intros ?; apply H0; by right|lia].
Qed.

(** Both loops from an element on: [next] leads through [cs]. *)
Lemma from_run bk tl m h xs first next v cs : rep bk tl m h xs -> steps m next v cs ->
  NULL ∉ v :: cs -> (length (v :: cs) <= length xs)%nat ->
  FOREACH_FROM first next v nothing m = Some (v :: cs, m) /\ FOREACH_FROM_SAFE first next v nothing m = Some (v :: cs, m).
Proof.
  intros Hr Hs H0 Hl. pose proof (rep_size _ _ _ _ _ Hr). cbn in Hl. unfold FOREACH_FROM, FOREACH_FROM_SAFE.
  rewrite !rounds_run, !decide_False by (intros ->; apply H0, list_elem_of_here). rewrite !mseq_mval.
  split; [apply foreach_run|apply foreach_safe_run]; first [done|lia].
Qed.

(** Forwards the remaining elements follow. *)
Lemma rep_steps bk tl m h ys x zs : rep bk tl m h (ys ++ x :: zs) -> steps m load_link x zs.
Proof.
  intros [_ Hd _ Hs _ _]. apply lseg_app in Hs as [_ Hs]. apply lseg_steps; [|done].
  intros a Ha. apply Hd. right. apply elem_of_app. by right.
Qed.
Lemma rep_notnull bk tl m h ys zs : rep bk tl m h (ys ++ zs) -> (NULL ∉ zs) /\ NULL ∉ ys.
Proof. intros Hr. pose proof (r_null _ _ _ _ _ Hr). set_solver. Qed.

(** The two loops of each structure that start at a given element. *)
Definition from_loops (k : kind) : list (Z -> Z -> (Z -> M unit) -> M (list Z)) :=
  match k with
  | KSList => [SLIST_FOREACH_FROM; SLIST_FOREACH_FROM_SAFE]
  | KSTailq => [STAILQ_FOREACH_FROM; STAILQ_FOREACH_FROM_SAFE]
  | KList => [LIST_FOREACH_FROM; LIST_FOREACH_FROM_SAFE]
  | KTailq => [TAILQ_FOREACH_FROM; TAILQ_FOREACH_FROM_SAFE]
  end.
Definition reverse_loops : list (Z -> Z -> (Z -> M unit) -> M (list Z)) :=
  [TAILQ_FOREACH_REVERSE_FROM; TAILQ_FOREACH_REVERSE_FROM_SAFE].

(** From NULL the loops start at the first element, as the plain ones do. *)
Lemma from_null first next v (m : mem) : first m = Some (v, m) -> v <> NULL ->
  FOREACH_FROM first next NULL nothing m = FOREACH_FROM first next v nothing m /\
  FOREACH_FROM_SAFE first next NULL nothing m = FOREACH_FROM_SAFE first next v nothing m.
Proof.
  intros E Hv. unfold FOREACH_FROM, FOREACH_FROM_SAFE. rewrite !rounds_run, !(decide_True (P := NULL = NULL)), !(decide_False (P := v = NULL)) by done.
  by rewrite !(mseq_run _ _ _ _ _ E), !mseq_mval.
Qed.

Lemma from_loops_run k m h ys x zs : represents k m h (ys ++ x :: zs) ->
  Forall (fun loop => loop x h nothing m = Some (x :: zs, m)) (from_loops k).
Proof.
  intros Hr. destruct (from_run _ _ _ _ _ (load_link h) _ _ _ Hr (rep_steps _ _ _ _ _ _ _ Hr)) as [H1 H2].
  - by apply (rep_notnull _ _ _ _ _ _ Hr).
  - rewrite length_app. lia.
  - destruct k; repeat constructor; assumption.
Qed.

Lemma reverse_loops_run m h ys x zs : tailq m h (ys ++ x :: zs) ->
  Forall (fun loop => loop x h nothing m = Some (x :: rev ys, m)) reverse_loops.
Proof.
  intros Hr. destruct (from_run _ _ _ _ _ (TAILQ_LAST h) _ _ _ Hr (tailq_steps_back _ _ _ _ _ Hr)) as [H1 H2].
  - pose proof (rep_notnull _ _ _ _ _ _ Hr) as [Hz Hy]. intros [E|H]%elem_of_cons; [apply Hz; rewrite E; apply list_elem_of_here|].
    by apply Hy, list_elem_of_In, in_rev, list_elem_of_In.
  - rewrite length_app. cbn. rewrite length_rev. lia.
  - repeat constructor; assumption.
Qed.

(** The FROM loops of every structure, safe or not, visit the elements from the given one on, and all of
    them when it is NULL; the reverse ones visit the given element and those before it, nearest first. *)
Theorem foreach_from_continues (k : kind) (m : mem) (h : Z) (ys : list Z) (x : Z) (zs : list Z) :
  represents k m h (ys ++ x :: zs) ->
  Forall (fun loop => loop x h nothing m = Some (x :: zs, m) /\ loop NULL h nothing m = Some (ys ++ x :: zs, m)) (from_loops k) /\
  (k = KTailq ->
   Forall (fun loop => loop x h nothing m = Some (x :: rev ys, m) /\ loop NULL h nothing m = Some (rev (ys ++ x :: zs), m)) reverse_loops).
Proof.
  intros Hr. split.
  - apply Forall_and. split; [by eapply from_loops_run|].
    assert (exists v vs, ys ++ x :: zs = v :: vs) as (v & vs & E) by (destruct ys; eauto). rewrite E in *.
    destruct (rep_notnull _ _ _ _ [] _ Hr) as [H0 _]. destruct (pos_facts _ _ _ _ [] _ Hr) as (Hh & _ & Hl & _).
    destruct (from_null (load_link h) load_link v m) as [N1 N2].
    { rewrite load_link_run by done. cbn in Hl. by rewrite Hl. }
    { intros ->. apply H0, list_elem_of_here. }
    pose proof (from_loops_run k m h [] v vs Hr) as HF. destruct k; cbn [from_loops] in *; inv HF as [|? ? F1 HF']; inv HF' as [|? ? F2 _];
      repeat constructor; first [exact (eq_trans N1 F1)|exact (eq_trans N2 F2)].
  - intros ->. apply Forall_and. split; [by eapply reverse_loops_run|].
    assert (exists v vs, ys ++ x :: zs = vs ++ [v]) as (v & vs & E).
    { destruct (exists_last (l := ys ++ x :: zs)) as (vs & v & E); [by destruct ys|]. eauto. }
    rewrite E in *. destruct (tailq_last _ _ _ Hr) as [L _]. unfold before in L. rewrite List.last_last in L.
    destruct (from_null (TAILQ_LAST h) TAILQ_PREV v m L) as [N1 N2].
    { destruct (rep_notnull _ _ _ _ _ _ Hr) as [H0 _]. intros ->. apply H0, list_elem_of_here. }
    pose proof (reverse_loops_run m h vs v [] Hr) as HF. inv HF as [|? ? F1 HF']; inv HF' as [|? ? F2 _]. rewrite rev_app_distr.
    repeat constructor; [exact (eq_trans N1 F1)|exact (eq_trans N2 F2)].
Qed.

(** ** The loop over links *)

Lemma prevptr_run m cs : forall fuel p, lseg m p cs NULL -> (NULL ∉ cs) -> (forall a, a ∈ p :: cs -> a ∈ dom m) ->
  (length cs < fuel)%nat -> foreach_prevptr fuel (fun _ _ => mval tt) p m = Some (zip (p :: cs) cs, m).
Proof.
  induction cs as [|x cs IH]; intros [|fuel] p Hs H0 Hd Hf; cbn in Hf; try lia; cbn [foreach_prevptr];
    rewrite (mseq_run _ _ _ _ _ (load_link_run p m (Hd p (list_elem_of_here _ _)))); cbn in Hs.
  - by rewrite Hs.
  - destruct Hs as [-> Hs]. rewrite decide_False by (intros ->; apply H0, list_elem_of_here). rewrite mseq_mval.
    erewrite mseq_run; [done|]. apply IH; [done|intros ?; apply H0; by right| |lia]. intros a Ha. apply Hd. by right.
Qed.

Lemma zip_links h ys x zs : zip (h :: ys ++ x :: zs) (ys ++ x :: zs) !! length ys = Some (endp h ys, x).
Proof. revert h. induction ys as [|y ys IH]; intros h; [done|]. apply (IH y). Qed.

(** The PREVPTR loop delivers each element with the link that leads to it; that link passes the check of
    [SLIST_REMOVE_PREVPTR], which then removes the element, touching only the node of that link. *)
Theorem slist_prevptr (m : mem) (h : Z) (xs : list Z) :
  slist m h xs ->
  exists ps, SLIST_FOREACH_PREVPTR h (fun _ _ => mval tt) m = Some (ps, m) /\ ps.*2 = xs /\
    forall ys x zs, xs = ys ++ x :: zs -> exists p m', ps !! length ys = Some (p, x) /\
      QMD_SLIST_CHECK_PREVPTR p x m = Some (true, m) /\ SLIST_REMOVE_PREVPTR p x m = Some (tt, m') /\
      slist m' h (ys ++ zs) /\ touches m m' [p].
Proof.
  intros Hr. exists (zip (h :: xs) xs). pose proof (rep_size _ _ _ _ _ Hr) as Hsz. split_and!.
  - unfold SLIST_FOREACH_PREVPTR. rewrite rounds_run. destruct Hr as [_ Hd H0 Hs _ _].
    apply prevptr_run; [done|intros ?; apply H0; by right|done|lia].
  - apply snd_zip. cbn. lia.
  - intros ys x zs ->. destruct (removed_facts _ _ _ _ _ _ _ Hr) as (Hx & Hh & Hp & Hxp & Hxh & Hl & Hn & Hf & _).
    exists (endp h ys), (set_link (endp h ys) (link m x) m). split_and!.
    + apply zip_links.
    + unfold QMD_SLIST_CHECK_PREVPTR. run_mem. unfold mval. by rewrite Hl, bool_decide_true.
    + unfold SLIST_REMOVE_PREVPTR. by run_mem.
    + rewrite Hn. pose proof (proj1 (remove_mem_rep false false m h ys x zs Hr)) as R. unfold remove_mem in R. by destruct (decide (first zs = NULL)).
    + apply touches_link; [apply touches_refl|apply list_elem_of_here|done].
Qed.

(** ** The consistency checks *)

(** A check that reads the back pointer of the node after [p]. *)
Lemma check_next_run m p n : p ∈ dom m -> link m p = n -> (n <> NULL -> n ∈ dom m) ->
  QMD_LIST_CHECK_NEXT p m = Some (bool_decide (n = NULL \/ back m n = p), m).
Proof.
  intros Hp Hl Hn. unfold QMD_LIST_CHECK_NEXT, LIST_NEXT. run_mem. rewrite Hl. case_decide as E.
  - by rewrite bool_decide_true by (by left).
  - pose proof (Hn E). run_mem. unfold mval. do 2 f_equal. apply bool_decide_ext. naive_solver.
Qed.
Lemma check_head_next h m : QMD_LIST_CHECK_HEAD h m = QMD_LIST_CHECK_NEXT h m.
Proof. done. Qed.
Lemma tailq_check_head h m : h ∈ dom m -> QMD_TAILQ_CHECK_HEAD h m = QMD_LIST_CHECK_HEAD h m.
Proof.
  intros Hh. unfold QMD_TAILQ_CHECK_HEAD, QMD_LIST_CHECK_HEAD, TAILQ_EMPTY, TAILQ_FIRST, LIST_FIRST. rewrite mseq_assoc.
  rewrite !(mseq_run _ _ _ _ _ (load_link_run h m Hh)), mseq_mval. case_bool_decide; [by rewrite decide_True|].
  rewrite decide_False by done. by rewrite (mseq_run _ _ _ _ _ (load_link_run h m Hh)).
Qed.

(** Along a chain, the checks at every node and the back pointers say the same. *)
Lemma checks_backs m xs : forall p, lseg m p xs NULL -> (NULL ∉ xs) -> (forall a, a ∈ p :: xs -> a ∈ dom m) ->
  (backs m p xs <-> Forall (fun q => QMD_LIST_CHECK_NEXT q m = Some (true, m)) (p :: xs)).
Proof.
  induction xs as [|x xs IH]; intros p Hs H0 Hd; cbn in Hs.
  - rewrite Forall_singleton, (check_next_run m p NULL) by (done || (apply Hd, list_elem_of_here)). by rewrite bool_decide_true by (by left).
  - destruct Hs as [Hl Hs]. cbn [backs]. rewrite Forall_cons, (check_next_run m p x), <- (IH x).
    + split; intros [Hb ?]; (split; [|done]); [by rewrite bool_decide_true by (by right)|].
      injection Hb as [->|]%bool_decide_eq_true; [|done]. exfalso. apply H0, list_elem_of_here.
    + done.
    + intros ?. apply H0. by right.
    + intros a Ha. apply Hd. by right.
    + apply Hd, list_elem_of_here.
    + done.
    + intros _. apply Hd. right. apply list_elem_of_here.
Qed.

(** The checks of a list and of a tail queue are exact: for a chain of nodes, the head and next
    checks all pass if and only if the back pointers are those of a list; then the checks of the previous
    links and of the tail pass as well.  No check panics, or leaves the nodes, on a well-formed queue. *)
Theorem invariants_checks (tl : bool) (m : mem) (h : Z) (xs : list Z) :
  rep false tl m h xs ->
  (rep true tl m h xs <->
   QMD_LIST_CHECK_HEAD h m = Some (true, m) /\ Forall (fun x => QMD_LIST_CHECK_NEXT x m = Some (true, m)) xs) /\
  (rep true tl m h xs -> Forall (fun x => QMD_LIST_CHECK_PREV x m = Some (true, m)) xs) /\
  (tl = true -> QMD_TAILQ_CHECK_TAIL h m = Some (true, m)) /\
  QMD_TAILQ_CHECK_HEAD h m = QMD_LIST_CHECK_HEAD h m /\
  forall x, QMD_TAILQ_CHECK_NEXT x m = QMD_LIST_CHECK_NEXT x m /\ QMD_TAILQ_CHECK_PREV x m = QMD_LIST_CHECK_PREV x m.
Proof.
  intros Hr. pose proof Hr as [Hnd Hd H0 Hs _ Ht]. assert (h ∈ dom m) as Hh by (apply Hd, list_elem_of_here). split_and!.
  - pose proof (checks_backs m xs h Hs ltac:(intros ?; apply H0; by right) Hd) as Hc. rewrite Forall_cons in Hc.
    rewrite check_head_next, <- Hc. split; [intros R; by apply (r_backs _ _ _ _ _ R)|]. by intros Hb; split.
  - intros R. apply Forall_forall. intros x (ys & zs & ->)%list_elem_of_split.
    destruct (removed_facts _ _ _ _ _ _ _ R) as (Hx & _ & Hp & _ & _ & Hl & _ & _ & Hb). specialize (Hb eq_refl).
    unfold QMD_LIST_CHECK_PREV. run_mem. rewrite Hb. run_mem. unfold mval. by rewrite Hl, bool_decide_true.
  - intros ->. specialize (Ht eq_refl). assert (endp h xs ∈ dom m) by (apply Hd, endp_in). unfold QMD_TAILQ_CHECK_TAIL. run_mem. rewrite Ht. run_mem.
    unfold mval. by rewrite (lseg_end _ _ _ _ Hs), bool_decide_true.
  - by apply tailq_check_head.
  - done.
Qed.

(** ** Empty structures *)

Definition run_init (k : kind) : Z -> M unit :=
  match k with KSList => SLIST_INIT | KSTailq => STAILQ_INIT | KList => LIST_INIT | KTailq => TAILQ_INIT end.
(** The node a static head makes; where the head has one word, [b] is what follows it. *)
Definition static_head (k : kind) (h b : Z) : Z * Z :=
  match k with
  | KSList => (SLIST_HEAD_INITIALIZER, b) | KSTailq => STAILQ_HEAD_INITIALIZER h
  | KList => (LIST_HEAD_INITIALIZER, b) | KTailq => TAILQ_HEAD_INITIALIZER h
  end.

Lemma represents_nil k m h : h <> NULL -> h ∈ dom m -> link m h = NULL -> (has_tail k = true -> back m h = h) ->
  represents k m h [].
Proof.
  intros H0 Hh Hl Hb. split; try done.
  - apply NoDup_singleton.
  - by intros a ->%list_elem_of_singleton.
  - by intros E%list_elem_of_singleton.
Qed.

(** INIT and the static initialisers of all four structures make the empty structure, and INIT changes
    nothing but the head. *)
Theorem queue_init (k : kind) (m : mem) (h b : Z) :
  h <> NULL ->
  represents k (<[h := static_head k h b]> m) h [] /\
  (h ∈ dom m -> exists m', run_init k h m = Some (tt, m') /\ represents k m' h [] /\ touches m m' [h]).
Proof.
  intros H0. split.
  - apply represents_nil; [done|rewrite dom_insert_L; set_solver| |]; unfold link, back; rewrite lookup_insert_eq; by destruct k.
  - intros Hh. exists (if has_tail k then set_back h h (set_link h NULL m) else set_link h NULL m). split_and!.
    + destruct k; cbn; unfold SLIST_INIT, LIST_INIT, STAILQ_INIT, TAILQ_INIT; by run_mem.
    + apply represents_nil; [done|destruct (has_tail k); in_dom| |intros E; rewrite E]; destruct k; try done; cbn [has_tail]; rewrite ?link_set_back, ?back_set_back, ?link_set_link; by rewrite decide_True by done.
    + destruct (has_tail k); repeat first [apply touches_back|apply touches_link]; first [apply touches_refl|apply list_elem_of_here|assumption].
Qed.

(** ** Witnesses *)

Lemma foreach_from_continues_witness :
  Forall (fun loop => loop 3 1 nothing sample = Some ([3; 4], sample) /\ loop NULL 1 nothing sample = Some ([2; 3; 4], sample)) (from_loops KTailq) /\
  (KTailq = KTailq ->
   Forall (fun loop => loop 3 1 nothing sample = Some ([3; 2], sample) /\ loop NULL 1 nothing sample = Some ([4; 3; 2], sample)) reverse_loops).
Proof. exact (foreach_from_continues KTailq sample 1 [2] 3 [4] sample_rep). Defined.

Lemma sample_slist : slist sample 1 [2; 3; 4].
Proof. destruct sample_rep as [H1 H2 H3 H4 _ _]. by split. Qed.

Lemma slist_prevptr_witness : exists ps, SLIST_FOREACH_PREVPTR 1 (fun _ _ => mval tt) sample = Some (ps, sample) /\ ps.*2 = [2; 3; 4] /\
  forall ys x zs, [2; 3; 4] = ys ++ x :: zs -> exists p m', ps !! length ys = Some (p, x) /\
    QMD_SLIST_CHECK_PREVPTR p x sample = Some (true, sample) /\ SLIST_REMOVE_PREVPTR p x sample = Some (tt, m') /\
    slist m' 1 (ys ++ zs) /\ touches sample m' [p].
Proof. exact (slist_prevptr sample 1 [2; 3; 4] sample_slist). Defined.

Lemma sample_stailq : stailq sample 1 [2; 3; 4].
Proof. destruct sample_rep as [H1 H2 H3 H4 _ H5]. by split. Qed.

Lemma invariants_checks_witness : QMD_TAILQ_CHECK_TAIL 1 sample = Some (true, sample).
Proof. exact (proj1 (proj2 (proj2 (invariants_checks true sample 1 [2; 3; 4] sample_stailq))) eq_refl). Defined.

Lemma queue_init_witness : represents KTailq (<[1 := static_head KTailq 1 0]> sample) 1 [].
Proof. exact (proj1 (queue_init KTailq sample 1 0 ltac:(discriminate))). Defined.
End QueueLoops.
