(* ===== verification/QueueDebug.v ===== *)
(** * QueueDebug: the removals of src/inc/sys/queue.h built with QUEUE_MACRO_DEBUG_TRASH

    In such a build the removals save the addresses of the links of the element
    ([QMD_SAVELINK]) and overwrite them at the end ([TRASHIT]).  That must not be visible in
    the structure, and makes the use of a removed element fault. *)

From S2P Require Import Prelude Queue QueueProofs.

Module Export QueueDebug.
Local Open Scope Z_scope.
Local Open Scope mem_scope.

(** [(void * )-1], and the test for it. *)
Definition TRASHED : Z := -1.
Definition QMD_IS_TRASHED (x : Z) : bool := x =? TRASHED.
(** [TRASHIT] of the word 0 and of the word 1 of an element. *)
Definition TRASHIT_link (elm : Z) : M unit := store_link elm TRASHED.
Definition TRASHIT_back (elm : Z) : M unit := store_back elm TRASHED.

Definition SLIST_REMOVE_trash (head elm : Z) : M unit := SLIST_REMOVE head elm >> TRASHIT_link elm.
Definition SLIST_REMOVE_PREVPTR_trash (prevp elm : Z) : M unit := SLIST_REMOVE_PREVPTR prevp elm >> TRASHIT_link elm.
Definition STAILQ_REMOVE_trash (head elm : Z) : M unit := STAILQ_REMOVE head elm >> TRASHIT_link elm.
Definition LIST_REMOVE_trash (elm : Z) : M unit := LIST_REMOVE elm >> TRASHIT_link elm >> TRASHIT_back elm.
Definition TAILQ_REMOVE_trash (head elm : Z) : M unit := TAILQ_REMOVE head elm >> TRASHIT_link elm >> TRASHIT_back elm.

Definition remove_trash (k : kind) (head elm : Z) : M unit :=
  match k with
  | KSList => SLIST_REMOVE_trash head elm
  | KSTailq => STAILQ_REMOVE_trash head elm
  | KList => LIST_REMOVE_trash elm
  | KTailq => TAILQ_REMOVE_trash head elm
  end.
(** The other macros are as in a normal build. *)
Definition run_debug (k : kind) (h : Z) (op : qop) : M unit :=
  match op with Rem e => remove_trash k h e | op => run_op k h op end.

(** What the overwriting does to the memory. *)
Definition trash (bk : bool) (e : Z) (m : mem) : mem :=
  let m := set_link e TRASHED m in if bk then set_back e TRASHED m else m.

Lemma trash_facts bk e m : e ∈ dom m ->
  dom (trash bk e m) = dom m /\ link (trash bk e m) e = TRASHED /\ (bk = true -> back (trash bk e m) e = TRASHED) /\
  forall a, a <> e -> trash bk e m !! a = m !! a.
Proof.
  intros He. unfold trash. destruct bk; split_and!; try done.
  - rewrite dom_set_back, dom_set_link by (try apply in_set_link; done). done.
  - by rewrite link_set_back, link_set_link, decide_True.
  - intros _. by rewrite back_set_back, decide_True.
  - intros a Ha. by rewrite same_set_back, same_set_link.
  - by rewrite dom_set_link.
  - by rewrite link_set_link, decide_True.
  - intros a Ha. by apply same_set_link.
Qed.

(** A structure is where its nodes are: other nodes can change. *)
Lemma rep_elsewhere bk tl m m' h xs : rep bk tl m h xs -> dom m' = dom m -> (forall a, a ∈ h :: xs -> m' !! a = m !! a) -> rep bk tl m' h xs.
Proof.
  intros [Hnd Hdom Hnull Hseg Hbk Htl] Hd Hs.
  assert (forall a, a ∈ h :: xs -> link m' a = link m a /\ back m' a = back m a) as Hlb by (intros a Ha; unfold link, back; by rewrite Hs).
  split; [done|by rewrite Hd|done|..].
  - eapply lseg_frame; [|exact Hseg]. intros a Ha. by apply Hlb.
  - intros E. eapply backs_frame; [|by apply Hbk]. intros a Ha. apply Hlb. by right.
  - intros E. rewrite <- (Htl E). apply Hlb, list_elem_of_here.
Qed.

Lemma remove_trash_run k h e m m1 : run_op k h (Rem e) m = Some (tt, m1) -> e ∈ dom m1 -> remove_trash k h e m = Some (tt, trash (has_backs k) e m1).
Proof.
  intros E He. destruct k; cbn [remove_trash run_op run_slist run_stailq run_list run_tailq has_backs] in *; unfold trash, SLIST_REMOVE_trash, STAILQ_REMOVE_trash,
    LIST_REMOVE_trash, TAILQ_REMOVE_trash, TRASHIT_link, TRASHIT_back; rewrite (mseq_run _ _ _ _ _ E); run_mem; done.
Qed.

(** A removed element is no longer a node of the structure. *)
Lemma removed_out bk tl m h ys e zs : rep bk tl m h (ys ++ e :: zs) -> e ∉ h :: ys ++ zs.
Proof. intros [Hnd _ _ _ _ _]. rewrite <- Permutation_middle in Hnd. apply NoDup_cons in Hnd as [Hh [He _]%NoDup_cons]. set_solver. Qed.

Lemma remove_trash_done k m h ys e zs : represents k m h (ys ++ e :: zs) ->
  exists m', remove_trash k h e m = Some (tt, m') /\ represents k m' h (ys ++ zs) /\ touches m m' (h :: ys ++ e :: zs) /\
    link m' e = TRASHED /\ (has_backs k = true -> back m' e = TRASHED).
Proof.
  intros Hr. pose proof (r_dom _ _ _ _ _ Hr e ltac:(set_solver)) as He.
  destruct (kind_implements k m h _ (Rem e) (ys ++ zs) Hr (s_rem ys e zs) eq_refl (Forall_nil_2 _)) as (m1 & E1 & R1 & [D1 T1]). cbn [inserted app] in T1.
  destruct (trash_facts (has_backs k) e m1) as (D2 & Hl & Hb & T2); [by rewrite D1|]. pose proof (removed_out _ _ _ _ _ _ _ Hr) as Hout.
  exists (trash (has_backs k) e m1). split_and!; [apply remove_trash_run; [done|by rewrite D1]| | |done|done].
  - apply (rep_elsewhere _ _ m1); [done|done|]. intros a Ha. apply T2. congruence.
  - split; [congruence|]. intros a Ha. rewrite T2 by set_solver. by apply T1.
Qed.

(** A series of operations adds only what it inserts. *)
Lemma qspecs_elems ops xs ys : qspecs ops xs ys -> ys ⊆ all_inserted ops ++ xs.
Proof.
  induction 1 as [|op ops xs ys zs Hop _ IH]; [set_solver|]. apply qspec_elems in Hop. unfold all_inserted in *. cbn [map concat]. set_solver.
Qed.

Lemma debug_implements k : implements (has_backs k) (has_tail k) (run_debug k).
Proof.
  intros m h xs op xs' Hr Hs Ho Hu. destruct op as [e|e|l e|l e| |l|e]; try (by apply kind_implements).
  inversion Hs as [| | | | | |ys e' zs]; subst. cbn [run_debug inserted app]. destruct (remove_trash_done k m h ys e zs Hr) as (m' & ? & ? & ? & _). eauto.
Qed.

(** The first access through an overwritten link. *)
Lemma trashed_faults m v : TRASHED ∉ dom m -> store_back TRASHED v m = None.
Proof. intros H. unfold store_back, guarded. by rewrite decide_False. Qed.
Lemma remove_again k h e m : has_backs k = true -> e ∈ dom m -> link m e = TRASHED -> back m e = TRASHED -> TRASHED ∉ dom m -> remove_trash k h e m = None.
Proof.
  intros Hk He Hl Hb Ht. destruct k; try done; cbn [remove_trash]; unfold LIST_REMOVE_trash, TAILQ_REMOVE_trash, LIST_REMOVE, TAILQ_REMOVE; run_mem;
    rewrite Hl, decide_False by done; run_mem; unfold mseq at 1; by rewrite trashed_faults.
Qed.

(** In a build that overwrites the links of removed elements every series of operations still implements the series
    on the sequence; a removed element has its links overwritten, and removing it from a list or tail queue a second time, before it is
    inserted again, faults instead of corrupting the structure (address -1 is not an object). *)
Theorem queue_refines_debug (k : kind) (ops : list qop) (m : mem) (h : Z) (xs ys zs : list Z) (e : Z) :
  represents k m h xs -> qspecs ops xs (ys ++ e :: zs) ->
  Forall (fun op => has_op (has_backs k) (has_tail k) op = true) ops -> Forall (usable m h) (all_inserted ops) -> TRASHED ∉ dom m ->
  exists m1 m2, run_series (run_debug k) h ops m = Some (tt, m1) /\ represents k m1 h (ys ++ e :: zs) /\
    remove_trash k h e m1 = Some (tt, m2) /\ represents k m2 h (ys ++ zs) /\ touches m m2 (all_inserted ops ++ h :: xs) /\
    QMD_IS_TRASHED (link m2 e) = true /\ (has_backs k = true -> QMD_IS_TRASHED (back m2 e) = true /\ remove_trash k h e m2 = None).
Proof.
  intros Hr Hs Ho Hu Ht. destruct (series_implements _ _ _ ops m h xs _ (debug_implements k) Hr Hs Ho Hu) as (m1 & E1 & R1 & T1).
  destruct (remove_trash_done k m1 h ys e zs R1) as (m2 & E2 & R2 & T2 & Hl & Hb). pose proof (r_dom _ _ _ _ _ R1 e ltac:(set_solver)) as He.
  assert (dom m2 = dom m) as D by (destruct T1, T2; congruence). exists m1, m2. split_and!; [done..| |by rewrite Hl|].
  - eapply touches_trans; [exact T1|eapply touches_weaken; [exact T2|]|done]. pose proof (qspecs_elems _ _ _ Hs) as Hsub. intros a [->|Ha]%elem_of_cons; [apply elem_of_app; right; apply list_elem_of_here|].
    assert (a ∈ all_inserted ops ++ xs) as [?|?]%elem_of_app by (by apply Hsub); apply elem_of_app; [by left|right; by right].
  - intros Hk. rewrite (Hb Hk). split; [done|]. apply remove_again; [done|by rewrite (proj1 T2)|done|by apply Hb|by rewrite D].
Qed.

(** The queue 2, 3, 4 with head 1: 9 is inserted, then 3 is removed, and removed again. *)
Lemma queue_refines_debug_witness : exists m1 m2, remove_trash KTailq 1 3 m1 = Some (tt, m2) /\ represents KTailq m2 1 [2; 4; 9] /\ remove_trash KTailq 1 3 m2 = None.
Proof.
  destruct (queue_refines_debug KTailq [InsTail 9] sample 1 [2; 3; 4] [2] [4; 9] 3) as (m1 & m2 & _ & _ & E & R & _ & _ & H).
  - exact sample_rep.
  - eapply qs_cons; [apply (s_tail 9 [2; 3; 4])|apply qs_nil]. by apply (bool_decide_unpack _).
  - repeat constructor.
  - repeat constructor; by apply (bool_decide_unpack _).
  - by apply (bool_decide_unpack _).
  - exists m1, m2. split_and!; [exact E|exact R|apply H; reflexivity].
Defined.
End QueueDebug.
