(* ===== verification/UnitTests.v ===== *)
(** * UnitTests: assertions of the unit tests evaluated on the model (src/test/unit)

    The tests of the repository that need nothing but the functions and the simple systems of
    the other files: those of error_ut.c (but for the Winsock error), strings_ut.c and
    uuid_ut.c (but for the generated identifiers).  A test is the conjunction of its
    assertions, in order; each call runs from the state the test sets up for it. *)

From S2P Require Import Prelude Errno CString PathMap Proc Clock Semaphore Pthread Timed Strings_c Uuid.
From Stdlib Require Import Ascii.

Module UnitTests.
Local Open Scope Z_scope.
Import TimedSim.

Abbreviation sys := (ksys w).
Definition start : sys := Ksys 0 0 (World (unix_epoch + 17000000000000000) ∅ 0).

(** A call that fails with [e]: [rc == -1 && errno == e]. *)
Definition fails (r : Z * sys) (e : Z) : bool := (fst r =? -1) && (errno (snd r) =? e).

(** ** error_ut.c *)

Definition posix_error : bool :=
  fails (wpdk_posix_error EINTR start) EINTR && fails (wpdk_posix_error (-1) start) (-1).
Definition convert_to_posix : bool :=
  (wpdk_convert_to_posix WSAEINTR =? EINTR) && (wpdk_convert_to_posix WSAEACCES =? EACCES) &&
  (wpdk_convert_to_posix 1909 =? EINVAL) && (wpdk_convert_to_posix 0 =? 0) && (wpdk_convert_to_posix (-1) =? EINVAL).
Definition windows_error : bool :=
  fails (wpdk_windows_error WSAEINTR start) EINTR && fails (wpdk_windows_error ERROR_FILE_NOT_FOUND start) ENOENT &&
  fails (wpdk_windows_error (-1) start) EINVAL.
Definition with_error (e : Z) : sys := Ksys 0 0 (World 0 ∅ e).
Definition last_error : bool :=
  fails (wpdk_last_error (with_error ERROR_FILE_NOT_FOUND)) ENOENT && fails (wpdk_last_error (with_error (2 ^ 32 - 1))) EINVAL.

(** ** strings_ut.c *)

Definition s1 := Some (lit "hello").
Definition s2 := Some (lit "world").
Definition s3 := Some (lit "HeLLO").
Definition s4 := Some (lit "hELlo-WOrld").
Definition casecmp a b : Z := fst (wpdk_strcasecmp a b start).
Definition ncasecmp a b n : Z := fst (wpdk_strncasecmp a b n start).
Definition test_strcasecmp : bool := (casecmp s1 s2 <? 0) && (0 <? casecmp s2 s1) && (casecmp s1 s3 =? 0) && (casecmp s1 s4 <? 0).
Definition test_strncasecmp : bool :=
  (ncasecmp s1 s2 3 <? 0) && (ncasecmp s1 s1 4 =? 0) && (ncasecmp s1 s3 4 =? 0) && (ncasecmp s1 s4 5 =? 0).
(** The result as an offset, [None] for NULL. *)
Definition found (needle : option cstr) (r : option nat) : bool := bool_decide (wpdk_strcasestr s4 needle = r).
Definition test_strcasestr : bool :=
  found (Some (lit "lo-W")) (Some 3%nat) && found (Some (lit "lo-w")) (Some 3%nat) && found (Some (lit "HELLO")) (Some 0%nat) &&
  found (Some (lit "WORLD")) (Some 6%nat) && found None None && found (Some []) (Some 0%nat).

(** ** uuid_ut.c *)

Definition fill : list Z := [0x00; 0x11; 0x22; 0x33; 0x44; 0x55; 0x66; 0x77; 0x88; 0x99; 0xaa; 0xbb; 0xcc; 0xdd; 0xee; 0xff].
Definition var2 : list Z := [0x22; 0x22; 0x11; 0x00; 0x55; 0x44; 0x77; 0x66; 0xc8; 0x99; 0xaa; 0xbb; 0xcc; 0xdd; 0xee; 0xff].
Definition zero : list Z := replicate 16 0.
Definition ones : list Z := replicate 16 0xff.
Definition test_uuid_clear : bool := bool_decide (wpdk_uuid_clear = zero).
Definition test_uuid_copy : bool := bool_decide (wpdk_uuid_copy ones = ones) && bool_decide (wpdk_uuid_copy fill = fill).
Definition test_uuid_is_null : bool := negb (wpdk_uuid_is_null ones) && wpdk_uuid_is_null zero && negb (wpdk_uuid_is_null fill).
Definition test_uuid_compare : bool :=
  negb (wpdk_uuid_compare ones zero =? 0) && (wpdk_uuid_compare ones zero =? 1) && (wpdk_uuid_compare zero ones =? -1) &&
  (wpdk_uuid_compare zero zero =? 0) && (wpdk_uuid_compare fill zero =? 1) && (wpdk_uuid_compare fill var2 =? 1).
Definition parses (s : string) (u : list Z) : bool :=
  let '(rc, v) := @wpdk_uuid_parse SimpleRuntime.runtime (lit s) ones in (rc =? 0) && (wpdk_uuid_compare u v =? 0).
Definition test_uuid_parse : bool :=
  parses "00000000-0000-0000-0000-000000000000" zero && parses "00112233-4455-6677-8899-AABBCCDDEEFF" fill &&
  parses "00112222-4455-6677-C899-AABBCCDDEEFF" var2.
Definition test_uuid_unparse : bool :=
  (stricmp (wpdk_uuid_unparse zero) (lit "00000000-0000-0000-0000-000000000000") =? 0) &&
  (stricmp (wpdk_uuid_unparse fill) (lit "00112233-4455-6677-8899-AABBCCDDEEFF") =? 0) &&
  (stricmp (wpdk_uuid_unparse var2) (lit "00112222-4455-6677-C899-AABBCCDDEEFF") =? 0).
Definition test_uuid_unparse_upper : bool :=
  eqs (wpdk_uuid_unparse_upper zero) (lit "00000000-0000-0000-0000-000000000000") &&
  eqs (wpdk_uuid_unparse_upper fill) (lit "00112233-4455-6677-8899-AABBCCDDEEFF") &&
  eqs (wpdk_uuid_unparse_upper var2) (lit "00112222-4455-6677-C899-AABBCCDDEEFF").
Definition test_uuid_unparse_lower : bool :=
  eqs (wpdk_uuid_unparse_lower zero) (lit "00000000-0000-0000-0000-000000000000") &&
  eqs (wpdk_uuid_unparse_lower fill) (lit "00112233-4455-6677-8899-aabbccddeeff") &&
  eqs (wpdk_uuid_unparse_lower var2) (lit "00112222-4455-6677-c899-aabbccddeeff").

(** ** The tests pass *)

Example error_ut_passes : posix_error && convert_to_posix && windows_error && last_error = true.
Proof. vm_compute; reflexivity. Qed.
Example strings_ut_passes : test_strcasecmp && test_strncasecmp && test_strcasestr = true.
Proof. vm_compute; reflexivity. Qed.
Example uuid_values_pass : test_uuid_clear && test_uuid_copy && test_uuid_is_null && test_uuid_compare = true.
Proof. vm_compute; reflexivity. Qed.
Example uuid_text_passes :
  test_uuid_parse && test_uuid_unparse && test_uuid_unparse_upper && test_uuid_unparse_lower = true.
Proof. vm_compute; reflexivity. Qed.
End UnitTests.
